(** * ModemMonitor: the EEPROM outage log (EEPROMRecordClass)

    A shallow embedding of [EEPROMRecordClass.cpp] / [EEPROMRecordClass.h]:
    the circular list of 8-byte outage records kept in the on-board EEPROM
    of an Arduino Uno, its scans, its append protocol and its codec.

    Conventions of the embedding.
    - The EEPROM is a [list Z] of cells (each a [uint8_t]); [EEPROM.length()]
      is the length of that list.
    - [int], [unsigned int] and [short] values are modelled in [Z].  On the
      target (ATmega328P, 16-bit [int], 1024 bytes of EEPROM) every index the
      class computes stays below [EEPROM.length() + 8], far from the 16-bit
      limits, so no wrap-around of the index arithmetic is involved.  The
      32-bit and 16-bit arithmetic of the codec is written out.
    - Member functions are computations in a state monad over the object
      ([_modemRecordIndex], [EEPROMBlock]) and the device; every
      [EEPROM.get] and [EEPROM.update] of a cell is recorded, in order, in
      a trace.
    - [while] loops take fuel, and a computation that runs out of fuel has
      no result; the theorems show that every member function returns once
      the fuel exceeds the device length by two.

    After the class come the calendar arithmetic of [NTPClass.cpp]
    ([getYMD], [getYMDHMS], [adjustForDST]; module [NTP]) and the parts of
    the sketch [ModemMonitor.ino] that use the log: the one-second timer
    interrupt, [dumpEEPROM], [dumpOutageRecord] and the serial commands
    (module [Sketch]).
    - The fixed-width unsigned arithmetic of the calendar is written out
      with [uint8], [uint16] and [uint32]; a read past the end of a table
      is an outcome of its own, as is a [sprintf] past the end of its
      buffer.
    - The sketch runs in a monad over its globals that keeps the state
      reached when a computation fails; the serial port is the list of
      characters waiting and the text printed so far. *)

From Stdlib Require Import ZArith Lia List Bool.
From Stdlib Require Import Ascii String.
From stdpp Require Import base tactics option list strings.

Local Open Scope Z_scope.

(** ** Constants of [EEPROMRecordClass.h] *)

Definition MODEM_RECORD_COMPLETE : Z := 0x01.
Definition MODEM_RECORD_IN_PROGRESS : Z := 0x02.
Definition MODEM_RECORD_UNUSED : Z := 0xFF.

(** [struct EEPROMRecord_t]: eight [uint8_t] fields, in this order. *)
Record EEPROMRecord_t : Type := mkEEPROMRecord {
  secsSince1900_4 : Z;
  secsSince1900_3 : Z;
  secsSince1900_2 : Z;
  secsSince1900_1 : Z;
  downMins2 : Z;
  downMins1 : Z;
  spare : Z;
  flags : Z
}.

Definition sizeof_EEPROMRecord_t : Z := 8.

(** [struct modemRecord_t] of [ModemMonitor.h]. *)
Record modemRecord_t : Type := mkModemRecord {
  secsSince1900 : Z;   (* uint32_t *)
  downMins : Z;        (* uint16_t *)
  waitSecs : Z         (* uint16_t *)
}.

(** ** The device *)

(** One cell of the EEPROM at address [a].  What a read outside the device
    yields is a matter of the hardware, not of the class; the model reads
    an erased cell there.  The theorems below are about devices whose
    length is a multiple of the record size and about slot-aligned indices,
    where every address the class computes is a cell of a slot. *)
Definition peek (mem : list Z) (a : Z) : Z :=
  if 0 <=? a then default MODEM_RECORD_UNUSED (mem !! Z.to_nat a)
  else MODEM_RECORD_UNUSED.

(** [EEPROM.update]'s effect on the cells (a write outside the device is
    dropped). *)
Definition poke (mem : list Z) (a v : Z) : list Z :=
  if 0 <=? a then <[Z.to_nat a := v]> mem else mem.

Inductive event : Type :=
| EvGet (a : Z)              (* EEPROM.get of the cell at [a] *)
| EvUpdate (a : Z) (v : Z).  (* EEPROM.update(a, v) *)

(** The object together with the device it drives. *)
Record store : Type := mkStore {
  EEPROM : list Z;
  _modemRecordIndex : Z;
  EEPROMBlock : EEPROMRecord_t;
  trace : list event
}.

(** ** The monad of member functions *)

Definition M (A : Type) : Type := store -> option (A * store).

#[global] Instance M_ret : MRet M := fun A a s => Some (a, s).
#[global] Instance M_bind : MBind M := fun A B f m s =>
  match m s with
  | Some (a, s') => f a s'
  | None => None
  end.

Definition EEPROM_length : M Z :=
  fun s => Some (Z.of_nat (length (EEPROM s)), s).

Definition EEPROM_get (a : Z) : M Z :=
  fun s => Some (peek (EEPROM s) a,
                 mkStore (EEPROM s) (_modemRecordIndex s) (EEPROMBlock s)
                         (trace s ++ [EvGet a])).

Definition EEPROM_update (a v : Z) : M unit :=
  fun s => Some (tt,
                 mkStore (poke (EEPROM s) a v) (_modemRecordIndex s)
                         (EEPROMBlock s) (trace s ++ [EvUpdate a v])).

Definition get_index : M Z := fun s => Some (_modemRecordIndex s, s).

Definition set_index (i : Z) : M unit :=
  fun s => Some (tt, mkStore (EEPROM s) i (EEPROMBlock s) (trace s)).

Definition get_block : M EEPROMRecord_t := fun s => Some (EEPROMBlock s, s).

Definition set_block (b : EEPROMRecord_t) : M unit :=
  fun s => Some (tt, mkStore (EEPROM s) (_modemRecordIndex s) b (trace s)).

(** [while (cond) body]: the body either falls through with new locals
    ([inl]) or executes a [return] ([inr]). *)
Fixpoint while {L R : Type} (fuel : nat) (cond : L -> store -> bool)
    (body : L -> M (L + R)) (l : L) : M (L + R) :=
  match fuel with
  | O => fun _ => None
  | S fuel' => fun s =>
      if cond l s then
        match body l s with
        | Some (inl l', s') => while fuel' cond body l' s'
        | Some (inr r, s') => Some (inr r, s')
        | None => None
        end
      else Some (inl l, s)
  end.

Definition neqb (a b : Z) : bool := negb (a =? b).

(** ** Scans *)

(** [getIndexOfNextCompletedRecord]. *)
Definition getIndexOfNextCompletedRecord : M Z :=
  idx ← get_index;
  let i := idx + sizeof_EEPROMRecord_t in
  len ← EEPROM_length;
  let i := if i >=? len then 0 else i in
  flags ← EEPROM_get (i + 7);
  if flags =? MODEM_RECORD_COMPLETE then
    set_index i;;
    idx ← get_index;
    mret idx
  else mret (-1).

(** [getIndexOfPrevCompletedRecord]. *)
Definition getIndexOfPrevCompletedRecord : M Z :=
  idx ← get_index;
  let i := idx - sizeof_EEPROMRecord_t in
  len ← EEPROM_length;
  let i := if i <? 0 then i + len else i in
  flags ← EEPROM_get (i + 7);
  if flags =? MODEM_RECORD_COMPLETE then
    set_index i;;
    idx ← get_index;
    mret idx
  else mret (-1).

(** [getNextCompletedRecord]. *)
Definition getNextCompletedRecord : M Z :=
  i ← getIndexOfNextCompletedRecord;
  if i <? 0 then mret (-1)
  else
    flags ← EEPROM_get (i + 7);
    if flags =? MODEM_RECORD_COMPLETE then
      set_index i;;
      idx ← get_index;
      mret idx
    else mret (-1).

(** [getRecordInProgress]. *)
Definition getRecordInProgress (fuel : nat) : M Z :=
  let count := 0 in
  len ← EEPROM_length;
  let numRecords := len / sizeof_EEPROMRecord_t in
  let i := 0 in
  flags ← EEPROM_get (i + 7);
  r ← while fuel
        (fun '(i, flags, count) _ =>
           neqb flags MODEM_RECORD_IN_PROGRESS && (count <=? numRecords))
        (fun '(i, flags, count) =>
           set_index i;;
           idx ← get_index;
           let i := idx + sizeof_EEPROMRecord_t in
           len ← EEPROM_length;
           let i := if i >=? len then i - len else i in
           flags ← EEPROM_get (i + 7);
           mret (inl (i, flags, count + 1)))
        (i, flags, count);
  match r with
  | inr v => mret v
  | inl (i, flags, count) =>
      if count >? numRecords then mret (-1)
      else
        set_index i;;
        idx ← get_index;
        mret idx
  end.

(** [getOldestCompletedRecord].  The local [count] is declared without an
    initialiser and is first assigned after the first loop; [count0] is the
    indeterminate value it holds until then. *)
Definition getOldestCompletedRecord (count0 : Z) (fuel : nat) : M Z :=
  let count := count0 in
  len ← EEPROM_length;
  let numRecords := len / sizeof_EEPROMRecord_t in
  let i := 0 in
  flags ← EEPROM_get (i + 7);
  r ← while fuel
        (fun '(i, flags) _ =>
           neqb flags MODEM_RECORD_IN_PROGRESS && (count <=? numRecords))
        (fun '(i, flags) =>
           set_index i;;
           let i := i + sizeof_EEPROMRecord_t in
           len ← EEPROM_length;
           if i + 7 >=? len then mret (inr (-1))
           else
             flags ← EEPROM_get (i + 7);
             mret (inl (i, flags)))
        (i, flags);
  match r with
  | inr v => mret v
  | inl (i, flags) =>
      if count >? numRecords then mret (-1)
      else
        let count := 1 in
        r ← while fuel
              (fun '(i, flags, count) _ =>
                 (count <=? numRecords) && neqb flags MODEM_RECORD_COMPLETE)
              (fun '(i, flags, count) =>
                 let i := i + sizeof_EEPROMRecord_t in
                 len ← EEPROM_length;
                 let i := if i >=? len then 0 else i in
                 flags ← EEPROM_get (i + 7);
                 mret (inl (i, flags, count + 1)))
              (i, flags, count);
        match r with
        | inr v => mret v
        | inl (i, flags, count) =>
            if count <=? numRecords then
              set_index i;;
              idx ← get_index;
              mret idx
            else mret (-1)
        end
  end.

(** [getNewestCompletedRecord].  The second loop re-reads its flag from
    offset 1 of the slot, as the source does. *)
Definition getNewestCompletedRecord (fuel : nat) : M Z :=
  let count := 0 in
  len ← EEPROM_length;
  let numRecords := len / sizeof_EEPROMRecord_t in
  let i := 0 in
  flags ← EEPROM_get (i + 7);
  r ← while fuel
        (fun '(i, flags, count) _ =>
           neqb flags MODEM_RECORD_COMPLETE && (count <=? numRecords))
        (fun '(i, flags, count) =>
           set_index i;;
           i ← getIndexOfNextCompletedRecord;
           if i <? 0 then idx ← get_index; mret (inr idx)
           else
             flags ← EEPROM_get (i + 7);
             mret (inl (i, flags, count + 1)))
        (i, flags, count);
  match r with
  | inr v => mret v
  | inl (i, flags, count) =>
      if count >? numRecords then mret (-1)
      else
        let count := 0 in
        r ← while fuel
              (fun '(i, flags, count) _ =>
                 (count <=? numRecords) && (flags =? MODEM_RECORD_COMPLETE))
              (fun '(i, flags, count) =>
                 set_index i;;
                 i ← getIndexOfNextCompletedRecord;
                 if i <? 0 then idx ← get_index; mret (inr idx)
                 else
                   flags ← EEPROM_get (i + 1);
                   mret (inl (i, flags, count + 1)))
              (i, flags, count);
        match r with
        | inr v => mret v
        | inl _ => idx ← get_index; mret idx
        end
  end.

(** ** Reading a record and the codec *)

(** [getDataFromIndex(ind)]: [EEPROM.get(ind, EEPROMBlock)] reads the eight
    cells of the struct. *)
Definition getDataFromIndex_at (ind : Z) : M Z :=
  b0 ← EEPROM_get ind;
  b1 ← EEPROM_get (ind + 1);
  b2 ← EEPROM_get (ind + 2);
  b3 ← EEPROM_get (ind + 3);
  b4 ← EEPROM_get (ind + 4);
  b5 ← EEPROM_get (ind + 5);
  b6 ← EEPROM_get (ind + 6);
  b7 ← EEPROM_get (ind + 7);
  set_block (mkEEPROMRecord b0 b1 b2 b3 b4 b5 b6 b7);;
  mret 0.

(** The overloaded [getDataFromIndex()]. *)
Definition getDataFromIndex : M Z :=
  idx ← get_index;
  getDataFromIndex_at idx;;
  mret 0.

(** [convertToEEPROMBlock(src)]. *)
Definition convertToEEPROMBlock (src : modemRecord_t) : M Z :=
  b ← get_block;
  set_block
    (mkEEPROMRecord
       (Z.land (Z.shiftr (secsSince1900 src) 24) 0xff)
       (Z.land (Z.shiftr (secsSince1900 src) 16) 0xff)
       (Z.land (Z.shiftr (secsSince1900 src) 8) 0xff)
       (Z.land (secsSince1900 src) 0xff)
       (Z.land (Z.shiftr (downMins src) 8) 0xff)
       (Z.land (downMins src) 0xff)
       (spare b)
       MODEM_RECORD_COMPLETE);;
  mret 0.

(** [convertFromEEPROMBlock(dst)]: the sums are taken in [uint32_t] and in
    [uint16_t]; [dst->waitSecs] is not touched.  The updated [*dst] is
    returned. *)
Definition convertFromEEPROMBlock (dst : modemRecord_t) : M modemRecord_t :=
  b ← get_block;
  mret
    (mkModemRecord
       ((Z.shiftl (secsSince1900_4 b) 24 + Z.shiftl (secsSince1900_3 b) 16
         + Z.shiftl (secsSince1900_2 b) 8 + secsSince1900_1 b) mod 2 ^ 32)
       ((Z.shiftl (downMins2 b) 8 + downMins1 b) mod 2 ^ 16)
       (waitSecs dst)).

(** ** Append, checkpoint and reset *)

(** [completeLogEntry].  [_modemRecordIndex] is an [unsigned int]: the test
    [_modemRecordIndex < 0] is written as in the source and never succeeds
    on a non-negative index. *)
Definition completeLogEntry (fuel : nat) : M unit :=
  getRecordInProgress fuel;;
  idx ← get_index;
  (if idx <? 0 then set_index 0 else mret tt);;
  idx ← get_index; b ← get_block; EEPROM_update idx (secsSince1900_4 b);;
  idx ← get_index; b ← get_block; EEPROM_update (idx + 1) (secsSince1900_3 b);;
  idx ← get_index; b ← get_block; EEPROM_update (idx + 2) (secsSince1900_2 b);;
  idx ← get_index; b ← get_block; EEPROM_update (idx + 3) (secsSince1900_1 b);;
  idx ← get_index; b ← get_block; EEPROM_update (idx + 4) (downMins2 b);;
  idx ← get_index; b ← get_block; EEPROM_update (idx + 5) (downMins1 b);;
  idx ← get_index; EEPROM_update (idx + 7) MODEM_RECORD_COMPLETE;;
  idx ← get_index;
  set_index (idx + sizeof_EEPROMRecord_t);;
  idx ← get_index; len ← EEPROM_length;
  (if idx >=? len then set_index (idx - len) else mret tt);;
  idx ← get_index; b ← get_block; EEPROM_update idx (secsSince1900_4 b);;
  idx ← get_index; b ← get_block; EEPROM_update (idx + 1) (secsSince1900_3 b);;
  idx ← get_index; b ← get_block; EEPROM_update (idx + 2) (secsSince1900_2 b);;
  idx ← get_index; b ← get_block; EEPROM_update (idx + 3) (secsSince1900_1 b);;
  idx ← get_index; EEPROM_update (idx + 4) 0;;
  idx ← get_index; EEPROM_update (idx + 5) 0;;
  idx ← get_index; EEPROM_update (idx + 7) MODEM_RECORD_IN_PROGRESS;;
  mret tt.

(** [clearLog]. *)
Definition clearLog (fuel : nat) : M Z :=
  r ← while (R := Z) fuel
        (fun i s => i <? Z.of_nat (length (EEPROM s)))
        (fun i => EEPROM_update i MODEM_RECORD_UNUSED;; mret (inl (i + 1)))
        0;
  match r with
  | inr v => mret v
  | inl _ =>
      idx ← get_index; b ← get_block; EEPROM_update idx (secsSince1900_4 b);;
      idx ← get_index; b ← get_block; EEPROM_update (idx + 1) (secsSince1900_3 b);;
      idx ← get_index; b ← get_block; EEPROM_update (idx + 2) (secsSince1900_2 b);;
      idx ← get_index; b ← get_block; EEPROM_update (idx + 3) (secsSince1900_1 b);;
      idx ← get_index; b ← get_block; EEPROM_update (idx + 4) (downMins2 b);;
      idx ← get_index; b ← get_block; EEPROM_update (idx + 5) (downMins1 b);;
      idx ← get_index; EEPROM_update (idx + 7) MODEM_RECORD_IN_PROGRESS;;
      mret 0
  end.

(** [setEEPROMUptimeStats]. *)
Definition setEEPROMUptimeStats (fuel : nat) : M unit :=
  EEPROMlength ← EEPROM_length;
  set_index 0;;
  idx ← get_index;
  flags ← EEPROM_get (idx + 7);
  r ← while (R := unit) fuel
        (fun flags s =>
           neqb flags MODEM_RECORD_IN_PROGRESS
           && (_modemRecordIndex s + 7 <? EEPROMlength))
        (fun flags =>
           idx ← get_index;
           set_index (idx + sizeof_EEPROMRecord_t);;
           idx ← get_index;
           if idx + 7 <? EEPROMlength then
             flags ← EEPROM_get (idx + 7);
             mret (inl flags)
           else mret (inl flags))
        flags;
  match r with
  | inr v => mret v
  | inl flags =>
      (if neqb flags MODEM_RECORD_IN_PROGRESS then set_index 0 else mret tt);;
      idx ← get_index; b ← get_block; EEPROM_update idx (secsSince1900_4 b);;
      idx ← get_index; b ← get_block; EEPROM_update (idx + 1) (secsSince1900_3 b);;
      idx ← get_index; b ← get_block; EEPROM_update (idx + 2) (secsSince1900_2 b);;
      idx ← get_index; b ← get_block; EEPROM_update (idx + 3) (secsSince1900_1 b);;
      idx ← get_index; b ← get_block; EEPROM_update (idx + 4) (downMins2 b);;
      idx ← get_index; b ← get_block; EEPROM_update (idx + 5) (downMins1 b);;
      idx ← get_index; EEPROM_update (idx + 7) MODEM_RECORD_IN_PROGRESS;;
      mret tt
  end.

(** [getEEPROMUptimeStats]. *)
Definition getEEPROMUptimeStats (fuel : nat) : M Z :=
  EEPROMlength ← EEPROM_length;
  r ← while (L := Z * bool) (R := Z) fuel
        (fun '(i, found) _ => (i + 7 <? EEPROMlength) && negb found)
        (fun '(i, found) =>
           flags ← EEPROM_get (i + 7);
           if flags =? MODEM_RECORD_IN_PROGRESS then mret (inl (i, true))
           else mret (inl (i + sizeof_EEPROMRecord_t, found)))
        (0, false);
  match r with
  | inr v => mret v
  | inl (i, found) =>
      if found : bool then getDataFromIndex_at i;; mret 0
      else
        b ← get_block;
        set_block (mkEEPROMRecord 0 0 0 0 0 0 (spare b)
                     MODEM_RECORD_IN_PROGRESS);;
        mret 0
  end.

(** The constructor. *)
Definition EEPROMRecordClass_ctor (fuel : nat) : M unit :=
  getNewestCompletedRecord fuel;; mret tt.

(** ** Geometry of the ring and what the flags say *)

Definition EEPROM_len (mem : list Z) : Z := Z.of_nat (length mem).

(** [numRecords = EEPROM.length() / sizeof(EEPROMRecord_t)]. *)
Definition numRecords (mem : list Z) : Z := EEPROM_len mem / sizeof_EEPROMRecord_t.

(** The device length is a positive multiple of the record size. *)
Definition well_sized (mem : list Z) : bool :=
  (0 <? EEPROM_len mem) && (EEPROM_len mem mod sizeof_EEPROMRecord_t =? 0).

(** [i] is the byte index of a slot of the device. *)
Definition slot_index (mem : list Z) (i : Z) : bool :=
  (0 <=? i) && (i <? EEPROM_len mem) && (i mod sizeof_EEPROMRecord_t =? 0).

(** The flags byte of slot [j]. *)
Definition slot_flag (mem : list Z) (j : Z) : Z := peek mem (8 * j + 7).

(** The slot numbers [0 .. numRecords-1]. *)
Definition slot_numbers (mem : list Z) : list Z :=
  map Z.of_nat (seq 0 (Z.to_nat (numRecords mem))).

(** No slot carries the flag [f]. *)
Definition no_slot_flagged (f : Z) (mem : list Z) : bool :=
  forallb (fun j => neqb (slot_flag mem j) f) (slot_numbers mem).

(** At most one slot carries the flag [f]. *)
Definition at_most_one_flagged (f : Z) (mem : list Z) : bool :=
  forallb (fun j1 =>
    forallb (fun j2 =>
      implb ((slot_flag mem j1 =? f) && (slot_flag mem j2 =? f)) (j1 =? j2))
      (slot_numbers mem))
    (slot_numbers mem).

(** The slot at index [i] holds the payload of [b] and the flag [f]. *)
Definition slot_holds (mem : list Z) (i : Z) (b : EEPROMRecord_t) (f : Z) : bool :=
  (peek mem i =? secsSince1900_4 b) && (peek mem (i + 1) =? secsSince1900_3 b)
  && (peek mem (i + 2) =? secsSince1900_2 b)
  && (peek mem (i + 3) =? secsSince1900_1 b)
  && (peek mem (i + 4) =? downMins2 b) && (peek mem (i + 5) =? downMins1 b)
  && (peek mem (i + 7) =? f).

(** The slot after slot [j] in a ring of [N] slots. *)
Definition next_slot (N j : Z) : Z := if j + 1 <? N then j + 1 else 0.

(** The index one slot after [_modemRecordIndex], as
    [getIndexOfNextCompletedRecord] computes it. *)
Definition next_index (s : store) : Z :=
  let i := _modemRecordIndex s + sizeof_EEPROMRecord_t in
  if i >=? EEPROM_len (EEPROM s) then 0 else i.

(** ** Traces and the order of the cell writes *)

(** The [EEPROM.update] calls of a trace, in order. *)
Fixpoint updates (t : list event) : list (Z * Z) :=
  match t with
  | [] => []
  | EvGet _ :: t' => updates t'
  | EvUpdate a v :: t' => (a, v) :: updates t'
  end.

(** Number of cells read ([EEPROM.get] of one byte) in a trace. *)
Fixpoint probes (t : list event) : Z :=
  match t with
  | [] => 0
  | EvGet _ :: t' => 1 + probes t'
  | EvUpdate _ _ :: t' => probes t'
  end.

(** [w] writes COMPLETE or IN_PROGRESS into the flags byte (offset 7) of a
    slot. *)
Definition is_flag_write (w : Z * Z) : bool :=
  (fst w mod 8 =? 7)
  && ((snd w =? MODEM_RECORD_COMPLETE) || (snd w =? MODEM_RECORD_IN_PROGRESS)).

(** [w] writes a payload byte (offsets 0 to 5) of the slot that contains
    the address [a]. *)
Definition is_payload_write_of (a : Z) (w : Z * Z) : bool :=
  (fst w / 8 =? a / 8) && (fst w mod 8 <=? 5).

(** In the list of cell writes [ws], no write of a slot's flags byte (to
    COMPLETE or IN_PROGRESS) is followed by a write to a payload byte of
    the same slot: every such flag write comes after all the payload writes
    to its slot. *)
Fixpoint flag_written_last (ws : list (Z * Z)) : bool :=
  match ws with
  | [] => true
  | w :: rest =>
      (if is_flag_write w
       then forallb (fun w' => negb (is_payload_write_of (fst w) w')) rest
       else true)
      && flag_written_last rest
  end.

(** ** Vocabulary for the append protocol *)

(** The cell writes that seal the record [b] into the slot at index [i]. *)
Definition seal_updates (i : Z) (b : EEPROMRecord_t) : list (Z * Z) :=
  [(i, secsSince1900_4 b); (i + 1, secsSince1900_3 b);
   (i + 2, secsSince1900_2 b); (i + 3, secsSince1900_1 b);
   (i + 4, downMins2 b); (i + 5, downMins1 b);
   (i + 7, MODEM_RECORD_COMPLETE)].

(** The cell writes that start a new record after [b] at index [i]. *)
Definition start_updates (i : Z) (b : EEPROMRecord_t) : list (Z * Z) :=
  [(i, secsSince1900_4 b); (i + 1, secsSince1900_3 b);
   (i + 2, secsSince1900_2 b); (i + 3, secsSince1900_1 b);
   (i + 4, 0); (i + 5, 0);
   (i + 7, MODEM_RECORD_IN_PROGRESS)].

(** The cell writes that store [b] as the record in progress at [i]. *)
Definition checkpoint_updates (i : Z) (b : EEPROMRecord_t) : list (Z * Z) :=
  [(i, secsSince1900_4 b); (i + 1, secsSince1900_3 b);
   (i + 2, secsSince1900_2 b); (i + 3, secsSince1900_1 b);
   (i + 4, downMins2 b); (i + 5, downMins1 b);
   (i + 7, MODEM_RECORD_IN_PROGRESS)].

(** The cell writes of [clearLog]'s erase loop over a device of [n] cells. *)
Definition erase_updates (n : nat) : list (Z * Z) :=
  map (fun k => (Z.of_nat k, MODEM_RECORD_UNUSED)) (seq 0 n).

(** The device after a list of cell writes. *)
Definition write_all (mem : list Z) (ws : list (Z * Z)) : list Z :=
  fold_left (fun m w => poke m (fst w) (snd w)) ws mem.

(** Slot [j] is where an append goes: the first IN_PROGRESS slot, or slot 0
    when no slot is IN_PROGRESS. *)
Definition append_slot (N : Z) (mem : list Z) (j : Z) : Prop :=
  0 <= j < N /\
  ((slot_flag mem j = MODEM_RECORD_IN_PROGRESS /\
    (forall j', 0 <= j' < j -> slot_flag mem j' <> MODEM_RECORD_IN_PROGRESS))
   \/
   (j = 0 /\
    (forall j', 0 <= j' < N -> slot_flag mem j' <> MODEM_RECORD_IN_PROGRESS))).

(** ** What the scans leave behind *)

(** What [getRecordInProgress] leaves behind: the device and the block are
    untouched, the trace grows by reads only, and either the first
    IN_PROGRESS slot [j] is found after [j+1] reads, or no slot is
    IN_PROGRESS, the result is [-1], the index is back at slot 0 and
    [N+2] cells were read. *)
Definition found_in_progress (N : Z) (s : store) (r : Z) (s' : store) : Prop :=
  EEPROM s' = EEPROM s /\ EEPROMBlock s' = EEPROMBlock s /\
  exists t, trace s' = trace s ++ t /\ updates t = [] /\
    ((r = -1 /\ _modemRecordIndex s' = 0 /\ probes t = N + 2 /\
      forall j, 0 <= j < N -> slot_flag (EEPROM s) j <> MODEM_RECORD_IN_PROGRESS)
     \/
     (exists j, 0 <= j < N /\ r = 8 * j /\ _modemRecordIndex s' = 8 * j /\
        probes t = j + 1 /\
        slot_flag (EEPROM s) j = MODEM_RECORD_IN_PROGRESS /\
        forall j', 0 <= j' < j ->
          slot_flag (EEPROM s) j' <> MODEM_RECORD_IN_PROGRESS)).

(** What [getOldestCompletedRecord] leaves behind.  The device and the
    block are untouched, at most [2N] cells are read, and the result is
    either [-1] or the index of the first COMPLETE slot met walking forward
    (with wraparound) from the first IN_PROGRESS slot [jp]; the second case
    needs [count0 <= N]. *)
Definition found_oldest (N count0 : Z) (s : store) (r : Z) (s' : store) : Prop :=
  EEPROM s' = EEPROM s /\ EEPROMBlock s' = EEPROMBlock s /\
  (exists t, trace s' = trace s ++ t /\ updates t = [] /\ probes t <= 2 * N) /\
  ((exists j, 0 <= j < N /\ _modemRecordIndex s = 8 * j) ->
   exists j, 0 <= j < N /\ _modemRecordIndex s' = 8 * j) /\
  ((r = -1 /\
    (count0 > N
     \/ (forall j, 0 <= j < N ->
           slot_flag (EEPROM s) j <> MODEM_RECORD_IN_PROGRESS)
     \/ (forall j, 0 <= j < N ->
           slot_flag (EEPROM s) j <> MODEM_RECORD_COMPLETE)))
   \/
   (exists jp d,
      count0 <= N /\ 0 <= jp < N /\ 1 <= d < N /\
      slot_flag (EEPROM s) jp = MODEM_RECORD_IN_PROGRESS /\
      (forall j, 0 <= j < jp ->
         slot_flag (EEPROM s) j <> MODEM_RECORD_IN_PROGRESS) /\
      slot_flag (EEPROM s) ((jp + d) mod N) = MODEM_RECORD_COMPLETE /\
      (forall d', 0 <= d' < d ->
         slot_flag (EEPROM s) ((jp + d') mod N) <> MODEM_RECORD_COMPLETE) /\
      r = 8 * ((jp + d) mod N) /\
      _modemRecordIndex s' = 8 * ((jp + d) mod N))).

(** ** Sequences of calls *)

(** One [completeLogEntry] call, preceded (as in [loop()]) by
    [convertToEEPROMBlock(&modem)] when a record is given, and made on the
    block as it stands otherwise. *)
Definition completeLogEntry_call (fuel : nat) (o : option modemRecord_t) : M unit :=
  match o with
  | Some r => convertToEEPROMBlock r;; completeLogEntry fuel
  | None => completeLogEntry fuel
  end.

Fixpoint completeLogEntry_calls (fuel : nat) (os : list (option modemRecord_t))
    : M unit :=
  match os with
  | [] => mret tt
  | o :: os' => completeLogEntry_call fuel o;; completeLogEntry_calls fuel os'
  end.

(** One call of a member function (the serial dump [dumpEEPROM], which
    touches neither the index nor the device, is left out). *)
Inductive operation : Type :=
| Op_getOldestCompletedRecord (count0 : Z)
| Op_getNextCompletedRecord
| Op_getRecordInProgress
| Op_getNewestCompletedRecord
| Op_getIndexOfNextCompletedRecord
| Op_getIndexOfPrevCompletedRecord
| Op_getDataFromIndex_at (ind : Z)
| Op_getDataFromIndex
| Op_convertToEEPROMBlock (src : modemRecord_t)
| Op_convertFromEEPROMBlock (dst : modemRecord_t)
| Op_completeLogEntry
| Op_clearLog
| Op_setEEPROMUptimeStats
| Op_getEEPROMUptimeStats.

Definition run_operation (fuel : nat) (op : operation) : M unit :=
  match op with
  | Op_getOldestCompletedRecord count0 =>
      getOldestCompletedRecord count0 fuel;; mret tt
  | Op_getNextCompletedRecord => getNextCompletedRecord;; mret tt
  | Op_getRecordInProgress => getRecordInProgress fuel;; mret tt
  | Op_getNewestCompletedRecord => getNewestCompletedRecord fuel;; mret tt
  | Op_getIndexOfNextCompletedRecord => getIndexOfNextCompletedRecord;; mret tt
  | Op_getIndexOfPrevCompletedRecord => getIndexOfPrevCompletedRecord;; mret tt
  | Op_getDataFromIndex_at ind => getDataFromIndex_at ind;; mret tt
  | Op_getDataFromIndex => getDataFromIndex;; mret tt
  | Op_convertToEEPROMBlock src => convertToEEPROMBlock src;; mret tt
  | Op_convertFromEEPROMBlock dst => convertFromEEPROMBlock dst;; mret tt
  | Op_completeLogEntry => completeLogEntry fuel
  | Op_clearLog => clearLog fuel;; mret tt
  | Op_setEEPROMUptimeStats => setEEPROMUptimeStats fuel
  | Op_getEEPROMUptimeStats => getEEPROMUptimeStats fuel;; mret tt
  end.

Fixpoint run_operations (fuel : nat) (ops : list operation) : M unit :=
  match ops with
  | [] => mret tt
  | op :: ops' => run_operation fuel op;; run_operations fuel ops'
  end.

(** The device has [N] slots and [_modemRecordIndex] is the byte index of
    one of them. *)
Definition index_ok (N : Z) (s : store) : Prop :=
  EEPROM_len (EEPROM s) = 8 * N /\
  exists j, 0 <= j < N /\ _modemRecordIndex s = 8 * j.

(** ** Walking the log *)

(** The block that [convertToEEPROMBlock(src)] builds (it keeps the spare
    byte [sp] of the block). *)
Definition encode (src : modemRecord_t) (sp : Z) : EEPROMRecord_t :=
  mkEEPROMRecord
    (Z.land (Z.shiftr (secsSince1900 src) 24) 0xff)
    (Z.land (Z.shiftr (secsSince1900 src) 16) 0xff)
    (Z.land (Z.shiftr (secsSince1900 src) 8) 0xff)
    (Z.land (secsSince1900 src) 0xff)
    (Z.land (Z.shiftr (downMins src) 8) 0xff)
    (Z.land (downMins src) 0xff)
    sp
    MODEM_RECORD_COMPLETE.

(** Reading the record under the index, as [dumpOutageRecord()] does:
    [m.getDataFromIndex(); m.convertFromEEPROMBlock(&mRec)], here into a
    zeroed [mRec]. *)
Definition read_record : M modemRecord_t :=
  getDataFromIndex;;
  convertFromEEPROMBlock (mkModemRecord 0 0 0).

(** [n] calls of [getNextCompletedRecord], reading the record after each:
    the results of the calls and the records read. *)
Fixpoint walk_next (n : nat) : M (list (Z * modemRecord_t)) :=
  match n with
  | O => mret []
  | S n' =>
      i ← getNextCompletedRecord;
      r ← read_record;
      rest ← walk_next n';
      mret ((i, r) :: rest)
  end.

(** [getOldestCompletedRecord] followed by [n] calls of
    [getNextCompletedRecord]. *)
Definition walk_from_oldest (count0 : Z) (fuel : nat) (n : nat)
    : M (list (Z * modemRecord_t)) :=
  i ← getOldestCompletedRecord count0 fuel;
  r ← read_record;
  rest ← walk_next n;
  mret ((i, r) :: rest).

(** What is stored of a record: its time and its downtime. *)
Definition stored (r : modemRecord_t) : modemRecord_t :=
  mkModemRecord (secsSince1900 r) (downMins r) 0.

(** The slots [first, first+1, ...] paired with what is stored of [rs]. *)
Fixpoint in_slots (first : Z) (rs : list modemRecord_t)
    : list (Z * modemRecord_t) :=
  match rs with
  | [] => []
  | r :: rs' => (8 * first, stored r) :: in_slots (first + 1) rs'
  end.

(** The fields of a record fit their C types. *)
Definition fits (r : modemRecord_t) : Prop :=
  0 <= secsSince1900 r < 2 ^ 32 /\ 0 <= downMins r < 2 ^ 16.

(** The ring of [N] slots holds the log [rs]: the records in creation order
    in slots [0 .. length rs - 1], all COMPLETE, then (when [rs] is not
    empty) the IN_PROGRESS slot, and erased flags after it. *)
Definition log_of (N : Z) (rs : list modemRecord_t) (mem : list Z) : Prop :=
  EEPROM_len mem = 8 * N /\
  (forall (m : nat) r, rs !! m = Some r ->
     slot_holds mem (8 * Z.of_nat m) (encode r 0) MODEM_RECORD_COMPLETE = true) /\
  (rs <> [] ->
   slot_flag mem (Z.of_nat (length rs)) = MODEM_RECORD_IN_PROGRESS) /\
  (forall j, Z.of_nat (length rs) < j < N ->
     slot_flag mem j = MODEM_RECORD_UNUSED) /\
  (rs = [] -> forall j, 0 <= j < N -> slot_flag mem j = MODEM_RECORD_UNUSED).

(** ** Small devices used as examples *)

Definition zero_block : EEPROMRecord_t := mkEEPROMRecord 0 0 0 0 0 0 0 0.

(** An object with its index at 0 on a device with the cells [mem]. *)
Definition store_on (mem : list Z) : store := mkStore mem 0 zero_block [].

(** An erased device of [n] slots. *)
Definition erased (n : nat) : list Z := repeat MODEM_RECORD_UNUSED (8 * n).

(** Two slots: slot 0 erased, slot 1 IN_PROGRESS. *)
Definition in_progress_at_1 : list Z :=
  [255; 255; 255; 255; 255; 255; 255; 255;
   0; 0; 0; 0; 0; 0; 255; 2].

(** The records of the scenario of the specification. *)
Definition record_A : modemRecord_t := mkModemRecord 100 0 0.
Definition record_B : modemRecord_t := mkModemRecord 200 5 0.

(** The block that [EEPROM.get(i, EEPROMBlock)] reads at index [i]. *)
Definition block_at (mem : list Z) (i : Z) : EEPROMRecord_t :=
  mkEEPROMRecord (peek mem i) (peek mem (i + 1)) (peek mem (i + 2))
    (peek mem (i + 3)) (peek mem (i + 4)) (peek mem (i + 5))
    (peek mem (i + 6)) (peek mem (i + 7)).

(** Slot [j] is the first slot of the device flagged [f]. *)
Definition first_flagged (f : Z) (mem : list Z) (j : Z) : Prop :=
  0 <= j < numRecords mem /\ slot_flag mem j = f /\
  forall j', 0 <= j' < j -> slot_flag mem j' <> f.


(** The index one slot before [_modemRecordIndex], as
    [getIndexOfPrevCompletedRecord] computes it. *)
Definition prev_index (s : store) : Z :=
  let i := _modemRecordIndex s - sizeof_EEPROMRecord_t in
  if i <? 0 then i + EEPROM_len (EEPROM s) else i.

(** The block of the record that [completeLogEntry] starts after sealing
    [b]: the time stamp of [b] and no downtime. *)
Definition started_after (b : EEPROMRecord_t) : EEPROMRecord_t :=
  mkEEPROMRecord (secsSince1900_4 b) (secsSince1900_3 b) (secsSince1900_2 b)
    (secsSince1900_1 b) 0 0 (spare b) (flags b).

(** [x] is a value of type [uint8_t]. *)
Definition is_uint8 (x : Z) : bool := (0 <=? x) && (x <? 256).

(** The six payload bytes of a block are values of type [uint8_t]. *)
Definition payload_is_bytes (b : EEPROMRecord_t) : bool :=
  is_uint8 (secsSince1900_4 b) && is_uint8 (secsSince1900_3 b)
  && is_uint8 (secsSince1900_2 b) && is_uint8 (secsSince1900_1 b)
  && is_uint8 (downMins2 b) && is_uint8 (downMins1 b).

(** A ring of three slots, all COMPLETE, whose records carry the bytes 0
    in their payload. *)
Definition three_complete : list Z :=
  [0; 0; 0; 0; 0; 0; 0xFF; 0x01; 0; 0; 0; 0; 0; 0; 0xFF; 0x01;
   0; 0; 0; 0; 0; 0; 0xFF; 0x01].

(** ** The ring after any number of appends *)

(** The ring of [N] slots after the records [rs] were appended, in this
    order, to an erased ring.  Record number [m] (from 0) went to slot
    [m mod N]; the last [N-1] records are still there, COMPLETE; the slot
    after the newest record is IN_PROGRESS; slots never reached are
    erased. *)
Definition ring_of (N : Z) (rs : list modemRecord_t) (mem : list Z) : Prop :=
  EEPROM_len mem = 8 * N /\
  (forall (m : nat) r, rs !! m = Some r ->
     Z.of_nat (length rs) < Z.of_nat m + N ->
     slot_holds mem (8 * (Z.of_nat m mod N)) (encode r 0)
       MODEM_RECORD_COMPLETE = true) /\
  (rs <> [] ->
   slot_flag mem (Z.of_nat (length rs) mod N) = MODEM_RECORD_IN_PROGRESS) /\
  (forall j, Z.of_nat (length rs) < j < N ->
     slot_flag mem j = MODEM_RECORD_UNUSED) /\
  (rs = [] -> forall j, 0 <= j < N -> slot_flag mem j = MODEM_RECORD_UNUSED).

(** The slots [first mod N, (first+1) mod N, ...] paired with what is
    stored of [rs]. *)
Fixpoint in_ring_slots (N first : Z) (rs : list modemRecord_t)
    : list (Z * modemRecord_t) :=
  match rs with
  | [] => []
  | r :: rs' => (8 * (first mod N), stored r) :: in_ring_slots N (first + 1) rs'
  end.

(** The fields of a record fit their C types, as a test. *)
Definition fitsb (r : modemRecord_t) : bool :=
  (0 <=? secsSince1900 r) && (secsSince1900 r <? 2 ^ 32)
  && (0 <=? downMins r) && (downMins r <? 2 ^ 16).

(** The records a ring of [n] slots still holds of the history [rs]: the
    last [n - 1]. *)
Definition kept (n : nat) (rs : list modemRecord_t) : list modemRecord_t :=
  drop (length rs - (n - 1)) rs.

(** ** The walk of the history command *)

(** The loop [while (m.getNextCompletedRecord() != -1) dumpOutageRecord();]
    of the history command: the index each successful call returned and
    the record read there. *)
Definition history_loop (fuel : nat) : M (list (Z * modemRecord_t)) :=
  r ← while fuel (fun _ _ => true)
        (fun acc =>
           i ← getNextCompletedRecord;
           if neqb i (-1) then
             r ← read_record;
             mret (inl (acc ++ [(i, r)]))
           else mret (inr acc))
        [];
  match r with
  | inl acc => mret acc
  | inr acc => mret acc
  end.

(** The records the history command visits:
    [if (m.getOldestCompletedRecord() != -1) { dumpOutageRecord(); while ... }]. *)
Definition history_walk (count0 : Z) (fuel : nat) : M (list (Z * modemRecord_t)) :=
  i ← getOldestCompletedRecord count0 fuel;
  if neqb i (-1) then
    r ← read_record;
    rest ← history_loop fuel;
    mret ((i, r) :: rest)
  else mret [].

(** The operations that call [EEPROM.update]. *)
Definition writes_EEPROM (op : operation) : bool :=
  match op with
  | Op_completeLogEntry | Op_clearLog | Op_setEEPROMUptimeStats => true
  | _ => false
  end.

(** A ring of four slots holding the two records of the scenario: slots 0
    and 1 COMPLETE, slot 2 IN_PROGRESS, slot 3 erased. *)
Definition two_then_progress : list Z :=
  [0; 0; 0; 100; 0; 0; 0xFF; 0x01; 0; 0; 0; 200; 0; 5; 0xFF; 0x01;
   0; 0; 0; 200; 0; 0; 0xFF; 0x02;
   0xFF; 0xFF; 0xFF; 0xFF; 0xFF; 0xFF; 0xFF; 0xFF].

(** * NTPClass: calendar arithmetic ([NTPClass.cpp], [NTPClass.h]) *)

(** Conversions to the unsigned types of the target. *)
Definition uint8 (x : Z) : Z := x mod 2 ^ 8.
Definition uint16 (x : Z) : Z := x mod 2 ^ 16.
Definition uint32 (x : Z) : Z := x mod 2 ^ 32.

(** What a call comes to: it returns, or it reads an array outside its
    bounds (at index [i]), or it writes outside a buffer of [n] bytes, or
    the model runs out of fuel. *)
Inductive outcome (A : Type) : Type :=
| Returns (a : A)
| ReadsPastArray (i : Z)
| WritesPastArray (n : Z)
| OutOfFuel.

Arguments Returns {A} a.
Arguments ReadsPastArray {A} i.
Arguments WritesPastArray {A} n.
Arguments OutOfFuel {A}.

#[global] Instance outcome_ret : MRet outcome := fun A a => Returns a.
#[global] Instance outcome_bind : MBind outcome := fun A B f m =>
  match m with
  | Returns a => f a
  | ReadsPastArray i => ReadsPastArray i
  | WritesPastArray n => WritesPastArray n
  | OutOfFuel => OutOfFuel
  end.
#[global] Instance outcome_fmap : FMap outcome := fun A B f m =>
  match m with
  | Returns a => Returns (f a)
  | ReadsPastArray i => ReadsPastArray i
  | WritesPastArray n => WritesPastArray n
  | OutOfFuel => OutOfFuel
  end.

(** [while (cond) body] on the locals [a]. *)
Fixpoint while_do {A : Type} (fuel : nat) (cond : A -> outcome bool)
    (body : A -> outcome A) (a : A) : outcome A :=
  match fuel with
  | O => OutOfFuel
  | S fuel' =>
      c ← cond a;
      if c : bool then a' ← body a; while_do fuel' cond body a'
      else Returns a
  end.

(** [arr[i]] for an array given by its elements. *)
Definition array_get (arr : list Z) (i : Z) : outcome Z :=
  match (if 0 <=? i then arr !! Z.to_nat i else None) with
  | Some x => Returns x
  | None => ReadsPastArray i
  end.

Module NTP.

(** [struct NTPTime_t]. *)
Record NTPTime_t : Type := mkNTPTime {
  secsSince1900 : Z;   (* uint32_t *)
  hour : Z;            (* uint8_t, as are the fields below *)
  min : Z;
  sec : Z;
  year : Z;
  mon : Z;
  wday : Z;
  mday : Z
}.

Definition set_secsSince1900 (t : NTPTime_t) (x : Z) : NTPTime_t :=
  mkNTPTime x (hour t) (min t) (sec t) (year t) (mon t) (wday t) (mday t).
Definition set_hour (t : NTPTime_t) (x : Z) : NTPTime_t :=
  mkNTPTime (secsSince1900 t) x (min t) (sec t) (year t) (mon t) (wday t) (mday t).
Definition set_min (t : NTPTime_t) (x : Z) : NTPTime_t :=
  mkNTPTime (secsSince1900 t) (hour t) x (sec t) (year t) (mon t) (wday t) (mday t).
Definition set_sec (t : NTPTime_t) (x : Z) : NTPTime_t :=
  mkNTPTime (secsSince1900 t) (hour t) (min t) x (year t) (mon t) (wday t) (mday t).
Definition set_year (t : NTPTime_t) (x : Z) : NTPTime_t :=
  mkNTPTime (secsSince1900 t) (hour t) (min t) (sec t) x (mon t) (wday t) (mday t).
Definition set_mon (t : NTPTime_t) (x : Z) : NTPTime_t :=
  mkNTPTime (secsSince1900 t) (hour t) (min t) (sec t) (year t) x (wday t) (mday t).
Definition set_wday (t : NTPTime_t) (x : Z) : NTPTime_t :=
  mkNTPTime (secsSince1900 t) (hour t) (min t) (sec t) (year t) (mon t) x (mday t).
Definition set_mday (t : NTPTime_t) (x : Z) : NTPTime_t :=
  mkNTPTime (secsSince1900 t) (hour t) (min t) (sec t) (year t) (mon t) (wday t) x.

Definition NSW_OFFSET_FROM_UTC : Z := 10.
Definition HOURS_OFFSET_FROM_UTC : Z := NSW_OFFSET_FROM_UTC.

(** [#define IS_LEAP_YEAR (t.year%4 == 0)]. *)
Definition IS_LEAP_YEAR (t : NTPTime_t) : bool := year t mod 4 =? 0.

(** [getYMD], from the point where [daysLeft] has its first value.  The
    locals are [daysLeft] ([uint32_t]) and the array [daysInMonth]. *)
Definition getYMD_from (fuel : nat) (daysLeft : Z) (t : NTPTime_t)
    : outcome NTPTime_t :=
  let daysInMonth := [31; 28; 31; 30; 31; 30; 31; 31; 30; 31; 30; 31] in
  let '(daysLeft, t) :=
    if daysLeft >? 5840 then
      (0, set_year (set_mday (set_mon (set_wday t 4) 0) 1) 70)
    else
      (daysLeft, set_year (set_mday (set_mon (set_wday t 1) 0) 1) 124) in
  '(daysLeft, t) ←
    while_do fuel
      (fun '(daysLeft, t) => Returns (daysLeft >? 365))
      (fun '(daysLeft, t) =>
         let '(daysLeft, t) :=
           if IS_LEAP_YEAR t then
             (uint32 (daysLeft - 1), set_wday t (uint8 (wday t + 1)))
           else (daysLeft, t) in
         let daysLeft := uint32 (daysLeft - 365) in
         let t := set_wday t (uint8 (wday t + 1)) in
         let t := set_year t (uint8 (year t + 1)) in
         Returns (daysLeft, t))
      (daysLeft, t);
  let daysInMonth :=
    if IS_LEAP_YEAR t then alter (fun x => uint8 (x + 1)) 1%nat daysInMonth
    else daysInMonth in
  '(daysLeft, t) ←
    while_do fuel
      (fun '(daysLeft, t) =>
         d ← array_get daysInMonth (mon t);
         Returns (daysLeft >=? d))
      (fun '(daysLeft, t) =>
         d ← array_get daysInMonth (mon t);
         let daysLeft := uint32 (daysLeft - d) in
         d ← array_get daysInMonth (mon t);
         let t := set_wday t (uint8 (wday t + d mod 7)) in
         let t := set_mon t (uint8 (mon t + 1)) in
         Returns (daysLeft, t))
      (daysLeft, t);
  let t := set_mday t (uint8 (uint32 (daysLeft + 1))) in
  let t := set_wday t (uint8 (uint32 (wday t + daysLeft mod 7))) in
  while_do fuel
    (fun t => Returns (wday t >? 6))
    (fun t => Returns (set_wday t (uint8 (wday t - 7))))
    t.

(** [getYMD]. *)
Definition getYMD (fuel : nat) (t : NTPTime_t) : outcome NTPTime_t :=
  let daysLeft := uint32 (uint32 (secsSince1900 t / 86400 - 45291) + 1) in
  getYMD_from fuel daysLeft t.

(** [adjustForDST]: the value returned and the object after the call. *)
Definition adjustForDST (t : NTPTime_t) : Z * NTPTime_t :=
  if HOURS_OFFSET_FROM_UTC =? NSW_OFFSET_FROM_UTC then
    if (mon t <? 3) || (mon t >? 9) then
      (1, set_secsSince1900 t (uint32 (secsSince1900 t + 3600)))
    else
      let dayMins := uint8 (hour t * 60 + min t) in
      let october :=
        let firstSundayFlag := uint8 (mday t - wday t) in
        if (mon t =? 9) && (firstSundayFlag >? 0) then
          if neqb (wday t) 0 || (dayMins >? 119) then
            (1, set_secsSince1900 t (uint32 (secsSince1900 t + 3600)))
          else (0, t)
        else (0, t) in
      let firstSundayFlag :=
        uint8 (if wday t =? 0 then 7 - mday t else wday t - mday t) in
      if (mon t =? 3) && (firstSundayFlag >=? 0) then
        if neqb (wday t) 0 || (dayMins <? 120) then
          (1, set_secsSince1900 t (uint32 (secsSince1900 t + 3600)))
        else october
      else october
  else (0, t).

(** [getYMDHMS(bool adjustIt)]. *)
Definition getYMDHMS (fuel : nat) (adjustIt : bool) (t : NTPTime_t)
    : outcome NTPTime_t :=
  t ← getYMD fuel t;
  t ← (if adjustIt then
         let '(r, t) := adjustForDST t in
         if neqb r 0 then getYMD fuel t else Returns t
       else Returns t);
  let t := set_hour t (uint8 (secsSince1900 t mod 86400 / 3600)) in
  let t := set_min t (uint8 (secsSince1900 t mod 3600 / 60)) in
  let t := set_sec t (uint8 (secsSince1900 t mod 60)) in
  Returns t.

End NTP.

(** ** The calendar, for reference *)

(** The Gregorian rule. *)
Definition is_leap_year (y : Z) : bool :=
  (y mod 4 =? 0) && (negb (y mod 100 =? 0) || (y mod 400 =? 0)).

(** Days of month [m] (0 for January) of year [y]. *)
Definition days_in_month (y m : Z) : Z :=
  if (m =? 1) && is_leap_year y then 29
  else nth (Z.to_nat m) [31; 28; 31; 30; 31; 30; 31; 31; 30; 31; 30; 31] 0.

(** Days from 1 January 1900 to 1 January of year [y]. *)
Definition days_before_year (y : Z) : Z :=
  365 * (y - 1900)
  + ((y - 1) / 4 - (y - 1) / 100 + (y - 1) / 400)
  - (1899 / 4 - 1899 / 100 + 1899 / 400).

(** Days from 1 January 1900 to day [d] of month [m] (0 for January) of
    year [y]. *)
Definition day_number (y m d : Z) : Z :=
  days_before_year y
  + fold_right Z.add 0 (map (days_in_month y) (map Z.of_nat (seq 0 (Z.to_nat m))))
  + (d - 1).

(** Day [n] (counted from 1 January 1900) is a first of January that
    follows a year of 365 days, in the years 2025 to 2040. *)
Definition new_year_after_common_year (n : Z) : bool :=
  existsb (fun y => (n =? day_number y 0 1) && negb (is_leap_year (y - 1)))
    (map (fun k => 2025 + Z.of_nat k) (seq 0 16)).

(** An [NTPTime_t] whose fields are all 0. *)
Definition blank_time : NTP.NTPTime_t := NTP.mkNTPTime 0 0 0 0 0 0 0 0.

(** The date fields of [t] beside the time stamp and the time of day
    [s], [h], [m], [sc]. *)
Definition with_clock (s h m sc : Z) (t : NTP.NTPTime_t) : NTP.NTPTime_t :=
  NTP.mkNTPTime s h m sc (NTP.year t) (NTP.mon t) (NTP.wday t) (NTP.mday t).

(** The date in [t] is the date of day [n] (counted from 1 January 1900):
    year, month, day of the month and day of the week (0 for Sunday). *)
Definition is_date_of (n : Z) (t : NTP.NTPTime_t) : bool :=
  (0 <=? NTP.mon t) && (NTP.mon t <? 12)
  && (1 <=? NTP.mday t)
  && (NTP.mday t <=? days_in_month (1900 + NTP.year t) (NTP.mon t))
  && (day_number (1900 + NTP.year t) (NTP.mon t) (NTP.mday t) =? n)
  && (NTP.wday t =? (n + 1) mod 7).

(** What [getYMD] comes to on day [n] from 1 January 2024 on, for the test
    of all days a 32-bit time stamp reaches. *)
Definition getYMD_checked (fuel : nat) (n : Z) : bool :=
  match NTP.getYMD_from fuel (n - 45290) blank_time with
  | Returns t => negb (new_year_after_common_year n) && is_date_of n t
  | ReadsPastArray i => new_year_after_common_year n && (i =? 12)
  | WritesPastArray _ => false
  | OutOfFuel => false
  end.

(** * The sketch ([ModemMonitor.ino]) and the serial output of the classes *)

Module Sketch.

(** ** Text *)

Definition CR : string := String (ascii_of_nat 13) EmptyString.
Definition LF : string := String (ascii_of_nat 10) EmptyString.
Definition CRLF : string := CR +:+ LF.

(** The code of a character. *)
Definition chr (c : ascii) : Z := Z.of_nat (nat_of_ascii c).

(** One digit, in upper case beyond 9. *)
Definition digit_char (d : Z) : ascii :=
  ascii_of_nat (Z.to_nat (if d <? 10 then 48 + d else 55 + d)).

(** The digits of [n >= 0] in base [base], most significant first. *)
Fixpoint digits (fuel : nat) (base n : Z) : string :=
  match fuel with
  | O => EmptyString
  | S fuel' =>
      (if n / base =? 0 then EmptyString else digits fuel' base (n / base))
      +:+ String (digit_char (n mod base)) EmptyString
  end.

(** [Serial.print] of an unsigned and of a signed number. *)
Definition print_unsigned (n : Z) : string := digits 32 10 n.
Definition print_int (n : Z) : string :=
  if n <? 0 then "-" +:+ digits 32 10 (- n) else digits 32 10 n.

(** [s] filled up with zeros on the left to [w] characters. *)
Definition pad0 (w : nat) (s : string) : string :=
  string_of_list_ascii (repeat "0"%char (w - String.length s)) +:+ s.

(** An [unsigned int] argument seen as the [int] that [%d] prints. *)
Definition int16 (x : Z) : Z :=
  if uint16 x <? 32768 then uint16 x else uint16 x - 65536.

(** The conversions [%04X], [%02X] (of an [unsigned int]), [%04d] and [%d]
    (of an [int]) of [sprintf]. *)
Definition fmt_04X (v : Z) : string := pad0 4 (digits 32 16 (uint16 v)).
Definition fmt_02X (v : Z) : string := pad0 2 (digits 32 16 (uint16 v)).
Definition fmt_04d (v : Z) : string :=
  if int16 v <? 0 then "-" +:+ pad0 3 (digits 32 10 (- int16 v))
  else pad0 4 (digits 32 10 (int16 v)).
Definition fmt_d (v : Z) : string := print_int (int16 v).

(** [Serial.print((float)x / 1000, 0)]: the quotient rounded to the
    nearest whole number ([Print::printFloat] adds 0.5 and prints the
    integer part; for a 16-bit [x] the division in [float] does not
    change that). *)
Definition print_thousandths_rounded (x : Z) : string :=
  print_unsigned ((x + 500) / 1000).

(** [dayName] and [monthName] of [NTPClass.h]. *)
Definition dayName : list string :=
  ["Sun"; "Mon"; "Tue"; "Wed"; "Thu"; "Fri"; "Sat"; ""]%string.
Definition monthName : list string :=
  ["Jan"; "Feb"; "Mar"; "Apr"; "May"; "Jun"; "Jul"; "Aug"; "Sep"; "Oct";
   "Nov"; "Dec"; ""]%string.

(** [tbl[i]] for a table of strings. *)
Definition table_get (tbl : list string) (i : Z) : outcome string :=
  match (if 0 <=? i then tbl !! Z.to_nat i else None) with
  | Some x => Returns x
  | None => ReadsPastArray i
  end.

(** [toUpperCase]. *)
Definition toUpperCase (c : Z) : Z :=
  if (chr "a" <=? c) && (c <=? chr "z") then c - 32 else c.

(** ** Constants of the sketch *)

Definition NTP_SERVER_POLL_TIME : Z := 40000.

Definition S_ARDUINO_POWERUP : Z := 0.
Definition S_LOOKING_FOR_MODEM_ONLINE : Z := 1.
Definition S_MODEM_IS_ONLINE : Z := 2.
Definition S_MODEM_RESTART : Z := 3.

Definition OUTPUT_ON : Z := 0.
Definition OUTPUT_OFF : Z := 1.
Definition OUTPUT_DEFAULT : Z := 2.

Definition LOW : Z := 0.
Definition HIGH : Z := 1.

(** ** The state *)

(** The globals that the timer interrupt and the serial commands use,
    with the devices they drive: the EEPROM (inside [m]), the relay pin,
    the compare register of the timer and the serial port. *)
Record sketch : Type := mkSketch {
  m : store;                       (* EEPROMRecordClass m, with the device *)
  modem : modemRecord_t;           (* struct modemRecord_t modem *)
  buffer : string;                 (* char buffer[200] *)
  retryNo : Z;                     (* uint8_t *)
  state : Z;                       (* uint8_t *)
  pollDelayMillis : Z;             (* uint16_t *)
  verboseMode : Z;                 (* uint8_t *)
  statusLEDMode : Z;               (* uint8_t *)
  relayMode : Z;                   (* uint8_t *)
  simulateNoResponse : Z;          (* uint8_t *)
  clearEEPROMFlag : bool;          (* bool *)
  secs : Z;                        (* uint8_t *)
  mins : Z;                        (* uint8_t *)
  OCR1B : Z;                       (* the compare register B of timer 1 *)
  relayPin : Z;                    (* the level of the relay pin *)
  Serial_rx : list Z;              (* characters received and not yet read *)
  Serial_tx : string               (* everything printed so far *)
}.

Definition set_m (x : store) (g : sketch) : sketch :=
  mkSketch x (modem g) (buffer g) (retryNo g) (state g) (pollDelayMillis g)
    (verboseMode g) (statusLEDMode g) (relayMode g) (simulateNoResponse g)
    (clearEEPROMFlag g) (secs g) (mins g) (OCR1B g) (relayPin g) (Serial_rx g)
    (Serial_tx g).
Definition set_modem (x : modemRecord_t) (g : sketch) : sketch :=
  mkSketch (m g) x (buffer g) (retryNo g) (state g) (pollDelayMillis g)
    (verboseMode g) (statusLEDMode g) (relayMode g) (simulateNoResponse g)
    (clearEEPROMFlag g) (secs g) (mins g) (OCR1B g) (relayPin g) (Serial_rx g)
    (Serial_tx g).
Definition set_buffer (x : string) (g : sketch) : sketch :=
  mkSketch (m g) (modem g) x (retryNo g) (state g) (pollDelayMillis g)
    (verboseMode g) (statusLEDMode g) (relayMode g) (simulateNoResponse g)
    (clearEEPROMFlag g) (secs g) (mins g) (OCR1B g) (relayPin g) (Serial_rx g)
    (Serial_tx g).
Definition set_retryNo (x : Z) (g : sketch) : sketch :=
  mkSketch (m g) (modem g) (buffer g) x (state g) (pollDelayMillis g)
    (verboseMode g) (statusLEDMode g) (relayMode g) (simulateNoResponse g)
    (clearEEPROMFlag g) (secs g) (mins g) (OCR1B g) (relayPin g) (Serial_rx g)
    (Serial_tx g).
Definition set_state (x : Z) (g : sketch) : sketch :=
  mkSketch (m g) (modem g) (buffer g) (retryNo g) x (pollDelayMillis g)
    (verboseMode g) (statusLEDMode g) (relayMode g) (simulateNoResponse g)
    (clearEEPROMFlag g) (secs g) (mins g) (OCR1B g) (relayPin g) (Serial_rx g)
    (Serial_tx g).
Definition set_pollDelayMillis (x : Z) (g : sketch) : sketch :=
  mkSketch (m g) (modem g) (buffer g) (retryNo g) (state g) x (verboseMode
    g) (statusLEDMode g) (relayMode g) (simulateNoResponse g) (clearEEPROMFlag
    g) (secs g) (mins g) (OCR1B g) (relayPin g) (Serial_rx g) (Serial_tx g).
Definition set_verboseMode (x : Z) (g : sketch) : sketch :=
  mkSketch (m g) (modem g) (buffer g) (retryNo g) (state g) (pollDelayMillis
    g) x (statusLEDMode g) (relayMode g) (simulateNoResponse g)
    (clearEEPROMFlag g) (secs g) (mins g) (OCR1B g) (relayPin g) (Serial_rx g)
    (Serial_tx g).
Definition set_statusLEDMode (x : Z) (g : sketch) : sketch :=
  mkSketch (m g) (modem g) (buffer g) (retryNo g) (state g) (pollDelayMillis
    g) (verboseMode g) x (relayMode g) (simulateNoResponse g) (clearEEPROMFlag
    g) (secs g) (mins g) (OCR1B g) (relayPin g) (Serial_rx g) (Serial_tx g).
Definition set_relayMode (x : Z) (g : sketch) : sketch :=
  mkSketch (m g) (modem g) (buffer g) (retryNo g) (state g) (pollDelayMillis
    g) (verboseMode g) (statusLEDMode g) x (simulateNoResponse g)
    (clearEEPROMFlag g) (secs g) (mins g) (OCR1B g) (relayPin g) (Serial_rx g)
    (Serial_tx g).
Definition set_simulateNoResponse (x : Z) (g : sketch) : sketch :=
  mkSketch (m g) (modem g) (buffer g) (retryNo g) (state g) (pollDelayMillis
    g) (verboseMode g) (statusLEDMode g) (relayMode g) x (clearEEPROMFlag g)
    (secs g) (mins g) (OCR1B g) (relayPin g) (Serial_rx g) (Serial_tx g).
Definition set_clearEEPROMFlag (x : bool) (g : sketch) : sketch :=
  mkSketch (m g) (modem g) (buffer g) (retryNo g) (state g) (pollDelayMillis
    g) (verboseMode g) (statusLEDMode g) (relayMode g) (simulateNoResponse g)
    x (secs g) (mins g) (OCR1B g) (relayPin g) (Serial_rx g) (Serial_tx g).
Definition set_secs (x : Z) (g : sketch) : sketch :=
  mkSketch (m g) (modem g) (buffer g) (retryNo g) (state g) (pollDelayMillis
    g) (verboseMode g) (statusLEDMode g) (relayMode g) (simulateNoResponse g)
    (clearEEPROMFlag g) x (mins g) (OCR1B g) (relayPin g) (Serial_rx g)
    (Serial_tx g).
Definition set_mins (x : Z) (g : sketch) : sketch :=
  mkSketch (m g) (modem g) (buffer g) (retryNo g) (state g) (pollDelayMillis
    g) (verboseMode g) (statusLEDMode g) (relayMode g) (simulateNoResponse g)
    (clearEEPROMFlag g) (secs g) x (OCR1B g) (relayPin g) (Serial_rx g)
    (Serial_tx g).
Definition set_OCR1B (x : Z) (g : sketch) : sketch :=
  mkSketch (m g) (modem g) (buffer g) (retryNo g) (state g) (pollDelayMillis
    g) (verboseMode g) (statusLEDMode g) (relayMode g) (simulateNoResponse g)
    (clearEEPROMFlag g) (secs g) (mins g) x (relayPin g) (Serial_rx g)
    (Serial_tx g).
Definition set_relayPin (x : Z) (g : sketch) : sketch :=
  mkSketch (m g) (modem g) (buffer g) (retryNo g) (state g) (pollDelayMillis
    g) (verboseMode g) (statusLEDMode g) (relayMode g) (simulateNoResponse g)
    (clearEEPROMFlag g) (secs g) (mins g) (OCR1B g) x (Serial_rx g) (Serial_tx
    g).
Definition set_Serial_rx (x : list Z) (g : sketch) : sketch :=
  mkSketch (m g) (modem g) (buffer g) (retryNo g) (state g) (pollDelayMillis
    g) (verboseMode g) (statusLEDMode g) (relayMode g) (simulateNoResponse g)
    (clearEEPROMFlag g) (secs g) (mins g) (OCR1B g) (relayPin g) x (Serial_tx
    g).
Definition set_Serial_tx (x : string) (g : sketch) : sketch :=
  mkSketch (m g) (modem g) (buffer g) (retryNo g) (state g) (pollDelayMillis
    g) (verboseMode g) (statusLEDMode g) (relayMode g) (simulateNoResponse g)
    (clearEEPROMFlag g) (secs g) (mins g) (OCR1B g) (relayPin g) (Serial_rx g)
    x.

(** ** The monad of the sketch: an outcome and the state it leaves *)

Definition G (A : Type) : Type := sketch -> outcome A * sketch.

#[global] Instance G_ret : MRet G := fun A a g => (Returns a, g).
#[global] Instance G_bind : MBind G := fun A B f c g =>
  match c g with
  | (Returns a, g') => f a g'
  | (ReadsPastArray i, g') => (ReadsPastArray i, g')
  | (WritesPastArray n, g') => (WritesPastArray n, g')
  | (OutOfFuel, g') => (OutOfFuel, g')
  end.

(** A global read, a global changed. *)
Definition read {A : Type} (f : sketch -> A) : G A :=
  fun g => (Returns (f g), g).
Definition update (f : sketch -> sketch) : G unit :=
  fun g => (Returns tt, f g).

(** A call of a member function of [m]. *)
Definition call {A : Type} (c : M A) : G A :=
  fun g =>
    match c (m g) with
    | Some (a, s) => (Returns a, set_m s g)
    | None => (OutOfFuel, g)
    end.

(** A computation that does not touch the state. *)
Definition pure_call {A : Type} (o : outcome A) : G A := fun g => (o, g).

(** [while (cond) body] and [for (...; cond; ...) body] on the locals
    [l]. *)
Fixpoint loop {L : Type} (fuel : nat) (cond : L -> G bool)
    (body : L -> G L) (l : L) : G L :=
  match fuel with
  | O => fun g => (OutOfFuel, g)
  | S fuel' =>
      c ← cond l;
      if c : bool then l' ← body l; loop fuel' cond body l'
      else mret l
  end.

(** The serial port. *)
Definition Serial_print (s : string) : G unit :=
  update (fun g => set_Serial_tx (Serial_tx g +:+ s) g).
Definition Serial_println (s : string) : G unit :=
  Serial_print (s +:+ CRLF).
Definition Serial_available : G Z :=
  read (fun g => Z.of_nat (length (Serial_rx g))).
Definition Serial_read : G Z :=
  fun g =>
    match Serial_rx g with
    | [] => (Returns (-1), g)
    | c :: rest => (Returns c, set_Serial_rx rest g)
    end.

(** [sprintf] into a buffer of [cap] bytes: the text and its terminating
    zero have to fit. *)
Definition sprintf (cap : Z) (s : string) : G string :=
  pure_call (if Z.of_nat (String.length s) + 1 <=? cap then Returns s
             else WritesPastArray cap).

(** ** [EEPROMRecordClass::dumpEEPROM] *)

(** [EEPROM.read] of a cell is recorded in the trace like a one-byte
    [EEPROM.get].  Where [buffer] is also the [%s] argument of [sprintf],
    the characters already there are copied onto themselves and the rest of
    the format is appended after them. *)
Definition dumpEEPROM (fuel : nat) : G unit :=
  let row := 0 in
  len ← call EEPROM_length;
  let EEPROMlength := int16 len in
  Serial_print
    (CRLF +:+ "                                                --- EEPROM DUMP ---" +:+ CRLF +:+ "   Hex  Dec                                                                                                      Dec  Hex" +:+ CRLF);;
  loop fuel
    (fun row => mret (row * 32 <? EEPROMlength))
    (fun row =>
       buffer ← sprintf 124
                  ("  " +:+ fmt_04X (row * 32) +:+ " " +:+ fmt_04d (row * 32));
       '(_, buffer) ←
         loop fuel
           (fun '(i, buffer) => mret (i <? 32))
           (fun '(i, buffer) =>
              buffer ← (if i mod 8 =? 0 then sprintf 124 (buffer +:+ " ")
                        else mret buffer);
              let location := row * 32 + i in
              buffer ← (if location <? EEPROMlength then
                          b ← call (EEPROM_get location);
                          sprintf 124 (buffer +:+ " " +:+ fmt_02X (uint8 b))
                        else sprintf 124 (buffer +:+ "   "));
              mret (i + 1, buffer))
           (0, buffer);
       buffer ← sprintf 124
                  (buffer +:+ "  " +:+ fmt_04d ((row + 1) * 32 - 1)
                   +:+ " " +:+ fmt_04X ((row + 1) * 32 - 1));
       Serial_println buffer;;
       mret (row + 1))
    row;;
  Serial_print
    (CRLF +:+ "                                               --- End Of EEPROM ---" +:+ CRLF).

(** ** [NTPClass::printTimeDateInfo] *)

Definition printTimeDateInfo (t : NTP.NTPTime_t) : G unit :=
  buffer ← pure_call (table_get dayName (NTP.wday t));
  Serial_print buffer;;
  Serial_print " ";;
  Serial_print (print_unsigned (NTP.mday t));;
  Serial_print " ";;
  buffer ← pure_call (table_get monthName (NTP.mon t));
  Serial_print buffer;;
  Serial_print " ";;
  Serial_print (print_int (NTP.year t + 1900));;
  Serial_print ", ";;
  (if NTP.hour t <? 10 then Serial_print "0" else mret tt);;
  Serial_print (print_unsigned (NTP.hour t));;
  Serial_print ":";;
  (if NTP.min t <? 10 then Serial_print "0" else mret tt);;
  Serial_print (print_unsigned (NTP.min t));;
  Serial_print ":";;
  (if NTP.sec t <? 10 then Serial_print "0" else mret tt);;
  Serial_print (print_unsigned (NTP.sec t)).

(** ** The timer interrupt [ISR(TIMER1_COMPB_vect)] *)

Definition TIMER1_COMPB_vect (fuel : nat) : G unit :=
  update (fun g => set_OCR1B (uint16 (OCR1B g + 15625)) g);;
  update (fun g => set_secs (uint8 (secs g + 1)) g);;
  update (fun g =>
            set_modem (mkModemRecord (secsSince1900 (modem g))
                         (downMins (modem g))
                         (uint16 (waitSecs (modem g) + 1))) g);;
  s ← read secs;
  if s >? 60 then
    update (fun g => set_secs (uint8 (secs g - 60)) g);;
    update (fun g => set_mins (uint8 (mins g + 1)) g);;
    mi ← read mins;
    (if mi >? 240 then update (fun g => set_mins (uint8 (mins g - 240)) g)
     else mret tt);;
    r ← read retryNo;
    st ← read state;
    (if (r >? 0) || (st =? S_LOOKING_FOR_MODEM_ONLINE)
        || (st =? S_ARDUINO_POWERUP) then
       update (fun g =>
                 set_modem (mkModemRecord (secsSince1900 (modem g))
                              (uint16 (downMins (modem g) + 1))
                              (waitSecs (modem g))) g)
     else mret tt);;
    mi ← read mins;
    if mi mod 15 =? 0 then
      md ← read modem;
      call (convertToEEPROMBlock md);;
      call (setEEPROMUptimeStats fuel)
    else mret tt
  else mret tt.

(** [n] ticks of the timer. *)
Fixpoint ticks (fuel : nat) (n : nat) : G unit :=
  match n with
  | O => mret tt
  | S n' => ticks fuel n';; TIMER1_COMPB_vect fuel
  end.

Section Build.

(** [__DATE__] and [__TIME__], the strings the compiler puts there. *)
Variables (DATE TIME : string).

(** ** [switchRelayOff] *)

Definition switchRelayOff : G unit :=
  update (set_relayPin LOW);;
  st ← read state;
  if st =? S_MODEM_RESTART then
    update (set_pollDelayMillis NTP_SERVER_POLL_TIME);;
    Serial_print
      ("    *****                           *****" +:+ CRLF +:+ "    ***** Power re-applied to modem *****" +:+ CRLF +:+ "    *****                           *****" +:+ CRLF +:+ "    *************************************" +:+ CRLF +:+ "    *************************************" +:+ CRLF +:+ CRLF);;
    Serial_print (CR +:+ "Software has been running since ");;
    Serial_print DATE;;
    Serial_print " at ";;
    Serial_println TIME;;
    Serial_print "Polling will resume in ";;
    p ← read pollDelayMillis;
    Serial_print (print_thousandths_rounded p);;
    Serial_print " seconds"
  else mret tt.

(** ** [dumpOutageRecord] *)

(** The locals [mRec] and [n] start zeroed here; [mRec.waitSecs] is never
    read and [getYMDHMS] overwrites every field of [n.t] but the time
    stamp. *)
Definition dumpOutageRecord (fuel : nat) : G unit :=
  let mRec := mkModemRecord 0 0 0 in
  let n := blank_time in
  call getDataFromIndex;;
  mRec ← call (convertFromEEPROMBlock mRec);
  Serial_print "    ";;
  let n := NTP.set_secsSince1900 n (secsSince1900 mRec) in
  n ← pure_call (NTP.getYMDHMS fuel false n);
  printTimeDateInfo n;;
  update (set_buffer EmptyString);;
  Serial_print ", modem went offline";;
  b ← read buffer;
  b ← sprintf 200 (b +:+ " for " +:+ fmt_d (downMins mRec) +:+ " minute");
  update (set_buffer b);;
  (if neqb (downMins mRec) 1 then
     b ← read buffer;
     b ← sprintf 200 (b +:+ "s");
     update (set_buffer b)
   else mret tt);;
  b ← read buffer;
  b ← sprintf 200 (b +:+ CRLF);
  update (set_buffer b);;
  b ← read buffer;
  Serial_print b.

(** ** [handleSerialInput] *)

(** The body of the [while] loop of [handleSerialInput]: one character
    is read and served.  [count0 k] is the value that the uninitialised
    [count] of [getOldestCompletedRecord] holds when the history command is
    read with [k] characters still waiting. *)
Definition handleSerialInput_body (fuel : nat) (count0 : nat -> Z) : G unit :=
  c ← Serial_read;
  let ch := uint8 (toUpperCase c) in
  flag ← read clearEEPROMFlag;
  if (flag : bool) && neqb ch (chr "Y") then
    Serial_print (CRLF +:+ CRLF +:+ "Aborted" +:+ CRLF);;
    update (set_clearEEPROMFlag false)
  else if ch =? chr "C" then
    Serial_print
      (CRLF +:+ CRLF +:+ "ALL OUTAGE DATA WILL BE DELETED. DO YOU WANT TO CONTINUE ? ");;
    update (set_clearEEPROMFlag true)
  else if ch =? chr "D" then
    dumpEEPROM fuel;;
    Serial_print (CRLF +:+ CRLF +:+ "Software has been running since ");;
    Serial_print DATE;;
    Serial_print " at ";;
    Serial_println TIME
  else if ch =? chr "F" then
    Serial_print (CRLF +:+ "Simulation of internet failure ");;
    sim ← read simulateNoResponse;
    (if sim =? 1 then
       update (set_simulateNoResponse 0);;
       Serial_print "disabled"
     else
       update (set_simulateNoResponse 1);;
       Serial_print "enabled");;
    Serial_print CRLF
  else if ch =? chr "H" then
    Serial_print
      (CRLF +:+ CRLF +:+ "  Help Menu" +:+ CRLF +:+ "  ~~~~~~~~~" +:+ CRLF +:+ "  C - Clear outage history (initialise EEPROM)" +:+ CRLF +:+ "  D - Dump EEPROM contents to serial port" +:+ CRLF +:+ "  F - Simulate internet failure (ENABLE/DISABLE)" +:+ CRLF +:+ "  H - Display this menu" +:+ CRLF +:+ "  L - Toggle external status LED (ON/OFF/Default)" +:+ CRLF +:+ "  R - Toggle output relay (ON/OFF/Default)" +:+ CRLF +:+ "  S - Show outage history" +:+ CRLF +:+ "  V - Toggle verbose mode (ON/OFF)" +:+ CRLF +:+ CRLF)
  else if ch =? chr "L" then
    Serial_print CRLF;;
    mode ← read statusLEDMode;
    v ← read verboseMode;
    if mode =? OUTPUT_ON then
      update (set_statusLEDMode OUTPUT_OFF);;
      (if v =? 1 then Serial_print ("Status LED turned off" +:+ CRLF)
       else mret tt)
    else if mode =? OUTPUT_OFF then
      update (set_statusLEDMode OUTPUT_DEFAULT);;
      (if v =? 1 then Serial_print ("Status LED reset to default" +:+ CRLF)
       else mret tt)
    else
      update (set_statusLEDMode OUTPUT_ON);;
      (if v =? 1 then Serial_print ("Status LED turned on" +:+ CRLF)
       else mret tt)
  else if ch =? chr "R" then
    Serial_print CRLF;;
    mode ← read relayMode;
    v ← read verboseMode;
    if mode =? OUTPUT_ON then
      update (set_relayMode OUTPUT_OFF);;
      (if v =? 1 then
         Serial_print ("Output relay turned off (modem energised)" +:+ CRLF)
       else mret tt);;
      Serial_print
        ("    *************************************" +:+ CRLF +:+ "    *************************************" +:+ CRLF);;
      switchRelayOff
    else if mode =? OUTPUT_OFF then
      update (set_relayMode OUTPUT_DEFAULT);;
      (if v =? 1 then
         Serial_print ("Output relay reset to default" +:+ CRLF)
       else mret tt)
    else
      update (set_relayMode OUTPUT_ON);;
      (if v =? 1 then
         Serial_print ("Output relay turned on (modem de-energised)" +:+ CRLF)
       else mret tt)
  else if ch =? chr "S" then
    Serial_print
      (CRLF +:+ CRLF +:+ "                        --- MODEM OUTAGE HISTORY ---" +:+ CRLF +:+ CRLF);;
    k ← read (fun g => length (Serial_rx g));
    i ← call (getOldestCompletedRecord (count0 k) fuel);
    (if neqb i (-1) then
       Serial_print ("  On:" +:+ CRLF);;
       dumpOutageRecord fuel;;
       loop fuel
         (fun _ => i ← call getNextCompletedRecord; mret (neqb i (-1)))
         (fun _ => dumpOutageRecord fuel)
         tt
     else Serial_print ("  No outages to report" +:+ CRLF));;
    Serial_print
      (CRLF +:+ "                           --- End Of History ---" +:+ CRLF +:+ CRLF +:+ "Software has been running since ");;
    Serial_print DATE;;
    Serial_print " at ";;
    Serial_println TIME
  else if ch =? chr "V" then
    Serial_print (CRLF +:+ "Verbose mode turned ");;
    v ← read verboseMode;
    (if v =? 1 then
       update (set_verboseMode 0);;
       Serial_print "off"
     else
       update (set_verboseMode 1);;
       Serial_print "on");;
    Serial_print CRLF
  else if ch =? chr "Y" then
    flag ← read clearEEPROMFlag;
    if flag : bool then
      update (fun g =>
                set_modem (mkModemRecord (secsSince1900 (modem g)) 0
                             (waitSecs (modem g))) g);;
      md ← read modem;
      call (convertToEEPROMBlock md);;
      call (clearLog fuel);;
      Serial_print (CRLF +:+ "Outage log has been cleared" +:+ CRLF);;
      update (set_clearEEPROMFlag false)
    else mret tt
  else mret tt.

Definition handleSerialInput (fuel : nat) (count0 : nat -> Z) : G unit :=
  loop fuel
    (fun _ => n ← Serial_available; mret (n >? 0))
    (fun _ => handleSerialInput_body fuel count0)
    tt.

End Build.

End Sketch.

(** ** The counters of the timer interrupt in closed form *)

(** [secs], [mins] and the number of checkpoints written, [n] ticks after
    a start with both counters at zero. *)
Definition secs_after (n : Z) : Z :=
  if n =? 0 then 0 else (n - 1) mod 60 + 1.
Definition mins_after (n : Z) : Z :=
  if n <? 61 then 0 else ((n - 61) / 60) mod 240 + 1.
Definition checkpoints_after (n : Z) : Z :=
  if n =? 0 then 0 else (n - 1) / 900.

(** The globals at their initialisers, over a device holding [mem] and a
    serial port that has received [rx]. *)
Definition sketch_at_reset (mem : list Z) (rx : list Z) : Sketch.sketch :=
  Sketch.mkSketch (store_on mem) (mkModemRecord 0 0 0) EmptyString
    0 Sketch.S_ARDUINO_POWERUP 1 0 Sketch.OUTPUT_DEFAULT Sketch.OUTPUT_DEFAULT
    0 false 0 0 0 Sketch.HIGH rx EmptyString.

(** The trace of reading the cells [0 .. n-1] in turn. *)
Definition cells_read (n : Z) : list event :=
  map (fun k => EvGet (Z.of_nat k)) (seq 0 (Z.to_nat n)).

(** The sketch [g] after the cells [0 .. n-1] have been read and the serial
    output has become [tx]. *)
Definition dumping (g : Sketch.sketch) (n : Z) (tx : string) : Sketch.sketch :=
  Sketch.set_Serial_tx tx
    (Sketch.set_m
       (mkStore (EEPROM (Sketch.m g)) (_modemRecordIndex (Sketch.m g))
          (EEPROMBlock (Sketch.m g))
          (trace (Sketch.m g) ++ cells_read n)) g).

(** The heading and the closing line of the dump. *)
Definition EEPROM_dump_header : string :=
  Sketch.CRLF +:+ "                                                --- EEPROM DUMP ---" +:+ Sketch.CRLF +:+ "   Hex  Dec                                                                                                      Dec  Hex" +:+ Sketch.CRLF.
Definition EEPROM_dump_footer : string :=
  Sketch.CRLF +:+ "                                               --- End Of EEPROM ---" +:+ Sketch.CRLF.

(** [tx] followed by the [lines], each with its line end. *)
Definition with_lines (tx : string) (lines : list string) : string :=
  fold_left (fun acc l => acc +:+ (l +:+ Sketch.CRLF)) lines tx.

(** ** Code that leaves the log alone *)

(** A member function that, whenever it returns, has left the cells of the
    device as they were and has made no [EEPROM.update]. *)
Definition M_quiet {A : Type} (c : M A) : Prop :=
  forall s a s', c s = Some (a, s') ->
    EEPROM s' = EEPROM s /\ updates (trace s') = updates (trace s).

(** [g'] has the cells, the updates made so far, the confirmation flag and
    the waiting input of [g]. *)
Definition quiet (g g' : Sketch.sketch) : Prop :=
  EEPROM (Sketch.m g') = EEPROM (Sketch.m g) /\
  updates (trace (Sketch.m g')) = updates (trace (Sketch.m g)) /\
  Sketch.clearEEPROMFlag g' = Sketch.clearEEPROMFlag g /\
  Sketch.Serial_rx g' = Sketch.Serial_rx g.

Definition G_quiet {A : Type} (c : Sketch.G A) : Prop :=
  forall g o g', c g = (o, g') -> quiet g g'.

(** The command letter that [handleSerialInput] makes of a character. *)
Definition command_of (c : Z) : Z := uint8 (Sketch.toUpperCase c).

(** Somewhere in [rx] a [C] is directly followed by a [Y], in either
    case. *)
Fixpoint c_then_y (rx : list Z) : bool :=
  match rx with
  | c :: rest =>
      match rest with
      | d :: _ =>
          ((command_of c =? Sketch.chr "C") && (command_of d =? Sketch.chr "Y"))
          || c_then_y rest
      | [] => false
      end
  | [] => false
  end.

(** * Basic facts *)

Lemma peek_poke_same (mem : list Z) (a v : Z) :
  0 <= a < EEPROM_len mem -> peek (poke mem a v) a = v.
Proof.
  unfold peek, poke, EEPROM_len. intros H.
  destruct (Z.leb_spec 0 a); [|lia].
  rewrite list_lookup_insert_eq by lia. reflexivity.
Qed.

Lemma peek_poke_other (mem : list Z) (a b v : Z) :
  a <> b -> peek (poke mem a v) b = peek mem b.
Proof.
  unfold peek, poke. intros H.
  destruct (Z.leb_spec 0 a), (Z.leb_spec 0 b); try reflexivity.
  rewrite list_lookup_insert_ne by lia. reflexivity.
Qed.

Lemma length_poke (mem : list Z) (a v : Z) :
  length (poke mem a v) = length mem.
Proof.
  unfold poke. destruct (0 <=? a); [apply length_insert | reflexivity].
Qed.

Lemma EEPROM_len_poke (mem : list Z) (a v : Z) :
  EEPROM_len (poke mem a v) = EEPROM_len mem.
Proof. unfold EEPROM_len. now rewrite length_poke. Qed.

Lemma well_sized_spec (mem : list Z) :
  well_sized mem = true <->
  exists N, 1 <= N /\ EEPROM_len mem = 8 * N.
Proof.
  unfold well_sized, sizeof_EEPROMRecord_t. split.
  - intros [H1 H2]%andb_true_iff.
    apply Z.ltb_lt in H1. apply Z.eqb_eq in H2.
    exists (EEPROM_len mem / 8).
    pose proof (Z.div_mod (EEPROM_len mem) 8). lia.
  - intros (N & HN & E). rewrite E. apply andb_true_iff. split.
    + apply Z.ltb_lt. lia.
    + apply Z.eqb_eq. rewrite Z.mul_comm. apply Z.mod_mul. lia.
Qed.

Lemma numRecords_eq (mem : list Z) (N : Z) :
  EEPROM_len mem = 8 * N -> numRecords mem = N.
Proof.
  unfold numRecords, sizeof_EEPROMRecord_t. intros ->.
  rewrite Z.mul_comm. apply Z.div_mul. lia.
Qed.

Lemma slot_index_spec (mem : list Z) (N i : Z) :
  EEPROM_len mem = 8 * N ->
  slot_index mem i = true <-> exists j, 0 <= j < N /\ i = 8 * j.
Proof.
  unfold slot_index, sizeof_EEPROMRecord_t. intros E. rewrite E. split.
  - intros [[H1 H2]%andb_true_iff H3]%andb_true_iff.
    apply Z.leb_le in H1. apply Z.ltb_lt in H2. apply Z.eqb_eq in H3.
    exists (i / 8). pose proof (Z.div_mod i 8). lia.
  - intros (j & Hj & ->). rewrite !andb_true_iff. repeat split.
    + apply Z.leb_le. lia.
    + apply Z.ltb_lt. lia.
    + apply Z.eqb_eq. rewrite Z.mul_comm. apply Z.mod_mul. lia.
Qed.

Lemma elem_of_slot_numbers (mem : list Z) (j : Z) :
  In j (slot_numbers mem) <-> 0 <= j < numRecords mem.
Proof.
  unfold slot_numbers. rewrite in_map_iff. split.
  - intros (n & <- & Hn). apply in_seq in Hn. lia.
  - intros H. exists (Z.to_nat j). split; [lia|]. apply in_seq. lia.
Qed.

Lemma no_slot_flagged_spec (f : Z) (mem : list Z) :
  no_slot_flagged f mem = true <->
  forall j, 0 <= j < numRecords mem -> slot_flag mem j <> f.
Proof.
  unfold no_slot_flagged, neqb. rewrite forallb_forall. split.
  - intros H j Hj E. specialize (H j (proj2 (elem_of_slot_numbers mem j) Hj)).
    apply negb_true_iff, Z.eqb_neq in H. auto.
  - intros H j Hj%elem_of_slot_numbers.
    apply negb_true_iff, Z.eqb_neq. auto.
Qed.

Lemma at_most_one_flagged_spec (f : Z) (mem : list Z) :
  at_most_one_flagged f mem = true <->
  forall j1 j2, 0 <= j1 < numRecords mem -> 0 <= j2 < numRecords mem ->
    slot_flag mem j1 = f -> slot_flag mem j2 = f -> j1 = j2.
Proof.
  unfold at_most_one_flagged. rewrite forallb_forall. split.
  - intros H j1 j2 H1 H2 E1 E2.
    specialize (H j1 (proj2 (elem_of_slot_numbers mem j1) H1)).
    rewrite forallb_forall in H.
    specialize (H j2 (proj2 (elem_of_slot_numbers mem j2) H2)).
    rewrite E1, E2, Z.eqb_refl in H. simpl in H. now apply Z.eqb_eq.
  - intros H j1 H1%elem_of_slot_numbers. apply forallb_forall.
    intros j2 H2%elem_of_slot_numbers.
    destruct (Z.eqb_spec (slot_flag mem j1) f) as [E1|]; [|reflexivity].
    destruct (Z.eqb_spec (slot_flag mem j2) f) as [E2|]; [|reflexivity].
    simpl. apply Z.eqb_eq. auto.
Qed.

Lemma updates_app (t1 t2 : list event) :
  updates (t1 ++ t2) = updates t1 ++ updates t2.
Proof.
  induction t1 as [|[a|a v] t1 IH]; simpl; [reflexivity | exact IH |].
  now rewrite IH.
Qed.

Lemma probes_app (t1 t2 : list event) :
  probes (t1 ++ t2) = probes t1 + probes t2.
Proof.
  induction t1 as [|[a|a v] t1 IH]; simpl; lia.
Qed.

(** ** The rule for [while]: an invariant and a variant give the result *)

Lemma while_rule {L R : Type} (cond : L -> store -> bool)
    (body : L -> M (L + R)) (Inv : L -> store -> Prop)
    (var : L -> store -> Z) (Post : L + R -> store -> Prop) :
  (forall l s, Inv l s -> cond l s = false -> Post (inl l) s) ->
  (forall l s, Inv l s -> cond l s = true ->
     exists o s', body l s = Some (o, s') /\
       match o with
       | inl l' => Inv l' s' /\ 0 <= var l' s' < var l s
       | inr r => Post (inr r) s'
       end) ->
  forall fuel l s, Inv l s -> 0 <= var l s < Z.of_nat fuel ->
    exists o s', while fuel cond body l s = Some (o, s') /\ Post o s'.
Proof.
  intros Hexit Hstep fuel. induction fuel as [|fuel IH]; intros l s HI Hv.
  - lia.
  - simpl. destruct (cond l s) eqn:C.
    + destruct (Hstep l s HI C) as (o & s' & -> & Ho).
      destruct o as [l'|r].
      * destruct Ho as [HI' Hv']. apply IH; [exact HI' | lia].
      * eauto.
    + eauto.
Qed.

Lemma while_S {L R : Type} (fuel : nat) (cond : L -> store -> bool)
    (body : L -> M (L + R)) (l : L) (s : store) :
  while (S fuel) cond body l s =
  if cond l s then
    match body l s with
    | Some (inl l', s') => while fuel cond body l' s'
    | Some (inr r, s') => Some (inr r, s')
    | None => None
    end
  else Some (inl l, s).
Proof. reflexivity. Qed.

Lemma while_pos {L R : Type} (fuel : nat) (cond : L -> store -> bool)
    (body : L -> M (L + R)) (l : L) (s : store) :
  (0 < fuel)%nat ->
  while fuel cond body l s =
  if cond l s then
    match body l s with
    | Some (inl l', s') => while (pred fuel) cond body l' s'
    | Some (inr r, s') => Some (inr r, s')
    | None => None
    end
  else Some (inl l, s).
Proof. destruct fuel; [lia | reflexivity]. Qed.

(** ** Symbolic execution of straight-line code *)

Ltac run_M :=
  unfold mbind, mret, M_bind, M_ret, EEPROM_length, EEPROM_get, EEPROM_update,
    get_index, set_index, get_block, set_block;
  cbn [EEPROM _modemRecordIndex EEPROMBlock trace fst snd].

(** The same by call-by-value evaluation, for long straight-line code run
    on a store given by its fields. *)
Ltac run_cbv :=
  cbv beta iota zeta delta
    [mbind mret M_bind M_ret EEPROM_length EEPROM_get EEPROM_update
     get_index set_index get_block set_block
     EEPROM _modemRecordIndex EEPROMBlock trace].

Ltac to_prop :=
  repeat match goal with
  | H : _ && _ = true |- _ => apply andb_true_iff in H; destruct H
  | H : _ && _ = false |- _ => apply andb_false_iff in H
  | H : neqb _ _ = true |- _ => apply negb_true_iff, Z.eqb_neq in H
  | H : neqb _ _ = false |- _ => apply negb_false_iff, Z.eqb_eq in H
  | H : negb _ = true |- _ => apply negb_true_iff in H
  | H : negb _ = false |- _ => apply negb_false_iff in H
  | H : (_ =? _) = true |- _ => apply Z.eqb_eq in H
  | H : (_ =? _) = false |- _ => apply Z.eqb_neq in H
  | H : (_ <=? _) = true |- _ => apply Z.leb_le in H
  | H : (_ <=? _) = false |- _ => apply Z.leb_gt in H
  | H : (_ <? _) = true |- _ => apply Z.ltb_lt in H
  | H : (_ <? _) = false |- _ => apply Z.ltb_ge in H
  | H : (_ >=? _) = true |- _ => rewrite Z.geb_leb in H
  | H : (_ >=? _) = false |- _ => rewrite Z.geb_leb in H
  | H : (_ >? _) = true |- _ => rewrite Z.gtb_ltb in H
  | H : (_ >? _) = false |- _ => rewrite Z.gtb_ltb in H
  end.

(** Decide the comparisons met while running the code. *)
Ltac case_cmp :=
  match goal with
  | |- context [?a >=? ?b] => rewrite (Z.geb_leb a b)
  | |- context [?a >? ?b] => rewrite (Z.gtb_ltb a b)
  | |- context [?a <=? ?b] => destruct (Z.leb_spec a b)
  | |- context [?a <? ?b] => destruct (Z.ltb_spec a b)
  | |- context [?a =? ?b] => destruct (Z.eqb_spec a b)
  end.

(** ** [getRecordInProgress] *)

Lemma getRecordInProgress_spec (s : store) (N : Z) (fuel : nat) :
  EEPROM_len (EEPROM s) = 8 * N -> 1 <= N -> N + 1 < Z.of_nat fuel ->
  exists r s', getRecordInProgress fuel s = Some (r, s') /\
    found_in_progress N s r s'.
Proof.
  intros Hlen HN Hfuel.
  unfold getRecordInProgress. run_M.
  fold (EEPROM_len (EEPROM s)). fold (numRecords (EEPROM s)).
  rewrite (numRecords_eq _ N Hlen).
  match goal with
  | |- context [while fuel ?cnd ?bdy ?ini ?st0] =>
    destruct (while_rule cnd bdy
      (fun '(i, fl, count) s' =>
         EEPROM s' = EEPROM s /\ EEPROMBlock s' = EEPROMBlock s /\
         0 <= count <= N + 1 /\
         (exists t, trace s' = trace s ++ t /\ updates t = [] /\
                    probes t = count + 1) /\
         (forall j, 0 <= j < count -> j < N ->
            slot_flag (EEPROM s) j <> MODEM_RECORD_IN_PROGRESS) /\
         (count <= N ->
            i = (if count <? N then 8 * count else 0) /\
            fl = peek (EEPROM s) (i + 7)) /\
         (0 < count ->
            _modemRecordIndex s' = (if count - 1 <? N then 8 * (count - 1) else 0)))
      (fun '(i, fl, count) _ => N + 1 - count)
      (fun o s' =>
         match o with
         | inr _ => False
         | inl (i, fl, count) =>
           EEPROM s' = EEPROM s /\ EEPROMBlock s' = EEPROMBlock s /\
           (exists t, trace s' = trace s ++ t /\ updates t = [] /\
                      probes t = count + 1) /\
           ((count = N + 1 /\ _modemRecordIndex s' = 0 /\
             forall j, 0 <= j < N ->
               slot_flag (EEPROM s) j <> MODEM_RECORD_IN_PROGRESS)
            \/ (0 <= count < N /\ i = 8 * count /\
                slot_flag (EEPROM s) count = MODEM_RECORD_IN_PROGRESS /\
                forall j, 0 <= j < count ->
                  slot_flag (EEPROM s) j <> MODEM_RECORD_IN_PROGRESS))
         end)) with (fuel := fuel) (l := ini) (s := st0)
      as (o & s' & -> & HP)
  end.
  - (* exit *)
    intros [[i fl] count] s' (HE & HB & Hc & Ht & Hno & Hi & Hidx) C.
    split_and!; try assumption.
    destruct (Z.leb_spec count N) as [Hle|Hgt].
    + assert (fl = MODEM_RECORD_IN_PROGRESS) as Hfl.
      { to_prop. destruct C as [C|C]; to_prop; [exact C | lia]. }
      destruct Hi as [Hi Hpk]; [lia|]. right.
      destruct (Z.ltb_spec count N).
      * subst i. split_and!; try lia.
        -- unfold slot_flag. congruence.
        -- intros j Hj. apply Hno; lia.
      * exfalso. subst i. apply (Hno 0); [lia | lia |].
        unfold slot_flag. change (8 * 0 + 7) with (0 + 7). congruence.
    + left. assert (count = N + 1) as -> by lia.
      split; [reflexivity|]. split.
      * rewrite Hidx by lia. destruct (Z.ltb_spec (N + 1 - 1) N); [lia|reflexivity].
      * intros j Hj. apply Hno; lia.
  - (* step *)
    intros [[i fl] count] s' (HE & HB & Hc & (t & Ht & Hu & Hp) & Hno & Hi & Hidx) C.
    to_prop. destruct Hi as [Hi Hfl]; [lia|].
    eexists _, _. split; [run_M; reflexivity|]. run_M.
    rewrite HE. fold (EEPROM_len (EEPROM s)). rewrite Hlen.
    unfold sizeof_EEPROMRecord_t.
    split_and!; try assumption; try lia; try reflexivity.
    + exists (t ++ [EvGet ((if i + 8 >=? 8 * N then i + 8 - 8 * N else i + 8) + 7)]).
      rewrite Ht, updates_app, probes_app, Hu, Hp, <- app_assoc. simpl.
      split_and!; [reflexivity | reflexivity | lia].
    + intros j Hj HjN. destruct (Z.eq_dec j count) as [->|].
      * subst fl i. destruct (Z.ltb_spec count N); [|lia].
        unfold slot_flag. assumption.
      * apply Hno; lia.
    + intros Hc1. subst i. split; [repeat case_cmp; lia | reflexivity].
    + intros _. subst i. replace (count + 1 - 1) with count by lia. reflexivity.
  - (* initial *)
    split_and!; try reflexivity; try lia.
    + exists [EvGet (0 + 7)]. split_and!; reflexivity.
    + intros _. destruct (Z.ltb_spec 0 N); [split; reflexivity | lia].
  - simpl. lia.
  - destruct o as [[[i fl] count]|r]; [|contradiction].
    destruct HP as (HE & HB & (t & Ht & Hu & Hp) & [(-> & Hidx & Hno)|(Hc & -> & Hf & Hno)]).
    + run_M. rewrite Z.gtb_ltb. destruct (Z.ltb_spec N (N + 1)); [|lia].
      eexists _, _. split; [reflexivity|].
      split_and!; try assumption. exists t. split_and!; try assumption.
      left. split_and!; try assumption; try reflexivity; lia.
    + run_M. rewrite Z.gtb_ltb. destruct (Z.ltb_spec N count); [lia|].
      eexists _, _. split; [reflexivity|]. run_M.
      split_and!; try assumption. exists t. split_and!; try assumption.
      right. exists count. split_and!; try assumption; try reflexivity; lia.
Qed.

(** ** [completeLogEntry] *)

Lemma completeLogEntry_spec (s : store) (N : Z) (fuel : nat) :
  EEPROM_len (EEPROM s) = 8 * N -> 1 <= N -> N + 1 < Z.of_nat fuel ->
  exists s' t j, completeLogEntry fuel s = Some (tt, s') /\
    append_slot N (EEPROM s) j /\
    EEPROM s' = write_all (EEPROM s)
                  (seal_updates (8 * j) (EEPROMBlock s)
                   ++ start_updates (8 * next_slot N j) (EEPROMBlock s)) /\
    _modemRecordIndex s' = 8 * next_slot N j /\
    EEPROMBlock s' = EEPROMBlock s /\
    trace s' = trace s ++ t /\
    updates t = seal_updates (8 * j) (EEPROMBlock s)
                ++ start_updates (8 * next_slot N j) (EEPROMBlock s) /\
    probes t <= N + 2.
Proof.
  intros Hlen HN Hfuel.
  destruct (getRecordInProgress_spec s N fuel Hlen HN Hfuel)
    as (r & s1 & Hrun & HE & HB & t & Ht & Hu & Hcases).
  assert (exists j, append_slot N (EEPROM s) j /\ _modemRecordIndex s1 = 8 * j
                    /\ probes t <= N + 2) as (j & Hj & Hidx & Hp).
  { destruct Hcases as [(_ & Hi & Hp & Hno)|(j & Hj & _ & Hi & Hp & Hf & Hno)].
    - exists 0. split; [|split; [exact Hi | lia]].
      split; [lia|]. right. split; [reflexivity | exact Hno].
    - exists j. split; [|split; [exact Hi | lia]].
      split; [lia|]. left. split; assumption. }
  destruct Hj as [Hj0 Hj].
  unfold completeLogEntry. unfold mbind at 1. unfold M_bind at 1.
  rewrite Hrun. clear Hrun.
  destruct s as [mem idx b tr], s1 as [mem1 idx1 b1 tr1].
  cbn [EEPROM _modemRecordIndex EEPROMBlock trace] in *. subst mem1 b1 tr1 idx1.
  assert (forall (A : Type) (a c : A),
            (if 8 * j + 8 >=? 8 * N then a else c) =
            (if j + 1 <? N then c else a)) as Hwrap.
  { intros A a c. rewrite Z.geb_leb.
    destruct (Z.leb_spec (8 * N) (8 * j + 8)), (Z.ltb_spec (j + 1) N);
      reflexivity || lia. }
  unfold next_slot.
  destruct (Z.ltb_spec (j + 1) N) as [Hw|Hw]; eexists _, _, j; (split; [
    run_cbv; destruct (Z.ltb_spec (8 * j) 0) as [?|_]; [lia|]; run_cbv;
    rewrite !length_poke; fold (EEPROM_len mem); rewrite Hlen;
    unfold sizeof_EEPROMRecord_t; rewrite Hwrap;
    destruct (Z.ltb_spec (j + 1) N); try lia; run_cbv; reflexivity
  | cbn [EEPROM _modemRecordIndex EEPROMBlock trace];
    destruct (Z.ltb_spec (j + 1) N); try lia ]).
  - replace (8 * (j + 1)) with (8 * j + 8) by lia.
    split_and!; try reflexivity.
    + split; assumption.
    + rewrite <- !app_assoc. reflexivity.
    + rewrite !updates_app, Hu. reflexivity.
    + rewrite !probes_app. simpl. lia.
  - replace (8 * j + 8 - 8 * N) with (8 * 0) by lia.
    split_and!; try reflexivity.
    + split; assumption.
    + rewrite <- !app_assoc. reflexivity.
    + rewrite !updates_app, Hu. reflexivity.
    + rewrite !probes_app. simpl. lia.
Qed.

Ltac peek_simpl :=
  repeat first
    [ rewrite peek_poke_same by (rewrite ?EEPROM_len_poke; lia)
    | rewrite peek_poke_other by lia ].

(** The flags of the ring after one append at slot [j]. *)
Lemma slot_flag_after_append (mem : list Z) (N j x : Z) (b : EEPROMRecord_t) :
  EEPROM_len mem = 8 * N -> 0 <= j < N -> 0 <= x < N ->
  slot_flag (write_all mem (seal_updates (8 * j) b
                            ++ start_updates (8 * next_slot N j) b)) x =
  if x =? next_slot N j then MODEM_RECORD_IN_PROGRESS
  else if x =? j then MODEM_RECORD_COMPLETE
  else slot_flag mem x.
Proof.
  intros Hlen Hj Hx. unfold slot_flag, write_all, seal_updates, start_updates.
  cbn [app fold_left fst snd].
  assert (0 <= next_slot N j < N) as Hn.
  { unfold next_slot. destruct (Z.ltb_spec (j + 1) N); lia. }
  destruct (Z.eqb_spec x (next_slot N j)) as [->|Hne].
  - peek_simpl. reflexivity.
  - destruct (Z.eqb_spec x j) as [->|Hne'].
    + peek_simpl. reflexivity.
    + peek_simpl. reflexivity.
Qed.

Lemma EEPROM_len_write_all (mem : list Z) (ws : list (Z * Z)) :
  EEPROM_len (write_all mem ws) = EEPROM_len mem.
Proof.
  unfold write_all. revert mem.
  induction ws as [|w ws IH]; intros mem; simpl; [reflexivity|].
  rewrite IH. apply EEPROM_len_poke.
Qed.

(** One append leaves exactly the slot after the sealed one IN_PROGRESS. *)
Lemma completeLogEntry_in_progress (s : store) (N : Z) (fuel : nat) :
  EEPROM_len (EEPROM s) = 8 * N -> 1 <= N -> N + 1 < Z.of_nat fuel ->
  at_most_one_flagged MODEM_RECORD_IN_PROGRESS (EEPROM s) = true ->
  exists s', completeLogEntry fuel s = Some (tt, s') /\
    EEPROM_len (EEPROM s') = 8 * N /\
    at_most_one_flagged MODEM_RECORD_IN_PROGRESS (EEPROM s') = true.
Proof.
  intros Hlen HN Hfuel H1.
  destruct (completeLogEntry_spec s N fuel Hlen HN Hfuel)
    as (s' & t & j & Hrun & [Hj Hslot] & HE & _).
  exists s'. split; [exact Hrun|].
  assert (EEPROM_len (EEPROM s') = 8 * N) as Hlen'.
  { rewrite HE, EEPROM_len_write_all. exact Hlen. }
  split; [exact Hlen'|].
  rewrite at_most_one_flagged_spec in H1 |- *.
  rewrite (numRecords_eq _ N Hlen) in H1. rewrite (numRecords_eq _ N Hlen').
  assert (forall x, 0 <= x < N ->
            slot_flag (EEPROM s') x = MODEM_RECORD_IN_PROGRESS ->
            x = next_slot N j) as Honly.
  { intros x Hx. rewrite HE, (slot_flag_after_append _ N j x _ Hlen Hj Hx).
    destruct (Z.eqb_spec x (next_slot N j)) as [|_]; [intros _; assumption|].
    destruct (Z.eqb_spec x j) as [|Hxj]; [discriminate|].
    intros Hf. exfalso. destruct Hslot as [[Hfj _]|[_ Hno]].
    - apply Hxj. apply H1; assumption || lia.
    - apply (Hno x Hx Hf). }
  intros j1 j2 Hj1 Hj2 F1 F2.
  rewrite (Honly j1 Hj1 F1), (Honly j2 Hj2 F2). reflexivity.
Qed.

Lemma convertToEEPROMBlock_run (r : modemRecord_t) (s : store) :
  exists s', convertToEEPROMBlock r s = Some (0, s') /\
    EEPROM s' = EEPROM s /\ _modemRecordIndex s' = _modemRecordIndex s /\
    trace s' = trace s /\
    EEPROMBlock s' =
      mkEEPROMRecord
        (Z.land (Z.shiftr (secsSince1900 r) 24) 0xff)
        (Z.land (Z.shiftr (secsSince1900 r) 16) 0xff)
        (Z.land (Z.shiftr (secsSince1900 r) 8) 0xff)
        (Z.land (secsSince1900 r) 0xff)
        (Z.land (Z.shiftr (downMins r) 8) 0xff)
        (Z.land (downMins r) 0xff)
        (spare (EEPROMBlock s))
        MODEM_RECORD_COMPLETE.
Proof.
  unfold convertToEEPROMBlock. run_M. eexists. split; [reflexivity|].
  run_M. repeat split.
Qed.

Lemma completeLogEntry_call_in_progress (s : store) (N : Z) (fuel : nat)
    (o : option modemRecord_t) :
  EEPROM_len (EEPROM s) = 8 * N -> 1 <= N -> N + 1 < Z.of_nat fuel ->
  at_most_one_flagged MODEM_RECORD_IN_PROGRESS (EEPROM s) = true ->
  exists s', completeLogEntry_call fuel o s = Some (tt, s') /\
    EEPROM_len (EEPROM s') = 8 * N /\
    at_most_one_flagged MODEM_RECORD_IN_PROGRESS (EEPROM s') = true.
Proof.
  intros Hlen HN Hfuel H1. destruct o as [r|]; simpl.
  - destruct (convertToEEPROMBlock_run r s) as (s1 & Hc & HE & _).
    unfold mbind, M_bind. rewrite Hc.
    apply completeLogEntry_in_progress; rewrite ?HE; assumption.
  - apply completeLogEntry_in_progress; assumption.
Qed.

Lemma completeLogEntry_calls_in_progress (os : list (option modemRecord_t))
    (s : store) (N : Z) (fuel : nat) :
  EEPROM_len (EEPROM s) = 8 * N -> 1 <= N -> N + 1 < Z.of_nat fuel ->
  at_most_one_flagged MODEM_RECORD_IN_PROGRESS (EEPROM s) = true ->
  exists s', completeLogEntry_calls fuel os s = Some (tt, s') /\
    EEPROM_len (EEPROM s') = 8 * N /\
    at_most_one_flagged MODEM_RECORD_IN_PROGRESS (EEPROM s') = true.
Proof.
  revert s. induction os as [|o os IH]; intros s Hlen HN Hfuel H1.
  - exists s. repeat split; assumption.
  - destruct (completeLogEntry_call_in_progress s N fuel o Hlen HN Hfuel H1)
      as (s1 & Hrun & Hlen1 & H11).
    cbn [completeLogEntry_calls]. unfold mbind at 1. unfold M_bind at 1.
    rewrite Hrun. apply IH; assumption.
Qed.

(** ** [clearLog] *)

Lemma erase_updates_S (n : nat) :
  erase_updates (S n) = erase_updates n ++ [(Z.of_nat n, MODEM_RECORD_UNUSED)].
Proof. unfold erase_updates. rewrite seq_S, map_app. reflexivity. Qed.

Lemma clearLog_spec (s : store) (fuel : nat) :
  EEPROM_len (EEPROM s) < Z.of_nat fuel ->
  exists s' t mem, clearLog fuel s = Some (0, s') /\
    EEPROM_len mem = EEPROM_len (EEPROM s) /\
    (forall a, 0 <= a < EEPROM_len (EEPROM s) -> peek mem a = MODEM_RECORD_UNUSED) /\
    EEPROM s' = write_all mem
                  (checkpoint_updates (_modemRecordIndex s) (EEPROMBlock s)) /\
    _modemRecordIndex s' = _modemRecordIndex s /\
    EEPROMBlock s' = EEPROMBlock s /\
    trace s' = trace s ++ t /\
    probes t = 0 /\
    updates t = erase_updates (length (EEPROM s))
                ++ checkpoint_updates (_modemRecordIndex s) (EEPROMBlock s).
Proof.
  intros Hfuel. destruct s as [mem idx b tr].
  cbn [EEPROM _modemRecordIndex EEPROMBlock trace] in *.
  unfold clearLog. unfold mbind at 1. unfold M_bind at 1.
  match goal with
  | |- context [while fuel ?cnd ?bdy ?ini ?st0] =>
    destruct (while_rule cnd bdy
      (fun i s' =>
         0 <= i <= EEPROM_len mem /\
         EEPROM_len (EEPROM s') = EEPROM_len mem /\
         (forall a, 0 <= a < i -> peek (EEPROM s') a = MODEM_RECORD_UNUSED) /\
         _modemRecordIndex s' = idx /\
         EEPROMBlock s' = b /\
         exists t, trace s' = tr ++ t /\ probes t = 0 /\
                   updates t = erase_updates (Z.to_nat i))
      (fun i _ => EEPROM_len mem - i)
      (fun o s' =>
         match o with
         | inr _ => False
         | inl _ =>
           EEPROM_len (EEPROM s') = EEPROM_len mem /\
           (forall a, 0 <= a < EEPROM_len mem ->
              peek (EEPROM s') a = MODEM_RECORD_UNUSED) /\
           _modemRecordIndex s' = idx /\
           EEPROMBlock s' = b /\
           exists t, trace s' = tr ++ t /\ probes t = 0 /\
                     updates t = erase_updates (length mem)
         end)) with (fuel := fuel) (l := ini) (s := st0)
      as (o & s1 & -> & HP)
  end.
  - intros i s' (Hi & Hlen & Hpk & Hidx & HB & t & Ht & Hp & Hu) C.
    fold (EEPROM_len (EEPROM s')) in C. to_prop.
    assert (i = EEPROM_len mem) as -> by lia.
    split_and!; try assumption. exists t. split_and!; try assumption.
    rewrite Hu. unfold EEPROM_len. rewrite Nat2Z.id. reflexivity.
  - intros i s' (Hi & Hlen & Hpk & Hidx & HB & t & Ht & Hp & Hu) C.
    fold (EEPROM_len (EEPROM s')) in C. to_prop.
    eexists _, _. split; [run_M; reflexivity|]. run_M.
    split_and!; try assumption; try lia.
    + rewrite EEPROM_len_poke. exact Hlen.
    + intros a Ha. destruct (Z.eq_dec a i) as [->|].
      * apply peek_poke_same. lia.
      * rewrite peek_poke_other by lia. apply Hpk. lia.
    + exists (t ++ [EvUpdate i MODEM_RECORD_UNUSED]).
      rewrite Ht, <- app_assoc, probes_app, updates_app, Hp, Hu.
      split_and!; try reflexivity.
      replace (Z.to_nat (i + 1)) with (S (Z.to_nat i)) by lia.
      rewrite erase_updates_S. simpl. rewrite Z2Nat.id by lia. reflexivity.
  - split_and!; try reflexivity; try lia.
    + unfold EEPROM_len. lia.
    + exists []. rewrite app_nil_r. split_and!; reflexivity.
  - simpl. unfold EEPROM_len in *. lia.
  - destruct o as [i|r]; [|contradiction].
    destruct HP as (Hlen & Hpk & Hidx & HB & t & Ht & Hp & Hu).
    destruct s1 as [mem1 idx1 b1 tr1].
    cbn [EEPROM _modemRecordIndex EEPROMBlock trace] in *. subst idx1 b1 tr1.
    run_cbv. eexists _, _, mem1. split; [reflexivity|].
    cbn [EEPROM _modemRecordIndex EEPROMBlock trace].
    split_and!; try assumption; try reflexivity.
    + rewrite <- !app_assoc. reflexivity.
    + rewrite !probes_app, Hp. reflexivity.
    + rewrite updates_app, Hu. reflexivity.
Qed.

(** The flags of the ring after [clearLog] with the index at slot [j]. *)
Lemma slot_flag_after_clear (mem : list Z) (N j x : Z) (b : EEPROMRecord_t) :
  EEPROM_len mem = 8 * N -> 0 <= j < N -> 0 <= x < N ->
  (forall a, 0 <= a < 8 * N -> peek mem a = MODEM_RECORD_UNUSED) ->
  slot_flag (write_all mem (checkpoint_updates (8 * j) b)) x =
  if x =? j then MODEM_RECORD_IN_PROGRESS else MODEM_RECORD_UNUSED.
Proof.
  intros Hlen Hj Hx Hff. unfold slot_flag, write_all, checkpoint_updates.
  cbn [fold_left fst snd].
  destruct (Z.eqb_spec x j) as [->|Hne].
  - peek_simpl. reflexivity.
  - peek_simpl. apply Hff. lia.
Qed.

(** ** The codec *)

Lemma land_0xff (x : Z) : Z.land x 0xff = x mod 256.
Proof. change 0xff with (Z.ones 8). rewrite Z.land_ones by lia. reflexivity. Qed.

Lemma bytes_of_uint32 (x : Z) :
  0 <= x < 2 ^ 32 ->
  (Z.shiftl (Z.land (Z.shiftr x 24) 0xff) 24
   + Z.shiftl (Z.land (Z.shiftr x 16) 0xff) 16
   + Z.shiftl (Z.land (Z.shiftr x 8) 0xff) 8
   + Z.land x 0xff) mod 2 ^ 32 = x.
Proof.
  intros Hx. rewrite !land_0xff, !Z.shiftl_mul_pow2, !Z.shiftr_div_pow2 by lia.
  change (2 ^ 32) with 4294967296 in *. change (2 ^ 24) with 16777216.
  change (2 ^ 16) with 65536. change (2 ^ 8) with 256.
  Z.div_mod_to_equations. lia.
Qed.

Lemma bytes_of_uint16 (x : Z) :
  0 <= x < 2 ^ 16 ->
  (Z.shiftl (Z.land (Z.shiftr x 8) 0xff) 8 + Z.land x 0xff) mod 2 ^ 16 = x.
Proof.
  intros Hx. rewrite !land_0xff, !Z.shiftl_mul_pow2, !Z.shiftr_div_pow2 by lia.
  change (2 ^ 16) with 65536 in *. change (2 ^ 8) with 256.
  Z.div_mod_to_equations. lia.
Qed.

(** ** [setEEPROMUptimeStats] *)

Lemma setEEPROMUptimeStats_spec (s : store) (N : Z) (fuel : nat) :
  EEPROM_len (EEPROM s) = 8 * N -> 1 <= N -> N < Z.of_nat fuel ->
  exists s' t j, setEEPROMUptimeStats fuel s = Some (tt, s') /\
    0 <= j < N /\
    EEPROM s' = write_all (EEPROM s) (checkpoint_updates (8 * j) (EEPROMBlock s)) /\
    _modemRecordIndex s' = 8 * j /\
    EEPROMBlock s' = EEPROMBlock s /\
    trace s' = trace s ++ t /\
    updates t = checkpoint_updates (8 * j) (EEPROMBlock s) /\
    probes t <= N.
Proof.
  intros Hlen HN Hfuel. destruct s as [mem idx b tr].
  cbn [EEPROM _modemRecordIndex EEPROMBlock trace] in *.
  unfold setEEPROMUptimeStats. run_cbv.
  fold (EEPROM_len mem). rewrite Hlen.
  match goal with
  | |- context [while fuel ?cnd ?bdy ?ini ?st0] =>
    destruct (while_rule cnd bdy
      (fun fl s' =>
         EEPROM s' = mem /\ EEPROMBlock s' = b /\
         exists t c, trace s' = tr ++ t /\ updates t = [] /\
           0 <= c <= N /\ _modemRecordIndex s' = 8 * c /\
           probes t <= c + 1 /\ (c = N -> probes t <= N) /\
           (c < N -> fl = peek mem (8 * c + 7)) /\
           (c = N -> fl <> MODEM_RECORD_IN_PROGRESS))
      (fun _ s' => N - _modemRecordIndex s' / 8)
      (fun o s' =>
         match o with
         | inr _ => False
         | inl fl =>
           EEPROM s' = mem /\ EEPROMBlock s' = b /\
           exists t c, trace s' = tr ++ t /\ updates t = [] /\
             probes t <= N /\
             0 <= c <= N /\ _modemRecordIndex s' = 8 * c /\
             (fl = MODEM_RECORD_IN_PROGRESS -> c < N)
         end)) with (fuel := fuel) (l := ini) (s := st0)
      as (o & s1 & -> & HP)
  end.
  - intros fl s' (HE & HB & t & c & Ht & Hu & Hc & Hi & Hp & HpN & Hfl & HflN) C.
    split_and!; try assumption.
    exists t, c. split_and!; try assumption; lia.
  - intros fl s' (HE & HB & t & c & Ht & Hu & Hc & Hi & Hp & HpN & Hfl & HflN) C.
    destruct s' as [mem1 idx1 b1 tr1].
    cbn [EEPROM _modemRecordIndex EEPROMBlock trace] in *. subst mem1 idx1 b1 tr1.
    to_prop. unfold sizeof_EEPROMRecord_t.
    assert (forall x, 0 <= x -> (8 * x) / 8 = x) as Hdiv.
    { intros x _. rewrite Z.mul_comm. apply Z.div_mul. lia. }
    destruct (Z.ltb_spec (8 * c + 8 + 7) (8 * N)) as [Hlt|Hge].
    + eexists _, _. split; [reflexivity|].
      cbn [EEPROM _modemRecordIndex EEPROMBlock trace].
      replace (8 * c + 8) with (8 * (c + 1)) by lia. rewrite !Hdiv by lia.
      split; [|lia]. split_and!; try reflexivity.
      exists (t ++ [EvGet (8 * (c + 1) + 7)]), (c + 1).
      rewrite <- app_assoc, updates_app, probes_app, Hu.
      split_and!; try reflexivity; simpl; lia.
    + eexists _, _. split; [reflexivity|].
      cbn [EEPROM _modemRecordIndex EEPROMBlock trace].
      replace (8 * c + 8) with (8 * (c + 1)) by lia. rewrite !Hdiv by lia.
      split; [|lia]. split_and!; try reflexivity.
      exists t, (c + 1). split_and!; try assumption; try reflexivity; lia.
  - run_M. split_and!; try reflexivity.
    exists [EvGet (0 + 7)], 0. split_and!; try reflexivity; simpl; lia.
  - run_M. change (0 / 8) with 0. lia.
  - destruct o as [fl|r]; [|contradiction].
    destruct HP as (HE & HB & t & c & Ht & Hu & Hp & Hc & Hi & Hfl).
    destruct s1 as [mem1 idx1 b1 tr1].
    cbn [EEPROM _modemRecordIndex EEPROMBlock trace] in *. subst mem1 idx1 b1 tr1.
    unfold neqb.
    destruct (Z.eqb_spec fl MODEM_RECORD_IN_PROGRESS) as [E|_]; cbn [negb]; run_cbv.
    + eexists _, _, c. split; [reflexivity|].
      cbn [EEPROM _modemRecordIndex EEPROMBlock trace].
      specialize (Hfl E).
      split_and!; try reflexivity; try lia.
      * rewrite <- !app_assoc. reflexivity.
      * rewrite updates_app, Hu. reflexivity.
      * rewrite probes_app. simpl. lia.
    + eexists _, _, 0. split; [reflexivity|].
      cbn [EEPROM _modemRecordIndex EEPROMBlock trace].
      split_and!; try reflexivity; try lia.
      * rewrite <- !app_assoc. reflexivity.
      * rewrite updates_app, Hu. reflexivity.
      * rewrite probes_app. simpl. lia.
Qed.

(** ** Flag-last ordering of the three writers *)

Lemma slot_mod (j k : Z) : (8 * j + k) mod 8 = k mod 8.
Proof. rewrite Z.add_comm, Z.mul_comm. apply Z_mod_plus_full. Qed.

Lemma slot_div (j k : Z) : (8 * j + k) / 8 = j + k / 8.
Proof. rewrite (Z.mul_comm 8 j). apply Z.div_add_l. lia. Qed.

Lemma slot_mod0 (j : Z) : (8 * j) mod 8 = 0.
Proof. rewrite Z.mul_comm. apply Z.mod_mul. lia. Qed.

Lemma flag_written_last_skip (ws1 ws2 : list (Z * Z)) :
  (forall w, In w ws1 -> is_flag_write w = false) ->
  flag_written_last (ws1 ++ ws2) = flag_written_last ws2.
Proof.
  induction ws1 as [|w ws1 IH]; intros H; [reflexivity|].
  cbn [app flag_written_last]. rewrite (H w) by (left; reflexivity).
  apply IH. intros w' Hw'. apply H. right. exact Hw'.
Qed.

Lemma erase_updates_no_flag (n : nat) (w : Z * Z) :
  In w (erase_updates n) -> is_flag_write w = false.
Proof.
  unfold erase_updates. intros (k & <- & _)%in_map_iff.
  unfold is_flag_write. cbn [fst snd]. apply andb_false_r.
Qed.

Lemma flag_written_last_checkpoint (j : Z) (b : EEPROMRecord_t) :
  flag_written_last (checkpoint_updates (8 * j) b) = true.
Proof.
  unfold checkpoint_updates, flag_written_last, is_flag_write.
  cbn [fst snd forallb]. rewrite !slot_mod, slot_mod0. reflexivity.
Qed.

Lemma flag_written_last_append (j j' : Z) (b : EEPROMRecord_t) :
  j <> j' ->
  flag_written_last (seal_updates (8 * j) b ++ start_updates (8 * j') b) = true.
Proof.
  intros Hne.
  unfold seal_updates, start_updates, flag_written_last, is_flag_write,
    is_payload_write_of.
  cbn [app fst snd forallb]. rewrite !slot_mod, !slot_mod0, !slot_div.
  assert (forall k, (k =? j + 7 / 8) = (k =? j)) as E.
  { intros k. change (7 / 8) with 0. now rewrite Z.add_0_r. }
  rewrite !E.
  change (1 / 8) with 0. change (2 / 8) with 0. change (3 / 8) with 0.
  change (4 / 8) with 0. change (5 / 8) with 0. change (7 / 8) with 0.
  rewrite !Z.add_0_r.
  assert ((8 * j') / 8 = j') as ->.
  { rewrite Z.mul_comm. apply Z.div_mul. lia. }
  assert ((j' =? j) = false) as -> by (apply Z.eqb_neq; lia).
  reflexivity.
Qed.

(** ** [getOldestCompletedRecord] *)

Lemma succ_mod (x N : Z) :
  0 < N ->
  (x + 1) mod N = if x mod N + 1 <? N then x mod N + 1 else 0.
Proof.
  intros HN. pose proof (Z.mod_pos_bound x N HN) as Hb.
  rewrite <- Z.add_mod_idemp_l by lia.
  destruct (Z.ltb_spec (x mod N + 1) N).
  - apply Z.mod_small. lia.
  - replace (x mod N + 1) with N by lia. apply Z.mod_same. lia.
Qed.

(** The first loop of [getOldestCompletedRecord], entered with
    [count0 <= N]: a forward walk to the first IN_PROGRESS slot. *)
Lemma getOldest_first_loop (s : store) (N count0 : Z) (fuel : nat) :
  EEPROM_len (EEPROM s) = 8 * N -> 1 <= N -> N < Z.of_nat fuel ->
  count0 <= N ->
  exists o s',
    while fuel
      (fun '(i, flags) _ =>
         neqb flags MODEM_RECORD_IN_PROGRESS && (count0 <=? N))
      (fun '(i, flags) =>
         set_index i;;
         let i := i + sizeof_EEPROMRecord_t in
         len ← EEPROM_length;
         if i + 7 >=? len then mret (inr (-1))
         else
           flags ← EEPROM_get (i + 7);
           mret (inl (i, flags)))
      (0, peek (EEPROM s) (0 + 7))
      (mkStore (EEPROM s) (_modemRecordIndex s) (EEPROMBlock s)
               (trace s ++ [EvGet (0 + 7)])) = Some (o, s') /\
    EEPROM s' = EEPROM s /\ EEPROMBlock s' = EEPROMBlock s /\
    ((exists j, 0 <= j < N /\ _modemRecordIndex s = 8 * j) ->
     exists j, 0 <= j < N /\ _modemRecordIndex s' = 8 * j) /\
    exists t, trace s' = trace s ++ t /\ updates t = [] /\
      match o with
      | inr r =>
          r = -1 /\ probes t = N /\
          forall j, 0 <= j < N ->
            slot_flag (EEPROM s) j <> MODEM_RECORD_IN_PROGRESS
      | inl (i, fl) =>
          exists jp, 0 <= jp < N /\ i = 8 * jp /\
            fl = MODEM_RECORD_IN_PROGRESS /\ probes t = jp + 1 /\
            slot_flag (EEPROM s) jp = MODEM_RECORD_IN_PROGRESS /\
            forall j, 0 <= j < jp ->
              slot_flag (EEPROM s) j <> MODEM_RECORD_IN_PROGRESS
      end.
Proof.
  intros Hlen HN Hfuel Hc0.
  match goal with
  | |- context [while fuel ?cnd ?bdy ?ini ?st0] =>
    destruct (while_rule cnd bdy
      (fun '(i, fl) s' =>
         EEPROM s' = EEPROM s /\ EEPROMBlock s' = EEPROMBlock s /\
         ((exists j, 0 <= j < N /\ _modemRecordIndex s = 8 * j) ->
          exists j, 0 <= j < N /\ _modemRecordIndex s' = 8 * j) /\
         exists t c, trace s' = trace s ++ t /\ updates t = [] /\
           0 <= c < N /\ i = 8 * c /\ fl = slot_flag (EEPROM s) c /\
           probes t = c + 1 /\
           forall j, 0 <= j < c ->
             slot_flag (EEPROM s) j <> MODEM_RECORD_IN_PROGRESS)
      (fun '(i, fl) _ => N - i / 8)
      (fun o s' =>
         EEPROM s' = EEPROM s /\ EEPROMBlock s' = EEPROMBlock s /\
         ((exists j, 0 <= j < N /\ _modemRecordIndex s = 8 * j) ->
          exists j, 0 <= j < N /\ _modemRecordIndex s' = 8 * j) /\
         exists t, trace s' = trace s ++ t /\ updates t = [] /\
           match o with
           | inr r =>
               r = -1 /\ probes t = N /\
               forall j, 0 <= j < N ->
                 slot_flag (EEPROM s) j <> MODEM_RECORD_IN_PROGRESS
           | inl (i, fl) =>
               exists jp, 0 <= jp < N /\ i = 8 * jp /\
                 fl = MODEM_RECORD_IN_PROGRESS /\ probes t = jp + 1 /\
                 slot_flag (EEPROM s) jp = MODEM_RECORD_IN_PROGRESS /\
                 forall j, 0 <= j < jp ->
                   slot_flag (EEPROM s) j <> MODEM_RECORD_IN_PROGRESS
           end)) with (fuel := fuel) (l := ini) (s := st0)
      as (o & s' & Hrun & HP)
  end.
  - intros [i fl] s' (HE & HB & Hal & t & c & Ht & Hu & Hc & Hi & Hfl & Hp & Hno) C.
    split_and!; try assumption. exists t. split_and!; try assumption.
    exists c. to_prop. destruct C as [C|C]; to_prop; [|lia].
    split_and!; try assumption; try lia; congruence.
  - intros [i fl] s' (HE & HB & Hal & t & c & Ht & Hu & Hc & Hi & Hfl & Hp & Hno) C.
    to_prop. run_M. rewrite HE. fold (EEPROM_len (EEPROM s)). rewrite Hlen.
    unfold sizeof_EEPROMRecord_t. subst i. rewrite Z.geb_leb.
    assert (forall x, (8 * x) / 8 = x) as Hdiv.
    { intros x. rewrite Z.mul_comm. apply Z.div_mul. lia. }
    destruct (Z.leb_spec (8 * N) (8 * c + 8 + 7)) as [Hge|Hlt].
    + eexists _, _. split; [reflexivity|].
      cbn [EEPROM _modemRecordIndex EEPROMBlock trace].
      split_and!; try assumption; try reflexivity.
      * intros _. exists c. split; [lia | reflexivity].
      * exists t. split_and!; try assumption; try reflexivity; try lia.
        intros j Hj. destruct (Z.eq_dec j c) as [->|]; [congruence|].
        apply Hno. lia.
    + eexists _, _. split; [reflexivity|].
      cbn [EEPROM _modemRecordIndex EEPROMBlock trace].
      replace (8 * c + 8) with (8 * (c + 1)) by lia. rewrite !Hdiv.
      split; [|lia]. split_and!; try assumption; try reflexivity.
      * intros _. exists c. split; [lia | reflexivity].
      * exists (t ++ [EvGet (8 * (c + 1) + 7)]), (c + 1).
        rewrite Ht, <- app_assoc, updates_app, probes_app, Hu, Hp.
        split_and!; try reflexivity; try lia.
        intros j Hj. destruct (Z.eq_dec j c) as [->|]; [congruence|].
        apply Hno. lia.
  - cbn [EEPROM _modemRecordIndex EEPROMBlock trace].
    split_and!; try reflexivity.
    + intros H; exact H.
    + exists [EvGet (0 + 7)], 0. split_and!; try reflexivity; try lia.
  - change ((0 / 8)) with 0. lia.
  - exists o, s'. split; [exact Hrun|]. exact HP.
Qed.

(** The second loop of [getOldestCompletedRecord]: a walk around the ring
    from the IN_PROGRESS slot [jp] to the first COMPLETE slot. *)
Lemma getOldest_second_loop (s1 : store) (N jp : Z) (fuel : nat) :
  EEPROM_len (EEPROM s1) = 8 * N -> 1 <= N -> N < Z.of_nat fuel ->
  0 <= jp < N ->
  slot_flag (EEPROM s1) jp = MODEM_RECORD_IN_PROGRESS ->
  exists i fl count s',
    while (R := Z) fuel
      (fun '(i, flags, count) _ =>
         (count <=? N) && neqb flags MODEM_RECORD_COMPLETE)
      (fun '(i, flags, count) =>
         let i := i + sizeof_EEPROMRecord_t in
         len ← EEPROM_length;
         let i := if i >=? len then 0 else i in
         flags ← EEPROM_get (i + 7);
         mret (inl (i, flags, count + 1)))
      (8 * jp, MODEM_RECORD_IN_PROGRESS, 1) s1
    = Some (inl (i, fl, count), s') /\
    EEPROM s' = EEPROM s1 /\ EEPROMBlock s' = EEPROMBlock s1 /\
    _modemRecordIndex s' = _modemRecordIndex s1 /\
    1 <= count <= N + 1 /\
    i = 8 * ((jp + (count - 1)) mod N) /\
    (count <= N ->
     slot_flag (EEPROM s1) ((jp + (count - 1)) mod N) = MODEM_RECORD_COMPLETE) /\
    (forall d, 0 <= d < count - 1 ->
       slot_flag (EEPROM s1) ((jp + d) mod N) <> MODEM_RECORD_COMPLETE) /\
    exists t, trace s' = trace s1 ++ t /\ updates t = [] /\
              probes t = count - 1.
Proof.
  intros Hlen HN Hfuel Hjp Hip.
  match goal with
  | |- context [while fuel ?cnd ?bdy ?ini ?st0] =>
    destruct (while_rule cnd bdy
      (fun '(i, fl, count) s' =>
         EEPROM s' = EEPROM s1 /\ EEPROMBlock s' = EEPROMBlock s1 /\
         _modemRecordIndex s' = _modemRecordIndex s1 /\
         1 <= count <= N + 1 /\
         i = 8 * ((jp + (count - 1)) mod N) /\
         fl = slot_flag (EEPROM s1) ((jp + (count - 1)) mod N) /\
         (forall d, 0 <= d < count - 1 ->
            slot_flag (EEPROM s1) ((jp + d) mod N) <> MODEM_RECORD_COMPLETE) /\
         exists t, trace s' = trace s1 ++ t /\ updates t = [] /\
                   probes t = count - 1)
      (fun '(i, fl, count) _ => N + 1 - count)
      (fun o s' =>
         match o with
         | inr _ => False
         | inl (i, fl, count) =>
           EEPROM s' = EEPROM s1 /\ EEPROMBlock s' = EEPROMBlock s1 /\
           _modemRecordIndex s' = _modemRecordIndex s1 /\
           1 <= count <= N + 1 /\
           i = 8 * ((jp + (count - 1)) mod N) /\
           (count <= N ->
            slot_flag (EEPROM s1) ((jp + (count - 1)) mod N)
            = MODEM_RECORD_COMPLETE) /\
           (forall d, 0 <= d < count - 1 ->
              slot_flag (EEPROM s1) ((jp + d) mod N) <> MODEM_RECORD_COMPLETE) /\
           exists t, trace s' = trace s1 ++ t /\ updates t = [] /\
                     probes t = count - 1
         end)) with (fuel := fuel) (l := ini) (s := st0)
      as (o & s' & Hrun & HP)
  end.
  - intros [[i fl] count] s' (HE & HB & HI & Hc & Hi & Hfl & Hno & Ht) C.
    split_and!; try assumption; try lia.
    intros Hle. to_prop. destruct C as [C|C]; to_prop; [lia | congruence].
  - intros [[i fl] count] s' (HE & HB & HI & Hc & Hi & Hfl & Hno & t & Ht & Hu & Hp) C.
    to_prop. run_M. rewrite HE. fold (EEPROM_len (EEPROM s1)). rewrite Hlen.
    unfold sizeof_EEPROMRecord_t. eexists _, _. split; [reflexivity|].
    cbn [EEPROM _modemRecordIndex EEPROMBlock trace].
    assert ((if i + 8 >=? 8 * N then 0 else i + 8)
            = 8 * ((jp + (count + 1 - 1)) mod N)) as Hnext.
    { replace (jp + (count + 1 - 1)) with (jp + (count - 1) + 1) by lia.
      rewrite succ_mod by lia. subst i. rewrite Z.geb_leb.
      pose proof (Z.mod_pos_bound (jp + (count - 1)) N ltac:(lia)).
      destruct (Z.leb_spec (8 * N) (8 * ((jp + (count - 1)) mod N) + 8)),
               (Z.ltb_spec ((jp + (count - 1)) mod N + 1) N); lia. }
    rewrite Hnext. split; [|lia].
    split_and!; try assumption; try lia; try reflexivity.
    + intros d Hd. destruct (Z.eq_dec d (count - 1)) as [->|].
      * congruence.
      * apply Hno. lia.
    + exists (t ++ [EvGet (8 * ((jp + (count + 1 - 1)) mod N) + 7)]).
      rewrite Ht, <- app_assoc, updates_app, probes_app, Hu, Hp.
      split_and!; try reflexivity. simpl. lia.
  - split_and!; try reflexivity; try lia.
    + replace (jp + (1 - 1)) with jp by lia. rewrite Z.mod_small by lia.
      reflexivity.
    + replace (jp + (1 - 1)) with jp by lia. rewrite Z.mod_small by lia.
      symmetry. exact Hip.
    + exists []. rewrite app_nil_r. split_and!; reflexivity.
  - simpl. lia.
  - destruct o as [[[i fl] count]|r]; [|contradiction].
    exists i, fl, count, s'. split; [exact Hrun | exact HP].
Qed.

Lemma getOldestCompletedRecord_spec (s : store) (N count0 : Z) (fuel : nat) :
  EEPROM_len (EEPROM s) = 8 * N -> 1 <= N -> N < Z.of_nat fuel ->
  exists r s', getOldestCompletedRecord count0 fuel s = Some (r, s') /\
    found_oldest N count0 s r s'.
Proof.
  intros Hlen HN Hfuel.
  unfold getOldestCompletedRecord. run_M.
  fold (EEPROM_len (EEPROM s)). fold (numRecords (EEPROM s)).
  rewrite (numRecords_eq _ N Hlen).
  destruct (Z_le_gt_dec count0 N) as [Hc0|Hc0].
  - destruct (getOldest_first_loop s N count0 fuel Hlen HN Hfuel Hc0)
      as (o & s1 & Hrun & HE & HB & Hal & t & Ht & Hu & Ho).
    match goal with
    | |- context [while fuel ?cnd ?bdy ?ini ?st0] =>
      replace (while fuel cnd bdy ini st0) with (Some (o, s1))
        by (symmetry; exact Hrun)
    end.
    destruct o as [[i fl]|r].
    + destruct Ho as (jp & Hjp & -> & -> & Hp & Hip & Hfirst).
      rewrite Z.gtb_ltb. destruct (Z.ltb_spec N count0) as [?|_]; [lia|].
      assert (EEPROM_len (EEPROM s1) = 8 * N) as Hlen1 by (rewrite HE; exact Hlen).
      rewrite <- HE in Hip.
      destruct (getOldest_second_loop s1 N jp fuel Hlen1 HN Hfuel Hjp Hip)
        as (i2 & fl2 & c2 & s2 & Hrun2 & HE2 & HB2 & HI2 & Hc2 & Hi2 & Hfl2
            & Hno2 & t2 & Ht2 & Hu2 & Hp2).
      match goal with
      | |- context [while fuel ?cnd ?bdy ?ini ?st0] =>
        replace (while fuel cnd bdy ini st0) with (Some (inl (B := Z) (i2, fl2, c2), s2))
          by (symmetry; exact Hrun2)
      end.
      rewrite HE in *.
      assert (exists tt, trace s2 = trace s ++ tt /\ updates tt = [] /\
                         probes tt <= 2 * N) as Htr.
      { exists (t ++ t2). rewrite Ht2, Ht, <- app_assoc, updates_app, probes_app,
          Hu, Hu2. split_and!; try reflexivity. lia. }
      destruct (Z.leb_spec c2 N) as [Hle|Hgt].
      * run_M. eexists _, _. split; [reflexivity|].
        unfold found_oldest. cbn [EEPROM _modemRecordIndex EEPROMBlock trace].
        pose proof (Z.mod_pos_bound (jp + (c2 - 1)) N ltac:(lia)) as Hb.
        split_and!; try congruence.
        -- intros _. exists ((jp + (c2 - 1)) mod N). split; [lia | exact Hi2].
        -- right. exists jp, (c2 - 1).
           assert (c2 <> 1) as Hne.
           { intros ->. specialize (Hfl2 Hle).
             replace (jp + (1 - 1)) with jp in Hfl2 by lia.
             rewrite Z.mod_small in Hfl2 by lia.
             rewrite Hip in Hfl2. discriminate. }
           split_and!; try assumption; try lia.
      * run_M. eexists _, _. split; [reflexivity|].
        unfold found_oldest. split_and!; try congruence.
        -- intros Ha. rewrite HI2. exact (Hal Ha).
        -- left. split; [reflexivity|]. right. right.
           intros j Hj. assert (c2 = N + 1) as -> by lia.
           pose proof (Hno2 ((j - jp) mod N)) as Hd.
           pose proof (Z.mod_pos_bound (j - jp) N ltac:(lia)) as Hb.
           rewrite Z.add_mod_idemp_r in Hd by lia.
           replace (jp + (j - jp)) with j in Hd by lia.
           rewrite (Z.mod_small j N) in Hd by lia. apply Hd. lia.
    + destruct Ho as (-> & Hp & Hno). run_M.
      eexists _, _. split; [reflexivity|].
      unfold found_oldest. split_and!; try assumption.
      * exists t. split_and!; try assumption. lia.
      * left. split; [reflexivity|]. right. left. exact Hno.
  - destruct fuel as [|fuel]; [lia|]. rewrite while_S.
    assert ((count0 <=? N) = false) as -> by (apply Z.leb_gt; lia).
    rewrite andb_false_r. run_M.
    rewrite Z.gtb_ltb. destruct (Z.ltb_spec N count0) as [_|?]; [|lia].
    eexists _, _. split; [reflexivity|].
    unfold found_oldest. cbn [EEPROM _modemRecordIndex EEPROMBlock trace].
    split_and!; try reflexivity.
    + exists [EvGet (0 + 7)]. split_and!; try reflexivity. simpl. lia.
    + intros H; exact H.
    + left. split; [reflexivity|]. left. lia.
Qed.

(** ** Single steps along the ring *)

Lemma getIndexOfNextCompletedRecord_spec (s : store) :
  exists r s', getIndexOfNextCompletedRecord s = Some (r, s') /\
    EEPROM s' = EEPROM s /\ EEPROMBlock s' = EEPROMBlock s /\
    trace s' = trace s ++ [EvGet (next_index s + 7)] /\
    ((peek (EEPROM s) (next_index s + 7) = MODEM_RECORD_COMPLETE /\
      r = next_index s /\ _modemRecordIndex s' = next_index s)
     \/
     (peek (EEPROM s) (next_index s + 7) <> MODEM_RECORD_COMPLETE /\
      r = -1 /\ _modemRecordIndex s' = _modemRecordIndex s)).
Proof.
  unfold getIndexOfNextCompletedRecord, next_index, EEPROM_len. run_M.
  destruct (Z.eqb_spec
    (peek (EEPROM s)
       ((if _modemRecordIndex s + sizeof_EEPROMRecord_t
             >=? Z.of_nat (length (EEPROM s))
         then 0 else _modemRecordIndex s + sizeof_EEPROMRecord_t) + 7))
    MODEM_RECORD_COMPLETE) as [E|E];
    run_M; eexists _, _; (split; [reflexivity|]); run_M;
    split_and!; try reflexivity.
  - left. split_and!; [exact E | reflexivity | reflexivity].
  - right. split_and!; [exact E | reflexivity | reflexivity].
Qed.

Lemma next_index_slot (s : store) (N : Z) :
  EEPROM_len (EEPROM s) = 8 * N -> 1 <= N ->
  (exists j, 0 <= j < N /\ _modemRecordIndex s = 8 * j) ->
  exists j, 0 <= j < N /\ next_index s = 8 * j.
Proof.
  intros Hlen HN (j & Hj & Hi). unfold next_index, sizeof_EEPROMRecord_t.
  rewrite Hlen, Hi, Z.geb_leb.
  destruct (Z.leb_spec (8 * N) (8 * j + 8)).
  - exists 0. lia.
  - exists (j + 1). lia.
Qed.

Lemma getNextCompletedRecord_spec (s : store) :
  0 <= _modemRecordIndex s ->
  exists r s' t, getNextCompletedRecord s = Some (r, s') /\
    EEPROM s' = EEPROM s /\ EEPROMBlock s' = EEPROMBlock s /\
    trace s' = trace s ++ t /\ updates t = [] /\ probes t <= 2 /\
    ((peek (EEPROM s) (next_index s + 7) = MODEM_RECORD_COMPLETE /\
      r = next_index s /\ _modemRecordIndex s' = next_index s)
     \/
     (peek (EEPROM s) (next_index s + 7) <> MODEM_RECORD_COMPLETE /\
      r = -1 /\ _modemRecordIndex s' = _modemRecordIndex s)).
Proof.
  intros Hidx.
  destruct (getIndexOfNextCompletedRecord_spec s)
    as (r & s1 & Hrun & HE & HB & Ht & Hcases).
  unfold getNextCompletedRecord. unfold mbind at 1. unfold M_bind at 1.
  rewrite Hrun.
  assert (0 <= next_index s) as Hn.
  { unfold next_index, sizeof_EEPROMRecord_t. rewrite Z.geb_leb.
    destruct (Z.leb_spec (EEPROM_len (EEPROM s)) (_modemRecordIndex s + 8)); lia. }
  destruct Hcases as [(Hf & -> & Hi)|(Hf & -> & Hi)].
  - destruct (Z.ltb_spec (next_index s) 0) as [?|_]; [lia|].
    run_M. rewrite HE, Hf. change (MODEM_RECORD_COMPLETE =? MODEM_RECORD_COMPLETE)
      with true. run_M.
    eexists _, _, _. split; [reflexivity|]. run_M.
    split_and!; try assumption.
    + reflexivity.
    + rewrite Ht, <- app_assoc. reflexivity.
    + reflexivity.
    + simpl. lia.
    + left. split_and!; reflexivity.
  - change (-1 <? 0) with true. run_M.
    eexists _, _, _. split; [reflexivity|].
    split_and!; try eassumption.
    + reflexivity.
    + simpl. lia.
    + right. split_and!; [exact Hf | reflexivity | exact Hi].
Qed.

(** ** [getNewestCompletedRecord] *)

(** The second loop of [getNewestCompletedRecord], entered at slot [j0]
    (slot 0, or slot 1 when slot 0 is not COMPLETE). *)
Lemma getNewest_second_loop (s1 : store) (N j0 : Z) (fuel : nat) :
  EEPROM_len (EEPROM s1) = 8 * N -> 1 <= N -> N + 1 < Z.of_nat fuel ->
  0 <= j0 < N ->
  j0 = 0 \/ (j0 = 1 /\ slot_flag (EEPROM s1) 0 <> MODEM_RECORD_COMPLETE) ->
  exists o s',
    while fuel
      (fun '(i, flags, count) _ =>
         (count <=? N) && (flags =? MODEM_RECORD_COMPLETE))
      (fun '(i, flags, count) =>
         set_index i;;
         i ← getIndexOfNextCompletedRecord;
         if i <? 0 then idx ← get_index; mret (inr idx)
         else
           flags ← EEPROM_get (i + 1);
           mret (inl (i, flags, count + 1)))
      (8 * j0, MODEM_RECORD_COMPLETE, 0) s1 = Some (o, s') /\
    EEPROM s' = EEPROM s1 /\ EEPROMBlock s' = EEPROMBlock s1 /\
    (exists j, 0 <= j < N /\ _modemRecordIndex s' = 8 * j) /\
    match o with inr r => r = _modemRecordIndex s' | inl _ => True end /\
    exists t, trace s' = trace s1 ++ t /\ updates t = [] /\
      probes t <= (if j0 =? 0 then 2 * N + 2 else 2 * N - 3).
Proof.
  intros Hlen HN Hfuel Hj0 Hcase.
  match goal with
  | |- context [while fuel ?cnd ?bdy ?ini ?st0] =>
    destruct (while_rule cnd bdy
      (fun '(i, fl, count) s' =>
         EEPROM s' = EEPROM s1 /\ EEPROMBlock s' = EEPROMBlock s1 /\
         0 <= count <= N + 1 /\
         (count = 0 -> fl = MODEM_RECORD_COMPLETE) /\
         (exists j, 0 <= j < N /\ i = 8 * j /\
                    (j0 = 1 -> j = 1 + count /\ 1 + count < N)) /\
         (0 < count -> _modemRecordIndex s' = i) /\
         exists t, trace s' = trace s1 ++ t /\ updates t = [] /\
                   probes t <= 2 * count)
      (fun '(i, fl, count) _ => N + 1 - count)
      (fun o s' =>
         EEPROM s' = EEPROM s1 /\ EEPROMBlock s' = EEPROMBlock s1 /\
         (exists j, 0 <= j < N /\ _modemRecordIndex s' = 8 * j) /\
         match o with inr r => r = _modemRecordIndex s' | inl _ => True end /\
         exists t, trace s' = trace s1 ++ t /\ updates t = [] /\
           probes t <= (if j0 =? 0 then 2 * N + 2 else 2 * N - 3)))
      with (fuel := fuel) (l := ini) (s := st0)
      as (o & s' & Hrun & HP)
  end.
  - intros [[i fl] count] s' (HE & HB & Hc & Hfl0 & (j & Hj & Hi & HjB) & Hidx
                               & t & Ht & Hu & Hp) C.
    assert (0 < count) as Hpos.
    { destruct (Z.eq_dec count 0) as [->|]; [|lia].
      rewrite (Hfl0 eq_refl) in C. simpl in C.
      destruct (Z.leb_spec 0 N); [discriminate | lia]. }
    split_and!; try assumption; try exact I.
    + exists j. rewrite (Hidx Hpos). split; assumption.
    + exists t. split_and!; try assumption.
      destruct (Z.eqb_spec j0 0); [lia|]. destruct Hcase as [?|[? _]]; lia.
  - intros [[i fl] count] s' (HE & HB & Hc & Hfl0 & (j & Hj & Hi & HjB) & Hidx
                               & t & Ht & Hu & Hp) C.
    to_prop.
    destruct (getIndexOfNextCompletedRecord_spec
                (mkStore (EEPROM s') i (EEPROMBlock s') (trace s')))
      as (r & s2 & Hrun & HE2 & HB2 & Ht2 & Hcases).
    cbn [EEPROM _modemRecordIndex EEPROMBlock trace] in HE2, HB2, Ht2, Hcases.
    assert (exists jn, 0 <= jn < N /\
              next_index (mkStore (EEPROM s') i (EEPROMBlock s') (trace s'))
              = 8 * jn /\ (jn = 0 \/ jn = j + 1)) as (jn & Hjn & Hnext & Hjn').
    { unfold next_index, sizeof_EEPROMRecord_t.
      cbn [EEPROM _modemRecordIndex]. rewrite HE, Hlen, Hi, Z.geb_leb.
      destruct (Z.leb_spec (8 * N) (8 * j + 8)).
      - exists 0. lia.
      - exists (j + 1). lia. }
    rewrite Hnext in *.
    unfold mbind, M_bind, set_index. rewrite Hrun.
    destruct Hcases as [(Hf & -> & Hi2)|(Hf & -> & Hi2)].
    + destruct (Z.ltb_spec (8 * jn) 0) as [?|_]; [lia|].
      run_M. eexists _, _. split; [reflexivity|].
      cbn [EEPROM _modemRecordIndex EEPROMBlock trace].
      split; [|lia]. split_and!; try congruence; try lia.
      * exists jn. split_and!; try lia.
        intros HB1. destruct Hcase as [?|[_ Hf0]]; [lia|].
        destruct (HjB HB1) as [-> ?]. destruct Hjn' as [-> | ->]; [|lia].
        exfalso. apply Hf0. rewrite <- HE. exact Hf.
      * exists (t ++ [EvGet (8 * jn + 7)] ++ [EvGet (8 * jn + 1)]).
        rewrite Ht2, Ht, <- !app_assoc, updates_app, probes_app, Hu.
        split_and!; try reflexivity. simpl. lia.
    + change (-1 <? 0) with true. run_M.
      eexists _, _. split; [reflexivity|].
      split_and!; try congruence.
      * exists j. rewrite Hi2, Hi. split; [lia | reflexivity].
      * exists (t ++ [EvGet (8 * jn + 7)]).
        rewrite Ht2, Ht, <- !app_assoc, updates_app, probes_app, Hu.
        split_and!; try reflexivity. simpl.
        destruct (Z.eqb_spec j0 0); [lia|].
        destruct Hcase as [?|[HB1 _]]; [lia|]. specialize (HjB HB1). lia.
  - split_and!; try reflexivity; try lia.
    + exists j0. split_and!; try lia.
    + exists []. rewrite app_nil_r. split_and!; try reflexivity.
  - simpl. lia.
  - exists o, s'. split; [exact Hrun | exact HP].
Qed.

(** [getNewestCompletedRecord] always returns, within [2N+3] reads; its
    result is the index it leaves in [_modemRecordIndex], the byte index of
    a slot, never [-1]. *)
Lemma getNewestCompletedRecord_spec (s : store) (N : Z) (fuel : nat) :
  EEPROM_len (EEPROM s) = 8 * N -> 1 <= N -> N + 1 < Z.of_nat fuel ->
  exists r s' t, getNewestCompletedRecord fuel s = Some (r, s') /\
    EEPROM s' = EEPROM s /\ EEPROMBlock s' = EEPROMBlock s /\
    (exists j, 0 <= j < N /\ _modemRecordIndex s' = 8 * j) /\
    r = _modemRecordIndex s' /\
    trace s' = trace s ++ t /\ updates t = [] /\ probes t <= 2 * N + 3.
Proof.
  intros Hlen HN Hfuel. destruct s as [mem idx b tr].
  cbn [EEPROM _modemRecordIndex EEPROMBlock trace] in *.
  unfold getNewestCompletedRecord. run_M.
  fold (EEPROM_len mem). fold (numRecords mem). rewrite (numRecords_eq _ N Hlen).
  rewrite while_pos by lia. cbv beta iota.
  assert ((0 <=? N) = true) as -> by (apply Z.leb_le; lia).
  rewrite andb_true_r.
  assert (forall x, (x >? N) = false \/ 1 < x) as Hgt.
  { intros x. rewrite Z.gtb_ltb. destruct (Z.ltb_spec N x); [right; lia | left; reflexivity]. }
  destruct (Z.eqb_spec (peek mem (0 + 7)) MODEM_RECORD_COMPLETE) as [E0|E0].
  - (* slot 0 is COMPLETE: the first loop is not entered *)
    unfold neqb. rewrite E0. cbn [Z.eqb Pos.eqb negb MODEM_RECORD_COMPLETE].
    destruct (Hgt 0) as [-> | ?]; [|lia].
    destruct (getNewest_second_loop
                (mkStore mem idx b (tr ++ [EvGet (0 + 7)])) N 0 fuel
                Hlen HN Hfuel ltac:(lia) ltac:(left; reflexivity))
      as (o & s2 & Hrun & HE & HB & Hal & Hr & t2 & Ht2 & Hu2 & Hp2).
    match goal with
    | |- context [while fuel ?cnd ?bdy ?ini ?st0] =>
      replace (while fuel cnd bdy ini st0) with (Some (o, s2))
        by (symmetry; exact Hrun)
    end.
    change (0 =? 0) with true in Hp2. cbv iota in Hp2.
    cbn [EEPROM _modemRecordIndex EEPROMBlock trace] in HE, HB, Ht2.
    destruct o as [l|r].
    + eexists _, s2, _. split; [reflexivity|].
      split_and!; try assumption; try reflexivity.
      * rewrite Ht2, <- app_assoc. reflexivity.
      * rewrite updates_app, Hu2. reflexivity.
      * rewrite probes_app. simpl. lia.
    + eexists _, s2, _. split; [reflexivity|].
      split_and!; try assumption; try reflexivity.
      * rewrite Ht2, <- app_assoc. reflexivity.
      * rewrite updates_app, Hu2. reflexivity.
      * rewrite probes_app. simpl. lia.
  - (* slot 0 is not COMPLETE: one step of the first loop *)
    unfold neqb at 1.
    destruct (Z.eqb_spec (peek mem (0 + 7)) MODEM_RECORD_COMPLETE) as [|_];
      [contradiction|].
    cbn [negb EEPROM _modemRecordIndex EEPROMBlock trace].
    destruct (getIndexOfNextCompletedRecord_spec
                (mkStore mem 0 b (tr ++ [EvGet (0 + 7)])))
      as (r & s2 & Hrun & HE & HB & Ht & Hcases).
    rewrite Hrun. destruct s2 as [mem2 idx2 b2 tr2].
    cbn [EEPROM _modemRecordIndex EEPROMBlock trace] in *. subst mem2 b2 tr2.
    destruct Hcases as [(Hf & -> & Hi)|(Hf & -> & Hi)].
    + assert (next_index (mkStore mem 0 b (tr ++ [EvGet (0 + 7)])) = 8 * 1
              /\ 1 < N) as [Hn HN1].
      { revert Hf. unfold next_index, sizeof_EEPROMRecord_t.
        cbn [EEPROM _modemRecordIndex]. rewrite Hlen, Z.geb_leb.
        destruct (Z.leb_spec (8 * N) (0 + 8)); [contradiction | lia]. }
      rewrite Hn in *. subst idx2. change (8 * 1 <? 0) with false.
      cbv beta iota. cbn [EEPROM _modemRecordIndex EEPROMBlock trace].
      rewrite while_pos by lia. cbv beta iota. unfold neqb at 1.
      rewrite Hf. change (MODEM_RECORD_COMPLETE =? MODEM_RECORD_COMPLETE) with true.
      cbn [negb andb]. destruct (Hgt (0 + 1)) as [-> | ?]; [|lia].
      destruct (getNewest_second_loop
                  (mkStore mem (8 * 1) b
                     (((tr ++ [EvGet (0 + 7)]) ++ [EvGet (8 * 1 + 7)])
                      ++ [EvGet (8 * 1 + 7)])) N 1 fuel
                  Hlen HN Hfuel ltac:(lia)
                  ltac:(right; split; [reflexivity | exact E0]))
        as (o & s3 & Hrun3 & HE3 & HB3 & Hal & Hr & t3 & Ht3 & Hu3 & Hp3).
      change (1 =? 0) with false in Hp3. cbv iota in Hp3.
      cbn [EEPROM _modemRecordIndex EEPROMBlock trace] in HE3, HB3, Ht3.
      match goal with
      | |- context [while fuel ?cnd ?bdy ?ini ?st0] =>
        replace (while fuel cnd bdy ini st0) with (Some (o, s3))
          by (symmetry; exact Hrun3)
      end.
      destruct o as [l|r].
      * eexists _, s3, _. split; [reflexivity|].
        split_and!; try assumption; try reflexivity.
        -- rewrite Ht3, <- !app_assoc. reflexivity.
        -- rewrite !updates_app, Hu3. reflexivity.
        -- rewrite !probes_app. simpl. lia.
      * eexists _, s3, _. split; [reflexivity|].
        split_and!; try assumption; try reflexivity.
        -- rewrite Ht3, <- !app_assoc. reflexivity.
        -- rewrite !updates_app, Hu3. reflexivity.
        -- rewrite !probes_app. simpl. lia.
    + change (-1 <? 0) with true. cbv beta iota.
      eexists _, _, _. split; [reflexivity|].
      cbn [EEPROM _modemRecordIndex EEPROMBlock trace].
      split_and!; try reflexivity.
      * exists 0. split; [lia | exact Hi].
      * rewrite <- app_assoc. reflexivity.
      * reflexivity.
      * simpl. lia.
Qed.

(** ** The index stays on a slot *)

Lemma getIndexOfPrevCompletedRecord_index_ok (s : store) (N : Z) :
  1 <= N -> index_ok N s ->
  exists r s', getIndexOfPrevCompletedRecord s = Some (r, s') /\ index_ok N s'.
Proof.
  intros HN [Hlen (j & Hj & Hi)].
  unfold getIndexOfPrevCompletedRecord. run_M.
  fold (EEPROM_len (EEPROM s)). rewrite Hlen, Hi. unfold sizeof_EEPROMRecord_t.
  destruct (peek (EEPROM s)
              ((if 8 * j - 8 <? 0 then 8 * j - 8 + 8 * N else 8 * j - 8) + 7)
            =? MODEM_RECORD_COMPLETE);
    run_M; eexists _, _; (split; [reflexivity|]); split; try assumption;
    cbn [_modemRecordIndex].
  - destruct (Z.ltb_spec (8 * j - 8) 0).
    + exists (N - 1). lia.
    + exists (j - 1). lia.
  - exists j. split; [assumption | reflexivity].
Qed.

Lemma getDataFromIndex_at_frame (ind : Z) (s : store) :
  exists r s', getDataFromIndex_at ind s = Some (r, s') /\
    EEPROM s' = EEPROM s /\ _modemRecordIndex s' = _modemRecordIndex s.
Proof.
  unfold getDataFromIndex_at. run_M. eexists _, _.
  split; [reflexivity|]. split; reflexivity.
Qed.

Lemma getEEPROMUptimeStats_frame (s : store) (fuel : nat) :
  EEPROM_len (EEPROM s) + 1 < Z.of_nat fuel ->
  exists r s', getEEPROMUptimeStats fuel s = Some (r, s') /\
    EEPROM s' = EEPROM s /\ _modemRecordIndex s' = _modemRecordIndex s.
Proof.
  intros Hfuel. unfold getEEPROMUptimeStats. run_M.
  fold (EEPROM_len (EEPROM s)).
  match goal with
  | |- context [while fuel ?cnd ?bdy ?ini ?st0] =>
    destruct (while_rule cnd bdy
      (fun '(i, found) s' =>
         EEPROM s' = EEPROM s /\ _modemRecordIndex s' = _modemRecordIndex s /\
         0 <= i <= EEPROM_len (EEPROM s))
      (fun '(i, found) _ =>
         EEPROM_len (EEPROM s) - i + (if found : bool then 0 else 1))
      (fun o s' =>
         EEPROM s' = EEPROM s /\ _modemRecordIndex s' = _modemRecordIndex s /\
         match o with inr _ => False | inl _ => True end))
      with (fuel := fuel) (l := ini) (s := st0)
      as (o & s1 & -> & HE & HI & Ho)
  end.
  - intros [i found] s' (HE & HI & Hi) _. split_and!; try assumption. exact I.
  - intros [i found] s' (HE & HI & Hi) C. to_prop. run_M.
    unfold sizeof_EEPROMRecord_t.
    destruct (peek (EEPROM s') (i + 7) =? MODEM_RECORD_IN_PROGRESS);
      run_M; eexists _, _; (split; [reflexivity|]);
      cbn [EEPROM _modemRecordIndex]; subst found; split_and!;
      try assumption; lia.
  - cbn [EEPROM _modemRecordIndex]. unfold EEPROM_len. split_and!; try reflexivity; lia.
  - unfold EEPROM_len in *. lia.
  - destruct o as [[i found]|r]; [|contradiction].
    destruct found.
    + destruct (getDataFromIndex_at_frame i s1) as (r & s2 & Hrun & HE2 & HI2).
      unfold mbind, M_bind. rewrite Hrun. run_M.
      eexists _, _. split; [reflexivity|]. split; congruence.
    + run_M. eexists _, _. split; [reflexivity|]. split; assumption.
Qed.

(** Every operation returns and keeps the index on a slot. *)
Lemma run_operation_index_ok (op : operation) (s : store) (N : Z) (fuel : nat) :
  1 <= N -> 8 * N + 1 < Z.of_nat fuel -> index_ok N s ->
  exists s', run_operation fuel op s = Some (tt, s') /\ index_ok N s'.
Proof.
  intros HN Hfuel [Hlen Hal]. pose proof Hal as (j0 & Hj0 & Hi0).
  destruct op; cbn [run_operation]; unfold mbind, M_bind.
  - destruct (getOldestCompletedRecord_spec s N count0 fuel Hlen HN ltac:(lia))
      as (r & s' & -> & HE & _ & _ & Hal' & _).
    eexists. split; [reflexivity|]. split; [congruence | exact (Hal' Hal)].
  - destruct (getNextCompletedRecord_spec s ltac:(lia))
      as (r & s' & t & -> & HE & _ & _ & _ & _ & Hcases).
    eexists. split; [reflexivity|]. split; [congruence|].
    destruct Hcases as [(_ & _ & ->)|(_ & _ & ->)];
      [exact (next_index_slot s N Hlen HN Hal) | exact Hal].
  - destruct (getRecordInProgress_spec s N fuel Hlen HN ltac:(lia))
      as (r & s' & -> & HE & _ & t & _ & _ & Hcases).
    eexists. split; [reflexivity|]. split; [congruence|].
    destruct Hcases as [(_ & -> & _)|(j & Hj & _ & -> & _)].
    + exists 0. lia.
    + exists j. split; [assumption | reflexivity].
  - destruct (getNewestCompletedRecord_spec s N fuel Hlen HN ltac:(lia))
      as (r & s' & t & -> & HE & _ & Hal' & _).
    eexists. split; [reflexivity|]. split; [congruence | exact Hal'].
  - destruct (getIndexOfNextCompletedRecord_spec s)
      as (r & s' & -> & HE & _ & _ & Hcases).
    eexists. split; [reflexivity|]. split; [congruence|].
    destruct Hcases as [(_ & _ & ->)|(_ & _ & ->)];
      [exact (next_index_slot s N Hlen HN Hal) | exact Hal].
  - destruct (getIndexOfPrevCompletedRecord_index_ok s N HN (conj Hlen Hal))
      as (r & s' & -> & Hok).
    eexists. split; [reflexivity | exact Hok].
  - destruct (getDataFromIndex_at_frame ind s) as (r & s' & -> & HE & HI).
    eexists. split; [reflexivity|]. split; [congruence|].
    exists j0. split; [assumption | congruence].
  - unfold getDataFromIndex. run_M.
    destruct (getDataFromIndex_at_frame (_modemRecordIndex s) s)
      as (r & s' & -> & HE & HI).
    eexists. split; [reflexivity|]. split; [congruence|].
    exists j0. split; [assumption | congruence].
  - destruct (convertToEEPROMBlock_run src s) as (s' & -> & HE & HI & _).
    eexists. split; [reflexivity|]. split; [congruence|].
    exists j0. split; [assumption | congruence].
  - unfold convertFromEEPROMBlock. run_M.
    eexists. split; [reflexivity|]. split; [assumption | exact Hal].
  - destruct (completeLogEntry_spec s N fuel Hlen HN ltac:(lia))
      as (s' & t & j & -> & [Hj _] & HE & HI & _).
    eexists. split; [reflexivity|]. split.
    + rewrite HE, EEPROM_len_write_all. exact Hlen.
    + exists (next_slot N j). split; [|exact HI].
      unfold next_slot. destruct (Z.ltb_spec (j + 1) N); lia.
  - destruct (clearLog_spec s fuel ltac:(lia))
      as (s' & t & mem & -> & Hlenm & _ & HE & HI & _).
    eexists. split; [reflexivity|]. split.
    + rewrite HE, EEPROM_len_write_all. congruence.
    + exists j0. split; [assumption | congruence].
  - destruct (setEEPROMUptimeStats_spec s N fuel Hlen HN ltac:(lia))
      as (s' & t & j & -> & Hj & HE & HI & _).
    eexists. split; [reflexivity|]. split.
    + rewrite HE, EEPROM_len_write_all. exact Hlen.
    + exists j. split; assumption.
  - destruct (getEEPROMUptimeStats_frame s fuel ltac:(lia))
      as (r & s' & -> & HE & HI).
    eexists. split; [reflexivity|]. split; [congruence|].
    exists j0. split; [assumption | congruence].
Qed.

(** ** Filling an erased ring *)

Lemma log_of_erased (n : nat) :
  (0 < n)%nat -> log_of (Z.of_nat n) [] (erased n).
Proof.
  intros Hn.
  assert (forall j, slot_flag (erased n) j = MODEM_RECORD_UNUSED) as Hall.
  { intros j. unfold slot_flag, peek, erased.
    destruct (Z.leb_spec 0 (8 * j + 7)); [|reflexivity].
    destruct (repeat MODEM_RECORD_UNUSED (8 * n) !! Z.to_nat (8 * j + 7))
      as [x|] eqn:E; [|reflexivity].
    apply list_elem_of_lookup_2, list_elem_of_In, repeat_spec in E.
    exact E. }
  unfold log_of. split_and!.
  - unfold erased, EEPROM_len. rewrite repeat_length. lia.
  - intros m r Hm. discriminate.
  - intros H. contradiction.
  - intros j _. apply Hall.
  - intros _ j _. apply Hall.
Qed.

(** One append on a ring that holds the log [rs] and has room for one more
    record extends the log by that record. *)
Lemma log_of_append (s : store) (N : Z) (rs : list modemRecord_t)
    (r : modemRecord_t) (fuel : nat) :
  log_of N rs (EEPROM s) -> Z.of_nat (length rs) + 1 < N ->
  N + 1 < Z.of_nat fuel ->
  exists s', completeLogEntry_call fuel (Some r) s = Some (tt, s') /\
    log_of N (rs ++ [r]) (EEPROM s').
Proof.
  intros (Hlen & Hrec & Hip & Hun & Hemp) Hroom Hfuel.
  set (k := Z.of_nat (length rs)) in *.
  destruct (convertToEEPROMBlock_run r s) as (s1 & Hc & HE1 & _ & _ & HB1).
  fold (encode r (spare (EEPROMBlock s))) in HB1.
  cbn [completeLogEntry_call]. unfold mbind at 1. unfold M_bind at 1.
  rewrite Hc. rewrite <- HE1 in Hlen.
  destruct (completeLogEntry_spec s1 N fuel Hlen ltac:(lia) Hfuel)
    as (s' & t & j & Hrun & [Hj Hslot] & HE & _).
  rewrite HE1 in *. rewrite HB1 in HE. clear HE1 HB1 Hc.
  exists s'. split; [exact Hrun|].
  assert (forall m r0, rs !! m = Some r0 -> Z.of_nat m < k) as Hlt.
  { intros m r0 Hm. apply lookup_lt_Some in Hm. unfold k. lia. }
  assert (forall m r0, rs !! m = Some r0 ->
            slot_flag (EEPROM s) (Z.of_nat m) = MODEM_RECORD_COMPLETE) as Hcomp.
  { intros m r0 Hm. specialize (Hrec m r0 Hm). unfold slot_holds in Hrec.
    rewrite !andb_true_iff, !Z.eqb_eq in Hrec. unfold slot_flag. tauto. }
  assert (j = k) as ->.
  { destruct (decide (rs = [])) as [->|Hne].
    - destruct Hslot as [[Hf _]|[-> _]]; [|reflexivity].
      rewrite (Hemp eq_refl j Hj) in Hf. discriminate.
    - destruct Hslot as [[Hf Hfirst]|[_ Hno]].
      + destruct (Z.lt_trichotomy j k) as [Hjk|[Hjk|Hjk]]; [|exact Hjk|].
        * exfalso. destruct (lookup_lt_is_Some_2 rs (Z.to_nat j)) as [r0 Hr0].
          { unfold k in Hjk. lia. }
          rewrite <- (Z2Nat.id j) in Hf by lia.
          rewrite (Hcomp _ _ Hr0) in Hf. discriminate.
        * exfalso. rewrite (Hun j) in Hf by lia. discriminate.
      + exfalso. apply (Hno k); [unfold k; lia | exact (Hip Hne)]. }
  assert (next_slot N k = k + 1) as Hnext.
  { unfold next_slot. destruct (Z.ltb_spec (k + 1) N); lia. }
  rewrite Hnext in HE.
  assert (forall x, 0 <= x < N ->
            slot_flag (EEPROM s') x =
            if x =? k + 1 then MODEM_RECORD_IN_PROGRESS
            else if x =? k then MODEM_RECORD_COMPLETE
            else slot_flag (EEPROM s) x) as Hflags.
  { intros x Hx. rewrite HE, <- Hnext. apply slot_flag_after_append; assumption. }
  unfold log_of. rewrite length_app. cbn [length].
  replace (Z.of_nat (length rs + 1)) with (k + 1) by (unfold k; lia).
  split_and!.
  - rewrite HE, EEPROM_len_write_all. exact Hlen.
  - intros m r0 Hm. rewrite HE.
    destruct (lookup_app_Some rs [r] m r0) as [Hcases _].
    destruct (Hcases Hm) as [Hin|[Hge Hlast]].
    + pose proof (Hlt _ _ Hin) as Hmk. specialize (Hrec _ _ Hin).
      unfold slot_holds, write_all, seal_updates, start_updates in *.
      cbn [app fold_left fst snd].
      rewrite !andb_true_iff, !Z.eqb_eq in *.
      destruct Hrec as ((((((? & ?) & ?) & ?) & ?) & ?) & ?).
      split_and!; peek_simpl; assumption.
    + assert (m = length rs) as -> by
        (apply lookup_lt_Some in Hlast; simpl in Hlast; lia).
      replace (length rs - length rs)%nat with 0%nat in Hlast by lia.
      injection Hlast as <-. fold k.
      unfold slot_holds, write_all, seal_updates, start_updates.
      cbn [app fold_left fst snd encode secsSince1900_4 secsSince1900_3
           secsSince1900_2 secsSince1900_1 downMins2 downMins1].
      rewrite !andb_true_iff, !Z.eqb_eq.
      split_and!; peek_simpl; reflexivity.
  - intros _. rewrite Hflags by lia. rewrite Z.eqb_refl. reflexivity.
  - intros x Hx. rewrite Hflags by lia.
    destruct (Z.eqb_spec x (k + 1)); [lia|]. destruct (Z.eqb_spec x k); [lia|].
    apply Hun. lia.
  - intros H. destruct rs; discriminate.
Qed.

Lemma log_of_appends (rs' : list modemRecord_t) (s : store) (N : Z)
    (rs : list modemRecord_t) (fuel : nat) :
  log_of N rs (EEPROM s) -> Z.of_nat (length rs + length rs') < N ->
  N + 1 < Z.of_nat fuel ->
  exists s', completeLogEntry_calls fuel (map Some rs') s = Some (tt, s') /\
    log_of N (rs ++ rs') (EEPROM s').
Proof.
  revert s rs. induction rs' as [|r rs' IH]; intros s rs Hlog Hroom Hfuel.
  - exists s. rewrite app_nil_r. split; [reflexivity | exact Hlog].
  - cbn [length] in Hroom.
    destruct (log_of_append s N rs r fuel Hlog ltac:(lia) Hfuel)
      as (s1 & Hrun & Hlog1).
    cbn [map completeLogEntry_calls]. unfold mbind at 1. unfold M_bind at 1.
    rewrite Hrun.
    destruct (IH s1 (rs ++ [r]) Hlog1) as (s' & Hrun' & Hlog').
    + rewrite length_app. cbn [length]. lia.
    + exact Hfuel.
    + exists s'. rewrite <- app_assoc in Hlog'. split; assumption.
Qed.

(** ** Reading the log back *)

Lemma slot_holds_flag (mem : list Z) (m : Z) (b : EEPROMRecord_t) (f : Z) :
  slot_holds mem (8 * m) b f = true -> slot_flag mem m = f.
Proof.
  unfold slot_holds, slot_flag. rewrite !andb_true_iff, !Z.eqb_eq. tauto.
Qed.

Lemma read_record_spec (s : store) (m : Z) (r : modemRecord_t) :
  _modemRecordIndex s = 8 * m ->
  slot_holds (EEPROM s) (8 * m) (encode r 0) MODEM_RECORD_COMPLETE = true ->
  fits r ->
  exists s', read_record s = Some (stored r, s') /\
    EEPROM s' = EEPROM s /\ _modemRecordIndex s' = _modemRecordIndex s.
Proof.
  intros Hi Hh [Hts Hmins]. unfold slot_holds in Hh.
  rewrite !andb_true_iff, !Z.eqb_eq in Hh.
  destruct Hh as ((((((H0 & H1) & H2) & H3) & H4) & H5) & _).
  destruct s as [mem idx b tr].
  cbn [EEPROM _modemRecordIndex EEPROMBlock trace] in *. subst idx.
  unfold read_record, getDataFromIndex, getDataFromIndex_at,
    convertFromEEPROMBlock. run_cbv.
  cbv beta iota delta [secsSince1900_4 secsSince1900_3 secsSince1900_2
                       secsSince1900_1 downMins2 downMins1].
  rewrite H0, H1, H2, H3, H4, H5.
  cbv beta iota delta [encode secsSince1900_4 secsSince1900_3 secsSince1900_2
                       secsSince1900_1 downMins2 downMins1].
  rewrite (bytes_of_uint32 _ Hts), (bytes_of_uint16 _ Hmins).
  eexists. split; [reflexivity|]. split; reflexivity.
Qed.

Lemma walk_next_spec (N : Z) (rs : list modemRecord_t)
    (todo : list modemRecord_t) (s : store) (m : nat) :
  log_of N rs (EEPROM s) -> Z.of_nat (length rs) < N ->
  Forall fits rs ->
  _modemRecordIndex s = 8 * Z.of_nat m ->
  (forall i r, todo !! i = Some r -> rs !! (m + 1 + i)%nat = Some r) ->
  exists s', walk_next (length todo) s
             = Some (in_slots (Z.of_nat m + 1) todo, s') /\
    EEPROM s' = EEPROM s /\
    _modemRecordIndex s' = 8 * Z.of_nat (m + length todo).
Proof.
  intros Hlog HkN Hfits Hi Htodo. revert s m Hlog Hi Htodo.
  induction todo as [|r todo IH]; intros s m Hlog Hi Htodo.
  - exists s. cbn [length walk_next in_slots]. rewrite Nat.add_0_r.
    split; [reflexivity|]. split; [reflexivity | exact Hi].
  - pose proof Hlog as (Hlen & Hrec & _).
    assert (rs !! (m + 1)%nat = Some r) as Hr.
    { rewrite <- (Nat.add_0_r (m + 1)). apply Htodo. reflexivity. }
    pose proof (lookup_lt_Some _ _ _ Hr) as Hm.
    pose proof (Hrec _ _ Hr) as Hh.
    assert (fits r) as Hfit.
    { rewrite Forall_forall in Hfits. apply Hfits.
      eapply list_elem_of_lookup_2. exact Hr. }
    assert (next_index s = 8 * Z.of_nat (m + 1)) as Hnext.
    { unfold next_index, sizeof_EEPROMRecord_t. rewrite Hlen, Hi, Z.geb_leb.
      destruct (Z.leb_spec (8 * N) (8 * Z.of_nat m + 8)); lia. }
    destruct (getNextCompletedRecord_spec s ltac:(lia))
      as (i & s1 & t & Hrun & HE1 & _ & _ & _ & _ & Hcases).
    rewrite Hnext in Hcases.
    destruct Hcases as [(_ & -> & Hi1)|(Hf & _)].
    2:{ exfalso. apply Hf. exact (slot_holds_flag _ _ _ _ Hh). }
    rewrite <- HE1 in Hh.
    destruct (read_record_spec s1 _ r Hi1 Hh Hfit) as (s2 & Hrd & HE2 & Hi2).
    destruct (IH s2 (m + 1)%nat) as (s3 & Hw & HE3 & Hi3).
    + rewrite HE2, HE1. exact Hlog.
    + rewrite Hi2. exact Hi1.
    + intros i r0 Hi0. replace (m + 1 + 1 + i)%nat with (m + 1 + S i)%nat by lia.
      apply Htodo. exact Hi0.
    + cbn [length walk_next in_slots]. unfold mbind, M_bind, mret, M_ret.
      rewrite Hrun, Hrd.
      replace (Z.of_nat m + 1 + 1) with (Z.of_nat (m + 1) + 1) by lia.
      rewrite Hw. exists s3.
      replace (8 * (Z.of_nat m + 1)) with (8 * Z.of_nat (m + 1)) by lia.
      split; [reflexivity|]. split; [congruence|].
      rewrite Hi3. f_equal. lia.
Qed.

(** On a ring that holds a non-empty log and still has its IN_PROGRESS
    slot, [getOldestCompletedRecord] finds slot 0, provided its local
    [count] starts no larger than the number of slots. *)
Lemma getOldestCompletedRecord_on_log (s : store) (N count0 : Z)
    (rs : list modemRecord_t) (fuel : nat) :
  log_of N rs (EEPROM s) -> rs <> [] -> Z.of_nat (length rs) < N ->
  count0 <= N -> N < Z.of_nat fuel ->
  exists s', getOldestCompletedRecord count0 fuel s = Some (0, s') /\
    EEPROM s' = EEPROM s /\ _modemRecordIndex s' = 0.
Proof.
  intros (Hlen & Hrec & Hip & Hun & _) Hne HkN Hc0 Hfuel.
  set (k := Z.of_nat (length rs)) in *.
  assert (0 < k) as Hk.
  { unfold k. destruct rs; [contradiction | simpl; lia]. }
  assert (forall x, 0 <= x < k ->
            slot_flag (EEPROM s) x = MODEM_RECORD_COMPLETE) as Hcomp.
  { intros x Hx. destruct (lookup_lt_is_Some_2 rs (Z.to_nat x)) as [r Hr].
    { unfold k in Hx. lia. }
    pose proof (slot_holds_flag _ _ _ _ (Hrec _ _ Hr)) as Hf.
    rewrite Z2Nat.id in Hf by lia. exact Hf. }
  destruct (getOldestCompletedRecord_spec s N count0 fuel Hlen ltac:(lia) Hfuel)
    as (r & s' & Hrun & HE & _ & _ & _ & Hcases).
  destruct Hcases as [(_ & [Hgt|[Hno|Hno]])
                     |(jp & d & _ & Hjp & Hd & Hfp & Hfirst & Hc & Hmin & -> & Hi)].
  - lia.
  - exfalso. apply (Hno k); [lia | exact (Hip Hne)].
  - exfalso. apply (Hno 0); [lia | apply Hcomp; lia].
  - assert (jp = k) as ->.
    { destruct (Z.lt_trichotomy jp k) as [H|[H|H]]; [|exact H|].
      - rewrite Hcomp in Hfp by lia. discriminate.
      - rewrite Hun in Hfp by lia. discriminate. }
    assert (forall d', 0 <= d' -> k + d' < N -> (k + d') mod N = k + d') as Hsmall.
    { intros d' ? ?. apply Z.mod_small. lia. }
    assert ((k + (N - k)) mod N = 0) as Hwrap.
    { replace (k + (N - k)) with N by lia. apply Z.mod_same. lia. }
    assert (d = N - k) as ->.
    { destruct (Z.lt_trichotomy d (N - k)) as [H|[H|H]]; [|exact H|].
      - exfalso. rewrite Hsmall, Hun in Hc by lia. discriminate.
      - exfalso. apply (Hmin (N - k)); [lia|].
        rewrite Hwrap. apply Hcomp. lia. }
    rewrite Hwrap in *. exists s'. split; [exact Hrun|].
    split; [exact HE | exact Hi].
Qed.

(** A failed [getNextCompletedRecord] leaves the index where it was. *)
Lemma getNextCompletedRecord_fails (s : store) :
  peek (EEPROM s) (next_index s + 7) <> MODEM_RECORD_COMPLETE ->
  exists s',
    getNextCompletedRecord s = Some (-1, s') /\
    _modemRecordIndex s' = _modemRecordIndex s /\
    EEPROM s' = EEPROM s.
Proof.
  intros Hf.
  destruct (getIndexOfNextCompletedRecord_spec s)
    as (r & s1 & Hrun & HE & _ & _ & Hcases).
  unfold getNextCompletedRecord. unfold mbind at 1. unfold M_bind at 1.
  rewrite Hrun. destruct Hcases as [(Hc & _)|(_ & -> & Hi)]; [contradiction|].
  change (-1 <? 0) with true. run_M.
  eexists. split; [reflexivity|]. split; assumption.
Qed.

(** The constructor leaves [_modemRecordIndex] on a slot, whatever it held
    before: this is where the index invariant of the class starts. *)
Lemma EEPROMRecordClass_ctor_index_ok (s : store) (N : Z) (fuel : nat) :
  EEPROM_len (EEPROM s) = 8 * N -> 1 <= N -> N + 1 < Z.of_nat fuel ->
  exists s', EEPROMRecordClass_ctor fuel s = Some (tt, s') /\ index_ok N s'.
Proof.
  intros Hlen HN Hfuel.
  destruct (getNewestCompletedRecord_spec s N fuel Hlen HN Hfuel)
    as (r & s' & t & Hrun & HE & _ & Hal & _).
  unfold EEPROMRecordClass_ctor, mbind, M_bind. rewrite Hrun.
  exists s'. split; [reflexivity|]. split; [congruence | exact Hal].
Qed.

Lemma getDataFromIndex_at_spec (ind : Z) (s : store) :
  getDataFromIndex_at ind s =
  Some (0, mkStore (EEPROM s) (_modemRecordIndex s) (block_at (EEPROM s) ind)
             (trace s ++ [EvGet ind; EvGet (ind + 1); EvGet (ind + 2);
                          EvGet (ind + 3); EvGet (ind + 4); EvGet (ind + 5);
                          EvGet (ind + 6); EvGet (ind + 7)])).
Proof.
  destruct s as [mem idx b tr]. unfold getDataFromIndex_at, block_at. run_cbv.
  rewrite <- !app_assoc. reflexivity.
Qed.

Lemma getEEPROMUptimeStats_spec (s : store) (N : Z) (fuel : nat) :
  EEPROM_len (EEPROM s) = 8 * N -> 0 <= N -> 8 * N + 1 < Z.of_nat fuel ->
  exists s' t, getEEPROMUptimeStats fuel s = Some (0, s') /\
    EEPROM s' = EEPROM s /\ _modemRecordIndex s' = _modemRecordIndex s /\
    trace s' = trace s ++ t /\ updates t = [] /\
    ((exists j, 0 <= j < N /\
        slot_flag (EEPROM s) j = MODEM_RECORD_IN_PROGRESS /\
        (forall j', 0 <= j' < j ->
           slot_flag (EEPROM s) j' <> MODEM_RECORD_IN_PROGRESS) /\
        EEPROMBlock s' = block_at (EEPROM s) (8 * j) /\
        probes t = j + 9)
     \/
     ((forall j, 0 <= j < N ->
         slot_flag (EEPROM s) j <> MODEM_RECORD_IN_PROGRESS) /\
      EEPROMBlock s' =
        mkEEPROMRecord 0 0 0 0 0 0 (spare (EEPROMBlock s))
          MODEM_RECORD_IN_PROGRESS /\
      probes t = N)).
Proof.
  intros Hlen HN Hfuel. destruct s as [mem idx b tr].
  cbn [EEPROM _modemRecordIndex EEPROMBlock trace] in *.
  unfold getEEPROMUptimeStats. run_cbv.
  fold (EEPROM_len mem). rewrite Hlen.
  match goal with
  | |- context [while fuel ?cnd ?bdy ?ini ?st0] =>
    destruct (while_rule cnd bdy
      (fun '(i, found) s' =>
         EEPROM s' = mem /\ _modemRecordIndex s' = idx /\ EEPROMBlock s' = b /\
         exists t c, trace s' = tr ++ t /\ updates t = [] /\
           0 <= c <= N /\ i = 8 * c /\
           (forall j', 0 <= j' < c -> slot_flag mem j' <> MODEM_RECORD_IN_PROGRESS) /\
           (found = true -> c < N /\ slot_flag mem c = MODEM_RECORD_IN_PROGRESS) /\
           probes t = c + (if found : bool then 1 else 0))
      (fun '(i, found) _ => 8 * N - i + (if found : bool then 0 else 1))
      (fun o s' =>
         match o with
         | inr _ => False
         | inl (i, found) =>
           EEPROM s' = mem /\ _modemRecordIndex s' = idx /\ EEPROMBlock s' = b /\
           exists t c, trace s' = tr ++ t /\ updates t = [] /\
             0 <= c <= N /\ i = 8 * c /\
             (forall j', 0 <= j' < c -> slot_flag mem j' <> MODEM_RECORD_IN_PROGRESS) /\
             (found = true -> c < N /\ slot_flag mem c = MODEM_RECORD_IN_PROGRESS) /\
             (found = false -> c = N) /\
             probes t = c + (if found : bool then 1 else 0)
         end)) with (fuel := fuel) (l := ini) (s := st0)
      as (o & s1 & -> & HP)
  end.
  - intros [i found] s' (HE & HI & HB & t & c & Ht & Hu & Hc & Hi & Hno & Hf & Hp) C.
    split_and!; try assumption. exists t, c. split_and!; try assumption; try lia.
    intros ->. to_prop. destruct C as [C|C]; [|discriminate]. to_prop. lia.
  - intros [i found] s' (HE & HI & HB & t & c & Ht & Hu & Hc & Hi & Hno & Hf & Hp) C.
    destruct s' as [mem1 idx1 b1 tr1].
    cbn [EEPROM _modemRecordIndex EEPROMBlock trace] in *. subst mem1 idx1 b1 tr1 i.
    to_prop. subst found. run_cbv. unfold sizeof_EEPROMRecord_t.
    fold (slot_flag mem c).
    destruct (Z.eqb_spec (slot_flag mem c) MODEM_RECORD_IN_PROGRESS) as [E|NE].
    + eexists _, _. split; [reflexivity|].
      cbn [EEPROM _modemRecordIndex EEPROMBlock trace].
      split; [|lia]. split_and!; try reflexivity.
      exists (t ++ [EvGet (8 * c + 7)]), c.
      rewrite <- app_assoc, updates_app, probes_app, Hu.
      split_and!; try reflexivity; try assumption; try lia; try (simpl; lia).
    + eexists _, _. split; [reflexivity|].
      cbn [EEPROM _modemRecordIndex EEPROMBlock trace].
      split; [|lia]. split_and!; try reflexivity.
      exists (t ++ [EvGet (8 * c + 7)]), (c + 1).
      rewrite <- app_assoc, updates_app, probes_app, Hu.
      split_and!; try reflexivity; try lia; try discriminate; try (simpl; lia).
      intros j' Hj'. destruct (Z.eq_dec j' c) as [->|]; [assumption|].
      apply Hno. lia.
  - cbn [EEPROM _modemRecordIndex EEPROMBlock trace]. split_and!; try reflexivity.
    exists [], 0. rewrite app_nil_r. split_and!; try reflexivity; try lia.
  - lia.
  - destruct o as [[i found]|r]; [|contradiction].
    destruct HP as (HE & HI & HB & t & c & Ht & Hu & Hc & Hi & Hno & Hf & Hnf & Hp).
    destruct s1 as [mem1 idx1 b1 tr1].
    cbn [EEPROM _modemRecordIndex EEPROMBlock trace] in *. subst mem1 idx1 b1 tr1 i.
    destruct found.
    + destruct (Hf eq_refl) as [Hc' Hfl].
      unfold mbind, M_bind. rewrite getDataFromIndex_at_spec. run_M.
      eexists _, _. split; [reflexivity|].
      cbn [EEPROM _modemRecordIndex EEPROMBlock trace].
      split_and!; try reflexivity.
      * rewrite <- app_assoc. reflexivity.
      * rewrite updates_app, Hu. reflexivity.
      * left. exists c. split_and!; try assumption; try reflexivity; try lia.
        rewrite probes_app, Hp. simpl. lia.
    + run_cbv. eexists _, _. split; [reflexivity|].
      cbn [EEPROM _modemRecordIndex EEPROMBlock trace].
      split_and!; try reflexivity; try assumption.
      right. specialize (Hnf eq_refl). subst c.
      split_and!; try reflexivity; try assumption. lia.
Qed.

Lemma setEEPROMUptimeStats_finds (s : store) (N : Z) (fuel : nat) :
  EEPROM_len (EEPROM s) = 8 * N -> 1 <= N -> N < Z.of_nat fuel ->
  exists s' t j, setEEPROMUptimeStats fuel s = Some (tt, s') /\
    append_slot N (EEPROM s) j /\
    EEPROM s' = write_all (EEPROM s) (checkpoint_updates (8 * j) (EEPROMBlock s)) /\
    _modemRecordIndex s' = 8 * j /\
    EEPROMBlock s' = EEPROMBlock s /\
    trace s' = trace s ++ t /\
    updates t = checkpoint_updates (8 * j) (EEPROMBlock s) /\
    probes t <= N.
Proof.
  intros Hlen HN Hfuel. destruct s as [mem idx b tr].
  cbn [EEPROM _modemRecordIndex EEPROMBlock trace] in *.
  unfold setEEPROMUptimeStats. run_cbv.
  fold (EEPROM_len mem). rewrite Hlen.
  match goal with
  | |- context [while fuel ?cnd ?bdy ?ini ?st0] =>
    destruct (while_rule cnd bdy
      (fun fl s' =>
         EEPROM s' = mem /\ EEPROMBlock s' = b /\
         exists t c, trace s' = tr ++ t /\ updates t = [] /\
           0 <= c <= N /\ _modemRecordIndex s' = 8 * c /\
           probes t <= c + 1 /\ (c = N -> probes t <= N) /\
           (c < N -> fl = slot_flag mem c) /\
           (c = N -> fl <> MODEM_RECORD_IN_PROGRESS) /\
           (forall j', 0 <= j' < c ->
              slot_flag mem j' <> MODEM_RECORD_IN_PROGRESS))
      (fun _ s' => N - _modemRecordIndex s' / 8)
      (fun o s' =>
         match o with
         | inr _ => False
         | inl fl =>
           EEPROM s' = mem /\ EEPROMBlock s' = b /\
           exists t c, trace s' = tr ++ t /\ updates t = [] /\
             probes t <= N /\
             0 <= c <= N /\ _modemRecordIndex s' = 8 * c /\
             (fl = MODEM_RECORD_IN_PROGRESS ->
              c < N /\ slot_flag mem c = MODEM_RECORD_IN_PROGRESS) /\
             (fl <> MODEM_RECORD_IN_PROGRESS -> c = N) /\
             (forall j', 0 <= j' < c ->
                slot_flag mem j' <> MODEM_RECORD_IN_PROGRESS)
         end)) with (fuel := fuel) (l := ini) (s := st0)
      as (o & s1 & -> & HP)
  end.
  - intros fl s' (HE & HB & t & c & Ht & Hu & Hc & Hi & Hp & HpN & Hfl & HflN & Hno) C.
    destruct s' as [mem1 idx1 b1 tr1].
    cbn [EEPROM _modemRecordIndex EEPROMBlock trace] in *.
    split_and!; try assumption.
    exists t, c.
    assert (fl = MODEM_RECORD_IN_PROGRESS -> c < N) as Hlt.
    { intros E. destruct (Z.eq_dec c N) as [EN|]; [|lia].
      exfalso. exact (HflN EN E). }
    split_and!; try assumption; try lia.
    intros NE. to_prop. destruct C as [C|C]; to_prop; [contradiction|].
    lia.
  - intros fl s' (HE & HB & t & c & Ht & Hu & Hc & Hi & Hp & HpN & Hfl & HflN & Hno) C.
    destruct s' as [mem1 idx1 b1 tr1].
    cbn [EEPROM _modemRecordIndex EEPROMBlock trace] in *. subst mem1 idx1 b1 tr1.
    to_prop. unfold sizeof_EEPROMRecord_t.
    assert (forall x, 0 <= x -> (8 * x) / 8 = x) as Hdiv.
    { intros x _. rewrite Z.mul_comm. apply Z.div_mul. lia. }
    assert (forall j', 0 <= j' < c + 1 ->
              slot_flag mem j' <> MODEM_RECORD_IN_PROGRESS) as Hno'.
    { intros j' Hj'. destruct (Z.eq_dec j' c) as [->|]; [|apply Hno; lia].
      rewrite <- Hfl by lia. assumption. }
    destruct (Z.ltb_spec (8 * c + 8 + 7) (8 * N)) as [Hlt|Hge].
    + eexists _, _. split; [reflexivity|].
      cbn [EEPROM _modemRecordIndex EEPROMBlock trace].
      replace (8 * c + 8) with (8 * (c + 1)) by lia. rewrite !Hdiv by lia.
      split; [|lia]. split_and!; try reflexivity.
      exists (t ++ [EvGet (8 * (c + 1) + 7)]), (c + 1).
      rewrite <- app_assoc, updates_app, probes_app, Hu.
      split_and!; try reflexivity; try assumption; simpl; lia.
    + eexists _, _. split; [reflexivity|].
      cbn [EEPROM _modemRecordIndex EEPROMBlock trace].
      replace (8 * c + 8) with (8 * (c + 1)) by lia. rewrite !Hdiv by lia.
      split; [|lia]. split_and!; try reflexivity.
      exists t, (c + 1). split_and!; try assumption; try reflexivity; lia.
  - run_M. split_and!; try reflexivity.
    exists [EvGet (0 + 7)], 0. split_and!; try reflexivity; simpl; lia.
  - run_M. change (0 / 8) with 0. lia.
  - destruct o as [fl|r]; [|contradiction].
    destruct HP as (HE & HB & t & c & Ht & Hu & Hp & Hc & Hi & Hfl & Hnfl & Hno).
    destruct s1 as [mem1 idx1 b1 tr1].
    cbn [EEPROM _modemRecordIndex EEPROMBlock trace] in *. subst mem1 idx1 b1 tr1.
    unfold neqb.
    destruct (Z.eqb_spec fl MODEM_RECORD_IN_PROGRESS) as [E|NE]; cbn [negb]; run_cbv.
    + eexists _, _, c. split; [reflexivity|].
      cbn [EEPROM _modemRecordIndex EEPROMBlock trace].
      destruct (Hfl E) as [Hlt HIP].
      split_and!; try reflexivity; try lia.
      * split; [lia|]. left. split; assumption.
      * rewrite <- !app_assoc. reflexivity.
      * rewrite updates_app, Hu. reflexivity.
      * rewrite probes_app. simpl. lia.
    + eexists _, _, 0. split; [reflexivity|].
      cbn [EEPROM _modemRecordIndex EEPROMBlock trace].
      specialize (Hnfl NE). subst c.
      split_and!; try reflexivity; try lia.
      * split; [lia|]. right. split; [reflexivity | assumption].
      * rewrite <- !app_assoc. reflexivity.
      * rewrite updates_app, Hu. reflexivity.
      * rewrite probes_app. simpl. lia.
Qed.

Lemma peek_write_all_checkpoint (mem : list Z) (i : Z) (b : EEPROMRecord_t) :
  0 <= i -> i + 7 < EEPROM_len mem ->
  slot_holds (write_all mem (checkpoint_updates i b)) i b
    MODEM_RECORD_IN_PROGRESS = true /\
  forall a, a < i \/ a = i + 6 \/ i + 8 <= a ->
    peek (write_all mem (checkpoint_updates i b)) a = peek mem a.
Proof.
  intros Hi Hlen. unfold write_all, checkpoint_updates, slot_holds.
  cbn [fold_left fst snd]. split.
  - peek_simpl. rewrite !Z.eqb_refl. reflexivity.
  - intros a Ha. peek_simpl. reflexivity.
Qed.

Lemma first_flagged_of_append_slot (N : Z) (mem : list Z) (j : Z) :
  EEPROM_len mem = 8 * N ->
  append_slot N mem j ->
  first_flagged MODEM_RECORD_IN_PROGRESS mem j \/
  (j = 0 /\ no_slot_flagged MODEM_RECORD_IN_PROGRESS mem = true).
Proof.
  intros Hlen [Hj [[Hf Hfirst]|[-> Hno]]].
  - left. unfold first_flagged. rewrite (numRecords_eq _ N Hlen). auto.
  - right. split; [reflexivity|]. apply no_slot_flagged_spec.
    rewrite (numRecords_eq _ N Hlen). exact Hno.
Qed.

Lemma peek_write_all_append (mem : list Z) (N j : Z) (b : EEPROMRecord_t) :
  EEPROM_len mem = 8 * N -> 2 <= N -> 0 <= j < N ->
  slot_holds (write_all mem (seal_updates (8 * j) b
                             ++ start_updates (8 * next_slot N j) b))
    (8 * j) b MODEM_RECORD_COMPLETE = true /\
  slot_holds (write_all mem (seal_updates (8 * j) b
                             ++ start_updates (8 * next_slot N j) b))
    (8 * next_slot N j) (started_after b) MODEM_RECORD_IN_PROGRESS = true /\
  forall a, (a / 8 <> j /\ a / 8 <> next_slot N j) \/ a mod 8 = 6 ->
    peek (write_all mem (seal_updates (8 * j) b
                         ++ start_updates (8 * next_slot N j) b)) a
    = peek mem a.
Proof.
  intros Hlen HN Hj.
  assert (0 <= next_slot N j < N /\ next_slot N j <> j) as [Hn Hne].
  { unfold next_slot. destruct (Z.ltb_spec (j + 1) N); lia. }
  generalize dependent (next_slot N j). intros n Hn Hne.
  unfold write_all, seal_updates, start_updates, slot_holds, started_after.
  cbn [app fold_left fst snd secsSince1900_4 secsSince1900_3 secsSince1900_2
       secsSince1900_1 downMins2 downMins1]. split_and!.
  - peek_simpl. rewrite !Z.eqb_refl. reflexivity.
  - peek_simpl. rewrite !Z.eqb_refl. reflexivity.
  - intros a Ha.
    pose proof (Z.div_mod a 8 ltac:(lia)) as Hdm.
    pose proof (Z.mod_pos_bound a 8 ltac:(lia)) as Hmb.
    generalize dependent (a / 8). generalize dependent (a mod 8).
    intros m Hm q Ha Hq. peek_simpl. reflexivity.
Qed.

Lemma getIndexOfPrevCompletedRecord_spec (s : store) :
  exists r s', getIndexOfPrevCompletedRecord s = Some (r, s') /\
    EEPROM s' = EEPROM s /\ EEPROMBlock s' = EEPROMBlock s /\
    trace s' = trace s ++ [EvGet (prev_index s + 7)] /\
    ((peek (EEPROM s) (prev_index s + 7) = MODEM_RECORD_COMPLETE /\
      r = prev_index s /\ _modemRecordIndex s' = prev_index s)
     \/
     (peek (EEPROM s) (prev_index s + 7) <> MODEM_RECORD_COMPLETE /\
      r = -1 /\ _modemRecordIndex s' = _modemRecordIndex s)).
Proof.
  unfold getIndexOfPrevCompletedRecord, prev_index, EEPROM_len. run_M.
  destruct (Z.eqb_spec
    (peek (EEPROM s)
       ((if _modemRecordIndex s - sizeof_EEPROMRecord_t <? 0
         then _modemRecordIndex s - sizeof_EEPROMRecord_t
              + Z.of_nat (length (EEPROM s))
         else _modemRecordIndex s - sizeof_EEPROMRecord_t) + 7))
    MODEM_RECORD_COMPLETE) as [E|E];
    run_M; eexists _, _; (split; [reflexivity|]); run_M;
    split_and!; try reflexivity.
  - left. split_and!; [exact E | reflexivity | reflexivity].
  - right. split_and!; [exact E | reflexivity | reflexivity].
Qed.

Lemma read_record_stored (s : store) (i sp : Z) (r : modemRecord_t) :
  _modemRecordIndex s = i ->
  slot_holds (EEPROM s) i (encode r sp) MODEM_RECORD_COMPLETE = true ->
  fits r ->
  exists s', read_record s = Some (stored r, s') /\
    EEPROM s' = EEPROM s /\ _modemRecordIndex s' = _modemRecordIndex s.
Proof.
  intros Hi Hh [Hts Hmins]. unfold slot_holds in Hh.
  rewrite !andb_true_iff, !Z.eqb_eq in Hh.
  destruct Hh as ((((((H0 & H1) & H2) & H3) & H4) & H5) & _).
  destruct s as [mem idx b tr].
  cbn [EEPROM _modemRecordIndex EEPROMBlock trace] in *. subst idx.
  unfold read_record, getDataFromIndex, getDataFromIndex_at,
    convertFromEEPROMBlock. run_cbv.
  cbv beta iota delta [secsSince1900_4 secsSince1900_3 secsSince1900_2
                       secsSince1900_1 downMins2 downMins1].
  rewrite H0, H1, H2, H3, H4, H5.
  cbv beta iota delta [encode secsSince1900_4 secsSince1900_3 secsSince1900_2
                       secsSince1900_1 downMins2 downMins1].
  rewrite (bytes_of_uint32 _ Hts), (bytes_of_uint16 _ Hmins).
  eexists. split; [reflexivity|]. split; reflexivity.
Qed.

Lemma getNewestCompletedRecord_any_index (mem : list Z) (i0 i1 : Z)
    (b : EEPROMRecord_t) (tr : list event) (fuel : nat) :
  getNewestCompletedRecord fuel (mkStore mem i0 b tr)
  = getNewestCompletedRecord fuel (mkStore mem i1 b tr).
Proof.
  unfold getNewestCompletedRecord. run_cbv.
  assert ((0 <=? Z.of_nat (length mem) / sizeof_EEPROMRecord_t) = true) as Hle.
  { apply Z.leb_le. unfold sizeof_EEPROMRecord_t.
    apply Z.div_pos; lia. }
  assert ((0 >? Z.of_nat (length mem) / sizeof_EEPROMRecord_t) = false) as Hgt.
  { rewrite Z.gtb_ltb. apply Z.ltb_ge. apply Z.leb_le. exact Hle. }
  destruct fuel as [|fuel]; [reflexivity|].
  rewrite !while_S. unfold neqb. rewrite Hle.
  destruct (Z.eqb_spec (peek mem (0 + 7)) MODEM_RECORD_COMPLETE) as [E|NE];
    cbn [negb andb].
  - rewrite Hgt. rewrite !while_S. rewrite Hle, E.
    change (MODEM_RECORD_COMPLETE =? MODEM_RECORD_COMPLETE) with true.
    cbn [andb]. run_cbv. reflexivity.
  - run_cbv. reflexivity.
Qed.

Lemma uint32_of_bytes (b4 b3 b2 b1 : Z) :
  0 <= b4 < 256 -> 0 <= b3 < 256 -> 0 <= b2 < 256 -> 0 <= b1 < 256 ->
  let x := (Z.shiftl b4 24 + Z.shiftl b3 16 + Z.shiftl b2 8 + b1) mod 2 ^ 32 in
  0 <= x < 2 ^ 32 /\
  Z.land (Z.shiftr x 24) 0xff = b4 /\ Z.land (Z.shiftr x 16) 0xff = b3 /\
  Z.land (Z.shiftr x 8) 0xff = b2 /\ Z.land x 0xff = b1.
Proof.
  intros H4 H3 H2 H1. cbv zeta.
  rewrite !land_0xff, !Z.shiftl_mul_pow2, !Z.shiftr_div_pow2 by lia.
  change (2 ^ 32) with 4294967296 in *. change (2 ^ 24) with 16777216.
  change (2 ^ 16) with 65536. change (2 ^ 8) with 256.
  rewrite (Z.mod_small (b4 * 16777216 + b3 * 65536 + b2 * 256 + b1)) by lia.
  split_and!; try lia; Z.div_mod_to_equations; lia.
Qed.

Lemma uint16_of_bytes (b2 b1 : Z) :
  0 <= b2 < 256 -> 0 <= b1 < 256 ->
  let x := (Z.shiftl b2 8 + b1) mod 2 ^ 16 in
  0 <= x < 2 ^ 16 /\
  Z.land (Z.shiftr x 8) 0xff = b2 /\ Z.land x 0xff = b1.
Proof.
  intros H2 H1. cbv zeta.
  rewrite !land_0xff, !Z.shiftl_mul_pow2, !Z.shiftr_div_pow2 by lia.
  change (2 ^ 16) with 65536 in *. change (2 ^ 8) with 256.
  rewrite (Z.mod_small (b2 * 256 + b1)) by lia.
  split_and!; try lia; Z.div_mod_to_equations; lia.
Qed.

Lemma is_uint8_spec (x : Z) : is_uint8 x = true <-> 0 <= x < 256.
Proof.
  unfold is_uint8. rewrite andb_true_iff, Z.leb_le, Z.ltb_lt. tauto.
Qed.

(** ** The ring after any number of appends *)

Lemma mod_window_inj (N a b : Z) :
  0 < N -> a mod N = b mod N -> - N < a - b < N -> a = b.
Proof.
  intros HN E Hw.
  pose proof (Z.div_mod a N ltac:(lia)) as Ha.
  pose proof (Z.div_mod b N ltac:(lia)) as Hb.
  rewrite E in Ha.
  assert (N * (a / N - b / N) = a - b) as Hd by lia.
  assert (a / N - b / N = 0) as Hq by nia.
  rewrite Hq in Hd. lia.
Qed.

Lemma mod_pred_window (N k x : Z) :
  0 < N -> 0 <= x < N -> x <> k mod N ->
  exists m, k - N < m < k /\ m mod N = x.
Proof.
  intros HN Hx Hne.
  pose proof (Z.mod_pos_bound (k - x) N HN) as Hb.
  exists (k - (k - x) mod N).
  assert ((k - (k - x) mod N) mod N = x) as E.
  { rewrite Zminus_mod_idemp_r. replace (k - (k - x)) with x by lia.
    apply Z.mod_small. lia. }
  split; [|exact E].
  destruct (Z.eq_dec ((k - x) mod N) 0) as [Z0|]; [|lia].
  exfalso. apply Hne. rewrite Z0, Z.sub_0_r in E. congruence.
Qed.

Lemma fitsb_spec (r : modemRecord_t) : fitsb r = true <-> fits r.
Proof.
  unfold fitsb, fits. rewrite !andb_true_iff, !Z.leb_le, !Z.ltb_lt. tauto.
Qed.

Lemma ring_of_erased (n : nat) :
  (0 < n)%nat -> ring_of (Z.of_nat n) [] (erased n).
Proof.
  intros Hn. destruct (log_of_erased n Hn) as (H1 & _ & _ & H4 & H5).
  unfold ring_of. split_and!; try assumption.
  - intros m r Hm. discriminate.
  - intros H. contradiction.
Qed.

(** On a ring that holds a history, every slot but the one in progress is
    COMPLETE or erased. *)
Lemma ring_of_other_flags (N : Z) (rs : list modemRecord_t) (mem : list Z)
    (x : Z) :
  ring_of N rs mem -> 1 <= N -> 0 <= x < N ->
  x <> Z.of_nat (length rs) mod N ->
  slot_flag mem x = MODEM_RECORD_COMPLETE \/ slot_flag mem x = MODEM_RECORD_UNUSED.
Proof.
  intros (Hlen & Hrec & Hip & Hun & Hemp) HN Hx Hne.
  set (k := Z.of_nat (length rs)) in *.
  destruct (Z.lt_ge_cases k x) as [Hkx|Hkx].
  { right. apply Hun. lia. }
  left.
  destruct (mod_pred_window N k x ltac:(lia) Hx Hne) as (m & Hm & Em).
  assert (0 <= m) as Hm0.
  { destruct (Z.lt_ge_cases m 0) as [Hneg|]; [|assumption].
    exfalso. assert (k < N) as HkN by lia.
    assert (m = x - N); [|lia].
    apply (mod_window_inj N); [lia | | lia].
    rewrite Em. replace (x - N) with (x + (-1) * N) by lia.
    rewrite Z.mod_add by lia. symmetry. apply Z.mod_small. lia. }
  destruct (lookup_lt_is_Some_2 rs (Z.to_nat m)) as [r Hr].
  { unfold k in Hm. lia. }
  pose proof (Hrec _ _ Hr) as Hh. rewrite Z2Nat.id in Hh by lia.
  rewrite Em in Hh. apply (slot_holds_flag _ _ _ _ (Hh ltac:(lia))).
Qed.

Lemma slot_holds_frame (mem mem' : list Z) (x : Z) (b : EEPROMRecord_t) (f : Z) :
  (forall a, a / 8 = x -> peek mem' a = peek mem a) ->
  slot_holds mem' (8 * x) b f = slot_holds mem (8 * x) b f.
Proof.
  intros H. unfold slot_holds.
  assert (forall c, 0 <= c < 8 -> peek mem' (8 * x + c) = peek mem (8 * x + c))
    as Hc.
  { intros c Hc. apply H. rewrite slot_div. rewrite Z.div_small by lia. lia. }
  rewrite <- (Z.add_0_r (8 * x)) at 1 8.
  rewrite !Hc by lia. rewrite Z.add_0_r. reflexivity.
Qed.

Lemma slot_holds_encode (mem : list Z) (i sp sp' f : Z) (r : modemRecord_t) :
  slot_holds mem i (encode r sp) f = slot_holds mem i (encode r sp') f.
Proof. reflexivity. Qed.

Lemma next_slot_mod (N k : Z) :
  0 < N -> next_slot N (k mod N) = (k + 1) mod N.
Proof. intros HN. unfold next_slot. rewrite (succ_mod k N HN). reflexivity. Qed.

(** One append on a ring that holds the history [rs]. *)
Lemma ring_of_append (s : store) (N : Z) (rs : list modemRecord_t)
    (r : modemRecord_t) (fuel : nat) :
  ring_of N rs (EEPROM s) -> 2 <= N -> N + 1 < Z.of_nat fuel ->
  exists s', completeLogEntry_call fuel (Some r) s = Some (tt, s') /\
    ring_of N (rs ++ [r]) (EEPROM s').
Proof.
  intros Hring HN Hfuel. pose proof Hring as (Hlen & Hrec & Hip & Hun & Hemp).
  set (k := Z.of_nat (length rs)) in *.
  destruct (convertToEEPROMBlock_run r s) as (s1 & Hc & HE1 & _ & _ & HB1).
  fold (encode r (spare (EEPROMBlock s))) in HB1.
  cbn [completeLogEntry_call]. unfold mbind at 1. unfold M_bind at 1.
  rewrite Hc. rewrite <- HE1 in Hlen.
  destruct (completeLogEntry_spec s1 N fuel Hlen ltac:(lia) Hfuel)
    as (s' & t & j & Hrun & [Hj Hslot] & HE & _).
  rewrite HE1 in *. rewrite HB1 in HE. clear HE1 HB1 Hc.
  exists s'. split; [exact Hrun|].
  pose proof (Z.mod_pos_bound k N ltac:(lia)) as Hkm.
  assert (j = k mod N) as ->.
  { destruct (decide (rs = [])) as [->|Hne].
    - destruct Hslot as [[Hf _]|[-> _]]; [|reflexivity].
      rewrite (Hemp eq_refl j Hj) in Hf. discriminate.
    - destruct Hslot as [[Hf Hfirst]|[_ Hno]].
      + destruct (Z.eq_dec j (k mod N)) as [|Hjk]; [assumption|]. exfalso.
        destruct (ring_of_other_flags N rs _ j Hring ltac:(lia) Hj Hjk) as [H|H];
          rewrite H in Hf; discriminate.
      + exfalso. apply (Hno (k mod N) Hkm). exact (Hip Hne). }
  rewrite (next_slot_mod N k ltac:(lia)) in HE.
  pose proof (Z.mod_pos_bound (k + 1) N ltac:(lia)) as Hkm1.
  assert (forall x, 0 <= x < N ->
            slot_flag (EEPROM s') x =
            if x =? (k + 1) mod N then MODEM_RECORD_IN_PROGRESS
            else if x =? k mod N then MODEM_RECORD_COMPLETE
            else slot_flag (EEPROM s) x) as Hflags.
  { intros x Hx. rewrite HE, <- (next_slot_mod N k) by lia.
    apply slot_flag_after_append; assumption. }
  destruct (peek_write_all_append (EEPROM s) N (k mod N)
              (encode r (spare (EEPROMBlock s))) Hlen HN Hkm)
    as (Hsealed & _ & Hframe).
  rewrite (next_slot_mod N k ltac:(lia)), <- HE in Hsealed, Hframe.
  unfold ring_of. rewrite length_app. cbn [length].
  replace (Z.of_nat (length rs + 1)) with (k + 1) by (unfold k; lia).
  split_and!.
  - rewrite HE, EEPROM_len_write_all. exact Hlen.
  - intros m r0 Hm Hwin.
    destruct (lookup_app_Some rs [r] m r0) as [Hcases _].
    destruct (Hcases Hm) as [Hin|[Hge Hlast]].
    + pose proof (lookup_lt_Some _ _ _ Hin) as Hmk. fold k in Hrec.
      rewrite slot_holds_frame with (mem := EEPROM s).
      * apply (Hrec _ _ Hin). unfold k. lia.
      * intros a Ha. apply Hframe. left. rewrite Ha. split.
        -- intros E. apply (mod_window_inj N) in E; unfold k in *; lia.
        -- intros E. apply (mod_window_inj N) in E; unfold k in *; lia.
    + assert (m = length rs) as -> by
        (apply lookup_lt_Some in Hlast; simpl in Hlast; lia).
      replace (length rs - length rs)%nat with 0%nat in Hlast by lia.
      injection Hlast as <-. fold k. exact Hsealed.
  - intros _. rewrite Hflags by lia. rewrite Z.eqb_refl. reflexivity.
  - intros x Hx. rewrite Hflags by lia.
    rewrite (Z.mod_small (k + 1) N) by (unfold k; lia).
    rewrite (Z.mod_small k N) by (unfold k; lia).
    destruct (Z.eqb_spec x (k + 1)); [lia|]. destruct (Z.eqb_spec x k); [lia|].
    apply Hun. lia.
  - intros H. destruct rs; discriminate.
Qed.

Lemma ring_of_appends (rs' : list modemRecord_t) (s : store) (N : Z)
    (rs : list modemRecord_t) (fuel : nat) :
  ring_of N rs (EEPROM s) -> 2 <= N -> N + 1 < Z.of_nat fuel ->
  exists s', completeLogEntry_calls fuel (map Some rs') s = Some (tt, s') /\
    ring_of N (rs ++ rs') (EEPROM s').
Proof.
  revert s rs. induction rs' as [|r rs' IH]; intros s rs Hring HN Hfuel.
  - exists s. rewrite app_nil_r. split; [reflexivity | exact Hring].
  - destruct (ring_of_append s N rs r fuel Hring HN Hfuel)
      as (s1 & Hrun & Hring1).
    cbn [map completeLogEntry_calls]. unfold mbind at 1. unfold M_bind at 1.
    rewrite Hrun.
    destruct (IH s1 (rs ++ [r]) Hring1 HN Hfuel) as (s' & Hrun' & Hring').
    exists s'. rewrite <- app_assoc in Hring'. split; assumption.
Qed.

(** On a ring that holds a history, [getOldestCompletedRecord] finds the
    oldest record that is still there, provided its local [count] starts
    no larger than the number of slots. *)
Lemma getOldestCompletedRecord_on_ring (s : store) (N count0 : Z)
    (rs : list modemRecord_t) (fuel : nat) :
  ring_of N rs (EEPROM s) -> rs <> [] -> 2 <= N ->
  count0 <= N -> N < Z.of_nat fuel ->
  exists s',
    getOldestCompletedRecord count0 fuel s
      = Some (8 * (Z.max 0 (Z.of_nat (length rs) - N + 1) mod N), s') /\
    EEPROM s' = EEPROM s /\
    _modemRecordIndex s' = 8 * (Z.max 0 (Z.of_nat (length rs) - N + 1) mod N).
Proof.
  intros Hring Hne HN Hc0 Hfuel.
  pose proof Hring as (Hlen & Hrec & Hip & Hun & _).
  set (k := Z.of_nat (length rs)) in *.
  assert (0 < k) as Hk.
  { unfold k. destruct rs; [contradiction | simpl; lia]. }
  pose proof (Z.mod_pos_bound k N ltac:(lia)) as Hkm.
  assert (forall m, 0 <= m < k -> k < m + N ->
            slot_flag (EEPROM s) (m mod N) = MODEM_RECORD_COMPLETE) as Hcomp.
  { intros m Hm Hw. destruct (lookup_lt_is_Some_2 rs (Z.to_nat m)) as [r Hr].
    { unfold k in Hm. lia. }
    pose proof (Hrec _ _ Hr) as Hh. rewrite Z2Nat.id in Hh by lia.
    exact (slot_holds_flag _ _ _ _ (Hh Hw)). }
  destruct (getOldestCompletedRecord_spec s N count0 fuel Hlen ltac:(lia) Hfuel)
    as (r & s' & Hrun & HE & _ & _ & _ & Hcases).
  destruct Hcases as [(_ & [Hgt|[Hno|Hno]])
                     |(jp & d & _ & Hjp & Hd & Hfp & Hfirst & Hc & Hmin & -> & Hi)].
  - lia.
  - exfalso. apply (Hno (k mod N) Hkm). exact (Hip Hne).
  - exfalso. apply (Hno ((k - 1) mod N)).
    + apply Z.mod_pos_bound. lia.
    + apply Hcomp; lia.
  - assert (jp = k mod N) as ->.
    { destruct (Z.eq_dec jp (k mod N)) as [|Hjk]; [assumption|]. exfalso.
      destruct (ring_of_other_flags N rs _ jp Hring ltac:(lia) Hjp Hjk) as [H|H];
        rewrite H in Hfp; discriminate. }
    assert ((k mod N + d) mod N = Z.max 0 (k - N + 1) mod N) as Hres.
    { rewrite Z.add_mod_idemp_l by lia.
      destruct (Z.le_gt_cases (N - 1) k) as [Hfull|Hroom].
      - rewrite Z.max_r by lia.
        assert (d = 1) as ->.
        { destruct (Z.eq_dec d 1) as [|Hd1]; [assumption|]. exfalso.
          apply (Hmin 1 ltac:(lia)).
          rewrite Z.add_mod_idemp_l by lia.
          replace (k + 1) with ((k - N + 1) + 1 * N) by lia.
          rewrite Z.mod_add by lia. apply Hcomp; lia. }
        replace (k + 1) with ((k - N + 1) + 1 * N) by lia.
        apply Z.mod_add. lia.
      - rewrite Z.max_l by lia.
        rewrite (Z.mod_small k N) in * by lia.
        assert (d = N - k) as ->.
        { destruct (Z.lt_trichotomy d (N - k)) as [H|[H|H]]; [|exact H|].
          - exfalso. rewrite (Z.mod_small (k + d) N), Hun in Hc by lia.
            discriminate.
          - exfalso. apply (Hmin (N - k)); [lia|].
            replace (k + (N - k)) with (0 + 1 * N) by lia.
            rewrite Z.mod_add by lia. apply Hcomp; lia. }
        replace (k + (N - k)) with (0 + 1 * N) by lia.
        apply Z.mod_add. lia. }
    rewrite Hres in *. exists s'. split; [exact Hrun|].
    split; [exact HE | exact Hi].
Qed.

Lemma next_index_mod (s : store) (N m : Z) :
  EEPROM_len (EEPROM s) = 8 * N -> 1 <= N ->
  _modemRecordIndex s = 8 * (m mod N) ->
  next_index s = 8 * ((m + 1) mod N).
Proof.
  intros Hlen HN Hi. pose proof (Z.mod_pos_bound m N ltac:(lia)) as Hb.
  unfold next_index, sizeof_EEPROMRecord_t.
  rewrite Hlen, Hi, Z.geb_leb, (succ_mod m N) by lia.
  destruct (Z.leb_spec (8 * N) (8 * (m mod N) + 8));
    destruct (Z.ltb_spec (m mod N + 1) N); lia.
Qed.

Lemma walk_next_ring (N : Z) (rs : list modemRecord_t)
    (todo : list modemRecord_t) (s : store) (m : nat) :
  ring_of N rs (EEPROM s) -> 2 <= N ->
  Forall fits rs ->
  _modemRecordIndex s = 8 * (Z.of_nat m mod N) ->
  (forall i r, todo !! i = Some r -> rs !! (m + 1 + i)%nat = Some r) ->
  Z.of_nat (length rs) < Z.of_nat m + 1 + N ->
  exists s', walk_next (length todo) s
             = Some (in_ring_slots N (Z.of_nat m + 1) todo, s') /\
    EEPROM s' = EEPROM s /\
    _modemRecordIndex s' = 8 * (Z.of_nat (m + length todo) mod N).
Proof.
  intros Hring HN Hfits Hi Htodo Hwin. revert s m Hring Hi Htodo Hwin.
  induction todo as [|r todo IH]; intros s m Hring Hi Htodo Hwin.
  - exists s. cbn [length walk_next in_ring_slots]. rewrite Nat.add_0_r.
    split; [reflexivity|]. split; [reflexivity | exact Hi].
  - pose proof Hring as (Hlen & Hrec & _).
    assert (rs !! (m + 1)%nat = Some r) as Hr.
    { rewrite <- (Nat.add_0_r (m + 1)). apply Htodo. reflexivity. }
    pose proof (lookup_lt_Some _ _ _ Hr) as Hm.
    pose proof (Hrec _ _ Hr ltac:(lia)) as Hh.
    replace (Z.of_nat (m + 1)) with (Z.of_nat m + 1) in Hh by lia.
    assert (fits r) as Hfit.
    { rewrite Forall_forall in Hfits. apply Hfits.
      eapply list_elem_of_lookup_2. exact Hr. }
    pose proof (next_index_mod s N (Z.of_nat m) Hlen ltac:(lia) Hi) as Hnext.
    pose proof (Z.mod_pos_bound (Z.of_nat m) N ltac:(lia)) as Hmb.
    destruct (getNextCompletedRecord_spec s ltac:(lia))
      as (i & s1 & t & Hrun & HE1 & _ & _ & _ & _ & Hcases).
    rewrite Hnext in Hcases.
    destruct Hcases as [(_ & -> & Hi1)|(Hf & _)].
    2:{ exfalso. apply Hf. exact (slot_holds_flag _ _ _ _ Hh). }
    rewrite <- HE1 in Hh.
    destruct (read_record_spec s1 _ r Hi1 Hh Hfit) as (s2 & Hrd & HE2 & Hi2).
    destruct (IH s2 (m + 1)%nat) as (s3 & Hw & HE3 & Hi3).
    + rewrite HE2, HE1. exact Hring.
    + rewrite Hi2, Hi1. f_equal. f_equal. lia.
    + intros i r0 Hi0. replace (m + 1 + 1 + i)%nat with (m + 1 + S i)%nat by lia.
      apply Htodo. exact Hi0.
    + lia.
    + cbn [length walk_next in_ring_slots]. unfold mbind, M_bind, mret, M_ret.
      rewrite Hrun, Hrd.
      replace (Z.of_nat m + 1 + 1) with (Z.of_nat (m + 1) + 1) by lia.
      rewrite Hw. exists s3.
      split; [reflexivity|]. split; [congruence|].
      rewrite Hi3. f_equal. f_equal. lia.
Qed.

(** ** The walk of the history command *)

Lemma read_record_frame (s : store) :
  exists r s', read_record s = Some (r, s') /\
    EEPROM s' = EEPROM s /\ _modemRecordIndex s' = _modemRecordIndex s /\
    exists t, trace s' = trace s ++ t /\ updates t = [].
Proof.
  destruct s as [mem idx b tr].
  unfold read_record, getDataFromIndex, getDataFromIndex_at,
    convertFromEEPROMBlock. run_cbv.
  eexists _, _. split; [reflexivity|].
  cbn [EEPROM _modemRecordIndex EEPROMBlock trace].
  split_and!; try reflexivity.
  eexists. rewrite <- !app_assoc. split; reflexivity.
Qed.

Lemma history_loop_spec (s : store) (N jp e0 : Z) (fuel : nat) :
  EEPROM_len (EEPROM s) = 8 * N -> 1 <= N -> N < Z.of_nat fuel ->
  0 <= jp < N -> 1 <= e0 < N ->
  slot_flag (EEPROM s) jp = MODEM_RECORD_IN_PROGRESS ->
  _modemRecordIndex s = 8 * ((jp + e0) mod N) ->
  exists l s', history_loop fuel s = Some (l, s') /\
    EEPROM s' = EEPROM s /\
    updates (trace s') = updates (trace s) /\
    Z.of_nat (length l) + e0 < N /\
    Forall (fun p => exists x, 0 <= x < N /\ fst p = 8 * x /\
               slot_flag (EEPROM s) x = MODEM_RECORD_COMPLETE) l.
Proof.
  intros Hlen HN Hfuel Hjp He0 Hfp Hi. unfold history_loop.
  match goal with
  | |- context [while fuel ?cnd ?bdy ?ini] =>
    destruct (while_rule cnd bdy
      (fun acc s' =>
         EEPROM s' = EEPROM s /\ updates (trace s') = updates (trace s) /\
         exists e, e0 <= e < N /\ Z.of_nat (length acc) = e - e0 /\
           _modemRecordIndex s' = 8 * ((jp + e) mod N) /\
           Forall (fun p => exists x, 0 <= x < N /\ fst p = 8 * x /\
                      slot_flag (EEPROM s) x = MODEM_RECORD_COMPLETE) acc)
      (fun acc s' => N - e0 - Z.of_nat (length acc))
      (fun o s' =>
         match o with
         | inl _ => False
         | inr acc =>
           EEPROM s' = EEPROM s /\ updates (trace s') = updates (trace s) /\
           Z.of_nat (length acc) + e0 < N /\
           Forall (fun p => exists x, 0 <= x < N /\ fst p = 8 * x /\
                      slot_flag (EEPROM s) x = MODEM_RECORD_COMPLETE) acc
         end)) with (fuel := fuel) (l := ini) (s := s)
      as (o & s1 & Hrun & HP)
  end.
  - intros acc s' _ C. discriminate.
  - intros acc s' (HE & Hu & e & He & Hl & Hi' & Hall) _.
    assert (EEPROM_len (EEPROM s') = 8 * N) as Hlen' by congruence.
    pose proof (Z.mod_pos_bound (jp + e) N ltac:(lia)) as Hb.
    pose proof (Z.mod_pos_bound (jp + e + 1) N ltac:(lia)) as Hb1.
    pose proof (next_index_mod s' N (jp + e) Hlen' HN Hi') as Hnext.
    destruct (getNextCompletedRecord_spec s' ltac:(lia))
      as (i & s1 & t & Hrun & HE1 & _ & Ht1 & Hu1 & _ & Hcases).
    unfold mbind at 1. unfold M_bind at 1. rewrite Hrun.
    rewrite Hnext, HE in Hcases.
    fold (slot_flag (EEPROM s) ((jp + e + 1) mod N)) in Hcases.
    destruct Hcases as [(Hf & -> & Hi1)|(Hf & -> & Hi1)].
    + assert (e + 1 < N) as He1.
      { destruct (Z.eq_dec (e + 1) N) as [E|]; [|lia]. exfalso.
        replace (jp + e + 1) with (jp + 1 * N) in Hf by lia.
        rewrite Z.mod_add, Z.mod_small, Hfp in Hf by lia. discriminate. }
      destruct (read_record_frame s1) as (r & s2 & Hrd & HE2 & Hi2 & t2 & Ht2 & Hu2).
      unfold neqb.
      destruct (Z.eqb_spec (8 * ((jp + e + 1) mod N)) (-1)) as [|_]; [lia|].
      cbn [negb]. unfold mbind, M_bind, mret, M_ret. rewrite Hrd.
      eexists _, _. split; [reflexivity|]. cbv beta iota.
      rewrite length_app. cbn [length]. split; [|lia].
      split_and!.
      * congruence.
      * rewrite Ht2, Ht1, !updates_app, Hu1, Hu2, !app_nil_r. exact Hu.
      * exists (e + 1). split_and!; try lia.
        -- rewrite Hi2, Hi1. f_equal. f_equal. lia.
        -- apply Forall_app. split; [exact Hall|]. constructor; [|constructor].
           exists ((jp + e + 1) mod N). cbn [fst].
           split_and!; first [lia | exact Hf].
    + change (neqb (-1) (-1)) with false. cbv iota.
      eexists _, _. split; [reflexivity|]. cbv beta iota.
      split_and!; try assumption; try lia.
      * congruence.
      * rewrite Ht1, updates_app, Hu1, app_nil_r. exact Hu.
  - split_and!; try reflexivity. exists e0. cbn [length].
    split_and!; first [lia | exact Hi | constructor].
  - cbn [length]. lia.
  - destruct o as [acc|acc]; [contradiction|].
    destruct HP as (HE & Hu & Hl & Hall).
    unfold mbind at 1. unfold M_bind at 1. rewrite Hrun. exists acc, s1.
    split; [reflexivity|]. split_and!; assumption.
Qed.

Lemma history_walk_spec (s : store) (N count0 : Z) (fuel : nat) :
  EEPROM_len (EEPROM s) = 8 * N -> 1 <= N -> N < Z.of_nat fuel ->
  exists l s', history_walk count0 fuel s = Some (l, s') /\
    EEPROM s' = EEPROM s /\
    updates (trace s') = updates (trace s) /\
    Z.of_nat (length l) < N /\
    Forall (fun p => exists x, 0 <= x < N /\ fst p = 8 * x /\
               slot_flag (EEPROM s) x = MODEM_RECORD_COMPLETE) l.
Proof.
  intros Hlen HN Hfuel.
  destruct (getOldestCompletedRecord_spec s N count0 fuel Hlen HN Hfuel)
    as (r & s1 & Hrun & HE & _ & (t & Ht & Hu & _) & _ & Hcases).
  unfold history_walk. unfold mbind at 1. unfold M_bind at 1. rewrite Hrun.
  destruct Hcases as [(-> & _)
                     |(jp & d & _ & Hjp & Hd & Hfp & _ & Hc & _ & -> & Hi)].
  - change (neqb (-1) (-1)) with false. cbv iota.
    exists [], s1. split; [reflexivity|]. split_and!.
    + exact HE.
    + rewrite Ht, updates_app, Hu, app_nil_r. reflexivity.
    + simpl. lia.
    + constructor.
  - pose proof (Z.mod_pos_bound (jp + d) N ltac:(lia)) as Hb.
    unfold neqb.
    destruct (Z.eqb_spec (8 * ((jp + d) mod N)) (-1)) as [|_]; [lia|].
    cbn [negb].
    destruct (read_record_frame s1) as (r & s2 & Hrd & HE2 & Hi2 & t2 & Ht2 & Hu2).
    destruct (history_loop_spec s2 N jp d fuel) as (l & s3 & Hloop & HE3 & Hu3 & Hl & Hall);
      try assumption; try congruence.
    unfold mbind, M_bind, mret, M_ret. rewrite Hrd, Hloop.
    eexists _, _. split; [reflexivity|]. split_and!.
    + congruence.
    + rewrite Hu3, Ht2, Ht, !updates_app, Hu, Hu2, !app_nil_r. reflexivity.
    + cbn [length]. lia.
    + constructor.
      * exists ((jp + d) mod N). cbn [fst].
        split_and!; first [lia | exact Hc].
      * rewrite HE2, HE in Hall. exact Hall.
Qed.

(** ** Operations that do not write *)

Lemma run_operation_read_only (op : operation) (s : store) (N : Z) (fuel : nat) :
  1 <= N -> 8 * N + 1 < Z.of_nat fuel -> index_ok N s ->
  writes_EEPROM op = false ->
  exists s', run_operation fuel op s = Some (tt, s') /\ index_ok N s' /\
    EEPROM s' = EEPROM s /\ updates (trace s') = updates (trace s).
Proof.
  intros HN Hfuel Hok Hro.
  destruct (run_operation_index_ok op s N fuel HN Hfuel Hok) as (s' & Hrun & Hok').
  exists s'. split; [exact Hrun|]. split; [exact Hok'|].
  destruct Hok as [Hlen (j0 & Hj0 & Hi0)].
  assert (forall t, updates t = [] ->
            updates (trace s ++ t) = updates (trace s)) as Happ.
  { intros t Ht. rewrite updates_app, Ht, app_nil_r. reflexivity. }
  destruct op; try discriminate Hro; cbn [run_operation] in Hrun;
    unfold mbind, M_bind in Hrun.
  - destruct (getOldestCompletedRecord_spec s N count0 fuel Hlen HN ltac:(lia))
      as (r & s1 & E & HE & _ & (t & Ht & Hu & _) & _).
    rewrite E in Hrun. injection Hrun as <-. rewrite Ht. auto.
  - destruct (getNextCompletedRecord_spec s ltac:(lia))
      as (r & s1 & t & E & HE & _ & Ht & Hu & _).
    rewrite E in Hrun. injection Hrun as <-. rewrite Ht. auto.
  - destruct (getRecordInProgress_spec s N fuel Hlen HN ltac:(lia))
      as (r & s1 & E & HE & _ & t & Ht & Hu & _).
    rewrite E in Hrun. injection Hrun as <-. rewrite Ht. auto.
  - destruct (getNewestCompletedRecord_spec s N fuel Hlen HN ltac:(lia))
      as (r & s1 & t & E & HE & _ & _ & _ & Ht & Hu & _).
    rewrite E in Hrun. injection Hrun as <-. rewrite Ht. auto.
  - destruct (getIndexOfNextCompletedRecord_spec s)
      as (r & s1 & E & HE & _ & Ht & _).
    rewrite E in Hrun. injection Hrun as <-. rewrite Ht. auto.
  - destruct (getIndexOfPrevCompletedRecord_spec s)
      as (r & s1 & E & HE & _ & Ht & _).
    rewrite E in Hrun. injection Hrun as <-. rewrite Ht. auto.
  - rewrite getDataFromIndex_at_spec in Hrun. injection Hrun as <-.
    cbn [EEPROM trace]. auto.
  - unfold getDataFromIndex in Hrun. run_M.
    unfold mbind, M_bind, get_index in Hrun.
    rewrite getDataFromIndex_at_spec in Hrun. injection Hrun as <-.
    cbn [EEPROM trace]. auto.
  - destruct (convertToEEPROMBlock_run src s) as (s1 & E & HE & _ & Ht & _).
    rewrite E in Hrun. injection Hrun as <-. rewrite Ht. auto.
  - unfold convertFromEEPROMBlock in Hrun. run_M.
    unfold mbind, M_bind, get_block, mret, M_ret in Hrun.
    injection Hrun as <-. auto.
  - destruct (getEEPROMUptimeStats_spec s N fuel Hlen ltac:(lia) Hfuel)
      as (s1 & t & E & HE & _ & Ht & Hu & _).
    rewrite E in Hrun. injection Hrun as <-. rewrite Ht. auto.
Qed.

(** * NTPClass: calendar arithmetic *)

Lemma while_do_mono {A : Type} (cond : A -> outcome bool)
    (body : A -> outcome A) (fuel fuel' : nat) (a : A) :
  (fuel <= fuel')%nat ->
  while_do fuel cond body a <> OutOfFuel ->
  while_do fuel' cond body a = while_do fuel cond body a.
Proof.
  revert fuel' a. induction fuel as [|fuel IH]; intros fuel' a Hle Hne.
  - contradiction.
  - destruct fuel' as [|fuel']; [lia|]. cbn [while_do] in *.
    unfold mbind, outcome_bind in *.
    destruct (cond a) as [[|]|i|i|]; try reflexivity.
    destruct (body a) as [a'|i|i|]; try reflexivity.
    apply IH; [lia | exact Hne].
Qed.

Lemma while_do_fmap {A : Type} (f : A -> A) (cond : A -> outcome bool)
    (body : A -> outcome A) (fuel : nat) (a : A) :
  (forall a, cond (f a) = cond a) ->
  (forall a, body (f a) = f <$> body a) ->
  while_do fuel cond body (f a) = f <$> while_do fuel cond body a.
Proof.
  intros Hc Hb. revert a. induction fuel as [|fuel IH]; intros a.
  - reflexivity.
  - cbn [while_do]. unfold mbind, outcome_bind, fmap, outcome_fmap in *.
    rewrite Hc, Hb.
    destruct (cond a) as [[|]|i|i|]; try reflexivity.
    destruct (body a) as [a'|i|i|]; try reflexivity.
    apply IH.
Qed.

Lemma uint32_days (n : Z) :
  45290 <= n < 2 ^ 32 -> uint32 (uint32 (n - 45291) + 1) = n - 45290.
Proof.
  intros H. unfold uint32. rewrite Zplus_mod_idemp_l.
  replace (n - 45291 + 1) with (n - 45290) by lia. apply Z.mod_small. lia.
Qed.

Lemma uint32_days_before (n : Z) :
  0 <= n < 45290 -> (uint32 (uint32 (n - 45291) + 1) >? 5840) = true.
Proof.
  intros H. unfold uint32. rewrite Zplus_mod_idemp_l.
  replace (n - 45291 + 1) with (n - 45290 + 1 * 2 ^ 32 - 1 * 2 ^ 32) by lia.
  rewrite Z.gtb_ltb. apply Z.ltb_lt.
  replace (n - 45290 + 1 * 2 ^ 32 - 1 * 2 ^ 32)
    with (n - 45290 + 2 ^ 32 + (-1) * 2 ^ 32) by lia.
  rewrite Z.mod_add by lia. rewrite Z.mod_small; lia.
Qed.

Lemma while_do_commutes {A : Type} (f : A -> A) (cond : A -> outcome bool)
    (body : A -> outcome A) (fuel : nat) (a : A) :
  (forall a, cond (f a) = cond a) ->
  (forall a, body (f a) = match body a with
                          | Returns x => Returns (f x)
                          | ReadsPastArray i => ReadsPastArray i
                          | WritesPastArray n => WritesPastArray n
                          | OutOfFuel => OutOfFuel
                          end) ->
  while_do fuel cond body (f a)
  = match while_do fuel cond body a with
    | Returns x => Returns (f x)
    | ReadsPastArray i => ReadsPastArray i
    | WritesPastArray n => WritesPastArray n
    | OutOfFuel => OutOfFuel
    end.
Proof.
  intros Hc Hb. apply (while_do_fmap f cond body fuel a Hc Hb).
Qed.

(** [getYMD] reads the time stamp only; it carries the time stamp and the
    time of day along and overwrites the date. *)
Lemma getYMD_from_clock (fuel : nat) (daysLeft : Z) (t : NTP.NTPTime_t) :
  NTP.getYMD_from fuel daysLeft t
  = with_clock (NTP.secsSince1900 t) (NTP.hour t) (NTP.min t) (NTP.sec t)
      <$> NTP.getYMD_from fuel daysLeft blank_time.
Proof.
  destruct t as [s h m sc y mo wd md].
  cbn [NTP.secsSince1900 NTP.hour NTP.min NTP.sec].
  set (W := with_clock s h m sc).
  set (f := fun a : Z * NTP.NTPTime_t => (fst a, W (snd a))).
  unfold NTP.getYMD_from.
  match goal with
  | |- context [if ?c then (?d1, ?t1) else (?d2, ?t2)] =>
    replace (if c then (d1, t1) else (d2, t2))
      with (f (if c then
                 (0, NTP.set_year (NTP.set_mday (NTP.set_mon
                        (NTP.set_wday blank_time 4) 0) 1) 70)
               else
                 (daysLeft, NTP.set_year (NTP.set_mday (NTP.set_mon
                        (NTP.set_wday blank_time 1) 0) 1) 124)))
      by (destruct c; reflexivity)
  end.
  match goal with
  | |- context [f ?a0] => generalize a0
  end.
  intros [dl0 t0].
  unfold mbind, outcome_bind, fmap, outcome_fmap.
  unfold f at 1. cbn [fst snd].
  rewrite (while_do_commutes f _ _ fuel (dl0, t0)).
  2:{ intros [dl t1]. reflexivity. }
  2:{ intros [dl t1]. unfold f, W, with_clock, NTP.IS_LEAP_YEAR. cbn.
      destruct (NTP.year t1 mod 4 =? 0); reflexivity. }
  destruct (while_do fuel _ _ (dl0, t0)) as [[dl1 t1]|i|i|]; try reflexivity.
  unfold f at 1. cbn [fst snd].
  change (NTP.IS_LEAP_YEAR (W t1)) with (NTP.IS_LEAP_YEAR t1).
  generalize (if NTP.IS_LEAP_YEAR t1
              then alter (fun x => uint8 (x + 1)) 1%nat
                     [31; 28; 31; 30; 31; 30; 31; 31; 30; 31; 30; 31]
              else [31; 28; 31; 30; 31; 30; 31; 31; 30; 31; 30; 31]).
  intros dim.
  rewrite (while_do_commutes f _ _ fuel (dl1, t1)).
  2:{ intros [dl t2]. reflexivity. }
  2:{ intros [dl t2]. unfold f, W, with_clock. cbn.
      destruct (array_get dim (NTP.mon t2)); reflexivity. }
  destruct (while_do fuel _ _ (dl1, t1)) as [[dl2 t2]|i|i|]; try reflexivity.
  unfold f at 1. cbn [fst snd].
  apply (while_do_commutes W _ _ fuel
           (NTP.set_wday (NTP.set_mday t2 (uint8 (uint32 (dl2 + 1))))
              (uint8 (uint32 (NTP.wday (NTP.set_mday t2
                                          (uint8 (uint32 (dl2 + 1))))
                              + dl2 mod 7))))).
  - intros t3. reflexivity.
  - intros t3. reflexivity.
Qed.

Lemma getYMD_from_mono (fuel fuel' : nat) (daysLeft : Z) (t : NTP.NTPTime_t) :
  (fuel <= fuel')%nat ->
  NTP.getYMD_from fuel daysLeft t <> OutOfFuel ->
  NTP.getYMD_from fuel' daysLeft t = NTP.getYMD_from fuel daysLeft t.
Proof.
  intros Hle. unfold NTP.getYMD_from.
  match goal with
  | |- context [if ?c then (?d1, ?t1) else (?d2, ?t2)] =>
    generalize (if c then (d1, t1) else (d2, t2))
  end.
  intros [dl0 t0] Hne.
  unfold mbind, outcome_bind in *.
  rewrite (while_do_mono _ _ fuel fuel' (dl0, t0) Hle).
  2:{ intros E. rewrite E in Hne. contradiction. }
  destruct (while_do fuel _ _ (dl0, t0)) as [[dl1 t1]|i|i|]; try reflexivity.
  revert Hne.
  generalize (if NTP.IS_LEAP_YEAR t1
              then alter (fun x => uint8 (x + 1)) 1%nat
                     [31; 28; 31; 30; 31; 30; 31; 31; 30; 31; 30; 31]
              else [31; 28; 31; 30; 31; 30; 31; 31; 30; 31; 30; 31]).
  intros dim Hne.
  rewrite (while_do_mono _ _ fuel fuel' (dl1, t1) Hle).
  2:{ intros E. rewrite E in Hne. contradiction. }
  destruct (while_do fuel _ _ (dl1, t1)) as [[dl2 t2]|i|i|]; try reflexivity.
  apply while_do_mono; assumption.
Qed.

(** Every day from 1 January 2024 to 7 February 2036, where a 32-bit count
    of seconds since 1900 ends. *)
Lemma getYMD_all_days :
  forallb (fun k => getYMD_checked 40 (45290 + Z.of_nat k)) (seq 0 4421) = true.
Proof. vm_compute. reflexivity. Qed.

Lemma days_of_uint32 (s : Z) : 0 <= s < 2 ^ 32 -> 0 <= s / 86400 <= 49710.
Proof.
  intros H. change (2 ^ 32) with 4294967296 in H.
  Z.div_mod_to_equations. lia.
Qed.

Lemma getYMD_checked_at (n : Z) :
  45290 <= n <= 49710 -> getYMD_checked 40 n = true.
Proof.
  intros Hn. pose proof getYMD_all_days as H.
  rewrite forallb_forall in H.
  specialize (H (Z.to_nat (n - 45290))).
  replace (45290 + Z.of_nat (Z.to_nat (n - 45290))) with n in H by lia.
  apply H. apply in_seq. lia.
Qed.

Lemma new_year_after_common_year_range (n : Z) :
  new_year_after_common_year n = true -> 45290 <= n.
Proof.
  unfold new_year_after_common_year. rewrite existsb_exists.
  intros (y & Hin & Hy). apply andb_true_iff in Hy. destruct Hy as [Hy _].
  apply Z.eqb_eq in Hy. subst n.
  cbn [seq map] in Hin.
  repeat (destruct Hin as [<-|Hin]; [vm_compute; discriminate|]).
  contradiction.
Qed.

Lemma getYMD_from_on_day (n : Z) (t : NTP.NTPTime_t) (fuel : nat) :
  45290 <= n <= 49710 -> new_year_after_common_year n = false ->
  (40 <= fuel)%nat ->
  exists t0,
    NTP.getYMD_from fuel (n - 45290) t
    = Returns (with_clock (NTP.secsSince1900 t) (NTP.hour t) (NTP.min t)
                 (NTP.sec t) t0) /\
    is_date_of n t0 = true.
Proof.
  intros Hn Hny Hfuel.
  pose proof (getYMD_checked_at n Hn) as Hck.
  unfold getYMD_checked in Hck. rewrite Hny in Hck.
  destruct (NTP.getYMD_from 40 (n - 45290) blank_time) as [t0|i|i|] eqn:E;
    try discriminate.
  cbn [negb andb] in Hck.
  rewrite getYMD_from_clock, (getYMD_from_mono 40 fuel) by (congruence || lia).
  rewrite E. exists t0. split; [reflexivity | exact Hck].
Qed.

Lemma getYMD_from_epoch (daysLeft : Z) (t : NTP.NTPTime_t) (fuel : nat) :
  (daysLeft >? 5840) = true -> (1 <= fuel)%nat ->
  NTP.getYMD_from fuel daysLeft t
  = Returns (NTP.mkNTPTime (NTP.secsSince1900 t) (NTP.hour t) (NTP.min t)
               (NTP.sec t) 70 0 4 1).
Proof.
  intros Hgt Hfuel.
  assert (NTP.getYMD_from 1 daysLeft blank_time
          = Returns (NTP.mkNTPTime 0 0 0 0 70 0 4 1)) as E.
  { unfold NTP.getYMD_from. rewrite Hgt. reflexivity. }
  rewrite getYMD_from_clock, (getYMD_from_mono 1 fuel) by (congruence || lia).
  rewrite E. reflexivity.
Qed.

Lemma clock_of_uint32 (s : Z) :
  0 <= s < 2 ^ 32 ->
  0 <= uint8 (s mod 86400 / 3600) < 24 /\
  0 <= uint8 (s mod 3600 / 60) < 60 /\
  0 <= uint8 (s mod 60) < 60 /\
  s = 86400 * (s / 86400) + 3600 * uint8 (s mod 86400 / 3600)
      + 60 * uint8 (s mod 3600 / 60) + uint8 (s mod 60).
Proof.
  intros Hs. unfold uint8. change (2 ^ 8) with 256.
  assert (0 <= s mod 86400 / 3600 < 24) as Hh
    by (Z.div_mod_to_equations; lia).
  assert (0 <= s mod 3600 / 60 < 60) as Hm
    by (Z.div_mod_to_equations; lia).
  assert (0 <= s mod 60 < 60) as Hsc by (Z.div_mod_to_equations; lia).
  rewrite (Z.mod_small (s mod 86400 / 3600) 256),
    (Z.mod_small (s mod 3600 / 60) 256), (Z.mod_small (s mod 60) 256) by lia.
  split_and!; try lia. Z.div_mod_to_equations. lia.
Qed.

Lemma uint8_nonneg (x : Z) : (uint8 x >=? 0) = true.
Proof.
  rewrite Z.geb_leb. apply Z.leb_le. unfold uint8.
  apply Z.mod_pos_bound. lia.
Qed.

Lemma uint8_sub_pos (a b : Z) :
  0 <= a < 256 -> 0 <= b < 256 -> (uint8 (a - b) >? 0) = neqb a b.
Proof.
  intros Ha Hb. unfold uint8, neqb. change (2 ^ 8) with 256.
  rewrite Z.gtb_ltb.
  destruct (Z.eqb_spec a b) as [->|Hne]; cbn [negb].
  - rewrite Z.sub_diag. reflexivity.
  - apply Z.ltb_lt. Z.div_mod_to_equations. lia.
Qed.

(** * The sketch *)

Lemma call_returns {A : Type} (c : M A) (g : Sketch.sketch) (a : A) (s : store) :
  c (Sketch.m g) = Some (a, s) ->
  Sketch.call c g = (Returns a, Sketch.set_m s g).
Proof. intros H. unfold Sketch.call. rewrite H. reflexivity. Qed.

(** Symbolic execution of straight-line code of the sketch, on a state
    given by its fields. *)
Ltac run_G :=
  cbv beta iota zeta delta
    [mbind mret Sketch.G_bind Sketch.G_ret Sketch.read Sketch.update
     Sketch.Serial_print Sketch.Serial_println Sketch.pure_call
     Sketch.set_m Sketch.set_modem Sketch.set_buffer Sketch.set_retryNo
     Sketch.set_state Sketch.set_pollDelayMillis Sketch.set_verboseMode
     Sketch.set_statusLEDMode Sketch.set_relayMode
     Sketch.set_simulateNoResponse Sketch.set_clearEEPROMFlag
     Sketch.set_secs Sketch.set_mins Sketch.set_OCR1B Sketch.set_relayPin
     Sketch.set_Serial_rx Sketch.set_Serial_tx
     Sketch.m Sketch.modem Sketch.buffer Sketch.retryNo Sketch.state
     Sketch.pollDelayMillis Sketch.verboseMode Sketch.statusLEDMode
     Sketch.relayMode Sketch.simulateNoResponse Sketch.clearEEPROMFlag
     Sketch.secs Sketch.mins Sketch.OCR1B Sketch.relayPin Sketch.Serial_rx
     Sketch.Serial_tx].

(** The checkpoint of the timer interrupt: seven cell updates, on a
    device that keeps its length. *)
Lemma checkpoint_call (g : Sketch.sketch) (md : modemRecord_t) (N : Z)
    (fuel : nat) :
  EEPROM_len (EEPROM (Sketch.m g)) = 8 * N -> 1 <= N -> N < Z.of_nat fuel ->
  exists s',
    (Sketch.call (convertToEEPROMBlock md);;
     Sketch.call (setEEPROMUptimeStats fuel)) g
      = (Returns tt, Sketch.set_m s' g) /\
    EEPROM_len (EEPROM s') = 8 * N /\
    length (updates (trace s')) = (length (updates (trace (Sketch.m g))) + 7)%nat.
Proof.
  intros Hlen HN Hfuel.
  destruct (convertToEEPROMBlock_run md (Sketch.m g))
    as (s1 & R1 & M1 & _ & T1 & _).
  destruct (setEEPROMUptimeStats_spec s1 N fuel)
    as (s2 & t & j & R2 & _ & M2 & _ & _ & T2 & U2 & _);
    [congruence | assumption | assumption |].
  exists s2. split_and!.
  - unfold mbind, Sketch.G_bind.
    rewrite (call_returns _ _ _ _ R1).
    destruct g; cbn [Sketch.set_m Sketch.m] in *.
    unfold Sketch.call. cbn [Sketch.set_m Sketch.m]. rewrite R2. reflexivity.
  - rewrite M2, EEPROM_len_write_all. congruence.
  - rewrite T2, updates_app, U2, length_app, T1. reflexivity.
Qed.

(** One tick of the timer, from a state whose counters are in range. *)
Lemma TIMER1_COMPB_vect_spec (g : Sketch.sketch) (N : Z) (fuel : nat) :
  EEPROM_len (EEPROM (Sketch.m g)) = 8 * N -> 1 <= N -> N < Z.of_nat fuel ->
  0 <= Sketch.secs g <= 60 -> 0 <= Sketch.mins g <= 240 ->
  exists g',
    Sketch.TIMER1_COMPB_vect fuel g = (Returns tt, g') /\
    EEPROM_len (EEPROM (Sketch.m g')) = 8 * N /\
    Sketch.secs g' = (if Sketch.secs g =? 60 then 1 else Sketch.secs g + 1) /\
    Sketch.mins g' = (if Sketch.secs g =? 60
                      then (if Sketch.mins g =? 240 then 1
                            else Sketch.mins g + 1)
                      else Sketch.mins g) /\
    waitSecs (Sketch.modem g') = uint16 (waitSecs (Sketch.modem g) + 1) /\
    Sketch.retryNo g' = Sketch.retryNo g /\
    Sketch.state g' = Sketch.state g /\
    length (updates (trace (Sketch.m g'))) =
      (length (updates (trace (Sketch.m g)))
       + (if ((Sketch.secs g =? 60) && ((Sketch.mins g + 1) mod 15 =? 0))%Z
          then 7 else 0))%nat.
Proof.
  intros Hlen HN Hfuel Hs Hm.
  destruct g as [s md bf rn st pd vm lm rm sim fl sc mi oc rp rx tx].
  cbn [Sketch.m Sketch.secs Sketch.mins Sketch.modem Sketch.retryNo
       Sketch.state] in *.
  unfold Sketch.TIMER1_COMPB_vect. run_G.
  assert (uint8 (sc + 1) = sc + 1) as E1.
  { unfold uint8. apply Z.mod_small. change (2 ^ 8) with 256. lia. }
  rewrite E1.
  destruct (Z.eqb_spec sc 60) as [->|Hne].
  - change (60 + 1 >? 60) with true. run_G.
    change (uint8 (60 + 1 - 60)) with 1.
    assert (uint8 (mi + 1) = mi + 1) as E2.
    { unfold uint8. apply Z.mod_small. change (2 ^ 8) with 256. lia. }
    rewrite E2.
    set (mi' := if mi =? 240 then 1 else mi + 1).
    assert (mi' mod 15 = (mi + 1) mod 15) as Hmod.
    { unfold mi'. destruct (Z.eqb_spec mi 240) as [->|]; reflexivity. }
    assert (exists b, (mi + 1 >? 240) = b /\
              (if b then uint8 (mi + 1 - 240) else mi + 1) = mi')
      as (b & Hb & Hmi).
    { eexists; split; [reflexivity|]. unfold mi'.
      destruct (Z.eqb_spec mi 240) as [->|]; [reflexivity|].
      destruct (Z.gtb_spec (mi + 1) 240); [lia | reflexivity]. }
    rewrite Hb.
    assert (exists md',
              waitSecs md' = uint16 (waitSecs md + 1) /\
              (if (rn >? 0) || (st =? Sketch.S_LOOKING_FOR_MODEM_ONLINE)
                  || (st =? Sketch.S_ARDUINO_POWERUP)
               then mkModemRecord (secsSince1900 md)
                      (uint16 (downMins md + 1)) (uint16 (waitSecs md + 1))
               else mkModemRecord (secsSince1900 md) (downMins md)
                      (uint16 (waitSecs md + 1))) = md')
      as (md' & Hw & Hmd).
    { eexists; split; [|reflexivity]. destruct (_ || _); reflexivity. }
    destruct (checkpoint_call
                (Sketch.mkSketch s md' bf rn st pd vm lm rm sim fl 1 mi'
                   (uint16 (oc + 15625)) rp rx tx) md' N fuel)
      as (s' & Hrun & Hlen' & Hupd); [assumption..|].
    cbn [Sketch.m Sketch.set_m] in Hrun, Hupd.
    unfold mbind, Sketch.G_bind in Hrun.
    destruct b; run_G;
      destruct ((rn >? 0) || (st =? Sketch.S_LOOKING_FOR_MODEM_ONLINE)
                || (st =? Sketch.S_ARDUINO_POWERUP)); run_G;
      cbn [secsSince1900 downMins waitSecs];
      rewrite ?Hmi; rewrite Hmod;
      (destruct (Z.eqb_spec ((mi + 1) mod 15) 0) as [H15|H15]; run_G;
       [ subst md'; rewrite Hrun; eexists; split; [reflexivity|]
       | eexists; split; [reflexivity|] ];
       cbv beta iota; cbn [Sketch.set_m andb waitSecs];
       split_and!; try reflexivity; try assumption; try lia).
  - destruct (Z.gtb_spec (sc + 1) 60); [lia|]. run_G.
    eexists; split; [reflexivity|].
    cbv beta iota; cbn [andb waitSecs].
    split_and!; try reflexivity; try assumption; lia.
Qed.

Lemma secs_after_range (n : Z) : 0 <= n -> 0 <= secs_after n <= 60.
Proof.
  intros Hn. unfold secs_after. destruct (Z.eqb_spec n 0); [lia|].
  pose proof (Z.mod_pos_bound (n - 1) 60). lia.
Qed.

Lemma mins_after_range (n : Z) : 0 <= n -> 0 <= mins_after n <= 240.
Proof.
  intros Hn. unfold mins_after. destruct (Z.ltb_spec n 61); [lia|].
  pose proof (Z.mod_pos_bound ((n - 61) / 60) 240). lia.
Qed.

Lemma secs_after_succ (n : Z) :
  0 <= n ->
  secs_after (n + 1) = (if secs_after n =? 60 then 1 else secs_after n + 1).
Proof.
  intros Hn. unfold secs_after.
  destruct (Z.eqb_spec (n + 1) 0); [lia|].
  replace (n + 1 - 1) with n by lia.
  destruct (Z.eqb_spec n 0) as [->|Hn0]; [reflexivity|].
  destruct (Z.eqb_spec ((n - 1) mod 60 + 1) 60) as [E|E];
    Z.div_mod_to_equations; lia.
Qed.

Lemma mins_after_succ (n : Z) :
  0 <= n ->
  mins_after (n + 1) =
    (if secs_after n =? 60
     then (if mins_after n =? 240 then 1 else mins_after n + 1)
     else mins_after n).
Proof.
  intros Hn. unfold secs_after, mins_after.
  destruct (Z.eqb_spec n 0) as [->|Hn0]; [reflexivity|].
  destruct (Z.eqb_spec ((n - 1) mod 60 + 1) 60) as [E|E].
  - assert (exists q, n = 60 * (q + 1) /\ 0 <= q) as (q & -> & Hq).
    { exists ((n - 1) / 60). Z.div_mod_to_equations. lia. }
    destruct (Z.ltb_spec (60 * (q + 1) + 1) 61); [lia|].
    replace ((60 * (q + 1) + 1 - 61) / 60) with q
      by (Z.div_mod_to_equations; lia).
    destruct (Z.ltb_spec (60 * (q + 1)) 61) as [Hlt|Hge].
    + assert (q = 0) as -> by lia. reflexivity.
    + replace ((60 * (q + 1) - 61) / 60) with (q - 1)
        by (Z.div_mod_to_equations; lia).
      destruct (Z.eqb_spec ((q - 1) mod 240 + 1) 240);
        Z.div_mod_to_equations; lia.
  - destruct (Z.ltb_spec (n + 1) 61), (Z.ltb_spec n 61); try lia.
    + exfalso. Z.div_mod_to_equations. lia.
    + f_equal. f_equal. Z.div_mod_to_equations. lia.
Qed.

Lemma checkpoints_after_succ (n : Z) :
  0 <= n ->
  checkpoints_after (n + 1) =
    checkpoints_after n
    + (if (secs_after n =? 60) && ((mins_after n + 1) mod 15 =? 0)
       then 1 else 0).
Proof.
  intros Hn. unfold checkpoints_after, secs_after, mins_after.
  destruct (Z.eqb_spec (n + 1) 0); [lia|].
  replace (n + 1 - 1) with n by lia.
  destruct (Z.eqb_spec n 0) as [->|Hn0]; [reflexivity|].
  destruct (Z.eqb_spec ((n - 1) mod 60 + 1) 60) as [E|E]; cbn [andb].
  - assert (exists q, n = 60 * (q + 1) /\ 0 <= q) as (q & -> & Hq).
    { exists ((n - 1) / 60). Z.div_mod_to_equations. lia. }
    destruct (Z.ltb_spec (60 * (q + 1)) 61) as [Hlt|Hge].
    + assert (q = 0) as -> by lia. reflexivity.
    + replace ((60 * (q + 1) - 61) / 60) with (q - 1)
        by (Z.div_mod_to_equations; lia).
      destruct (Z.eqb_spec (((q - 1) mod 240 + 1 + 1) mod 15) 0);
        Z.div_mod_to_equations; lia.
  - Z.div_mod_to_equations. lia.
Qed.

(** [n] ticks of the timer after a start with both counters at zero. *)
Lemma ticks_spec (g : Sketch.sketch) (N : Z) (fuel n : nat) :
  EEPROM_len (EEPROM (Sketch.m g)) = 8 * N -> 1 <= N -> N < Z.of_nat fuel ->
  Sketch.secs g = 0 -> Sketch.mins g = 0 ->
  exists g',
    Sketch.ticks fuel n g = (Returns tt, g') /\
    EEPROM_len (EEPROM (Sketch.m g')) = 8 * N /\
    Sketch.secs g' = secs_after (Z.of_nat n) /\
    Sketch.mins g' = mins_after (Z.of_nat n) /\
    uint16 (waitSecs (Sketch.modem g')) =
      uint16 (waitSecs (Sketch.modem g) + Z.of_nat n) /\
    Z.of_nat (length (updates (trace (Sketch.m g')))) =
      Z.of_nat (length (updates (trace (Sketch.m g))))
      + 7 * checkpoints_after (Z.of_nat n).
Proof.
  intros Hlen HN Hfuel Hs Hm. induction n as [|n IH].
  - exists g. cbn [Sketch.ticks]. split_and!; try reflexivity; try assumption.
    + f_equal. change (Z.of_nat 0) with 0. lia.
    + change (checkpoints_after (Z.of_nat 0)) with 0. lia.
  - destruct IH as (g1 & R1 & L1 & S1 & M1 & W1 & U1).
    pose proof (secs_after_range (Z.of_nat n) ltac:(lia)) as Rs.
    pose proof (mins_after_range (Z.of_nat n) ltac:(lia)) as Rm.
    destruct (TIMER1_COMPB_vect_spec g1 N fuel)
      as (g2 & R2 & L2 & S2 & M2 & W2 & _ & _ & U2);
      [assumption | assumption | assumption | lia | lia |].
    exists g2. replace (Z.of_nat (S n)) with (Z.of_nat n + 1) by lia.
    split_and!.
    + cbn [Sketch.ticks]. unfold mbind, Sketch.G_bind. rewrite R1. exact R2.
    + exact L2.
    + rewrite S2, S1. symmetry. apply secs_after_succ. lia.
    + rewrite M2, S1, M1. symmetry. apply mins_after_succ. lia.
    + rewrite W2. unfold uint16 in *.
      rewrite Z.mod_mod by lia.
      rewrite <- Zplus_mod_idemp_l, W1, Zplus_mod_idemp_l. f_equal. lia.
    + rewrite U2, Nat2Z.inj_add, U1, checkpoints_after_succ by lia.
      rewrite S1, M1.
      destruct ((secs_after (Z.of_nat n) =? 60)
                && ((mins_after (Z.of_nat n) + 1) mod 15 =? 0)); lia.
Qed.

(** ** Running code of the sketch *)

Lemma bind_returns {A B : Type} (c : Sketch.G A) (k : A -> Sketch.G B)
    (g g' : Sketch.sketch) (a : A) :
  c g = (Returns a, g') -> (c ≫= k) g = k a g'.
Proof. intros H. unfold mbind, Sketch.G_bind. rewrite H. reflexivity. Qed.

Lemma sprintf_fits (cap : Z) (s : string) (g : Sketch.sketch) :
  Z.of_nat (String.length s) + 1 <= cap ->
  Sketch.sprintf cap s g = (Returns s, g).
Proof.
  intros H. unfold Sketch.sprintf, Sketch.pure_call.
  destruct (Z.leb_spec (Z.of_nat (String.length s) + 1) cap); [reflexivity|lia].
Qed.

(** The rule for [loop]: an invariant and a variant give the result. *)
Lemma loop_rule {L : Type} (cond : L -> Sketch.G bool) (body : L -> Sketch.G L)
    (Inv : L -> Sketch.sketch -> Prop) (var : L -> Z) (c : L -> bool) :
  (forall l g, Inv l g -> cond l g = (Returns (c l), g)) ->
  (forall l g, Inv l g -> c l = true ->
     exists l' g', body l g = (Returns l', g') /\ Inv l' g' /\
       0 <= var l' < var l) ->
  forall fuel l g, Inv l g -> 0 <= var l < Z.of_nat fuel ->
    exists l' g', Sketch.loop fuel cond body l g = (Returns l', g') /\
      Inv l' g' /\ c l' = false.
Proof.
  intros Hcond Hstep fuel. induction fuel as [|fuel IH]; intros l g HI Hv.
  - lia.
  - cbn [Sketch.loop]. rewrite (bind_returns _ _ _ _ _ (Hcond l g HI)).
    destruct (c l) eqn:C.
    + destruct (Hstep l g HI C) as (l' & g' & R & HI' & Hv').
      rewrite (bind_returns _ _ _ _ _ R). apply IH; [exact HI' | lia].
    + exists l, g. split; [reflexivity|]. split; assumption.
Qed.

(** ** The text that [sprintf] produces *)

Lemma length_append (a b : string) :
  String.length (a +:+ b) = (String.length a + String.length b)%nat.
Proof. induction a as [|c a IH]; simpl; [reflexivity | now rewrite IH]. Qed.

Lemma length_string_of_list_ascii (l : list ascii) :
  String.length (string_of_list_ascii l) = length l.
Proof. induction l as [|c l IH]; simpl; [reflexivity | now rewrite IH]. Qed.

Lemma length_pad0 (w : nat) (s : string) :
  String.length (Sketch.pad0 w s) = Nat.max w (String.length s).
Proof.
  unfold Sketch.pad0.
  rewrite length_append, length_string_of_list_ascii, repeat_length. lia.
Qed.

Lemma length_digits (fuel : nat) (base n : Z) (k : nat) :
  2 <= base -> 0 <= n < base ^ Z.of_nat k -> (1 <= k)%nat ->
  (String.length (Sketch.digits fuel base n) <= k)%nat.
Proof.
  intros Hb. revert n k.
  induction fuel as [|fuel IH]; intros n k Hn Hk; [simpl; lia|].
  cbn [Sketch.digits]. rewrite length_append. cbn [String.length].
  destruct (Z.eqb_spec (n / base) 0) as [E|E]; [simpl; lia|].
  destruct k as [|[|k]]; [lia | |].
  - exfalso. apply E. apply Z.div_small. lia.
  - specialize (IH (n / base) (S k)).
    assert (0 <= n / base < base ^ Z.of_nat (S k)) as Hq.
    { split; [apply Z.div_pos; lia|].
      apply Z.div_lt_upper_bound; [lia|].
      replace (Z.of_nat (S (S k))) with (Z.succ (Z.of_nat (S k))) in Hn by lia.
      rewrite Z.pow_succ_r in Hn by lia. lia. }
    specialize (IH Hq ltac:(lia)). lia.
Qed.

Lemma length_fmt_04X (v : Z) :
  0 <= v < 65536 -> String.length (Sketch.fmt_04X v) = 4%nat.
Proof.
  intros Hv. unfold Sketch.fmt_04X. rewrite length_pad0.
  assert (uint16 v = v) as -> by (apply Z.mod_small; exact Hv).
  pose proof (length_digits 32 16 v 4 ltac:(lia) ltac:(simpl; lia) ltac:(lia)).
  lia.
Qed.

Lemma length_fmt_02X (b : Z) :
  String.length (Sketch.fmt_02X (uint8 b)) = 2%nat.
Proof.
  unfold Sketch.fmt_02X. rewrite length_pad0.
  assert (0 <= uint8 b < 256) as Hb by (apply Z.mod_pos_bound; reflexivity).
  assert (uint16 (uint8 b) = uint8 b) as ->
    by (apply Z.mod_small; change (2 ^ 16) with 65536; lia).
  pose proof (length_digits 32 16 (uint8 b) 2 ltac:(lia) ltac:(simpl; lia)
                ltac:(lia)).
  lia.
Qed.

Lemma length_fmt_04d (v : Z) :
  0 <= v <= 9999 -> String.length (Sketch.fmt_04d v) = 4%nat.
Proof.
  intros Hv. unfold Sketch.fmt_04d, Sketch.int16.
  assert (uint16 v = v) as ->
    by (apply Z.mod_small; change (2 ^ 16) with 65536; lia).
  destruct (Z.ltb_spec v 32768); [|lia].
  destruct (Z.ltb_spec v 0); [lia|].
  rewrite length_pad0.
  pose proof (length_digits 32 10 v 4 ltac:(lia) ltac:(simpl; lia) ltac:(lia)).
  lia.
Qed.

Lemma cells_read_succ (n : Z) :
  0 <= n -> cells_read (n + 1) = cells_read n ++ [EvGet n].
Proof.
  intros Hn. unfold cells_read.
  replace (Z.to_nat (n + 1)) with (S (Z.to_nat n)) by lia.
  rewrite seq_S, map_app. cbn [map]. cbn [Nat.add]. do 3 f_equal. lia.
Qed.

(** ** [dumpEEPROM] *)

Lemma call_EEPROM_get (a : Z) (g : Sketch.sketch) :
  Sketch.call (EEPROM_get a) g =
  (Returns (peek (EEPROM (Sketch.m g)) a),
   Sketch.set_m
     (mkStore (EEPROM (Sketch.m g)) (_modemRecordIndex (Sketch.m g))
        (EEPROMBlock (Sketch.m g)) (trace (Sketch.m g) ++ [EvGet a])) g).
Proof. reflexivity. Qed.

(** The cells of one row. *)
Lemma dumpEEPROM_row (g : Sketch.sketch) (tx buf : string) (row len : Z)
    (fuel : nat) :
  len = EEPROM_len (EEPROM (Sketch.m g)) ->
  0 <= row -> row * 32 < len -> (32 < fuel)%nat ->
  String.length buf = 11%nat ->
  exists buf',
    Sketch.loop fuel
      (fun '(i, buffer) => mret (i <? 32))
      (fun '(i, buffer) =>
         buffer ← (if i mod 8 =? 0 then Sketch.sprintf 124 (buffer +:+ " ")
                   else mret buffer);
         let location := row * 32 + i in
         buffer ← (if location <? len then
                     b ← Sketch.call (EEPROM_get location);
                     Sketch.sprintf 124
                       (buffer +:+ " " +:+ Sketch.fmt_02X (uint8 b))
                   else Sketch.sprintf 124 (buffer +:+ "   "));
         mret (i + 1, buffer))
      (0, buf) (dumping g (row * 32) tx)
    = (Returns (32, buf'), dumping g (Z.min (row * 32 + 32) len) tx) /\
    String.length buf' = 111%nat.
Proof.
  intros Hlen Hrow Hlt Hfuel Hbuf.
  destruct (loop_rule
    (fun '(i, buffer) => mret (i <? 32) : Sketch.G bool)
    (fun '(i, buffer) =>
         buffer ← (if i mod 8 =? 0 then Sketch.sprintf 124 (buffer +:+ " ")
                   else mret buffer);
         let location := row * 32 + i in
         buffer ← (if location <? len then
                     b ← Sketch.call (EEPROM_get location);
                     Sketch.sprintf 124
                       (buffer +:+ " " +:+ Sketch.fmt_02X (uint8 b))
                   else Sketch.sprintf 124 (buffer +:+ "   "));
         mret (i + 1, buffer))
    (fun '(i, b) g' =>
       0 <= i <= 32 /\
       Z.of_nat (String.length b) = 11 + 3 * i + (i + 7) / 8 /\
       g' = dumping g (Z.min (row * 32 + i) len) tx)
    (fun '(i, _) => 32 - i)
    (fun '(i, _) => i <? 32))
    with (fuel := fuel) (l := (0, buf)) (g := dumping g (row * 32) tx)
    as ([i' buf'] & g' & R & (Hi & Hb & ->) & Hc).
  - intros [i b] g' _. reflexivity.
  - intros [i b] g' (Hi & Hb & ->) Hc. apply Z.ltb_lt in Hc.
    assert (exists b1,
      (if i mod 8 =? 0 then Sketch.sprintf 124 (b +:+ " ") else mret b)
        (dumping g (Z.min (row * 32 + i) len) tx)
      = (Returns b1, dumping g (Z.min (row * 32 + i) len) tx) /\
      Z.of_nat (String.length b1) = 11 + 3 * i + (i + 1 + 7) / 8)
      as (b1 & R1 & Hb1).
    { destruct (Z.eqb_spec (i mod 8) 0) as [E|E].
      - exists (b +:+ " ")%string. split.
        + apply sprintf_fits. rewrite length_append. cbn [String.length].
          Z.div_mod_to_equations. lia.
        + rewrite length_append. cbn [String.length].
          Z.div_mod_to_equations. lia.
      - exists b. split; [reflexivity|]. Z.div_mod_to_equations. lia. }
    assert (exists b2,
      (if row * 32 + i <? len then
         c ← Sketch.call (EEPROM_get (row * 32 + i));
         Sketch.sprintf 124 (b1 +:+ " " +:+ Sketch.fmt_02X (uint8 c))
       else Sketch.sprintf 124 (b1 +:+ "   "))
        (dumping g (Z.min (row * 32 + i) len) tx)
      = (Returns b2, dumping g (Z.min (row * 32 + (i + 1)) len) tx) /\
      Z.of_nat (String.length b2) = 11 + 3 * (i + 1) + (i + 1 + 7) / 8)
      as (b2 & R2 & Hb2).
    { destruct (Z.ltb_spec (row * 32 + i) len) as [E|E].
      - exists (b1 +:+ " " +:+ Sketch.fmt_02X
                  (uint8 (peek (EEPROM (Sketch.m g)) (row * 32 + i))))%string.
        split.
        + rewrite (bind_returns _ _ _ _ _ (call_EEPROM_get _ _)).
          rewrite sprintf_fits.
          * unfold dumping.
            destruct g as [[mem idx blk tr] md bf rn st pd vm lm rm sim fl sc mi oc rp rx tx0].
            cbn [Sketch.m Sketch.set_m Sketch.set_Serial_tx EEPROM
                 _modemRecordIndex EEPROMBlock trace Sketch.modem
                 Sketch.buffer Sketch.retryNo Sketch.state
                 Sketch.pollDelayMillis Sketch.verboseMode
                 Sketch.statusLEDMode Sketch.relayMode
                 Sketch.simulateNoResponse Sketch.clearEEPROMFlag
                 Sketch.secs Sketch.mins Sketch.OCR1B Sketch.relayPin
                 Sketch.Serial_rx Sketch.Serial_tx].
            rewrite !Z.min_l by lia.
            replace (row * 32 + (i + 1)) with (row * 32 + i + 1) by lia.
            rewrite cells_read_succ, <- app_assoc by lia. reflexivity.
          * rewrite !length_append, length_fmt_02X. cbn [String.length].
            Z.div_mod_to_equations. lia.
        + rewrite !length_append, length_fmt_02X. cbn [String.length]. lia.
      - eexists. split.
        + rewrite sprintf_fits.
          * rewrite !Z.min_r by lia. reflexivity.
          * rewrite !length_append. cbn [String.length].
            Z.div_mod_to_equations. lia.
        + rewrite !length_append. cbn [String.length]. lia. }
    exists (i + 1, b2), (dumping g (Z.min (row * 32 + (i + 1)) len) tx).
    split; [|split; [split_and!|]]; try lia; try reflexivity.
    rewrite (bind_returns _ _ _ _ _ R1). cbv zeta.
    rewrite (bind_returns _ _ _ _ _ R2). reflexivity.
  - split_and!; try lia.
    + rewrite Hbuf. reflexivity.
    + rewrite Z.add_0_r, Z.min_l by lia. reflexivity.
  - lia.
  - apply Z.ltb_ge in Hc. assert (i' = 32) as -> by lia.
    exists buf'. split; [exact R|]. change ((32 + 7) / 8) with 4 in Hb. lia.
Qed.

Lemma dumping_println (g : Sketch.sketch) (n : Z) (tx buf : string) :
  Sketch.Serial_println buf (dumping g n tx)
  = (Returns tt, dumping g n (tx +:+ (buf +:+ Sketch.CRLF))).
Proof. destruct g as [[? ? ? ?] ? ? ? ? ? ? ? ? ? ? ? ? ? ? ? ?]. reflexivity. Qed.

Lemma dumping_print (g : Sketch.sketch) (n : Z) (tx s : string) :
  Sketch.Serial_print s (dumping g n tx)
  = (Returns tt, dumping g n (tx +:+ s)).
Proof. destruct g as [[? ? ? ?] ? ? ? ? ? ? ? ? ? ? ? ? ? ? ? ?]. reflexivity. Qed.

Lemma int16_small (x : Z) : 0 <= x < 32768 -> Sketch.int16 x = x.
Proof.
  intros H. unfold Sketch.int16.
  assert (uint16 x = x) as ->
    by (apply Z.mod_small; change (2 ^ 16) with 65536; lia).
  destruct (Z.ltb_spec x 32768); [reflexivity | lia].
Qed.

Lemma bind_sprintf {B : Type} (cap : Z) (s : string)
    (k : string -> Sketch.G B) (g : Sketch.sketch) :
  Z.of_nat (String.length s) + 1 <= cap ->
  (Sketch.sprintf cap s ≫= k) g = k s g.
Proof. intros H. apply bind_returns, sprintf_fits, H. Qed.

Lemma dumpEEPROM_spec (g : Sketch.sketch) (fuel : nat) :
  EEPROM_len (EEPROM (Sketch.m g)) <= 9984 ->
  (32 < fuel)%nat ->
  (EEPROM_len (EEPROM (Sketch.m g)) + 31) / 32 < Z.of_nat fuel ->
  exists lines,
    Sketch.dumpEEPROM fuel g =
      (Returns tt,
       dumping g (EEPROM_len (EEPROM (Sketch.m g)))
         (with_lines (Sketch.Serial_tx g +:+ EEPROM_dump_header) lines
          +:+ EEPROM_dump_footer)) /\
    Z.of_nat (length lines) = (EEPROM_len (EEPROM (Sketch.m g)) + 31) / 32 /\
    Forall (fun l => String.length l = 122%nat) lines.
Proof.
  intros Hmax Hfuel Hrows.
  set (len := EEPROM_len (EEPROM (Sketch.m g))) in *.
  assert (0 <= len) as Hlen0 by (unfold len, EEPROM_len; lia).
  unfold Sketch.dumpEEPROM. cbv zeta.
  assert (Sketch.call EEPROM_length g = (Returns len, dumping g 0 (Sketch.Serial_tx g)))
    as R0.
  { unfold dumping, cells_read. cbn [Z.to_nat seq map].
    destruct g as [[? ? ? ?] ? ? ? ? ? ? ? ? ? ? ? ? ? ? ? ?].
    cbn. rewrite app_nil_r. reflexivity. }
  rewrite (bind_returns _ _ _ _ _ R0).
  rewrite (int16_small len) by lia.
  rewrite (bind_returns _ _ _ _ _ (dumping_print _ _ _ _)).
  fold EEPROM_dump_header. fold EEPROM_dump_footer.
  set (tx1 := (Sketch.Serial_tx g +:+ EEPROM_dump_header)%string).
  match goal with
  | |- context [Sketch.loop fuel ?cnd ?bdy 0] =>
    destruct (loop_rule cnd bdy
      (fun row g' =>
         0 <= row /\ (row - 1) * 32 < len /\
         exists lines,
           Z.of_nat (length lines) = row /\
           Forall (fun l => String.length l = 122%nat) lines /\
           g' = dumping g (Z.min (row * 32) len) (with_lines tx1 lines))
      (fun row => (len + 31) / 32 - row)
      (fun row => row * 32 <? len))
      with (fuel := fuel) (l := 0) (g := dumping g 0 tx1)
      as (row' & g' & R & (Hr0 & Hr1 & lines & Hn & Hall & ->) & Hc)
  end.
  - intros row g' _. reflexivity.
  - intros row g' (Hr0 & Hr1 & lines & Hn & Hall & ->) Hc.
    apply Z.ltb_lt in Hc. rewrite Z.min_l by lia.
    rewrite bind_sprintf.
    2:{ rewrite !length_append, length_fmt_04X, length_fmt_04d by lia.
        cbn [String.length]. lia. }
    destruct (dumpEEPROM_row g (with_lines tx1 lines)
                ("  " +:+ Sketch.fmt_04X (row * 32) +:+ " "
                 +:+ Sketch.fmt_04d (row * 32)) row len fuel)
      as (buf' & Rrow & Hbuf'); [reflexivity | lia | lia | lia | |].
    { rewrite !length_append, length_fmt_04X, length_fmt_04d by lia.
      reflexivity. }
    rewrite (bind_returns _ _ _ _ _ Rrow).
    rewrite bind_sprintf.
    2:{ rewrite !length_append, length_fmt_04X, length_fmt_04d, Hbuf' by lia.
        cbn [String.length]. lia. }
    rewrite (bind_returns _ _ _ _ _ (dumping_println _ _ _ _)).
    eexists _, _. split; [reflexivity|].
    split; [split_and!; try lia|].
    + exists (lines ++ [(buf' +:+ "  " +:+ Sketch.fmt_04d ((row + 1) * 32 - 1)
                        +:+ " " +:+ Sketch.fmt_04X ((row + 1) * 32 - 1))%string]).
      split_and!.
      * rewrite length_app. cbn [length]. lia.
      * apply Forall_app. split; [exact Hall|]. constructor; [|constructor].
        rewrite !length_append, length_fmt_04X, length_fmt_04d, Hbuf' by lia.
        reflexivity.
      * unfold with_lines. rewrite fold_left_app. cbn [fold_left].
        replace ((row + 1) * 32) with (row * 32 + 32) by lia. reflexivity.
    + Z.div_mod_to_equations. lia.
  - split_and!; try lia. exists []. split_and!; [reflexivity | constructor |].
    rewrite Z.min_l by lia. reflexivity.
  - Z.div_mod_to_equations. lia.
  - apply Z.ltb_ge in Hc. rewrite (bind_returns _ _ _ _ _ R).
    exists lines. split_and!.
    + rewrite dumping_print. rewrite Z.min_r by lia. reflexivity.
    + rewrite Hn. Z.div_mod_to_equations. lia.
    + exact Hall.
Qed.

(** ** Code that leaves the log alone *)

Lemma M_quiet_ret {A : Type} (a : A) : M_quiet (mret a).
Proof. intros s a' s' H. injection H as <- <-. auto. Qed.

Lemma M_quiet_bind {A B : Type} (c : M A) (k : A -> M B) :
  M_quiet c -> (forall a, M_quiet (k a)) -> M_quiet (c ≫= k).
Proof.
  intros Hc Hk s b s' H. unfold mbind, M_bind in H.
  destruct (c s) as [[a s1]|] eqn:E; [|discriminate].
  destruct (Hc _ _ _ E) as [E1 U1]. destruct (Hk _ _ _ _ H) as [E2 U2].
  split; congruence.
Qed.

Lemma M_quiet_while {L R : Type} (fuel : nat) (cond : L -> store -> bool)
    (body : L -> M (L + R)) (l : L) :
  (forall l, M_quiet (body l)) -> M_quiet (while fuel cond body l).
Proof.
  intros Hb. revert l. induction fuel as [|fuel IH]; intros l s a s' H.
  - discriminate.
  - cbn [while] in H. destruct (cond l s).
    + destruct (body l s) as [[[l'|r] s1]|] eqn:E; [| |discriminate].
      * destruct (Hb _ _ _ _ E) as [E1 U1].
        destruct (IH _ _ _ _ H) as [E2 U2]. split; congruence.
      * injection H as <- <-. exact (Hb _ _ _ _ E).
    + injection H as <- <-. auto.
Qed.

Lemma M_quiet_EEPROM_length : M_quiet EEPROM_length.
Proof. intros s a s' H. injection H as <- <-. auto. Qed.

Lemma M_quiet_EEPROM_get (a : Z) : M_quiet (EEPROM_get a).
Proof.
  intros s b s' H. injection H as <- <-. cbn [EEPROM trace].
  rewrite updates_app. cbn [updates]. rewrite app_nil_r. auto.
Qed.

Lemma M_quiet_get_index : M_quiet get_index.
Proof. intros s a s' H. injection H as <- <-. auto. Qed.

Lemma M_quiet_set_index (i : Z) : M_quiet (set_index i).
Proof. intros s a s' H. inversion H; subst. cbn [EEPROM trace]. auto. Qed.

Lemma M_quiet_get_block : M_quiet get_block.
Proof. intros s a s' H. injection H as <- <-. auto. Qed.

Lemma M_quiet_set_block (b : EEPROMRecord_t) : M_quiet (set_block b).
Proof. intros s a s' H. inversion H; subst. cbn [EEPROM trace]. auto. Qed.

(** Quietness of code built from the parts above. *)
Ltac quiet_M :=
  repeat (intros; cbv zeta;
    lazymatch goal with
    | |- M_quiet (mret _) => simple apply @M_quiet_ret
    | |- M_quiet EEPROM_length => exact M_quiet_EEPROM_length
    | |- M_quiet (EEPROM_get _) => simple apply M_quiet_EEPROM_get
    | |- M_quiet get_index => exact M_quiet_get_index
    | |- M_quiet (set_index _) => simple apply M_quiet_set_index
    | |- M_quiet get_block => exact M_quiet_get_block
    | |- M_quiet (set_block _) => simple apply M_quiet_set_block
    | |- M_quiet (_ ≫= _) => simple apply @M_quiet_bind
    | |- M_quiet (while _ _ _ _) => simple apply @M_quiet_while
    | |- M_quiet (if ?b then _ else _) => destruct b
    | |- M_quiet (match ?x with _ => _ end) => destruct x
    end).

Lemma M_quiet_getIndexOfNextCompletedRecord :
  M_quiet getIndexOfNextCompletedRecord.
Proof. unfold getIndexOfNextCompletedRecord. quiet_M. Qed.

Lemma M_quiet_getNextCompletedRecord : M_quiet getNextCompletedRecord.
Proof.
  unfold getNextCompletedRecord. apply M_quiet_bind.
  - apply M_quiet_getIndexOfNextCompletedRecord.
  - quiet_M.
Qed.

Lemma M_quiet_getOldestCompletedRecord (count0 : Z) (fuel : nat) :
  M_quiet (getOldestCompletedRecord count0 fuel).
Proof. unfold getOldestCompletedRecord. quiet_M. Qed.

Lemma M_quiet_getDataFromIndex : M_quiet getDataFromIndex.
Proof. unfold getDataFromIndex, getDataFromIndex_at. quiet_M. Qed.

Lemma M_quiet_convertFromEEPROMBlock (dst : modemRecord_t) :
  M_quiet (convertFromEEPROMBlock dst).
Proof. unfold convertFromEEPROMBlock. quiet_M. Qed.

Lemma quiet_refl (g : Sketch.sketch) : quiet g g.
Proof. unfold quiet. auto. Qed.

Lemma quiet_trans (g1 g2 g3 : Sketch.sketch) :
  quiet g1 g2 -> quiet g2 g3 -> quiet g1 g3.
Proof.
  unfold quiet. intros (A1 & B1 & C1 & D1) (A2 & B2 & C2 & D2).
  split_and!; congruence.
Qed.

Lemma G_quiet_ret {A : Type} (a : A) : G_quiet (mret a).
Proof. intros g o g' H. injection H as <- <-. apply quiet_refl. Qed.

Lemma G_quiet_bind {A B : Type} (c : Sketch.G A) (k : A -> Sketch.G B) :
  G_quiet c -> (forall a, G_quiet (k a)) -> G_quiet (c ≫= k).
Proof.
  intros Hc Hk g o g' H. unfold mbind, Sketch.G_bind in H.
  destruct (c g) as [[a|i|i|] g1] eqn:E;
    try (injection H as <- <-; exact (Hc _ _ _ E)).
  exact (quiet_trans _ _ _ (Hc _ _ _ E) (Hk _ _ _ _ H)).
Qed.

Lemma G_quiet_loop {L : Type} (fuel : nat) (cond : L -> Sketch.G bool)
    (body : L -> Sketch.G L) (l : L) :
  (forall l, G_quiet (cond l)) -> (forall l, G_quiet (body l)) ->
  G_quiet (Sketch.loop fuel cond body l).
Proof.
  intros Hc Hb. revert l. induction fuel as [|fuel IH]; intros l.
  - intros g o g' H. injection H as <- <-. apply quiet_refl.
  - cbn [Sketch.loop]. apply G_quiet_bind; [apply Hc|].
    intros [|]; [|apply G_quiet_ret].
    apply G_quiet_bind; [apply Hb | exact IH].
Qed.

Lemma G_quiet_read {A : Type} (f : Sketch.sketch -> A) :
  G_quiet (Sketch.read f).
Proof. intros g o g' H. injection H as <- <-. apply quiet_refl. Qed.

Lemma G_quiet_update (f : Sketch.sketch -> Sketch.sketch) :
  (forall g, quiet g (f g)) -> G_quiet (Sketch.update f).
Proof. intros Hf g o g' H. injection H as <- <-. apply Hf. Qed.

Lemma G_quiet_pure_call {A : Type} (o : outcome A) :
  G_quiet (Sketch.pure_call o).
Proof. intros g o' g' H. injection H as <- <-. apply quiet_refl. Qed.

Lemma G_quiet_sprintf (cap : Z) (s : string) : G_quiet (Sketch.sprintf cap s).
Proof. apply G_quiet_pure_call. Qed.

Lemma G_quiet_call {A : Type} (c : M A) : M_quiet c -> G_quiet (Sketch.call c).
Proof.
  intros Hc g o g' H. unfold Sketch.call in H.
  destruct (c (Sketch.m g)) as [[a s]|] eqn:E.
  - injection H as <- <-. destruct (Hc _ _ _ E) as [E1 U1].
    destruct g. unfold quiet.
    cbn [Sketch.m Sketch.clearEEPROMFlag Sketch.Serial_rx Sketch.set_m] in *.
    auto.
  - injection H as <- <-. apply quiet_refl.
Qed.

Lemma G_quiet_Serial_print (s : string) : G_quiet (Sketch.Serial_print s).
Proof.
  apply G_quiet_update. intros g. destruct g. unfold quiet.
  cbn [Sketch.m Sketch.clearEEPROMFlag Sketch.Serial_rx Sketch.set_Serial_tx].
  auto.
Qed.

Lemma G_quiet_Serial_println (s : string) : G_quiet (Sketch.Serial_println s).
Proof. apply G_quiet_Serial_print. Qed.

(** A setter of a global other than [m], the flag and the input. *)
Ltac quiet_setter :=
  let g := fresh "g" in
  intros g; destruct g; unfold quiet;
  cbn [Sketch.m Sketch.clearEEPROMFlag Sketch.Serial_rx Sketch.set_modem
       Sketch.set_buffer Sketch.set_retryNo Sketch.set_state
       Sketch.set_pollDelayMillis Sketch.set_verboseMode
       Sketch.set_statusLEDMode Sketch.set_relayMode
       Sketch.set_simulateNoResponse Sketch.set_secs Sketch.set_mins
       Sketch.set_OCR1B Sketch.set_relayPin Sketch.set_Serial_tx];
  auto.

Ltac quiet_G :=
  repeat (intros; cbv zeta;
    lazymatch goal with
    | |- G_quiet (mret _) => simple apply @G_quiet_ret
    | |- G_quiet (Sketch.read _) => simple apply @G_quiet_read
    | |- G_quiet (Sketch.pure_call _) => simple apply @G_quiet_pure_call
    | |- G_quiet (Sketch.sprintf _ _) => simple apply G_quiet_sprintf
    | |- G_quiet (Sketch.Serial_print _) => simple apply G_quiet_Serial_print
    | |- G_quiet (Sketch.Serial_println _) =>
        simple apply G_quiet_Serial_println
    | |- G_quiet (_ ≫= _) => simple apply @G_quiet_bind
    | |- G_quiet (Sketch.loop _ _ _ _) => simple apply @G_quiet_loop
    | |- G_quiet (Sketch.update _) =>
        simple apply G_quiet_update; quiet_setter
    | |- G_quiet (Sketch.call _) => simple apply @G_quiet_call
    | |- M_quiet EEPROM_length => exact M_quiet_EEPROM_length
    | |- M_quiet (EEPROM_get _) => simple apply M_quiet_EEPROM_get
    | |- M_quiet getDataFromIndex => exact M_quiet_getDataFromIndex
    | |- M_quiet (convertFromEEPROMBlock _) =>
        simple apply M_quiet_convertFromEEPROMBlock
    | |- M_quiet getNextCompletedRecord =>
        exact M_quiet_getNextCompletedRecord
    | |- M_quiet (getOldestCompletedRecord _ _) =>
        simple apply M_quiet_getOldestCompletedRecord
    | |- G_quiet (if ?b then _ else _) => destruct b
    | |- G_quiet (match ?x with _ => _ end) => destruct x
    end).

Lemma G_quiet_dumpEEPROM (fuel : nat) : G_quiet (Sketch.dumpEEPROM fuel).
Proof. unfold Sketch.dumpEEPROM. quiet_G. Qed.

Lemma G_quiet_printTimeDateInfo (t : NTP.NTPTime_t) :
  G_quiet (Sketch.printTimeDateInfo t).
Proof. unfold Sketch.printTimeDateInfo. quiet_G. Qed.

Lemma G_quiet_switchRelayOff (DATE TIME : string) :
  G_quiet (Sketch.switchRelayOff DATE TIME).
Proof. unfold Sketch.switchRelayOff. quiet_G. Qed.

Lemma G_quiet_dumpOutageRecord (fuel : nat) :
  G_quiet (Sketch.dumpOutageRecord fuel).
Proof.
  unfold Sketch.dumpOutageRecord.
  repeat (intros;
    first
      [ simple apply G_quiet_printTimeDateInfo
      | progress quiet_G ]).
Qed.

(** ** [handleSerialInput] *)

Ltac quiet_G' :=
  repeat (intros;
    first
      [ simple apply G_quiet_dumpEEPROM
      | simple apply G_quiet_switchRelayOff
      | simple apply G_quiet_dumpOutageRecord
      | progress quiet_G ]).

Ltac by_quiet Hrun Hquiet :=
  lazymatch type of Hrun with
  | ?K ?g1 = (_, _) =>
      apply Hquiet; [|reflexivity];
      apply (fun HK : G_quiet K => HK _ _ _ Hrun); solve [quiet_G']
  end.

(** One character served while no confirmation is at hand. *)
Lemma handleSerialInput_body_safe (DATE TIME : string) (fuel : nat)
    (count0 : nat -> Z) (g g' : Sketch.sketch) (o : outcome unit)
    (c : Z) (rest : list Z) :
  Sketch.Serial_rx g = c :: rest ->
  (Sketch.clearEEPROMFlag g = true -> command_of c <> Sketch.chr "Y") ->
  Sketch.handleSerialInput_body DATE TIME fuel count0 g = (o, g') ->
  EEPROM (Sketch.m g') = EEPROM (Sketch.m g) /\
  updates (trace (Sketch.m g')) = updates (trace (Sketch.m g)) /\
  Sketch.Serial_rx g' = rest /\
  (Sketch.clearEEPROMFlag g' = true -> command_of c = Sketch.chr "C").
Proof.
  intros Hrx Hflag Hrun.
  unfold Sketch.handleSerialInput_body in Hrun.
  assert (Sketch.Serial_read g = (Returns c, Sketch.set_Serial_rx rest g))
    as Hread.
  { unfold Sketch.Serial_read. rewrite Hrx. reflexivity. }
  rewrite (bind_returns _ _ _ _ _ Hread) in Hrun. cbv zeta in Hrun.
  fold (command_of c) in Hrun.
  assert (quiet (Sketch.set_Serial_rx rest g) g' ->
          Sketch.clearEEPROMFlag g = false ->
          EEPROM (Sketch.m g') = EEPROM (Sketch.m g) /\
          updates (trace (Sketch.m g')) = updates (trace (Sketch.m g)) /\
          Sketch.Serial_rx g' = rest /\
          (Sketch.clearEEPROMFlag g' = true ->
           command_of c = Sketch.chr "C")) as Hquiet.
  { intros (A & B & C & D) Hf. destruct g.
    cbn [Sketch.m Sketch.clearEEPROMFlag Sketch.Serial_rx
         Sketch.set_Serial_rx] in *.
    split_and!; try assumption. intros Ht. congruence. }
  assert (Sketch.read Sketch.clearEEPROMFlag (Sketch.set_Serial_rx rest g)
          = (Returns (Sketch.clearEEPROMFlag g), Sketch.set_Serial_rx rest g))
    as Hrd by (destruct g; reflexivity).
  rewrite (bind_returns _ _ _ _ _ Hrd) in Hrun.
  destruct (Sketch.clearEEPROMFlag g) eqn:Hf.
  - (* a confirmation is awaited and the answer is not Y *)
    unfold neqb in Hrun.
    destruct (Z.eqb_spec (command_of c) (Sketch.chr "Y")) as [E|_];
      [exfalso; exact (Hflag eq_refl E)|].
    cbn [negb andb] in Hrun.
    destruct g. injection Hrun as <- <-.
    cbn [Sketch.m Sketch.clearEEPROMFlag Sketch.Serial_rx].
    split_and!; try reflexivity. discriminate.
  - cbn [andb] in Hrun.
    destruct (command_of c =? Sketch.chr "C") eqn:EC.
    { apply Z.eqb_eq in EC. destruct g. injection Hrun as <- <-.
      cbn [Sketch.m Sketch.clearEEPROMFlag Sketch.Serial_rx].
      split_and!; try reflexivity. intros _. exact EC. }
    destruct (command_of c =? Sketch.chr "D"); [by_quiet Hrun Hquiet|].
    destruct (command_of c =? Sketch.chr "F"); [by_quiet Hrun Hquiet|].
    destruct (command_of c =? Sketch.chr "H"); [by_quiet Hrun Hquiet|].
    destruct (command_of c =? Sketch.chr "L"); [by_quiet Hrun Hquiet|].
    destruct (command_of c =? Sketch.chr "R"); [by_quiet Hrun Hquiet|].
    destruct (command_of c =? Sketch.chr "S"); [by_quiet Hrun Hquiet|].
    destruct (command_of c =? Sketch.chr "V"); [by_quiet Hrun Hquiet|].
    destruct (command_of c =? Sketch.chr "Y"); [|by_quiet Hrun Hquiet].
    rewrite (bind_returns _ _ _ _ _ Hrd) in Hrun.
    apply Hquiet; [|reflexivity]. injection Hrun as <- <-. apply quiet_refl.
Qed.

Lemma c_then_y_tail (c : Z) (rest : list Z) :
  c_then_y (c :: rest) = false ->
  c_then_y rest = false /\
  (command_of c = Sketch.chr "C" ->
   match rest with
   | d :: _ => command_of d <> Sketch.chr "Y"
   | [] => True
   end).
Proof.
  destruct rest as [|d rest]; [intros _; split; [reflexivity | intros _; exact I]|].
  cbn [c_then_y]. intros H. apply orb_false_iff in H as [H1 H2].
  split; [exact H2|]. intros EC E. rewrite EC, E in H1. discriminate.
Qed.

(** The loop of [handleSerialInput], for any number of turns. *)
Lemma handleSerialInput_loop_safe (DATE TIME : string) (fuel : nat)
    (count0 : nat -> Z) (n : nat) (g g' : Sketch.sketch) (o : outcome unit) :
  c_then_y (Sketch.Serial_rx g) = false ->
  (Sketch.clearEEPROMFlag g = true ->
   match Sketch.Serial_rx g with
   | d :: _ => command_of d <> Sketch.chr "Y"
   | [] => True
   end) ->
  Sketch.loop n
    (fun _ => k ← Sketch.Serial_available; mret (k >? 0))
    (fun _ => Sketch.handleSerialInput_body DATE TIME fuel count0) tt g
  = (o, g') ->
  EEPROM (Sketch.m g') = EEPROM (Sketch.m g) /\
  updates (trace (Sketch.m g')) = updates (trace (Sketch.m g)).
Proof.
  revert g. induction n as [|n IH]; intros g Hcy Hflag Hrun.
  - injection Hrun as <- <-. auto.
  - cbn [Sketch.loop] in Hrun.
    assert ((k ← Sketch.Serial_available; mret (k >? 0)) g
            = (Returns (match Sketch.Serial_rx g with [] => false | _ => true end),
               g)) as Hcond.
    { unfold Sketch.Serial_available, Sketch.read, mbind, Sketch.G_bind,
        mret, Sketch.G_ret.
      destruct (Sketch.Serial_rx g); reflexivity. }
    rewrite (bind_returns _ _ _ _ _ Hcond) in Hrun.
    destruct (Sketch.Serial_rx g) as [|c rest] eqn:Hrx.
    + injection Hrun as <- <-. auto.
    + unfold mbind at 1 in Hrun. unfold Sketch.G_bind at 1 in Hrun.
      destruct (Sketch.handleSerialInput_body DATE TIME fuel count0 g)
        as [o1 g1] eqn:Hbody.
      destruct (handleSerialInput_body_safe DATE TIME fuel count0 g g1 o1
                  c rest Hrx Hflag Hbody) as (A & B & C & D).
      destruct (c_then_y_tail c rest Hcy) as [Hcy' Hnext].
      destruct o1 as [[]|i|i|];
        try (injection Hrun as <- <-; split; assumption).
      destruct (IH g1) as [A' B']; [| |exact Hrun|split; congruence].
      * rewrite C. exact Hcy'.
      * intros Hf. rewrite C. exact (Hnext (D Hf)).
Qed.

(** [clearLog] (after [convertToEEPROMBlock]) with the cursor on slot [j]:
    that slot is IN_PROGRESS and every other slot is erased. *)
Lemma clear_call (g : Sketch.sketch) (md : modemRecord_t) (N j : Z)
    (fuel : nat) :
  EEPROM_len (EEPROM (Sketch.m g)) = 8 * N ->
  0 <= j < N -> _modemRecordIndex (Sketch.m g) = 8 * j ->
  8 * N < Z.of_nat fuel ->
  exists s1 s',
    Sketch.call (convertToEEPROMBlock md) g = (Returns 0, Sketch.set_m s1 g) /\
    Sketch.call (clearLog fuel) (Sketch.set_m s1 g)
      = (Returns 0, Sketch.set_m s' g) /\
    EEPROM_len (EEPROM s') = 8 * N /\
    (forall x, 0 <= x < N ->
       slot_flag (EEPROM s') x =
       if x =? j then MODEM_RECORD_IN_PROGRESS else MODEM_RECORD_UNUSED).
Proof.
  intros Hlen Hj Hidx Hfuel.
  destruct (convertToEEPROMBlock_run md (Sketch.m g))
    as (s1 & R1 & M1 & I1 & T1 & _).
  destruct (clearLog_spec s1 fuel)
    as (s2 & t & mem & R2 & Hlenm & Hff & HE & _); [rewrite M1; lia|].
  rewrite M1, Hlen in Hlenm, Hff. rewrite I1, Hidx in HE.
  exists s1, s2. split_and!.
  - apply call_returns, R1.
  - destruct g; cbn [Sketch.set_m Sketch.m] in *.
    unfold Sketch.call. cbn [Sketch.set_m Sketch.m]. rewrite R2. reflexivity.
  - rewrite HE, EEPROM_len_write_all. exact Hlenm.
  - intros x Hx. rewrite HE.
    apply (slot_flag_after_clear mem N j x _ Hlenm Hj Hx Hff).
Qed.

Lemma handleSerialInput_step (DATE TIME : string) (fuel : nat)
    (count0 : nat -> Z) (n : nat) (g g1 : Sketch.sketch) (c : Z)
    (rest : list Z) :
  Sketch.Serial_rx g = c :: rest ->
  Sketch.handleSerialInput_body DATE TIME fuel count0 g = (Returns tt, g1) ->
  Sketch.loop (S n)
    (fun _ => k ← Sketch.Serial_available; mret (k >? 0))
    (fun _ => Sketch.handleSerialInput_body DATE TIME fuel count0) tt g
  = Sketch.loop n
      (fun _ => k ← Sketch.Serial_available; mret (k >? 0))
      (fun _ => Sketch.handleSerialInput_body DATE TIME fuel count0) tt g1.
Proof.
  intros Hrx Hbody. cbn [Sketch.loop].
  assert ((k ← Sketch.Serial_available; mret (k >? 0)) g = (Returns true, g))
    as Hcond.
  { unfold Sketch.Serial_available, Sketch.read, mbind, Sketch.G_bind,
      mret, Sketch.G_ret.
    rewrite Hrx. reflexivity. }
  rewrite (bind_returns _ _ _ _ _ Hcond).
  rewrite (bind_returns _ _ _ _ _ Hbody). reflexivity.
Qed.

Lemma handleSerialInput_done (DATE TIME : string) (fuel : nat)
    (count0 : nat -> Z) (n : nat) (g : Sketch.sketch) :
  Sketch.Serial_rx g = [] ->
  Sketch.loop (S n)
    (fun _ => k ← Sketch.Serial_available; mret (k >? 0))
    (fun _ => Sketch.handleSerialInput_body DATE TIME fuel count0) tt g
  = (Returns tt, g).
Proof.
  intros Hrx. cbn [Sketch.loop].
  assert ((k ← Sketch.Serial_available; mret (k >? 0)) g = (Returns false, g))
    as Hcond.
  { unfold Sketch.Serial_available, Sketch.read, mbind, Sketch.G_bind,
      mret, Sketch.G_ret.
    rewrite Hrx. reflexivity. }
  rewrite (bind_returns _ _ _ _ _ Hcond). reflexivity.
Qed.

(** The command [C] asks for the confirmation. *)
Lemma handleSerialInput_body_C (DATE TIME : string) (fuel : nat)
    (count0 : nat -> Z) (g : Sketch.sketch) (c : Z) (rest : list Z) :
  Sketch.Serial_rx g = c :: rest ->
  command_of c = Sketch.chr "C" ->
  Sketch.clearEEPROMFlag g = false ->
  exists g1,
    Sketch.handleSerialInput_body DATE TIME fuel count0 g = (Returns tt, g1) /\
    Sketch.m g1 = Sketch.m g /\
    Sketch.clearEEPROMFlag g1 = true /\
    Sketch.Serial_rx g1 = rest.
Proof.
  intros Hrx Hc Hf. unfold Sketch.handleSerialInput_body.
  assert (Sketch.Serial_read g = (Returns c, Sketch.set_Serial_rx rest g))
    as Hread.
  { unfold Sketch.Serial_read. rewrite Hrx. reflexivity. }
  rewrite (bind_returns _ _ _ _ _ Hread). cbv zeta.
  fold (command_of c). rewrite Hc.
  assert (Sketch.read Sketch.clearEEPROMFlag (Sketch.set_Serial_rx rest g)
          = (Returns false, Sketch.set_Serial_rx rest g))
    as Hrd by (destruct g; cbn in Hf; subst; reflexivity).
  rewrite (bind_returns _ _ _ _ _ Hrd). cbn [andb].
  change (Sketch.chr "C" =? Sketch.chr "C") with true. cbv iota.
  destruct g. eexists. split; [reflexivity|].
  split_and!; reflexivity.
Qed.

(** The answer [Y] to the confirmation clears the log. *)
Lemma handleSerialInput_body_Y (DATE TIME : string) (fuel : nat)
    (count0 : nat -> Z) (g : Sketch.sketch) (y : Z) (rest : list Z)
    (N j : Z) :
  Sketch.Serial_rx g = y :: rest ->
  command_of y = Sketch.chr "Y" ->
  Sketch.clearEEPROMFlag g = true ->
  EEPROM_len (EEPROM (Sketch.m g)) = 8 * N ->
  0 <= j < N -> _modemRecordIndex (Sketch.m g) = 8 * j ->
  8 * N < Z.of_nat fuel ->
  exists g1,
    Sketch.handleSerialInput_body DATE TIME fuel count0 g = (Returns tt, g1) /\
    EEPROM_len (EEPROM (Sketch.m g1)) = 8 * N /\
    (forall x, 0 <= x < N ->
       slot_flag (EEPROM (Sketch.m g1)) x =
       if x =? j then MODEM_RECORD_IN_PROGRESS else MODEM_RECORD_UNUSED) /\
    downMins (Sketch.modem g1) = 0 /\
    Sketch.clearEEPROMFlag g1 = false /\
    Sketch.Serial_rx g1 = rest.
Proof.
  intros Hrx Hy Hf Hlen Hj Hidx Hfuel. unfold Sketch.handleSerialInput_body.
  assert (Sketch.Serial_read g = (Returns y, Sketch.set_Serial_rx rest g))
    as Hread.
  { unfold Sketch.Serial_read. rewrite Hrx. reflexivity. }
  rewrite (bind_returns _ _ _ _ _ Hread). cbv zeta.
  fold (command_of y). rewrite Hy.
  assert (Sketch.read Sketch.clearEEPROMFlag (Sketch.set_Serial_rx rest g)
          = (Returns true, Sketch.set_Serial_rx rest g))
    as Hrd by (destruct g; cbn in Hf; subst; reflexivity).
  rewrite (bind_returns _ _ _ _ _ Hrd).
  change (neqb (Sketch.chr "Y") (Sketch.chr "Y")) with false. cbn [andb].
  change (Sketch.chr "Y" =? Sketch.chr "C") with false.
  change (Sketch.chr "Y" =? Sketch.chr "D") with false.
  change (Sketch.chr "Y" =? Sketch.chr "F") with false.
  change (Sketch.chr "Y" =? Sketch.chr "H") with false.
  change (Sketch.chr "Y" =? Sketch.chr "L") with false.
  change (Sketch.chr "Y" =? Sketch.chr "R") with false.
  change (Sketch.chr "Y" =? Sketch.chr "S") with false.
  change (Sketch.chr "Y" =? Sketch.chr "V") with false.
  change (Sketch.chr "Y" =? Sketch.chr "Y") with true.
  cbv iota.
  rewrite (bind_returns _ _ _ _ _ Hrd).
  destruct g as [s md bf rn st pd vm lm rm sim fl sc mi oc rp rx tx].
  cbn [Sketch.m Sketch.Serial_rx Sketch.clearEEPROMFlag] in *. subst rx fl.
  destruct (clear_call
              (Sketch.mkSketch s (mkModemRecord (secsSince1900 md) 0 (waitSecs md))
                 bf rn st pd vm lm rm sim true sc mi oc rp rest tx)
              (mkModemRecord (secsSince1900 md) 0 (waitSecs md)) N j fuel)
    as (s1 & s' & Hrun1 & Hrun2 & Hlen' & Hflags); [assumption..|].
  unfold Sketch.set_m in Hrun1, Hrun2.
  cbn [Sketch.set_m Sketch.m Sketch.modem Sketch.buffer Sketch.retryNo
       Sketch.state Sketch.pollDelayMillis Sketch.verboseMode
       Sketch.statusLEDMode Sketch.relayMode Sketch.simulateNoResponse
       Sketch.clearEEPROMFlag Sketch.secs Sketch.mins Sketch.OCR1B
       Sketch.relayPin Sketch.Serial_rx Sketch.Serial_tx] in Hrun1, Hrun2.
  run_G. cbn [secsSince1900 downMins waitSecs].
  rewrite Hrun1. run_G. rewrite Hrun2. run_G.
  eexists. split; [reflexivity|].
  cbv beta iota. cbn [downMins]. split_and!; try reflexivity; assumption.
Qed.

(** * The claims *)

(** ** C1 *)

(** C1 (invariant I1).  On a device whose length is a positive multiple of
    the record size, start from any state with at most one slot flagged
    IN_PROGRESS and make any sequence of [completeLogEntry] calls, each on
    the block as it stands or on a record freshly loaded with
    [convertToEEPROMBlock]: every call returns, and after each call (after
    every prefix of the sequence) at most one slot is flagged
    IN_PROGRESS. *)
Theorem completeLogEntry_keeps_one_in_progress
    (s : store) (os : list (option modemRecord_t)) (fuel : nat) :
  well_sized (EEPROM s) = true ->
  at_most_one_flagged MODEM_RECORD_IN_PROGRESS (EEPROM s) = true ->
  numRecords (EEPROM s) + 1 < Z.of_nat fuel ->
  forall k : nat,
    exists s', completeLogEntry_calls fuel (firstn k os) s = Some (tt, s') /\
      at_most_one_flagged MODEM_RECORD_IN_PROGRESS (EEPROM s') = true.
Proof.
  intros Hws H1 Hfuel k.
  apply well_sized_spec in Hws. destruct Hws as (N & HN & Hlen).
  rewrite (numRecords_eq _ N Hlen) in Hfuel.
  destruct (completeLogEntry_calls_in_progress (firstn k os) s N fuel
              Hlen HN Hfuel H1) as (s' & Hrun & _ & H1').
  exists s'. split; assumption.
Qed.

(** The theorem at work: three appends on an erased ring of two slots. *)
Lemma completeLogEntry_keeps_one_in_progress_witness :
  well_sized (erased 2) = true /\
  at_most_one_flagged MODEM_RECORD_IN_PROGRESS (erased 2) = true /\
  numRecords (erased 2) + 1 < Z.of_nat 4 /\
  forall k : nat,
    exists s',
      completeLogEntry_calls 4 (firstn k [Some record_A; None; Some record_B])
        (store_on (erased 2)) = Some (tt, s') /\
      at_most_one_flagged MODEM_RECORD_IN_PROGRESS (EEPROM s') = true.
Proof.
  assert (well_sized (erased 2) = true) as H1 by reflexivity.
  assert (at_most_one_flagged MODEM_RECORD_IN_PROGRESS (erased 2) = true)
    as H2 by reflexivity.
  assert (numRecords (erased 2) + 1 < Z.of_nat 4) as H3 by reflexivity.
  split; [exact H1|]. split; [exact H2|]. split; [exact H3|].
  exact (completeLogEntry_keeps_one_in_progress (store_on (erased 2))
           [Some record_A; None; Some record_B] 4 H1 H2 H3).
Defined.

(** ** C2 *)

(** The walk from the oldest record, when the local [count] of
    [getOldestCompletedRecord] happens to start no larger than the number
    of slots.  Start from an erased ring of [n] slots and append the
    records [rs], [0 < length rs < n], each loaded with
    [convertToEEPROMBlock] before its [completeLogEntry].  Then
    [getOldestCompletedRecord] followed by [length rs - 1] calls of
    [getNextCompletedRecord] visits slots [0, 1, ...] and reads there the
    records of [rs] in creation order, and the next
    [getNextCompletedRecord] returns [-1]. *)
Lemma oldest_then_next_in_creation_order (n : nat) (rs : list modemRecord_t)
    (s : store) (count0 : Z) (fuel : nat) :
  EEPROM s = erased n ->
  Forall fits rs ->
  (0 < length rs < n)%nat ->
  count0 <= Z.of_nat n ->
  Z.of_nat n + 1 < Z.of_nat fuel ->
  exists s1 s2 s3,
    completeLogEntry_calls fuel (map Some rs) s = Some (tt, s1) /\
    walk_from_oldest count0 fuel (length rs - 1) s1
      = Some (in_slots 0 rs, s2) /\
    getNextCompletedRecord s2 = Some (-1, s3).
Proof.
  intros Hmem Hfits Hk Hc0 Hfuel. set (N := Z.of_nat n) in *.
  assert (log_of N [] (EEPROM s)) as Hlog0.
  { rewrite Hmem. apply log_of_erased. lia. }
  destruct (log_of_appends rs s N [] fuel Hlog0 ltac:(simpl; lia) Hfuel)
    as (s1 & Hrun & Hlog).
  cbn [app] in Hlog. exists s1.
  destruct rs as [|r0 tl]; [simpl in Hk; lia|].
  assert (Z.of_nat (length tl) + 1 < N) as HkN by (cbn [length] in Hk; lia).
  destruct (getOldestCompletedRecord_on_log s1 N count0 (r0 :: tl) fuel Hlog
              ltac:(discriminate) ltac:(lia) Hc0 ltac:(lia))
    as (s1a & Hold & HEa & Hia).
  pose proof Hlog as (Hlen & Hrec & Hip & _).
  rewrite <- HEa in Hlog.
  assert (fits r0) as Hfit0 by (inversion Hfits; assumption).
  assert (slot_holds (EEPROM s1a) (8 * 0) (encode r0 0) MODEM_RECORD_COMPLETE
          = true) as Hh0.
  { rewrite HEa. apply (Hrec 0%nat r0). reflexivity. }
  destruct (read_record_spec s1a 0 r0 Hia Hh0 Hfit0) as (s1b & Hrd & HEb & Hib).
  rewrite <- HEb in Hlog. rewrite Hia in Hib.
  destruct (walk_next_spec N (r0 :: tl) tl s1b 0 Hlog ltac:(lia) Hfits Hib)
    as (s2 & Hw & HE2 & Hi2).
  { intros i r Hi. exact Hi. }
  exists s2.
  assert (next_index s2 = 8 * Z.of_nat (length (r0 :: tl))) as Hnext.
  { unfold next_index, sizeof_EEPROMRecord_t.
    rewrite HE2, HEb, HEa, Hlen, Hi2, Z.geb_leb. cbn [length].
    destruct (Z.leb_spec (8 * N) (8 * Z.of_nat (0 + length tl) + 8)); lia. }
  destruct (getNextCompletedRecord_fails s2) as (s3 & Hr3 & _).
  { rewrite Hnext, HE2, HEb, HEa.
    fold (slot_flag (EEPROM s1) (Z.of_nat (length (r0 :: tl)))).
    rewrite Hip by discriminate. discriminate. }
  exists s3. split; [exact Hrun|]. split; [|exact Hr3].
  replace (length (r0 :: tl) - 1)%nat with (length tl) by (simpl; lia).
  unfold walk_from_oldest, mbind, M_bind, mret, M_ret.
  rewrite Hold, Hrd, Hw. reflexivity.
Qed.

(** The same walk on a ring of four slots with the two records of the
    scenario, [count] starting at 0. *)
Lemma oldest_then_next_in_creation_order_example :
  exists s1 s2 s3,
    completeLogEntry_calls 8 (map Some [record_A; record_B])
      (store_on (erased 4)) = Some (tt, s1) /\
    walk_from_oldest 0 8 1 s1
      = Some ([(0, record_A); (8, record_B)], s2) /\
    getNextCompletedRecord s2 = Some (-1, s3).
Proof.
  apply (oldest_then_next_in_creation_order 4 [record_A; record_B]
           (store_on (erased 4)) 0 8).
  - reflexivity.
  - repeat constructor; unfold fits; simpl; lia.
  - simpl. lia.
  - lia.
  - lia.
Defined.

(** C2.  The walk fails on the code as it is: the local [count] of
    [getOldestCompletedRecord] is read before it is first assigned.  On a
    ring of four slots holding the two records of the scenario (slot 0 and
    slot 1 COMPLETE, slot 2 IN_PROGRESS), a call that finds the value 5 in
    [count] returns [-1] instead of the index 0 of the oldest record. *)
Theorem getOldestCompletedRecord_uninitialised_count :
  exists s1 s2,
    completeLogEntry_calls 8 (map Some [record_A; record_B])
      (store_on (erased 4)) = Some (tt, s1) /\
    slot_flag (EEPROM s1) 0 = MODEM_RECORD_COMPLETE /\
    slot_flag (EEPROM s1) 1 = MODEM_RECORD_COMPLETE /\
    slot_flag (EEPROM s1) 2 = MODEM_RECORD_IN_PROGRESS /\
    numRecords (EEPROM s1) = 4 /\
    getOldestCompletedRecord 5 8 s1 = Some (-1, s2).
Proof.
  eexists _, _. split; [vm_compute; reflexivity|].
  split_and!; vm_compute; reflexivity.
Qed.

(** ** C3 *)

(** C3, as stated, fails for [completeLogEntry] on a device of one slot:
    the new record is started in the slot that was just sealed, so the
    write of the COMPLETE flag into slot 0 is followed by writes to the
    payload of slot 0. *)
Lemma completeLogEntry_one_slot_flag_not_last :
  exists s',
    completeLogEntry 4 (store_on (erased 1)) = Some (tt, s') /\
    updates (trace s') =
      [(0, 0); (1, 0); (2, 0); (3, 0); (4, 0); (5, 0);
       (7, MODEM_RECORD_COMPLETE);
       (0, 0); (1, 0); (2, 0); (3, 0); (4, 0); (5, 0);
       (7, MODEM_RECORD_IN_PROGRESS)] /\
    flag_written_last (updates (trace s')) = false.
Proof.
  eexists. split; [vm_compute; reflexivity|]. split; reflexivity.
Qed.

(** C3, amended.  On a device whose length is a positive multiple of the
    record size, with [_modemRecordIndex] at the byte index of a slot: in
    the cell writes of one call of [setEEPROMUptimeStats] or of [clearLog],
    and, when the device has at least two slots, of one call of
    [completeLogEntry], every write of COMPLETE or IN_PROGRESS into a
    slot's flags byte comes after all the writes of that call to the
    payload bytes (offsets 0 to 5) of that slot. *)
Theorem flag_written_after_payload (s : store) (fuel : nat) :
  well_sized (EEPROM s) = true ->
  slot_index (EEPROM s) (_modemRecordIndex s) = true ->
  EEPROM_len (EEPROM s) < Z.of_nat fuel ->
  (2 <= numRecords (EEPROM s) ->
   exists s' t,
     completeLogEntry fuel s = Some (tt, s') /\
     trace s' = trace s ++ t /\
     flag_written_last (updates t) = true) /\
  (exists s' t,
     setEEPROMUptimeStats fuel s = Some (tt, s') /\
     trace s' = trace s ++ t /\
     flag_written_last (updates t) = true) /\
  (exists s' t,
     clearLog fuel s = Some (0, s') /\
     trace s' = trace s ++ t /\
     flag_written_last (updates t) = true).
Proof.
  intros Hws Hidx Hfuel.
  apply well_sized_spec in Hws. destruct Hws as (N & HN & Hlen).
  apply (slot_index_spec _ N _ Hlen) in Hidx. destruct Hidx as (j & Hj & Hidx).
  rewrite (numRecords_eq _ N Hlen).
  split; [|split].
  - intros H2.
    destruct (completeLogEntry_spec s N fuel Hlen HN ltac:(lia))
      as (s' & t & j0 & Hrun & [Hj0 _] & _ & _ & _ & Ht & Hu & _).
    exists s', t. split_and!; try assumption.
    rewrite Hu. apply flag_written_last_append.
    unfold next_slot. destruct (Z.ltb_spec (j0 + 1) N); lia.
  - destruct (setEEPROMUptimeStats_spec s N fuel Hlen HN ltac:(lia))
      as (s' & t & j0 & Hrun & _ & _ & _ & _ & Ht & Hu & _).
    exists s', t. split_and!; try assumption.
    rewrite Hu. apply flag_written_last_checkpoint.
  - destruct (clearLog_spec s fuel Hfuel)
      as (s' & t & mem & Hrun & _ & _ & _ & _ & _ & Ht & _ & Hu).
    exists s', t. split_and!; try assumption.
    rewrite Hu, Hidx, flag_written_last_skip.
    + apply flag_written_last_checkpoint.
    + apply erase_updates_no_flag.
Qed.

(** The theorem at work on an erased ring of two slots, index at slot 1. *)
Lemma flag_written_after_payload_witness :
  well_sized (erased 2) = true /\
  slot_index (erased 2) 8 = true /\
  EEPROM_len (erased 2) < Z.of_nat 20 /\
  2 <= numRecords (erased 2) /\
  (exists s' t,
     completeLogEntry 20 (mkStore (erased 2) 8 zero_block []) = Some (tt, s') /\
     trace s' = [] ++ t /\
     flag_written_last (updates t) = true) /\
  (exists s' t,
     setEEPROMUptimeStats 20 (mkStore (erased 2) 8 zero_block []) = Some (tt, s') /\
     trace s' = [] ++ t /\
     flag_written_last (updates t) = true) /\
  (exists s' t,
     clearLog 20 (mkStore (erased 2) 8 zero_block []) = Some (0, s') /\
     trace s' = [] ++ t /\
     flag_written_last (updates t) = true).
Proof.
  assert (well_sized (erased 2) = true) as H1 by reflexivity.
  assert (slot_index (erased 2) 8 = true) as H2 by reflexivity.
  assert (EEPROM_len (erased 2) < Z.of_nat 20) as H3 by reflexivity.
  assert (2 <= numRecords (erased 2)) as H4 by (vm_compute; discriminate).
  split; [exact H1|]. split; [exact H2|]. split; [exact H3|]. split; [exact H4|].
  destruct (flag_written_after_payload
              (mkStore (erased 2) 8 zero_block []) 20 H1 H2 H3) as (Ha & Hb & Hc).
  split; [exact (Ha H4)|]. split; [exact Hb | exact Hc].
Defined.

(** ** C4 *)

(** C4, as stated, fails.  On an erased device of two slots
    [getRecordInProgress] reads four cells, one more than [N+1 = 3], before
    it returns [-1]; and [getNewestCompletedRecord], which finds no
    COMPLETE slot there, returns 0 and not [-1]. *)
Lemma scans_on_erased_device :
  numRecords (erased 2) + 1 = 3 /\
  (exists s',
     getRecordInProgress 8 (store_on (erased 2)) = Some (-1, s') /\
     probes (trace s') = 4) /\
  no_slot_flagged MODEM_RECORD_COMPLETE (erased 2) = true /\
  (exists s',
     getNewestCompletedRecord 8 (store_on (erased 2)) = Some (0, s')).
Proof.
  split; [reflexivity|]. split; [|split; [reflexivity|]].
  - eexists. split; [vm_compute; reflexivity | reflexivity].
  - eexists. vm_compute. reflexivity.
Qed.

(** C4, amended.  On a device of [N] slots whose length is a positive
    multiple of the record size, every scan returns for every content of
    the EEPROM: [getRecordInProgress] after at most [N+2] cell reads,
    [getOldestCompletedRecord] (whatever the initial value of its local
    [count]) after at most [2N], [getNewestCompletedRecord] after at most
    [2N+3] and [getNextCompletedRecord] after at most 2.
    [getRecordInProgress] returns [-1] when no slot is IN_PROGRESS,
    [getOldestCompletedRecord] returns [-1] when no slot is IN_PROGRESS or
    no slot is COMPLETE, and [getNextCompletedRecord] returns [-1] when the
    slot after the index is not COMPLETE. *)
Theorem scans_terminate (s : store) (count0 : Z) (fuel : nat) :
  well_sized (EEPROM s) = true ->
  0 <= _modemRecordIndex s ->
  numRecords (EEPROM s) + 1 < Z.of_nat fuel ->
  (exists r s' t,
     getRecordInProgress fuel s = Some (r, s') /\
     trace s' = trace s ++ t /\
     probes t <= numRecords (EEPROM s) + 2 /\
     (no_slot_flagged MODEM_RECORD_IN_PROGRESS (EEPROM s) = true -> r = -1)) /\
  (exists r s' t,
     getOldestCompletedRecord count0 fuel s = Some (r, s') /\
     trace s' = trace s ++ t /\
     probes t <= 2 * numRecords (EEPROM s) /\
     (no_slot_flagged MODEM_RECORD_IN_PROGRESS (EEPROM s) = true \/
      no_slot_flagged MODEM_RECORD_COMPLETE (EEPROM s) = true -> r = -1)) /\
  (exists r s' t,
     getNewestCompletedRecord fuel s = Some (r, s') /\
     trace s' = trace s ++ t /\
     probes t <= 2 * numRecords (EEPROM s) + 3) /\
  (exists r s' t,
     getNextCompletedRecord s = Some (r, s') /\
     trace s' = trace s ++ t /\
     probes t <= 2 /\
     (peek (EEPROM s) (next_index s + 7) <> MODEM_RECORD_COMPLETE -> r = -1)).
Proof.
  intros Hws Hidx Hfuel.
  apply well_sized_spec in Hws. destruct Hws as (N & HN & Hlen).
  rewrite (numRecords_eq _ N Hlen) in *.
  split_and!.
  - destruct (getRecordInProgress_spec s N fuel Hlen HN Hfuel)
      as (r & s' & Hrun & _ & _ & t & Ht & _ & Hcases).
    exists r, s', t. split_and!; try assumption.
    + destruct Hcases as [(_ & _ & Hp & _)|(j & Hj & _ & _ & Hp & _)]; lia.
    + intros Hno. rewrite no_slot_flagged_spec, (numRecords_eq _ N Hlen) in Hno.
      destruct Hcases as [(-> & _)|(j & Hj & _ & _ & _ & Hf & _)];
        [reflexivity|]. exfalso. exact (Hno j Hj Hf).
  - destruct (getOldestCompletedRecord_spec s N count0 fuel Hlen HN ltac:(lia))
      as (r & s' & Hrun & _ & _ & (t & Ht & _ & Hp) & _ & Hcases).
    exists r, s', t. split_and!; try assumption.
    intros Hno. rewrite !no_slot_flagged_spec, (numRecords_eq _ N Hlen) in Hno.
    destruct Hcases as [(-> & _)|(jp & d & _ & Hjp & Hd & Hip & _ & Hc & _)];
      [reflexivity|]. exfalso.
    destruct Hno as [Hno|Hno].
    + exact (Hno jp Hjp Hip).
    + apply (Hno ((jp + d) mod N)); [|exact Hc].
      apply Z.mod_pos_bound. lia.
  - destruct (getNewestCompletedRecord_spec s N fuel Hlen HN Hfuel)
      as (r & s' & t & Hrun & _ & _ & _ & _ & Ht & _ & Hp).
    exists r, s', t. split_and!; assumption.
  - destruct (getNextCompletedRecord_spec s Hidx)
      as (r & s' & t & Hrun & _ & _ & Ht & _ & Hp & Hcases).
    exists r, s', t. split_and!; try assumption.
    intros Hf. destruct Hcases as [(Hc & _)|(_ & -> & _)];
      [contradiction | reflexivity].
Qed.

(** The theorem at work on a ring of two slots whose slot 1 is IN_PROGRESS. *)
Lemma scans_terminate_witness :
  well_sized in_progress_at_1 = true /\
  0 <= 8 /\
  numRecords in_progress_at_1 + 1 < Z.of_nat 8 /\
  (exists r s' t,
     getRecordInProgress 8 (mkStore in_progress_at_1 8 zero_block [])
       = Some (r, s') /\
     trace s' = [] ++ t /\
     probes t <= numRecords in_progress_at_1 + 2 /\
     (no_slot_flagged MODEM_RECORD_IN_PROGRESS in_progress_at_1 = true ->
      r = -1)) /\
  (exists r s' t,
     getOldestCompletedRecord 0 8 (mkStore in_progress_at_1 8 zero_block [])
       = Some (r, s') /\
     trace s' = [] ++ t /\
     probes t <= 2 * numRecords in_progress_at_1 /\
     (no_slot_flagged MODEM_RECORD_IN_PROGRESS in_progress_at_1 = true \/
      no_slot_flagged MODEM_RECORD_COMPLETE in_progress_at_1 = true ->
      r = -1)) /\
  (exists r s' t,
     getNewestCompletedRecord 8 (mkStore in_progress_at_1 8 zero_block [])
       = Some (r, s') /\
     trace s' = [] ++ t /\
     probes t <= 2 * numRecords in_progress_at_1 + 3) /\
  (exists r s' t,
     getNextCompletedRecord (mkStore in_progress_at_1 8 zero_block [])
       = Some (r, s') /\
     trace s' = [] ++ t /\
     probes t <= 2 /\
     (peek in_progress_at_1
        (next_index (mkStore in_progress_at_1 8 zero_block []) + 7)
      <> MODEM_RECORD_COMPLETE -> r = -1)).
Proof.
  assert (well_sized in_progress_at_1 = true) as H1 by reflexivity.
  assert (0 <= 8) as H2 by lia.
  assert (numRecords in_progress_at_1 + 1 < Z.of_nat 8) as H3 by reflexivity.
  split; [exact H1|]. split; [exact H2|]. split; [exact H3|].
  exact (scans_terminate (mkStore in_progress_at_1 8 zero_block []) 0 8
           H1 H2 H3).
Defined.

(** ** C5 *)

(** C5.  On a device whose length is a positive multiple of the record
    size, when no slot is flagged IN_PROGRESS, [completeLogEntry] returns
    and its cell writes are: the payload of the block and then the COMPLETE
    flag into slot 0, followed by the writes that start the next record in
    the slot after it.  With two slots or more the sealed record is still
    in slot 0 when the call returns. *)
Theorem completeLogEntry_defaults_to_slot_0 (s : store) (fuel : nat) :
  well_sized (EEPROM s) = true ->
  no_slot_flagged MODEM_RECORD_IN_PROGRESS (EEPROM s) = true ->
  numRecords (EEPROM s) + 1 < Z.of_nat fuel ->
  exists s' t,
    completeLogEntry fuel s = Some (tt, s') /\
    trace s' = trace s ++ t /\
    updates t =
      seal_updates 0 (EEPROMBlock s)
      ++ start_updates (8 * next_slot (numRecords (EEPROM s)) 0) (EEPROMBlock s) /\
    (2 <= numRecords (EEPROM s) ->
     slot_holds (EEPROM s') 0 (EEPROMBlock s) MODEM_RECORD_COMPLETE = true).
Proof.
  intros Hws Hno Hfuel.
  apply well_sized_spec in Hws. destruct Hws as (N & HN & Hlen).
  rewrite no_slot_flagged_spec in Hno.
  rewrite (numRecords_eq _ N Hlen) in *.
  destruct (completeLogEntry_spec s N fuel Hlen HN Hfuel)
    as (s' & t & j & Hrun & [Hj Hslot] & HE & _ & _ & Ht & Hu & _).
  assert (j = 0) as ->.
  { destruct Hslot as [[Hf _]|[-> _]]; [|reflexivity].
    exfalso. apply (Hno j Hj Hf). }
  exists s', t. split_and!; try assumption.
  intros H2. rewrite HE. unfold next_slot.
  destruct (Z.ltb_spec (0 + 1) N); [|lia].
  unfold slot_holds, write_all, seal_updates, start_updates.
  cbn [app fold_left fst snd].
  rewrite !andb_true_iff, !Z.eqb_eq.
  split_and!; peek_simpl; reflexivity.
Qed.

(** The theorem at work on an erased ring of two slots. *)
Lemma completeLogEntry_defaults_to_slot_0_witness :
  well_sized (erased 2) = true /\
  no_slot_flagged MODEM_RECORD_IN_PROGRESS (erased 2) = true /\
  numRecords (erased 2) + 1 < Z.of_nat 4 /\
  exists s' t,
    completeLogEntry 4 (store_on (erased 2)) = Some (tt, s') /\
    trace s' = trace (store_on (erased 2)) ++ t /\
    updates t =
      seal_updates 0 zero_block
      ++ start_updates (8 * next_slot (numRecords (erased 2)) 0) zero_block /\
    (2 <= numRecords (erased 2) ->
     slot_holds (EEPROM s') 0 zero_block MODEM_RECORD_COMPLETE = true).
Proof.
  assert (well_sized (erased 2) = true) as H1 by reflexivity.
  assert (no_slot_flagged MODEM_RECORD_IN_PROGRESS (erased 2) = true)
    as H2 by reflexivity.
  assert (numRecords (erased 2) + 1 < Z.of_nat 4) as H3 by reflexivity.
  split; [exact H1|]. split; [exact H2|]. split; [exact H3|].
  exact (completeLogEntry_defaults_to_slot_0 (store_on (erased 2)) 4 H1 H2 H3).
Defined.

(** ** C6 *)

(** C6, as stated, fails: on a two-slot device whose slot 1 is the only
    IN_PROGRESS slot and which has no COMPLETE slot,
    [getNewestCompletedRecord] returns 0, not 8, the index of the
    IN_PROGRESS slot. *)
Lemma getNewestCompletedRecord_not_in_progress_slot :
  (forall j, 0 <= j < 2 ->
     (slot_flag in_progress_at_1 j = MODEM_RECORD_IN_PROGRESS <-> j = 1)) /\
  no_slot_flagged MODEM_RECORD_COMPLETE in_progress_at_1 = true /\
  exists s',
    getNewestCompletedRecord 4 (store_on in_progress_at_1) = Some (0, s') /\
    0 <> 8 * 1.
Proof.
  split; [|split].
  - intros j Hj. assert (j = 0 \/ j = 1) as [-> | ->] by lia; vm_compute;
      split; intros; congruence.
  - reflexivity.
  - eexists. split; [vm_compute; reflexivity | lia].
Qed.

(** C6, amended.  On a device whose length is a positive multiple of the
    record size and on which no slot is flagged COMPLETE (so also when
    exactly one slot is IN_PROGRESS), [getNewestCompletedRecord] returns 0,
    the index of slot 0 where its scan starts, and leaves
    [_modemRecordIndex] at 0, whichever slot is IN_PROGRESS: the result is
    not [-1], and it is the index of the IN_PROGRESS slot only when that
    slot is slot 0. *)
Theorem getNewestCompletedRecord_without_complete (s : store) (fuel : nat) :
  well_sized (EEPROM s) = true ->
  no_slot_flagged MODEM_RECORD_COMPLETE (EEPROM s) = true ->
  (0 < fuel)%nat ->
  exists s',
    getNewestCompletedRecord fuel s = Some (0, s') /\
    _modemRecordIndex s' = 0 /\
    EEPROM s' = EEPROM s.
Proof.
  intros Hws Hno Hfuel.
  apply well_sized_spec in Hws. destruct Hws as (N & HN & Hlen).
  rewrite no_slot_flagged_spec, (numRecords_eq _ N Hlen) in Hno.
  destruct fuel as [|fuel]; [lia|].
  destruct s as [mem idx b tr]. cbn [EEPROM] in *.
  unfold getNewestCompletedRecord, getIndexOfNextCompletedRecord. run_cbv.
  rewrite while_S.
  assert (neqb (peek mem (0 + 7)) MODEM_RECORD_COMPLETE = true) as ->.
  { apply negb_true_iff, Z.eqb_neq. apply (Hno 0). lia. }
  assert ((0 <=? Z.of_nat (length mem) / sizeof_EEPROMRecord_t) = true) as ->.
  { fold (EEPROM_len mem). fold (numRecords mem).
    rewrite (numRecords_eq _ N Hlen). apply Z.leb_le. lia. }
  cbn [andb].
  assert ((peek mem
             ((if 0 + sizeof_EEPROMRecord_t >=? Z.of_nat (length mem)
               then 0 else 0 + sizeof_EEPROMRecord_t) + 7)
           =? MODEM_RECORD_COMPLETE) = false) as ->.
  { apply Z.eqb_neq. fold (EEPROM_len mem). rewrite Hlen, Z.geb_leb.
    unfold sizeof_EEPROMRecord_t.
    destruct (Z.leb_spec (8 * N) (0 + 8)).
    - apply (Hno 0). lia.
    - apply (Hno 1). lia. }
  run_cbv. change (-1 <? 0) with true. run_cbv.
  eexists. split; [reflexivity|]. split; reflexivity.
Qed.

(** The theorem at work on a ring of two slots whose slot 1 is IN_PROGRESS. *)
Lemma getNewestCompletedRecord_without_complete_witness :
  well_sized in_progress_at_1 = true /\
  no_slot_flagged MODEM_RECORD_COMPLETE in_progress_at_1 = true /\
  (0 < 4)%nat /\
  exists s',
    getNewestCompletedRecord 4 (store_on in_progress_at_1) = Some (0, s') /\
    _modemRecordIndex s' = 0 /\
    EEPROM s' = in_progress_at_1.
Proof.
  assert (well_sized in_progress_at_1 = true) as H1 by reflexivity.
  assert (no_slot_flagged MODEM_RECORD_COMPLETE in_progress_at_1 = true)
    as H2 by reflexivity.
  assert (0 < 4)%nat as H3 by lia.
  split; [exact H1|]. split; [exact H2|]. split; [exact H3|].
  exact (getNewestCompletedRecord_without_complete
           (store_on in_progress_at_1) 4 H1 H2 H3).
Defined.

(** ** C7 *)

(** C7, as stated, fails: on an erased two-slot device with the index at
    slot 0, [getNextCompletedRecord] returns [-1] because slot 1 is not
    COMPLETE, and the index is still 0, not 8. *)
Lemma getNextCompletedRecord_failure_not_advanced :
  exists s',
    getNextCompletedRecord (store_on (erased 2)) = Some (-1, s') /\
    peek (erased 2) (next_index (store_on (erased 2)) + 7)
      <> MODEM_RECORD_COMPLETE /\
    _modemRecordIndex s' <> next_index (store_on (erased 2)).
Proof.
  eexists. split; [reflexivity|]. split; vm_compute; discriminate.
Qed.

(** C7, amended.  For every EEPROM state and every index, when the slot one
    step forward (with wraparound) is not COMPLETE,
    [getNextCompletedRecord] returns [-1] and leaves [_modemRecordIndex]
    at the value it had before the call; the device is not written. *)
Theorem getNextCompletedRecord_failure_keeps_index (s : store) :
  peek (EEPROM s) (next_index s + 7) <> MODEM_RECORD_COMPLETE ->
  exists s',
    getNextCompletedRecord s = Some (-1, s') /\
    _modemRecordIndex s' = _modemRecordIndex s /\
    EEPROM s' = EEPROM s.
Proof.
  unfold next_index, EEPROM_len. intros Hf.
  unfold getNextCompletedRecord, getIndexOfNextCompletedRecord. run_M.
  destruct (Z.eqb_spec
    (peek (EEPROM s)
       ((if _modemRecordIndex s + sizeof_EEPROMRecord_t
             >=? Z.of_nat (length (EEPROM s))
         then 0 else _modemRecordIndex s + sizeof_EEPROMRecord_t) + 7))
    MODEM_RECORD_COMPLETE) as [E|_]; [contradiction|].
  run_M. eexists. split; [reflexivity|]. split; reflexivity.
Qed.

(** The theorem at work on an erased ring of two slots. *)
Lemma getNextCompletedRecord_failure_keeps_index_witness :
  peek (erased 2) (next_index (store_on (erased 2)) + 7)
    <> MODEM_RECORD_COMPLETE /\
  exists s',
    getNextCompletedRecord (store_on (erased 2)) = Some (-1, s') /\
    _modemRecordIndex s' = 0 /\
    EEPROM s' = erased 2.
Proof.
  assert (peek (erased 2) (next_index (store_on (erased 2)) + 7)
          <> MODEM_RECORD_COMPLETE) as H1 by (vm_compute; discriminate).
  split; [exact H1|].
  exact (getNextCompletedRecord_failure_keeps_index (store_on (erased 2)) H1).
Defined.

(** ** C8 *)

(** C8.  On a device whose length is a positive multiple of the record
    size, with [_modemRecordIndex] at the byte index of a slot (as the
    class keeps it): [clearLog] returns, and a following
    [getRecordInProgress] succeeds and returns the index that
    [_modemRecordIndex] held before [clearLog], leaving
    [_modemRecordIndex] there. *)
Theorem clearLog_then_getRecordInProgress (s : store) (fuel : nat) :
  well_sized (EEPROM s) = true ->
  slot_index (EEPROM s) (_modemRecordIndex s) = true ->
  EEPROM_len (EEPROM s) < Z.of_nat fuel ->
  exists s1 s2,
    clearLog fuel s = Some (0, s1) /\
    getRecordInProgress fuel s1 = Some (_modemRecordIndex s, s2) /\
    _modemRecordIndex s2 = _modemRecordIndex s.
Proof.
  intros Hws Hidx Hfuel.
  apply well_sized_spec in Hws. destruct Hws as (N & HN & Hlen).
  apply (slot_index_spec _ N _ Hlen) in Hidx. destruct Hidx as (j & Hj & Hidx).
  destruct (clearLog_spec s fuel Hfuel)
    as (s1 & t & mem & Hrun & Hlenm & Hff & HE & Hi1 & _).
  rewrite Hlen in Hlenm, Hff. rewrite Hidx in HE.
  assert (EEPROM_len (EEPROM s1) = 8 * N) as Hlen1.
  { rewrite HE, EEPROM_len_write_all. exact Hlenm. }
  assert (N + 1 < Z.of_nat fuel) as Hfuel1 by lia.
  destruct (getRecordInProgress_spec s1 N fuel Hlen1 HN Hfuel1)
    as (r & s2 & Hrun2 & _ & _ & t2 & _ & _ & Hcases).
  exists s1, s2. split; [exact Hrun|].
  destruct Hcases as [(_ & _ & _ & Hno)|(j0 & Hj0 & -> & Hi2 & _ & Hf & Hfirst)].
  - exfalso. apply (Hno j Hj).
    rewrite HE, (slot_flag_after_clear mem N j j _ Hlenm Hj Hj Hff).
    rewrite Z.eqb_refl. reflexivity.
  - assert (j0 = j) as ->.
    { rewrite HE, (slot_flag_after_clear mem N j j0 _ Hlenm Hj Hj0 Hff) in Hf.
      destruct (Z.eqb_spec j0 j); [assumption | discriminate]. }
    rewrite Hidx. split; assumption.
Qed.

(** The theorem at work on a ring of two slots with the index at slot 1. *)
Lemma clearLog_then_getRecordInProgress_witness :
  well_sized in_progress_at_1 = true /\
  slot_index in_progress_at_1 8 = true /\
  EEPROM_len in_progress_at_1 < Z.of_nat 20 /\
  exists s1 s2,
    clearLog 20 (mkStore in_progress_at_1 8 zero_block []) = Some (0, s1) /\
    getRecordInProgress 20 s1 = Some (8, s2) /\
    _modemRecordIndex s2 = 8.
Proof.
  assert (well_sized in_progress_at_1 = true) as H1 by reflexivity.
  assert (slot_index in_progress_at_1 8 = true) as H2 by reflexivity.
  assert (EEPROM_len in_progress_at_1 < Z.of_nat 20) as H3 by reflexivity.
  split; [exact H1|]. split; [exact H2|]. split; [exact H3|].
  exact (clearLog_then_getRecordInProgress
           (mkStore in_progress_at_1 8 zero_block []) 20 H1 H2 H3).
Defined.

(** ** C9 *)

(** C9 (round trip of the codec).  For every [ts] in [0, 2^32) and every
    [mins] in [0, 2^16), [convertToEEPROMBlock] of a record with these
    fields followed by [convertFromEEPROMBlock] into any destination yields
    exactly [ts] and [mins] in the destination's [secsSince1900] and
    [downMins]. *)
Theorem convert_round_trip (src dst : modemRecord_t) (s : store) :
  0 <= secsSince1900 src < 2 ^ 32 ->
  0 <= downMins src < 2 ^ 16 ->
  exists s1 s2 d,
    convertToEEPROMBlock src s = Some (0, s1) /\
    convertFromEEPROMBlock dst s1 = Some (d, s2) /\
    secsSince1900 d = secsSince1900 src /\
    downMins d = downMins src.
Proof.
  intros Hts Hmins.
  destruct (convertToEEPROMBlock_run src s) as (s1 & Hc & _ & _ & _ & HB).
  exists s1. unfold convertFromEEPROMBlock. run_M. rewrite HB.
  eexists _, _. split; [exact Hc|]. split; [reflexivity|].
  cbn [secsSince1900 downMins secsSince1900_4 secsSince1900_3 secsSince1900_2
       secsSince1900_1 downMins2 downMins1].
  split; [apply bytes_of_uint32 | apply bytes_of_uint16]; assumption.
Qed.

(** The theorem at work on a time stamp above 2^31 and 1500 minutes. *)
Lemma convert_round_trip_witness :
  0 <= 3939840000 < 2 ^ 32 /\ 0 <= 1500 < 2 ^ 16 /\
  exists s1 s2 d,
    convertToEEPROMBlock (mkModemRecord 3939840000 1500 7)
      (store_on (erased 1)) = Some (0, s1) /\
    convertFromEEPROMBlock (mkModemRecord 0 0 42) s1 = Some (d, s2) /\
    secsSince1900 d = 3939840000 /\
    downMins d = 1500.
Proof.
  assert (0 <= 3939840000 < 2 ^ 32) as H1 by lia.
  assert (0 <= 1500 < 2 ^ 16) as H2 by lia.
  split; [exact H1|]. split; [exact H2|].
  exact (convert_round_trip (mkModemRecord 3939840000 1500 7)
           (mkModemRecord 0 0 42) (store_on (erased 1)) H1 H2).
Defined.

(** ** C10 *)

(** C10.  Provided [EEPROM.length()] is a positive multiple of 8 and
    [_modemRecordIndex] starts as a multiple of 8 in [0, EEPROM.length()),
    every sequence of public operations (the scans, the single steps, the
    reads, the codec, [completeLogEntry], [setEEPROMUptimeStats],
    [clearLog], [getEEPROMUptimeStats]) returns and leaves
    [_modemRecordIndex] a multiple of 8 in [0, EEPROM.length()), on a
    device of unchanged length. *)
Theorem index_stays_on_a_slot (ops : list operation) (s : store) (fuel : nat) :
  well_sized (EEPROM s) = true ->
  slot_index (EEPROM s) (_modemRecordIndex s) = true ->
  EEPROM_len (EEPROM s) + 1 < Z.of_nat fuel ->
  exists s',
    run_operations fuel ops s = Some (tt, s') /\
    EEPROM_len (EEPROM s') = EEPROM_len (EEPROM s) /\
    slot_index (EEPROM s') (_modemRecordIndex s') = true.
Proof.
  intros Hws Hidx Hfuel.
  apply well_sized_spec in Hws. destruct Hws as (N & HN & Hlen).
  apply (slot_index_spec _ N _ Hlen) in Hidx.
  assert (index_ok N s) as Hok by (split; assumption).
  rewrite Hlen in *. clear Hlen Hidx.
  revert s Hok. induction ops as [|op ops IH]; intros s Hok.
  - exists s. split; [reflexivity|]. destruct Hok as [Hlen Hal].
    split; [exact Hlen|]. apply (slot_index_spec _ N _ Hlen). exact Hal.
  - destruct (run_operation_index_ok op s N fuel HN Hfuel Hok)
      as (s1 & Hrun & Hok1).
    cbn [run_operations]. unfold mbind at 1. unfold M_bind at 1.
    rewrite Hrun. exact (IH s1 Hok1).
Qed.

(** The theorem at work on a run of eight operations on a ring of two
    slots. *)
Lemma index_stays_on_a_slot_witness :
  well_sized in_progress_at_1 = true /\
  slot_index in_progress_at_1 8 = true /\
  EEPROM_len in_progress_at_1 + 1 < Z.of_nat 20 /\
  exists s',
    run_operations 20
      [Op_convertToEEPROMBlock record_A; Op_completeLogEntry;
       Op_getOldestCompletedRecord 0; Op_getNextCompletedRecord;
       Op_getIndexOfPrevCompletedRecord; Op_clearLog;
       Op_setEEPROMUptimeStats; Op_getNewestCompletedRecord]
      (mkStore in_progress_at_1 8 zero_block []) = Some (tt, s') /\
    EEPROM_len (EEPROM s') = EEPROM_len in_progress_at_1 /\
    slot_index (EEPROM s') (_modemRecordIndex s') = true.
Proof.
  assert (well_sized in_progress_at_1 = true) as H1 by reflexivity.
  assert (slot_index in_progress_at_1 8 = true) as H2 by reflexivity.
  assert (EEPROM_len in_progress_at_1 + 1 < Z.of_nat 20) as H3 by reflexivity.
  split; [exact H1|]. split; [exact H2|]. split; [exact H3|].
  exact (index_stays_on_a_slot _ (mkStore in_progress_at_1 8 zero_block []) 20
           H1 H2 H3).
Defined.

(** * Further properties of the log *)

(** ** Checkpoints of the record in progress *)



(** X2 ([setEEPROMUptimeStats]).  The checkpoint goes to the first slot
    flagged IN_PROGRESS, or to slot 0 when no slot is (whatever slot 0
    holds).  After the call that slot holds the payload of [EEPROMBlock]
    and the flag IN_PROGRESS, [_modemRecordIndex] is its index, and every
    other cell of the device, the spare byte of the slot included, is as it
    was. *)
Theorem setEEPROMUptimeStats_rewrites_one_slot (s : store) (fuel : nat) :
  well_sized (EEPROM s) = true ->
  numRecords (EEPROM s) < Z.of_nat fuel ->
  exists s' j,
    setEEPROMUptimeStats fuel s = Some (tt, s') /\
    (first_flagged MODEM_RECORD_IN_PROGRESS (EEPROM s) j \/
     (j = 0 /\ no_slot_flagged MODEM_RECORD_IN_PROGRESS (EEPROM s) = true)) /\
    _modemRecordIndex s' = 8 * j /\
    slot_holds (EEPROM s') (8 * j) (EEPROMBlock s)
      MODEM_RECORD_IN_PROGRESS = true /\
    (forall a, a < 8 * j \/ a = 8 * j + 6 \/ 8 * j + 8 <= a ->
       peek (EEPROM s') a = peek (EEPROM s) a) /\
    EEPROM_len (EEPROM s') = EEPROM_len (EEPROM s).
Proof.
  intros Hws Hfuel.
  apply well_sized_spec in Hws. destruct Hws as (N & HN & Hlen).
  rewrite (numRecords_eq _ N Hlen) in Hfuel.
  destruct (setEEPROMUptimeStats_finds s N fuel Hlen HN Hfuel)
    as (s' & t & j & Hrun & Hslot & HE & HI & _).
  pose proof Hslot as [Hj _].
  destruct (peek_write_all_checkpoint (EEPROM s) (8 * j) (EEPROMBlock s))
    as [Hholds Hframe]; [lia | lia |].
  exists s', j. rewrite HE. split_and!; try assumption.
  - exact (first_flagged_of_append_slot N _ j Hlen Hslot).
  - apply EEPROM_len_write_all.
Qed.

(** The theorem at work on a ring of two slots whose second slot is in
    progress. *)
Lemma setEEPROMUptimeStats_rewrites_one_slot_witness :
  well_sized in_progress_at_1 = true /\
  numRecords in_progress_at_1 < Z.of_nat 20 /\
  exists s' j,
    setEEPROMUptimeStats 20 (store_on in_progress_at_1) = Some (tt, s') /\
    (first_flagged MODEM_RECORD_IN_PROGRESS in_progress_at_1 j \/
     (j = 0 /\ no_slot_flagged MODEM_RECORD_IN_PROGRESS in_progress_at_1 = true)) /\
    _modemRecordIndex s' = 8 * j /\
    slot_holds (EEPROM s') (8 * j) zero_block MODEM_RECORD_IN_PROGRESS = true /\
    (forall a, a < 8 * j \/ a = 8 * j + 6 \/ 8 * j + 8 <= a ->
       peek (EEPROM s') a = peek in_progress_at_1 a) /\
    EEPROM_len (EEPROM s') = EEPROM_len in_progress_at_1.
Proof.
  assert (well_sized in_progress_at_1 = true) as H1 by reflexivity.
  assert (numRecords in_progress_at_1 < Z.of_nat 20) as H2 by reflexivity.
  split; [exact H1|]. split; [exact H2|].
  exact (setEEPROMUptimeStats_rewrites_one_slot
           (store_on in_progress_at_1) 20 H1 H2).
Defined.



(** ** Appending a record *)

(** X4 ([completeLogEntry]).  On a ring of at least two slots the call
    seals [EEPROMBlock] into the first slot flagged IN_PROGRESS (slot 0 when
    none is): that slot then holds the payload of the block and the flag
    COMPLETE.  The slot after it, wrapping at the end of the device, is
    started with the time stamp of the block, no downtime and the flag
    IN_PROGRESS, and [_modemRecordIndex] is moved there.  Every cell outside
    these two slots, and the spare byte of both, is as it was: when the
    ring is full, only the record in the slot that is started is lost. *)
Theorem completeLogEntry_seals_and_starts (s : store) (fuel : nat) :
  well_sized (EEPROM s) = true ->
  2 <= numRecords (EEPROM s) ->
  numRecords (EEPROM s) + 1 < Z.of_nat fuel ->
  exists s' j,
    completeLogEntry fuel s = Some (tt, s') /\
    (first_flagged MODEM_RECORD_IN_PROGRESS (EEPROM s) j \/
     (j = 0 /\ no_slot_flagged MODEM_RECORD_IN_PROGRESS (EEPROM s) = true)) /\
    slot_holds (EEPROM s') (8 * j) (EEPROMBlock s) MODEM_RECORD_COMPLETE = true /\
    slot_holds (EEPROM s') (8 * next_slot (numRecords (EEPROM s)) j)
      (started_after (EEPROMBlock s)) MODEM_RECORD_IN_PROGRESS = true /\
    _modemRecordIndex s' = 8 * next_slot (numRecords (EEPROM s)) j /\
    EEPROMBlock s' = EEPROMBlock s /\
    (forall a, (a / 8 <> j /\ a / 8 <> next_slot (numRecords (EEPROM s)) j)
               \/ a mod 8 = 6 ->
       peek (EEPROM s') a = peek (EEPROM s) a) /\
    EEPROM_len (EEPROM s') = EEPROM_len (EEPROM s).
Proof.
  intros Hws HN2 Hfuel.
  apply well_sized_spec in Hws. destruct Hws as (N & HN & Hlen).
  rewrite (numRecords_eq _ N Hlen) in *.
  destruct (completeLogEntry_spec s N fuel Hlen HN Hfuel)
    as (s' & t & j & Hrun & Hslot & HE & HI & HB & _).
  pose proof Hslot as [Hj _].
  destruct (peek_write_all_append (EEPROM s) N j (EEPROMBlock s) Hlen HN2 Hj)
    as (Hsealed & Hstarted & Hframe).
  exists s', j. rewrite HE. split_and!; try assumption.
  - exact (first_flagged_of_append_slot N _ j Hlen Hslot).
  - apply EEPROM_len_write_all.
Qed.

(** The theorem at work on a ring of two slots whose second slot is in
    progress: the ring wraps. *)
Lemma completeLogEntry_seals_and_starts_witness :
  well_sized in_progress_at_1 = true /\
  2 <= numRecords in_progress_at_1 /\
  numRecords in_progress_at_1 + 1 < Z.of_nat 20 /\
  exists s' j,
    completeLogEntry 20 (store_on in_progress_at_1) = Some (tt, s') /\
    (first_flagged MODEM_RECORD_IN_PROGRESS in_progress_at_1 j \/
     (j = 0 /\ no_slot_flagged MODEM_RECORD_IN_PROGRESS in_progress_at_1 = true)) /\
    slot_holds (EEPROM s') (8 * j) zero_block MODEM_RECORD_COMPLETE = true /\
    slot_holds (EEPROM s') (8 * next_slot (numRecords in_progress_at_1) j)
      (started_after zero_block) MODEM_RECORD_IN_PROGRESS = true /\
    _modemRecordIndex s' = 8 * next_slot (numRecords in_progress_at_1) j /\
    EEPROMBlock s' = zero_block /\
    (forall a, (a / 8 <> j /\ a / 8 <> next_slot (numRecords in_progress_at_1) j)
               \/ a mod 8 = 6 ->
       peek (EEPROM s') a = peek in_progress_at_1 a) /\
    EEPROM_len (EEPROM s') = EEPROM_len in_progress_at_1.
Proof.
  assert (well_sized in_progress_at_1 = true) as H1 by reflexivity.
  assert (2 <= numRecords in_progress_at_1) as H2 by (vm_compute; discriminate).
  assert (numRecords in_progress_at_1 + 1 < Z.of_nat 20) as H3 by reflexivity.
  split; [exact H1|]. split; [exact H2|]. split; [exact H3|].
  exact (completeLogEntry_seals_and_starts (store_on in_progress_at_1) 20
           H1 H2 H3).
Defined.

(** X5 (the record just appended is one step back).  After
    [convertToEEPROMBlock(&modem)] and [completeLogEntry()] on a ring of at
    least two slots, [getIndexOfPrevCompletedRecord] succeeds, and
    [getDataFromIndex()] with [convertFromEEPROMBlock] then read back the
    time stamp and the downtime that were appended. *)
Theorem appended_record_is_one_step_back (r : modemRecord_t) (s : store)
    (fuel : nat) :
  well_sized (EEPROM s) = true ->
  2 <= numRecords (EEPROM s) ->
  0 <= secsSince1900 r < 2 ^ 32 ->
  0 <= downMins r < 2 ^ 16 ->
  numRecords (EEPROM s) + 1 < Z.of_nat fuel ->
  exists s1 s2 s3 i,
    (convertToEEPROMBlock r;; completeLogEntry fuel) s = Some (tt, s1) /\
    getIndexOfPrevCompletedRecord s1 = Some (i, s2) /\
    0 <= i /\ _modemRecordIndex s2 = i /\
    read_record s2 = Some (stored r, s3).
Proof.
  intros Hws HN2 Hts Hmins Hfuel.
  apply well_sized_spec in Hws. destruct Hws as (N & HN & Hlen).
  rewrite (numRecords_eq _ N Hlen) in *.
  destruct (convertToEEPROMBlock_run r s) as (s0 & Hc & HE0 & _ & _ & HB0).
  assert (EEPROM_len (EEPROM s0) = 8 * N) as Hlen0 by congruence.
  destruct (completeLogEntry_spec s0 N fuel Hlen0 HN Hfuel)
    as (s1 & t & j & Hrun & Hslot & HE & HI & HB & _).
  pose proof Hslot as [Hj _].
  destruct (peek_write_all_append (EEPROM s0) N j (EEPROMBlock s0) Hlen0 HN2 Hj)
    as (Hsealed & _ & _).
  rewrite <- HE in Hsealed.
  assert (EEPROM_len (EEPROM s1) = 8 * N) as Hlen1.
  { rewrite HE, EEPROM_len_write_all. exact Hlen0. }
  assert (prev_index s1 = 8 * j) as Hprev.
  { unfold prev_index, sizeof_EEPROMRecord_t. rewrite HI, Hlen1.
    unfold next_slot. destruct (Z.ltb_spec (j + 1) N);
      destruct (Z.ltb_spec (8 * (j + 1) - 8) 0);
      destruct (Z.ltb_spec (8 * 0 - 8) 0); lia. }
  destruct (getIndexOfPrevCompletedRecord_spec s1)
    as (i & s2 & Hrun2 & HE2 & _ & _ & Hcases).
  rewrite Hprev in Hcases.
  destruct Hcases as [(_ & -> & HI2)|(Hf & _)].
  2:{ exfalso. apply Hf. exact (slot_holds_flag _ _ _ _ Hsealed). }
  destruct (read_record_stored s2 (8 * j) (spare (EEPROMBlock s)) r HI2)
    as (s3 & Hrun3 & _).
  { rewrite HE2. rewrite HB0 in Hsealed. exact Hsealed. }
  { split; assumption. }
  exists s1, s2, s3, (8 * j).
  unfold mbind at 1. unfold M_bind at 1. rewrite Hc.
  split_and!; try assumption. lia.
Qed.

(** The theorem at work on a ring of two slots whose second slot is in
    progress. *)
Lemma appended_record_is_one_step_back_witness :
  well_sized in_progress_at_1 = true /\
  2 <= numRecords in_progress_at_1 /\
  0 <= secsSince1900 record_B < 2 ^ 32 /\
  0 <= downMins record_B < 2 ^ 16 /\
  numRecords in_progress_at_1 + 1 < Z.of_nat 20 /\
  exists s1 s2 s3 i,
    (convertToEEPROMBlock record_B;; completeLogEntry 20)
      (store_on in_progress_at_1) = Some (tt, s1) /\
    getIndexOfPrevCompletedRecord s1 = Some (i, s2) /\
    0 <= i /\ _modemRecordIndex s2 = i /\
    read_record s2 = Some (stored record_B, s3).
Proof.
  assert (well_sized in_progress_at_1 = true) as H1 by reflexivity.
  assert (2 <= numRecords in_progress_at_1) as H2 by (vm_compute; discriminate).
  assert (0 <= secsSince1900 record_B < 2 ^ 32) as H3 by (cbn; lia).
  assert (0 <= downMins record_B < 2 ^ 16) as H4 by (cbn; lia).
  assert (numRecords in_progress_at_1 + 1 < Z.of_nat 20) as H5 by reflexivity.
  split; [exact H1|]. split; [exact H2|]. split; [exact H3|].
  split; [exact H4|]. split; [exact H5|].
  exact (appended_record_is_one_step_back record_B (store_on in_progress_at_1)
           20 H1 H2 H3 H4 H5).
Defined.

(** ** Single steps and the scans *)

(** X6 (a step forward is undone by a step back).  With the cursor on a
    COMPLETE slot of the ring and the next slot COMPLETE too,
    [getIndexOfNextCompletedRecord] moves the cursor to the next slot and
    [getIndexOfPrevCompletedRecord] then brings it back and returns the
    index it started from. *)
Theorem next_then_prev_comes_back (s : store) :
  well_sized (EEPROM s) = true ->
  slot_index (EEPROM s) (_modemRecordIndex s) = true ->
  peek (EEPROM s) (_modemRecordIndex s + 7) = MODEM_RECORD_COMPLETE ->
  peek (EEPROM s) (next_index s + 7) = MODEM_RECORD_COMPLETE ->
  exists s1 s2,
    getIndexOfNextCompletedRecord s = Some (next_index s, s1) /\
    _modemRecordIndex s1 = next_index s /\
    getIndexOfPrevCompletedRecord s1 = Some (_modemRecordIndex s, s2) /\
    _modemRecordIndex s2 = _modemRecordIndex s.
Proof.
  intros Hws Hidx Hcur Hnext.
  apply well_sized_spec in Hws. destruct Hws as (N & HN & Hlen).
  apply (slot_index_spec _ N _ Hlen) in Hidx. destruct Hidx as (j & Hj & Hi).
  destruct (getIndexOfNextCompletedRecord_spec s)
    as (r & s1 & Hrun & HE & _ & _ & Hcases).
  destruct Hcases as [(_ & -> & HI1)|(Hf & _)]; [|contradiction].
  assert (prev_index s1 = _modemRecordIndex s) as Hprev.
  { unfold prev_index. rewrite HI1, HE. unfold next_index.
    rewrite Hlen, Hi. unfold sizeof_EEPROMRecord_t. rewrite Z.geb_leb.
    destruct (Z.leb_spec (8 * N) (8 * j + 8));
      destruct (Z.ltb_spec (0 - 8) 0);
      destruct (Z.ltb_spec (8 * j + 8 - 8) 0); lia. }
  destruct (getIndexOfPrevCompletedRecord_spec s1)
    as (r2 & s2 & Hrun2 & _ & _ & _ & Hcases).
  rewrite Hprev, HE in Hcases.
  destruct Hcases as [(_ & -> & HI2)|(Hf & _)]; [|contradiction].
  exists s1, s2. split_and!; assumption.
Qed.

(** The theorem at work on a ring of three COMPLETE slots with the cursor
    on the last one: the step forward wraps to slot 0. *)
Lemma next_then_prev_comes_back_witness :
  well_sized three_complete = true /\
  slot_index three_complete 16 = true /\
  peek three_complete (16 + 7) = MODEM_RECORD_COMPLETE /\
  peek three_complete
    (next_index (mkStore three_complete 16 zero_block []) + 7)
    = MODEM_RECORD_COMPLETE /\
  exists s1 s2,
    getIndexOfNextCompletedRecord (mkStore three_complete 16 zero_block [])
      = Some (next_index (mkStore three_complete 16 zero_block []), s1) /\
    _modemRecordIndex s1 = next_index (mkStore three_complete 16 zero_block []) /\
    getIndexOfPrevCompletedRecord s1 = Some (16, s2) /\
    _modemRecordIndex s2 = 16.
Proof.
  assert (well_sized three_complete = true) as H1 by reflexivity.
  assert (slot_index three_complete 16 = true) as H2 by reflexivity.
  assert (peek three_complete (16 + 7) = MODEM_RECORD_COMPLETE) as H3
    by reflexivity.
  assert (peek three_complete
            (next_index (mkStore three_complete 16 zero_block []) + 7)
          = MODEM_RECORD_COMPLETE) as H4 by reflexivity.
  split; [exact H1|]. split; [exact H2|]. split; [exact H3|]. split; [exact H4|].
  exact (next_then_prev_comes_back (mkStore three_complete 16 zero_block [])
           H1 H2 H3 H4).
Defined.

(** X7 (a step back is undone by a step forward).  With the cursor on a
    COMPLETE slot of the ring and the slot before it COMPLETE too,
    [getIndexOfPrevCompletedRecord] moves the cursor one slot back
    (wrapping from slot 0 to the last slot) and
    [getIndexOfNextCompletedRecord] then brings it back. *)
Theorem prev_then_next_comes_back (s : store) :
  well_sized (EEPROM s) = true ->
  slot_index (EEPROM s) (_modemRecordIndex s) = true ->
  peek (EEPROM s) (_modemRecordIndex s + 7) = MODEM_RECORD_COMPLETE ->
  peek (EEPROM s) (prev_index s + 7) = MODEM_RECORD_COMPLETE ->
  exists s1 s2,
    getIndexOfPrevCompletedRecord s = Some (prev_index s, s1) /\
    _modemRecordIndex s1 = prev_index s /\
    getIndexOfNextCompletedRecord s1 = Some (_modemRecordIndex s, s2) /\
    _modemRecordIndex s2 = _modemRecordIndex s.
Proof.
  intros Hws Hidx Hcur Hprev.
  apply well_sized_spec in Hws. destruct Hws as (N & HN & Hlen).
  apply (slot_index_spec _ N _ Hlen) in Hidx. destruct Hidx as (j & Hj & Hi).
  destruct (getIndexOfPrevCompletedRecord_spec s)
    as (r & s1 & Hrun & HE & _ & _ & Hcases).
  destruct Hcases as [(_ & -> & HI1)|(Hf & _)]; [|contradiction].
  assert (next_index s1 = _modemRecordIndex s) as Hnext.
  { unfold next_index. rewrite HI1, HE. unfold prev_index.
    rewrite Hlen, Hi. unfold sizeof_EEPROMRecord_t.
    destruct (Z.ltb_spec (8 * j - 8) 0); rewrite Z.geb_leb;
      [destruct (Z.leb_spec (8 * N) (8 * j - 8 + 8 * N + 8))
      |destruct (Z.leb_spec (8 * N) (8 * j - 8 + 8))]; lia. }
  destruct (getIndexOfNextCompletedRecord_spec s1)
    as (r2 & s2 & Hrun2 & _ & _ & _ & Hcases).
  rewrite Hnext, HE in Hcases.
  destruct Hcases as [(_ & -> & HI2)|(Hf & _)]; [|contradiction].
  exists s1, s2. split_and!; assumption.
Qed.

(** The theorem at work on a ring of three COMPLETE slots with the cursor
    on slot 0: the step back wraps to the last slot. *)
Lemma prev_then_next_comes_back_witness :
  well_sized three_complete = true /\
  slot_index three_complete 0 = true /\
  peek three_complete (0 + 7) = MODEM_RECORD_COMPLETE /\
  peek three_complete (prev_index (store_on three_complete) + 7)
    = MODEM_RECORD_COMPLETE /\
  exists s1 s2,
    getIndexOfPrevCompletedRecord (store_on three_complete)
      = Some (prev_index (store_on three_complete), s1) /\
    _modemRecordIndex s1 = prev_index (store_on three_complete) /\
    getIndexOfNextCompletedRecord s1 = Some (0, s2) /\
    _modemRecordIndex s2 = 0.
Proof.
  assert (well_sized three_complete = true) as H1 by reflexivity.
  assert (slot_index three_complete 0 = true) as H2 by reflexivity.
  assert (peek three_complete (0 + 7) = MODEM_RECORD_COMPLETE) as H3
    by reflexivity.
  assert (peek three_complete (prev_index (store_on three_complete) + 7)
          = MODEM_RECORD_COMPLETE) as H4 by reflexivity.
  split; [exact H1|]. split; [exact H2|]. split; [exact H3|]. split; [exact H4|].
  exact (prev_then_next_comes_back (store_on three_complete) H1 H2 H3 H4).
Defined.

(** X8 ([getNewestCompletedRecord] decides on byte 1 of a slot).  The
    second loop of the scan reads its flag from offset 1 of the slot, the
    time stamp byte [secsSince1900_3], not from offset 7.  So with slots 0
    and 1 COMPLETE the scan stops on slot 1 and returns its index 8,
    whatever the slots after it hold, unless cell 9 happens to hold
    0x01. *)
Theorem getNewestCompletedRecord_stops_at_slot_1 (s : store) (fuel : nat) :
  slot_flag (EEPROM s) 0 = MODEM_RECORD_COMPLETE ->
  slot_flag (EEPROM s) 1 = MODEM_RECORD_COMPLETE ->
  peek (EEPROM s) 9 <> MODEM_RECORD_COMPLETE ->
  (2 <= fuel)%nat ->
  exists s',
    getNewestCompletedRecord fuel s = Some (8, s') /\
    _modemRecordIndex s' = 8 /\
    EEPROM s' = EEPROM s /\
    trace s' = trace s ++ [EvGet 7; EvGet 15; EvGet 9].
Proof.
  intros H0 H1 H9 Hfuel. destruct s as [mem idx b tr].
  cbn [EEPROM _modemRecordIndex EEPROMBlock trace] in *.
  unfold slot_flag in H0, H1. change (8 * 0 + 7) with 7 in H0.
  change (8 * 1 + 7) with 15 in H1.
  assert (16 <= Z.of_nat (length mem)) as Hlen.
  { unfold peek in H1. change (0 <=? 15) with true in H1. cbv iota in H1.
    destruct (mem !! Z.to_nat 15) as [x|] eqn:E; [|discriminate].
    apply lookup_lt_Some in E. lia. }
  assert (2 <= Z.of_nat (length mem) / sizeof_EEPROMRecord_t) as HN.
  { unfold sizeof_EEPROMRecord_t. apply Z.div_le_lower_bound; lia. }
  destruct fuel as [|[|fuel]]; [lia | lia |].
  unfold getNewestCompletedRecord. run_cbv.
  change (0 + 7) with 7. rewrite while_S. unfold neqb. rewrite H0.
  change (MODEM_RECORD_COMPLETE =? MODEM_RECORD_COMPLETE) with true.
  cbn [negb andb].
  destruct (Z.gtb_spec 0 (Z.of_nat (length mem) / sizeof_EEPROMRecord_t));
    [lia|].
  rewrite while_S.
  destruct (Z.leb_spec 0 (Z.of_nat (length mem) / sizeof_EEPROMRecord_t));
    [|lia].
  cbn [andb]. unfold getIndexOfNextCompletedRecord. run_cbv.
  unfold sizeof_EEPROMRecord_t in *. change (0 + 8) with 8.
  destruct (Z.geb_spec 8 (Z.of_nat (length mem))); [lia|].
  change (8 + 7) with 15. rewrite H1.
  change (MODEM_RECORD_COMPLETE =? MODEM_RECORD_COMPLETE) with true.
  run_cbv. change (8 <? 0) with false. run_cbv. change (8 + 1) with 9.
  change (0 + 1) with 1. rewrite while_S.
  destruct (Z.eqb_spec (peek mem 9) MODEM_RECORD_COMPLETE); [contradiction|].
  rewrite andb_false_r.
  eexists. split; [reflexivity|].
  cbn [EEPROM _modemRecordIndex EEPROMBlock trace].
  split_and!; try reflexivity. rewrite <- !app_assoc. reflexivity.
Qed.

(** The theorem at work on a ring of three COMPLETE slots: the newest
    record is not in slot 1. *)
Lemma getNewestCompletedRecord_stops_at_slot_1_witness :
  slot_flag three_complete 0 = MODEM_RECORD_COMPLETE /\
  slot_flag three_complete 1 = MODEM_RECORD_COMPLETE /\
  peek three_complete 9 <> MODEM_RECORD_COMPLETE /\
  (2 <= 20)%nat /\
  exists s',
    getNewestCompletedRecord 20 (store_on three_complete) = Some (8, s') /\
    _modemRecordIndex s' = 8 /\
    EEPROM s' = three_complete /\
    trace s' = [EvGet 7; EvGet 15; EvGet 9].
Proof.
  assert (slot_flag three_complete 0 = MODEM_RECORD_COMPLETE) as H1
    by reflexivity.
  assert (slot_flag three_complete 1 = MODEM_RECORD_COMPLETE) as H2
    by reflexivity.
  assert (peek three_complete 9 <> MODEM_RECORD_COMPLETE) as H3
    by (vm_compute; discriminate).
  assert (2 <= 20)%nat as H4 by lia.
  split; [exact H1|]. split; [exact H2|]. split; [exact H3|]. split; [exact H4|].
  exact (getNewestCompletedRecord_stops_at_slot_1 (store_on three_complete) 20
           H1 H2 H3 H4).
Defined.

(** X9 (the constructor).  [EEPROMRecordClass()] runs
    [getNewestCompletedRecord] on an object whose [_modemRecordIndex] has
    no initial value.  The scan assigns the index before it reads it: the
    state after construction does not depend on the value the index held,
    the index is the byte index of a slot, and no cell is written. *)
Theorem constructor_sets_the_index (s : store) (fuel : nat) :
  well_sized (EEPROM s) = true ->
  numRecords (EEPROM s) + 1 < Z.of_nat fuel ->
  exists s',
    (forall i0,
       EEPROMRecordClass_ctor fuel
         (mkStore (EEPROM s) i0 (EEPROMBlock s) (trace s)) = Some (tt, s')) /\
    slot_index (EEPROM s') (_modemRecordIndex s') = true /\
    EEPROM s' = EEPROM s /\
    updates (trace s') = updates (trace s).
Proof.
  intros Hws Hfuel.
  apply well_sized_spec in Hws. destruct Hws as (N & HN & Hlen).
  rewrite (numRecords_eq _ N Hlen) in Hfuel.
  destruct (getNewestCompletedRecord_spec s N fuel Hlen HN Hfuel)
    as (r & s' & t & Hrun & HE & _ & Hal & _ & Ht & Hu & _).
  exists s'. split_and!.
  - intros i0. unfold EEPROMRecordClass_ctor, mbind, M_bind.
    rewrite (getNewestCompletedRecord_any_index _ i0 (_modemRecordIndex s)).
    destruct s as [mem idx b tr]. cbn [EEPROM _modemRecordIndex EEPROMBlock trace].
    rewrite Hrun. reflexivity.
  - apply (slot_index_spec _ N). { congruence. } exact Hal.
  - exact HE.
  - rewrite Ht, updates_app, Hu, app_nil_r. reflexivity.
Qed.

(** The theorem at work on a ring of two slots whose second slot is in
    progress. *)
Lemma constructor_sets_the_index_witness :
  well_sized in_progress_at_1 = true /\
  numRecords in_progress_at_1 + 1 < Z.of_nat 20 /\
  exists s',
    (forall i0,
       EEPROMRecordClass_ctor 20 (mkStore in_progress_at_1 i0 zero_block [])
       = Some (tt, s')) /\
    slot_index (EEPROM s') (_modemRecordIndex s') = true /\
    EEPROM s' = in_progress_at_1 /\
    updates (trace s') = [].
Proof.
  assert (well_sized in_progress_at_1 = true) as H1 by reflexivity.
  assert (numRecords in_progress_at_1 + 1 < Z.of_nat 20) as H2 by reflexivity.
  split; [exact H1|]. split; [exact H2|].
  exact (constructor_sets_the_index (store_on in_progress_at_1) 20 H1 H2).
Defined.

(** X10 ([clearLog] empties the history).  After [clearLog] with the
    cursor on a slot, no slot of the ring is flagged COMPLETE, and
    [getOldestCompletedRecord] (whatever its uninitialised [count] holds)
    returns -1, as does [getNextCompletedRecord]: the history command
    finds no outage to report. *)
Theorem clearLog_empties_the_history (s : store) (count0 : Z) (fuel : nat) :
  well_sized (EEPROM s) = true ->
  slot_index (EEPROM s) (_modemRecordIndex s) = true ->
  EEPROM_len (EEPROM s) < Z.of_nat fuel ->
  exists s1 s2 s3,
    clearLog fuel s = Some (0, s1) /\
    no_slot_flagged MODEM_RECORD_COMPLETE (EEPROM s1) = true /\
    getOldestCompletedRecord count0 fuel s1 = Some (-1, s2) /\
    getNextCompletedRecord s1 = Some (-1, s3).
Proof.
  intros Hws Hidx Hfuel.
  apply well_sized_spec in Hws. destruct Hws as (N & HN & Hlen).
  apply (slot_index_spec _ N _ Hlen) in Hidx. destruct Hidx as (j & Hj & Hidx).
  destruct (clearLog_spec s fuel Hfuel)
    as (s1 & t & mem & Hrun & Hlenm & Hff & HE & Hi1 & _).
  rewrite Hlen in Hlenm, Hff. rewrite Hidx in HE.
  assert (EEPROM_len (EEPROM s1) = 8 * N) as Hlen1.
  { rewrite HE, EEPROM_len_write_all. exact Hlenm. }
  assert (forall x, 0 <= x < N ->
            slot_flag (EEPROM s1) x <> MODEM_RECORD_COMPLETE) as Hnone.
  { intros x Hx. rewrite HE, (slot_flag_after_clear mem N j x _ Hlenm Hj Hx Hff).
    destruct (x =? j); discriminate. }
  destruct (getOldestCompletedRecord_spec s1 N count0 fuel Hlen1 HN ltac:(lia))
    as (r & s2 & Hrun2 & _ & _ & _ & _ & Hcases).
  assert (exists jn, 0 <= jn < N /\ next_index s1 = 8 * jn) as (jn & Hjn & Hn).
  { apply (next_index_slot s1 N Hlen1 HN). exists j. split; [assumption|].
    congruence. }
  destruct (getNextCompletedRecord_fails s1) as (s3 & Hrun3 & _).
  { rewrite Hn. exact (Hnone jn Hjn). }
  exists s1, s2, s3. split_and!; try assumption.
  - apply no_slot_flagged_spec. rewrite (numRecords_eq _ N Hlen1). exact Hnone.
  - destruct Hcases as [(-> & _)|(jp & d & _ & Hjp & Hd & _ & _ & Hf & _)];
      [exact Hrun2|].
    exfalso. apply (Hnone ((jp + d) mod N)); [|exact Hf].
    apply Z.mod_pos_bound. lia.
Qed.

(** The theorem at work on a ring of three COMPLETE slots with the cursor
    on slot 1 and an unlucky [count]. *)
Lemma clearLog_empties_the_history_witness :
  well_sized three_complete = true /\
  slot_index three_complete 8 = true /\
  EEPROM_len three_complete < Z.of_nat 30 /\
  exists s1 s2 s3,
    clearLog 30 (mkStore three_complete 8 zero_block []) = Some (0, s1) /\
    no_slot_flagged MODEM_RECORD_COMPLETE (EEPROM s1) = true /\
    getOldestCompletedRecord 1000 30 s1 = Some (-1, s2) /\
    getNextCompletedRecord s1 = Some (-1, s3).
Proof.
  assert (well_sized three_complete = true) as H1 by reflexivity.
  assert (slot_index three_complete 8 = true) as H2 by reflexivity.
  assert (EEPROM_len three_complete < Z.of_nat 30) as H3 by reflexivity.
  split; [exact H1|]. split; [exact H2|]. split; [exact H3|].
  exact (clearLog_empties_the_history (mkStore three_complete 8 zero_block [])
           1000 30 H1 H2 H3).
Defined.

(** ** The codec, the other way round *)

(** X11 (decoding then encoding).  For a block whose six payload bytes are
    [uint8_t] values, [convertFromEEPROMBlock] yields a time stamp below
    2^32 and a downtime below 2^16, and [convertToEEPROMBlock] of that
    record restores the six payload bytes; it keeps the spare byte and
    sets the flags to COMPLETE whatever they were. *)
Theorem convert_back_restores_the_payload (dst : modemRecord_t) (s : store) :
  payload_is_bytes (EEPROMBlock s) = true ->
  exists d s1 s2,
    convertFromEEPROMBlock dst s = Some (d, s1) /\
    0 <= secsSince1900 d < 2 ^ 32 /\
    0 <= downMins d < 2 ^ 16 /\
    convertToEEPROMBlock d s1 = Some (0, s2) /\
    EEPROMBlock s2 =
      mkEEPROMRecord
        (secsSince1900_4 (EEPROMBlock s)) (secsSince1900_3 (EEPROMBlock s))
        (secsSince1900_2 (EEPROMBlock s)) (secsSince1900_1 (EEPROMBlock s))
        (downMins2 (EEPROMBlock s)) (downMins1 (EEPROMBlock s))
        (spare (EEPROMBlock s)) MODEM_RECORD_COMPLETE.
Proof.
  intros Hb. unfold payload_is_bytes in Hb.
  rewrite !andb_true_iff, !is_uint8_spec in Hb.
  destruct Hb as (((((H4 & H3) & H2) & H1) & Hd2) & Hd1).
  destruct (uint32_of_bytes _ _ _ _ H4 H3 H2 H1) as (Hr & E4 & E3 & E2 & E1).
  destruct (uint16_of_bytes _ _ Hd2 Hd1) as (Hr' & Ed2 & Ed1).
  destruct s as [mem idx b tr].
  cbn [EEPROM _modemRecordIndex EEPROMBlock trace] in *.
  unfold convertFromEEPROMBlock, convertToEEPROMBlock. run_cbv.
  eexists _, _, _. split; [reflexivity|].
  cbn [secsSince1900 downMins EEPROMBlock].
  split; [exact Hr|]. split; [exact Hr'|]. split; [reflexivity|].
  rewrite E4, E3, E2, E1, Ed2, Ed1. reflexivity.
Qed.

(** The theorem at work on a block read from a device. *)
Lemma convert_back_restores_the_payload_witness :
  payload_is_bytes (mkEEPROMRecord 0xEA 0xD5 0x17 0x80 0x05 0xDC 0xFF 0x02)
    = true /\
  exists d s1 s2,
    convertFromEEPROMBlock (mkModemRecord 0 0 42)
      (mkStore (erased 1) 0
         (mkEEPROMRecord 0xEA 0xD5 0x17 0x80 0x05 0xDC 0xFF 0x02) [])
      = Some (d, s1) /\
    0 <= secsSince1900 d < 2 ^ 32 /\
    0 <= downMins d < 2 ^ 16 /\
    convertToEEPROMBlock d s1 = Some (0, s2) /\
    EEPROMBlock s2 =
      mkEEPROMRecord 0xEA 0xD5 0x17 0x80 0x05 0xDC 0xFF MODEM_RECORD_COMPLETE.
Proof.
  assert (payload_is_bytes
            (mkEEPROMRecord 0xEA 0xD5 0x17 0x80 0x05 0xDC 0xFF 0x02) = true)
    as H1 by reflexivity.
  split; [exact H1|].
  exact (convert_back_restores_the_payload (mkModemRecord 0 0 42)
           (mkStore (erased 1) 0
              (mkEEPROMRecord 0xEA 0xD5 0x17 0x80 0x05 0xDC 0xFF 0x02) [])
           H1).
Defined.

(** ** The ring after any number of appends *)

(** X12 (the ring keeps the newest records).  Start from an erased ring of
    [n >= 2] slots and append any number of records [rs], each loaded with
    [convertToEEPROMBlock] before its [completeLogEntry]; record number
    [m] goes to slot [m mod n].  Then, when the local [count] of
    [getOldestCompletedRecord] starts no larger than [n], the walk of the
    history command ([getOldestCompletedRecord], then
    [getNextCompletedRecord] as long as it succeeds) reads back the last
    [n - 1] records of [rs] (all of them when there are fewer), oldest
    first, each from its slot, and then stops with -1. *)
Theorem ring_keeps_the_newest_records (n : nat) (rs : list modemRecord_t)
    (s : store) (count0 : Z) (fuel : nat) :
  EEPROM s = erased n ->
  (2 <= n)%nat ->
  (0 < length rs)%nat ->
  forallb fitsb rs = true ->
  count0 <= Z.of_nat n ->
  Z.of_nat n + 1 < Z.of_nat fuel ->
  exists s1 s2 s3,
    completeLogEntry_calls fuel (map Some rs) s = Some (tt, s1) /\
    walk_from_oldest count0 fuel (length (kept n rs) - 1) s1
      = Some (in_ring_slots (Z.of_nat n)
                (Z.of_nat (length rs - length (kept n rs))) (kept n rs), s2) /\
    getNextCompletedRecord s2 = Some (-1, s3).
Proof.
  intros Hmem Hn Hk Hfitsb Hc0 Hfuel. set (N := Z.of_nat n) in *.
  assert (Forall fits rs) as Hfits.
  { rewrite forallb_forall in Hfitsb. apply Forall_forall. intros r Hr.
    apply fitsb_spec, Hfitsb, list_elem_of_In. exact Hr. }
  assert (ring_of N [] (EEPROM s)) as Hring0.
  { rewrite Hmem. apply ring_of_erased. lia. }
  destruct (ring_of_appends rs s N [] fuel Hring0 ltac:(lia) Hfuel)
    as (s1 & Hrun & Hring).
  cbn [app] in Hring. exists s1.
  assert (rs <> []) as Hne by (destruct rs; [simpl in Hk; lia | discriminate]).
  unfold kept. set (d := (length rs - (n - 1))%nat).
  assert (d < length rs)%nat as Hd by lia.
  rewrite length_drop.
  replace (length rs - (length rs - d))%nat with d by lia.
  destruct (lookup_lt_is_Some_2 rs d Hd) as [r0 Hr0].
  destruct (drop d rs) as [|r0' tl] eqn:Edrop.
  { apply (f_equal length) in Edrop. rewrite length_drop in Edrop.
    simpl in Edrop. lia. }
  assert (r0' = r0) as ->.
  { pose proof (lookup_drop rs d 0) as H. rewrite Edrop, Nat.add_0_r, Hr0 in H.
    simpl in H. congruence. }
  assert (forall i r, tl !! i = Some r -> rs !! (d + 1 + i)%nat = Some r) as Htl.
  { intros i r Hi. pose proof (lookup_drop rs d (S i)) as H.
    rewrite Edrop in H. simpl in H. rewrite Hi in H.
    replace (d + 1 + i)%nat with (d + S i)%nat by lia. congruence. }
  assert (length tl = (length rs - d - 1)%nat) as Hltl.
  { apply (f_equal length) in Edrop. rewrite length_drop in Edrop.
    simpl in Edrop. lia. }
  replace (length rs - d - 1)%nat with (length tl) by lia.
  assert (Z.max 0 (Z.of_nat (length rs) - N + 1) = Z.of_nat d) as Hmax.
  { unfold d, N. lia. }
  destruct (getOldestCompletedRecord_on_ring s1 N count0 rs fuel Hring Hne
              ltac:(lia) Hc0 ltac:(lia)) as (s1a & Hold & HEa & Hia).
  rewrite Hmax in Hold, Hia.
  pose proof Hring as (Hlen & Hrec & Hip & _).
  rewrite <- HEa in Hring.
  assert (fits r0) as Hfit0.
  { rewrite Forall_forall in Hfits. apply Hfits.
    eapply list_elem_of_lookup_2. exact Hr0. }
  assert (slot_holds (EEPROM s1a) (8 * (Z.of_nat d mod N)) (encode r0 0)
            MODEM_RECORD_COMPLETE = true) as Hh0.
  { rewrite HEa. apply (Hrec d r0 Hr0). unfold d, N. lia. }
  destruct (read_record_spec s1a _ r0 Hia Hh0 Hfit0) as (s1b & Hrd & HEb & Hib).
  rewrite <- HEb in Hring. rewrite Hia in Hib.
  destruct (walk_next_ring N rs tl s1b d Hring ltac:(lia) Hfits Hib Htl)
    as (s2 & Hw & HE2 & Hi2).
  { unfold d, N. lia. }
  exists s2.
  assert (next_index s2 = 8 * (Z.of_nat (length rs) mod N)) as Hnext.
  { rewrite (next_index_mod s2 N (Z.of_nat (d + length tl))).
    - f_equal. f_equal. lia.
    - rewrite HE2, HEb, HEa. exact Hlen.
    - lia.
    - exact Hi2. }
  destruct (getNextCompletedRecord_fails s2) as (s3 & Hr3 & _).
  { rewrite Hnext, HE2, HEb, HEa.
    fold (slot_flag (EEPROM s1) (Z.of_nat (length rs) mod N)).
    rewrite (Hip Hne). discriminate. }
  exists s3. split; [exact Hrun|]. split; [|exact Hr3].
  replace (S (length tl) - 1)%nat with (length tl) by lia.
  unfold walk_from_oldest, mbind, M_bind, mret, M_ret.
  rewrite Hold, Hrd, Hw. reflexivity.
Qed.

(** The theorem at work on a ring of three slots after four appends: the
    two newest records are read back, from slot 2 and from slot 0. *)
Lemma ring_keeps_the_newest_records_witness :
  EEPROM (store_on (erased 3)) = erased 3 /\
  (2 <= 3)%nat /\
  (0 < length [record_A; record_B; record_A; record_B])%nat /\
  forallb fitsb [record_A; record_B; record_A; record_B] = true /\
  0 <= Z.of_nat 3 /\
  Z.of_nat 3 + 1 < Z.of_nat 10 /\
  exists s1 s2 s3,
    completeLogEntry_calls 10
      (map Some [record_A; record_B; record_A; record_B])
      (store_on (erased 3)) = Some (tt, s1) /\
    walk_from_oldest 0 10
      (length (kept 3 [record_A; record_B; record_A; record_B]) - 1) s1
      = Some (in_ring_slots (Z.of_nat 3)
                (Z.of_nat
                   (length [record_A; record_B; record_A; record_B]
                    - length (kept 3 [record_A; record_B; record_A; record_B])))
                (kept 3 [record_A; record_B; record_A; record_B]), s2) /\
    getNextCompletedRecord s2 = Some (-1, s3).
Proof.
  assert (EEPROM (store_on (erased 3)) = erased 3) as H1 by reflexivity.
  assert (2 <= 3)%nat as H2 by lia.
  assert (0 < length [record_A; record_B; record_A; record_B])%nat as H3
    by (simpl; lia).
  assert (forallb fitsb [record_A; record_B; record_A; record_B] = true) as H4
    by reflexivity.
  assert (0 <= Z.of_nat 3) as H5 by lia.
  assert (Z.of_nat 3 + 1 < Z.of_nat 10) as H6 by lia.
  split; [exact H1|]. split; [exact H2|]. split; [exact H3|].
  split; [exact H4|]. split; [exact H5|]. split; [exact H6|].
  exact (ring_keeps_the_newest_records 3 [record_A; record_B; record_A; record_B]
           (store_on (erased 3)) 0 10 H1 H2 H3 H4 H5 H6).
Defined.

(** X13 (the history walk always ends).  On any content of a device whose
    length is a positive multiple of the record size, and whatever the
    uninitialised [count] of [getOldestCompletedRecord] holds, the walk of
    the history command returns: it visits fewer records than the ring has
    slots, each in a slot that is flagged COMPLETE, and writes no cell. *)
Theorem history_walk_ends (s : store) (count0 : Z) (fuel : nat) :
  well_sized (EEPROM s) = true ->
  numRecords (EEPROM s) < Z.of_nat fuel ->
  exists l s',
    history_walk count0 fuel s = Some (l, s') /\
    Z.of_nat (length l) < numRecords (EEPROM s) /\
    Forall (fun p => slot_index (EEPROM s) (fst p) = true /\
                     peek (EEPROM s) (fst p + 7) = MODEM_RECORD_COMPLETE) l /\
    EEPROM s' = EEPROM s /\
    updates (trace s') = updates (trace s).
Proof.
  intros Hws Hfuel.
  apply well_sized_spec in Hws. destruct Hws as (N & HN & Hlen).
  rewrite (numRecords_eq _ N Hlen) in *.
  destruct (history_walk_spec s N count0 fuel Hlen HN Hfuel)
    as (l & s' & Hrun & HE & Hu & Hl & Hall).
  exists l, s'. split_and!; try assumption.
  eapply Forall_impl; [exact Hall|].
  intros p (x & Hx & Hp & Hf). rewrite Hp. split.
  - apply (slot_index_spec _ N _ Hlen). exists x. split; [assumption | reflexivity].
  - exact Hf.
Qed.

(** The theorem at work on a ring of four slots that holds two records. *)
Lemma history_walk_ends_witness :
  well_sized two_then_progress = true /\
  numRecords two_then_progress < Z.of_nat 10 /\
  exists l s',
    history_walk 0 10 (store_on two_then_progress) = Some (l, s') /\
    Z.of_nat (length l) < numRecords two_then_progress /\
    Forall (fun p => slot_index two_then_progress (fst p) = true /\
                     peek two_then_progress (fst p + 7) = MODEM_RECORD_COMPLETE) l /\
    EEPROM s' = two_then_progress /\
    updates (trace s') = [].
Proof.
  assert (well_sized two_then_progress = true) as H1 by reflexivity.
  assert (numRecords two_then_progress < Z.of_nat 10) as H2 by reflexivity.
  split; [exact H1|]. split; [exact H2|].
  exact (history_walk_ends (store_on two_then_progress) 0 10 H1 H2).
Defined.

(** ** Operations that do not write *)

(** X14 (reading does not wear the device).  The scans, the single steps,
    the reads of a record, the codec and [getEEPROMUptimeStats] contain no
    [EEPROM.update]: any sequence of these calls returns, leaves every
    cell of the device as it was and issues no write. *)
Theorem reading_never_writes (ops : list operation) (s : store) (fuel : nat) :
  well_sized (EEPROM s) = true ->
  slot_index (EEPROM s) (_modemRecordIndex s) = true ->
  EEPROM_len (EEPROM s) + 1 < Z.of_nat fuel ->
  forallb (fun op => negb (writes_EEPROM op)) ops = true ->
  exists s',
    run_operations fuel ops s = Some (tt, s') /\
    EEPROM s' = EEPROM s /\
    updates (trace s') = updates (trace s).
Proof.
  intros Hws Hidx Hfuel Hro.
  apply well_sized_spec in Hws. destruct Hws as (N & HN & Hlen).
  apply (slot_index_spec _ N _ Hlen) in Hidx.
  assert (index_ok N s) as Hok by (split; assumption).
  rewrite Hlen in *. clear Hlen Hidx.
  revert s Hok. induction ops as [|op ops IH]; intros s Hok.
  - exists s. split; [reflexivity|]. split; reflexivity.
  - cbn [forallb] in Hro. apply andb_true_iff in Hro. destruct Hro as [Hop Hro].
    apply negb_true_iff in Hop.
    destruct (run_operation_read_only op s N fuel HN Hfuel Hok Hop)
      as (s1 & Hrun & Hok1 & HE1 & Hu1).
    destruct (IH Hro s1 Hok1) as (s' & Hrun' & HE' & Hu').
    cbn [run_operations]. unfold mbind at 1. unfold M_bind at 1.
    rewrite Hrun. exists s'. split; [exact Hrun'|]. split; congruence.
Qed.

(** The theorem at work on a run of eight calls on a ring of three
    COMPLETE slots. *)
Lemma reading_never_writes_witness :
  well_sized three_complete = true /\
  slot_index three_complete 8 = true /\
  EEPROM_len three_complete + 1 < Z.of_nat 30 /\
  forallb (fun op => negb (writes_EEPROM op))
    [Op_getOldestCompletedRecord 0; Op_getNextCompletedRecord;
     Op_getNewestCompletedRecord; Op_getIndexOfPrevCompletedRecord;
     Op_getDataFromIndex; Op_convertFromEEPROMBlock record_A;
     Op_getRecordInProgress; Op_getEEPROMUptimeStats] = true /\
  exists s',
    run_operations 30
      [Op_getOldestCompletedRecord 0; Op_getNextCompletedRecord;
       Op_getNewestCompletedRecord; Op_getIndexOfPrevCompletedRecord;
       Op_getDataFromIndex; Op_convertFromEEPROMBlock record_A;
       Op_getRecordInProgress; Op_getEEPROMUptimeStats]
      (mkStore three_complete 8 zero_block []) = Some (tt, s') /\
    EEPROM s' = three_complete /\
    updates (trace s') = [].
Proof.
  assert (well_sized three_complete = true) as H1 by reflexivity.
  assert (slot_index three_complete 8 = true) as H2 by reflexivity.
  assert (EEPROM_len three_complete + 1 < Z.of_nat 30) as H3 by reflexivity.
  assert (forallb (fun op => negb (writes_EEPROM op))
            [Op_getOldestCompletedRecord 0; Op_getNextCompletedRecord;
             Op_getNewestCompletedRecord; Op_getIndexOfPrevCompletedRecord;
             Op_getDataFromIndex; Op_convertFromEEPROMBlock record_A;
             Op_getRecordInProgress; Op_getEEPROMUptimeStats] = true) as H4
    by reflexivity.
  split; [exact H1|]. split; [exact H2|]. split; [exact H3|]. split; [exact H4|].
  exact (reading_never_writes _ (mkStore three_complete 8 zero_block []) 30
           H1 H2 H3 H4).
Defined.

(** * NTPClass: the calendar *)

(** X15 ([getYMD] gives the date).  For every 32-bit time stamp from
    1 January 2024 on (day 45290 after 1 January 1900) whose day is not a
    first of January after a year of 365 days, [getYMD] returns; the year,
    the month and the day of the month it leaves in [t] are the Gregorian
    date of that day, [t.wday] is its day of the week, and the time stamp
    and the time of day in [t] are untouched. *)
Theorem getYMD_gives_the_date (t : NTP.NTPTime_t) (fuel : nat) :
  0 <= NTP.secsSince1900 t < 2 ^ 32 ->
  45290 <= NTP.secsSince1900 t / 86400 ->
  new_year_after_common_year (NTP.secsSince1900 t / 86400) = false ->
  (40 <= fuel)%nat ->
  exists t',
    NTP.getYMD fuel t = Returns t' /\
    is_date_of (NTP.secsSince1900 t / 86400) t' = true /\
    NTP.secsSince1900 t' = NTP.secsSince1900 t /\
    NTP.hour t' = NTP.hour t /\
    NTP.min t' = NTP.min t /\
    NTP.sec t' = NTP.sec t.
Proof.
  intros Hs Hd Hny Hfuel.
  pose proof (days_of_uint32 _ Hs) as Hrange.
  set (n := NTP.secsSince1900 t / 86400) in *.
  destruct (getYMD_from_on_day n t fuel ltac:(lia) Hny Hfuel) as (t0 & E & Hck).
  unfold NTP.getYMD. fold n. rewrite uint32_days by lia.
  rewrite E. eexists. split; [reflexivity|].
  split; [exact Hck|]. split_and!; reflexivity.
Qed.

(** The theorem at work on 6 November 2024, a Wednesday. *)
Lemma getYMD_gives_the_date_witness :
  0 <= NTP.secsSince1900 (NTP.mkNTPTime 3939885296 9 9 9 9 9 9 9) < 2 ^ 32 /\
  45290 <= NTP.secsSince1900 (NTP.mkNTPTime 3939885296 9 9 9 9 9 9 9) / 86400 /\
  new_year_after_common_year
    (NTP.secsSince1900 (NTP.mkNTPTime 3939885296 9 9 9 9 9 9 9) / 86400)
    = false /\
  (40 <= 40)%nat /\
  exists t',
    NTP.getYMD 40 (NTP.mkNTPTime 3939885296 9 9 9 9 9 9 9) = Returns t' /\
    is_date_of
      (NTP.secsSince1900 (NTP.mkNTPTime 3939885296 9 9 9 9 9 9 9) / 86400) t'
      = true /\
    NTP.secsSince1900 t' = 3939885296 /\
    NTP.hour t' = 9 /\
    NTP.min t' = 9 /\
    NTP.sec t' = 9.
Proof.
  assert (0 <= NTP.secsSince1900 (NTP.mkNTPTime 3939885296 9 9 9 9 9 9 9)
          < 2 ^ 32) as H1 by (cbn; lia).
  assert (45290 <= NTP.secsSince1900 (NTP.mkNTPTime 3939885296 9 9 9 9 9 9 9)
                   / 86400) as H2 by (vm_compute; discriminate).
  assert (new_year_after_common_year
            (NTP.secsSince1900 (NTP.mkNTPTime 3939885296 9 9 9 9 9 9 9) / 86400)
          = false) as H3 by (vm_compute; reflexivity).
  assert (40 <= 40)%nat as H4 by lia.
  split; [exact H1|]. split; [exact H2|]. split; [exact H3|]. split; [exact H4|].
  exact (getYMD_gives_the_date (NTP.mkNTPTime 3939885296 9 9 9 9 9 9 9) 40
           H1 H2 H3 H4).
Defined.

(** X16 ([getYMD] on a first of January).  The loop over the years stops
    at [daysLeft > 365] also in a year of 365 days.  On the first of
    January after such a year (2026, 2027, 2028, 2030, ...) it leaves
    [daysLeft == 365] in the old year, the loop over the months runs
    through all twelve months, and [getYMD] reads [daysInMonth[12]], one
    element past the end of the array. *)
Theorem getYMD_reads_past_daysInMonth (t : NTP.NTPTime_t) (fuel : nat) :
  0 <= NTP.secsSince1900 t < 2 ^ 32 ->
  new_year_after_common_year (NTP.secsSince1900 t / 86400) = true ->
  (40 <= fuel)%nat ->
  NTP.getYMD fuel t = ReadsPastArray 12.
Proof.
  intros Hs Hny Hfuel.
  pose proof (days_of_uint32 _ Hs) as Hrange.
  pose proof (new_year_after_common_year_range _ Hny) as Hd.
  set (n := NTP.secsSince1900 t / 86400) in *.
  pose proof (getYMD_checked_at n ltac:(lia)) as Hck.
  unfold getYMD_checked in Hck. rewrite Hny in Hck.
  destruct (NTP.getYMD_from 40 (n - 45290) blank_time) as [t0|i|i|] eqn:E;
    try discriminate.
  cbn [andb] in Hck. apply Z.eqb_eq in Hck. subst i.
  unfold NTP.getYMD. fold n. rewrite uint32_days by lia.
  rewrite getYMD_from_clock, (getYMD_from_mono 40 fuel) by (congruence || lia).
  rewrite E. reflexivity.
Qed.

(** The theorem at work at noon on 1 January 2026. *)
Lemma getYMD_reads_past_daysInMonth_witness :
  0 <= NTP.secsSince1900 (NTP.mkNTPTime 3976257600 0 0 0 0 0 0 0) < 2 ^ 32 /\
  new_year_after_common_year
    (NTP.secsSince1900 (NTP.mkNTPTime 3976257600 0 0 0 0 0 0 0) / 86400)
    = true /\
  (40 <= 40)%nat /\
  NTP.getYMD 40 (NTP.mkNTPTime 3976257600 0 0 0 0 0 0 0) = ReadsPastArray 12.
Proof.
  assert (0 <= NTP.secsSince1900 (NTP.mkNTPTime 3976257600 0 0 0 0 0 0 0)
          < 2 ^ 32) as H1 by (cbn; lia).
  assert (new_year_after_common_year
            (NTP.secsSince1900 (NTP.mkNTPTime 3976257600 0 0 0 0 0 0 0) / 86400)
          = true) as H2 by (vm_compute; reflexivity).
  assert (40 <= 40)%nat as H3 by lia.
  split; [exact H1|]. split; [exact H2|]. split; [exact H3|].
  exact (getYMD_reads_past_daysInMonth
           (NTP.mkNTPTime 3976257600 0 0 0 0 0 0 0) 40 H1 H2 H3).
Defined.

(** X17 ([getYMD] before 2024).  For every 32-bit time stamp before
    1 January 2024 the subtraction of the day count wraps, [daysLeft]
    exceeds the cap of 5840 days, and [getYMD] sets the date to Thursday
    1 January 1970, whatever the time stamp; the time stamp and the time
    of day are untouched.  (From 2024 on a 32-bit time stamp ends on day
    49710, below the cap, so this is the only way to the cap.) *)
Theorem getYMD_before_2024_gives_the_epoch (t : NTP.NTPTime_t) (fuel : nat) :
  0 <= NTP.secsSince1900 t < 2 ^ 32 ->
  NTP.secsSince1900 t / 86400 < 45290 ->
  (1 <= fuel)%nat ->
  NTP.getYMD fuel t
  = Returns (NTP.mkNTPTime (NTP.secsSince1900 t) (NTP.hour t) (NTP.min t)
               (NTP.sec t) 70 0 4 1).
Proof.
  intros Hs Hd Hfuel.
  pose proof (days_of_uint32 _ Hs) as Hrange.
  unfold NTP.getYMD. apply getYMD_from_epoch; [|exact Hfuel].
  apply uint32_days_before. lia.
Qed.

(** The theorem at work on a record that was never given a time. *)
Lemma getYMD_before_2024_gives_the_epoch_witness :
  0 <= NTP.secsSince1900 (NTP.mkNTPTime 0 1 2 3 4 5 6 7) < 2 ^ 32 /\
  NTP.secsSince1900 (NTP.mkNTPTime 0 1 2 3 4 5 6 7) / 86400 < 45290 /\
  (1 <= 1)%nat /\
  NTP.getYMD 1 (NTP.mkNTPTime 0 1 2 3 4 5 6 7)
  = Returns (NTP.mkNTPTime
               (NTP.secsSince1900 (NTP.mkNTPTime 0 1 2 3 4 5 6 7))
               (NTP.hour (NTP.mkNTPTime 0 1 2 3 4 5 6 7))
               (NTP.min (NTP.mkNTPTime 0 1 2 3 4 5 6 7))
               (NTP.sec (NTP.mkNTPTime 0 1 2 3 4 5 6 7)) 70 0 4 1).
Proof.
  assert (0 <= NTP.secsSince1900 (NTP.mkNTPTime 0 1 2 3 4 5 6 7) < 2 ^ 32)
    as H1 by (cbn; lia).
  assert (NTP.secsSince1900 (NTP.mkNTPTime 0 1 2 3 4 5 6 7) / 86400 < 45290)
    as H2 by reflexivity.
  assert (1 <= 1)%nat as H3 by lia.
  split; [exact H1|]. split; [exact H2|]. split; [exact H3|].
  exact (getYMD_before_2024_gives_the_epoch (NTP.mkNTPTime 0 1 2 3 4 5 6 7) 1
           H1 H2 H3).
Defined.

(** X18 ([getYMDHMS()], the public conversion).  For every 32-bit time
    stamp whose day is not a first of January after a year of 365 days,
    [getYMDHMS(false)] returns with the hour below 24, the minute and the
    second below 60, and days, hour, minute and second add up to the time
    stamp again; the date is the date of the day from 1 January 2024 on,
    and 1 January 1970 before. *)
Theorem getYMDHMS_gives_date_and_time (t : NTP.NTPTime_t) (fuel : nat) :
  0 <= NTP.secsSince1900 t < 2 ^ 32 ->
  new_year_after_common_year (NTP.secsSince1900 t / 86400) = false ->
  (40 <= fuel)%nat ->
  exists t',
    NTP.getYMDHMS fuel false t = Returns t' /\
    NTP.secsSince1900 t' = NTP.secsSince1900 t /\
    0 <= NTP.hour t' < 24 /\ 0 <= NTP.min t' < 60 /\ 0 <= NTP.sec t' < 60 /\
    NTP.secsSince1900 t
    = 86400 * (NTP.secsSince1900 t / 86400) + 3600 * NTP.hour t'
      + 60 * NTP.min t' + NTP.sec t' /\
    (if 45290 <=? NTP.secsSince1900 t / 86400
     then is_date_of (NTP.secsSince1900 t / 86400) t' = true
     else NTP.year t' = 70 /\ NTP.mon t' = 0 /\ NTP.mday t' = 1 /\
          NTP.wday t' = 4).
Proof.
  intros Hs Hny Hfuel.
  pose proof (days_of_uint32 _ Hs) as Hrange.
  destruct (clock_of_uint32 _ Hs) as (Hh & Hm & Hsc & Hsum).
  unfold NTP.getYMDHMS, NTP.getYMD.
  set (n := NTP.secsSince1900 t / 86400) in *.
  destruct (Z.leb_spec 45290 n) as [Hd|Hd].
  - destruct (getYMD_from_on_day n t fuel ltac:(lia) Hny Hfuel) as (t0 & E & Hck).
    rewrite uint32_days by lia. rewrite E.
    eexists. split; [reflexivity|].
    cbn [NTP.secsSince1900 NTP.hour NTP.min NTP.sec NTP.set_hour NTP.set_min
         NTP.set_sec with_clock].
    split_and!; try assumption; try reflexivity; try lia.
  - rewrite getYMD_from_epoch by (try apply uint32_days_before; lia).
    eexists. split; [reflexivity|].
    cbn [NTP.secsSince1900 NTP.hour NTP.min NTP.sec NTP.year NTP.mon NTP.wday
         NTP.mday NTP.set_hour NTP.set_min NTP.set_sec].
    split_and!; try assumption; try reflexivity; try lia.
Qed.

(** The theorem at work at 12:34:56 on 6 November 2024. *)
Lemma getYMDHMS_gives_date_and_time_witness :
  0 <= NTP.secsSince1900 (NTP.mkNTPTime 3939885296 0 0 0 0 0 0 0) < 2 ^ 32 /\
  new_year_after_common_year
    (NTP.secsSince1900 (NTP.mkNTPTime 3939885296 0 0 0 0 0 0 0) / 86400)
    = false /\
  (40 <= 40)%nat /\
  exists t',
    NTP.getYMDHMS 40 false (NTP.mkNTPTime 3939885296 0 0 0 0 0 0 0)
      = Returns t' /\
    NTP.secsSince1900 t'
      = NTP.secsSince1900 (NTP.mkNTPTime 3939885296 0 0 0 0 0 0 0) /\
    0 <= NTP.hour t' < 24 /\ 0 <= NTP.min t' < 60 /\ 0 <= NTP.sec t' < 60 /\
    NTP.secsSince1900 (NTP.mkNTPTime 3939885296 0 0 0 0 0 0 0)
    = 86400 * (NTP.secsSince1900 (NTP.mkNTPTime 3939885296 0 0 0 0 0 0 0)
               / 86400)
      + 3600 * NTP.hour t' + 60 * NTP.min t' + NTP.sec t' /\
    (if 45290 <=? NTP.secsSince1900 (NTP.mkNTPTime 3939885296 0 0 0 0 0 0 0)
                  / 86400
     then is_date_of
            (NTP.secsSince1900 (NTP.mkNTPTime 3939885296 0 0 0 0 0 0 0) / 86400)
            t' = true
     else NTP.year t' = 70 /\ NTP.mon t' = 0 /\ NTP.mday t' = 1 /\
          NTP.wday t' = 4).
Proof.
  assert (0 <= NTP.secsSince1900 (NTP.mkNTPTime 3939885296 0 0 0 0 0 0 0)
          < 2 ^ 32) as H1 by (cbn; lia).
  assert (new_year_after_common_year
            (NTP.secsSince1900 (NTP.mkNTPTime 3939885296 0 0 0 0 0 0 0) / 86400)
          = false) as H2 by (vm_compute; reflexivity).
  assert (40 <= 40)%nat as H3 by lia.
  split; [exact H1|]. split; [exact H2|]. split; [exact H3|].
  exact (getYMDHMS_gives_date_and_time
           (NTP.mkNTPTime 3939885296 0 0 0 0 0 0 0) 40 H1 H2 H3).
Defined.

(** X19 ([adjustForDST]).  The two first-Sunday tests are made on
    [uint8_t] values.  In April [firstSundayFlag >= 0] always holds, so the
    hour is added on every day of April that is not a Sunday, and on the
    Sundays while the minute of the day, cut to eight bits, is below 120:
    the day of the month plays no part.  In October the test
    [firstSundayFlag > 0] fails only when the day of the month equals the
    day of the week.  In the other months the hour is added from November
    to March and not from May to September. *)
Theorem adjustForDST_decides (t : NTP.NTPTime_t) :
  is_uint8 (NTP.wday t) = true ->
  is_uint8 (NTP.mday t) = true ->
  NTP.adjustForDST t =
  if (NTP.mon t <? 3) || (NTP.mon t >? 9)
     || ((NTP.mon t =? 3)
         && (neqb (NTP.wday t) 0
             || (uint8 (NTP.hour t * 60 + NTP.min t) <? 120)))
     || ((NTP.mon t =? 9) && neqb (NTP.mday t) (NTP.wday t)
         && (neqb (NTP.wday t) 0
             || (uint8 (NTP.hour t * 60 + NTP.min t) >? 119)))
  then (1, NTP.set_secsSince1900 t (uint32 (NTP.secsSince1900 t + 3600)))
  else (0, t).
Proof.
  intros Hw Hm. apply is_uint8_spec in Hw, Hm.
  unfold NTP.adjustForDST.
  change (NTP.HOURS_OFFSET_FROM_UTC =? NTP.NSW_OFFSET_FROM_UTC) with true.
  cbv iota. rewrite uint8_nonneg, (uint8_sub_pos _ _ Hm Hw), andb_true_r.
  destruct ((NTP.mon t <? 3) || (NTP.mon t >? 9)) eqn:Ewinter;
    [reflexivity|]. cbn [orb].
  destruct (Z.eqb_spec (NTP.mon t) 3) as [E3|N3].
  - destruct (Z.eqb_spec (NTP.mon t) 9) as [E9|_]; [lia|].
    cbn [andb orb].
    destruct (neqb (NTP.wday t) 0 || (uint8 (NTP.hour t * 60 + NTP.min t) <? 120));
      reflexivity.
  - cbn [andb orb].
    destruct (Z.eqb_spec (NTP.mon t) 9) as [E9|N9]; cbn [andb]; [|reflexivity].
    destruct (neqb (NTP.mday t) (NTP.wday t)); cbn [andb]; [|reflexivity].
    destruct (neqb (NTP.wday t) 0 || (uint8 (NTP.hour t * 60 + NTP.min t) >? 119));
      reflexivity.
Qed.

(** The theorem at work on Wednesday 30 April at 10:00: the hour is still
    added. *)
Lemma adjustForDST_decides_witness :
  is_uint8 (NTP.wday (NTP.mkNTPTime 3954996000 10 0 0 125 3 3 30)) = true /\
  is_uint8 (NTP.mday (NTP.mkNTPTime 3954996000 10 0 0 125 3 3 30)) = true /\
  NTP.adjustForDST (NTP.mkNTPTime 3954996000 10 0 0 125 3 3 30)
  = (1, NTP.mkNTPTime 3954999600 10 0 0 125 3 3 30).
Proof.
  assert (is_uint8 (NTP.wday (NTP.mkNTPTime 3954996000 10 0 0 125 3 3 30))
          = true) as H1 by reflexivity.
  assert (is_uint8 (NTP.mday (NTP.mkNTPTime 3954996000 10 0 0 125 3 3 30))
          = true) as H2 by reflexivity.
  split; [exact H1|]. split; [exact H2|].
  exact (adjustForDST_decides (NTP.mkNTPTime 3954996000 10 0 0 125 3 3 30)
           H1 H2).
Defined.

(** * The sketch: timer interrupt and serial commands *)

(** X20 ([ISR(TIMER1_COMPB_vect)] checkpoints every 900 ticks).  On a
    device whose length is a positive multiple of the record size, [n]
    runs of the one-second interrupt in a row, after a start with [secs]
    and [mins] at zero, all return, and they have made
    [7 * ((n - 1) / 900)] [EEPROM.update] calls:
    a checkpoint of seven cells is written on tick 901 and on every 900th
    tick after it, and at no other tick.  [secs] then stands at
    [(n - 1) mod 60 + 1] and [mins] at [((n - 61) / 60) mod 240 + 1] (both
    zero before their first step), and [modem.waitSecs] has advanced by
    [n] modulo [2 ^ 16]. *)
Theorem timer_checkpoints_every_900_ticks (g : Sketch.sketch) (fuel n : nat) :
  well_sized (EEPROM (Sketch.m g)) = true ->
  numRecords (EEPROM (Sketch.m g)) < Z.of_nat fuel ->
  Sketch.secs g = 0 ->
  Sketch.mins g = 0 ->
  exists g',
    Sketch.ticks fuel n g = (Returns tt, g') /\
    length (updates (trace (Sketch.m g'))) =
      (length (updates (trace (Sketch.m g))) + 7 * ((n - 1) / 900))%nat /\
    Sketch.secs g' = secs_after (Z.of_nat n) /\
    Sketch.mins g' = mins_after (Z.of_nat n) /\
    uint16 (waitSecs (Sketch.modem g')) =
      uint16 (waitSecs (Sketch.modem g) + Z.of_nat n).
Proof.
  intros Hws Hfuel Hs Hm.
  apply well_sized_spec in Hws as (N & HN & Hlen).
  rewrite (numRecords_eq _ _ Hlen) in Hfuel.
  destruct (ticks_spec g N fuel n Hlen HN Hfuel Hs Hm)
    as (g' & R & _ & S' & M' & W' & U').
  exists g'. split_and!; try assumption.
  apply Nat2Z.inj. rewrite U', Nat2Z.inj_add, Nat2Z.inj_mul.
  f_equal. f_equal. unfold checkpoints_after.
  destruct n as [|n]; [reflexivity|].
  destruct (Z.eqb_spec (Z.of_nat (S n)) 0); [lia|].
  rewrite Nat2Z.inj_div, Nat2Z.inj_sub by lia. reflexivity.
Qed.

(** The theorem at work half an hour and a second after a reset: two
    checkpoints. *)
Lemma timer_checkpoints_every_900_ticks_witness :
  well_sized (EEPROM (Sketch.m (sketch_at_reset (erased 4) []))) = true /\
  numRecords (EEPROM (Sketch.m (sketch_at_reset (erased 4) []))) < Z.of_nat 8 /\
  Sketch.secs (sketch_at_reset (erased 4) []) = 0 /\
  Sketch.mins (sketch_at_reset (erased 4) []) = 0 /\
  exists g',
    Sketch.ticks 8 1801 (sketch_at_reset (erased 4) []) = (Returns tt, g') /\
    length (updates (trace (Sketch.m g'))) =
      (length (updates (trace (Sketch.m (sketch_at_reset (erased 4) []))))
       + 7 * ((1801 - 1) / 900))%nat /\
    Sketch.secs g' = secs_after (Z.of_nat 1801) /\
    Sketch.mins g' = mins_after (Z.of_nat 1801) /\
    uint16 (waitSecs (Sketch.modem g')) =
      uint16 (waitSecs (Sketch.modem (sketch_at_reset (erased 4) []))
              + Z.of_nat 1801).
Proof.
  assert (well_sized (EEPROM (Sketch.m (sketch_at_reset (erased 4) [])))
          = true) as H1 by reflexivity.
  assert (numRecords (EEPROM (Sketch.m (sketch_at_reset (erased 4) [])))
          < Z.of_nat 8) as H2 by reflexivity.
  assert (Sketch.secs (sketch_at_reset (erased 4) []) = 0) as H3
    by reflexivity.
  assert (Sketch.mins (sketch_at_reset (erased 4) []) = 0) as H4
    by reflexivity.
  split; [exact H1|]. split; [exact H2|]. split; [exact H3|].
  split; [exact H4|].
  exact (timer_checkpoints_every_900_ticks
           (sketch_at_reset (erased 4) []) 8 1801 H1 H2 H3 H4).
Defined.

(** X21 ([dumpEEPROM] reads each cell once and stays inside its buffer).
    On a device of at most 9984 cells [dumpEEPROM] returns: no [sprintf]
    writes past the 124 bytes of [buffer].  It reads the cells
    [0 .. length-1] once each, in that order, and makes no other access to
    the device; the cells, the cursor and every other global are as before.
    What it prints is the heading, one line of 122 characters for each
    started group of 32 cells, and the closing line. *)
Theorem dumpEEPROM_reads_each_cell_once (g : Sketch.sketch) (fuel : nat) :
  EEPROM_len (EEPROM (Sketch.m g)) <= 9984 ->
  (312 < fuel)%nat ->
  exists lines,
    Sketch.dumpEEPROM fuel g =
      (Returns tt,
       dumping g (EEPROM_len (EEPROM (Sketch.m g)))
         (with_lines (Sketch.Serial_tx g +:+ EEPROM_dump_header) lines
          +:+ EEPROM_dump_footer)) /\
    Z.of_nat (length lines) = (EEPROM_len (EEPROM (Sketch.m g)) + 31) / 32 /\
    Forall (fun l => String.length l = 122%nat) lines.
Proof.
  intros Hmax Hfuel. apply dumpEEPROM_spec; [exact Hmax | lia |].
  apply Z.div_lt_upper_bound; lia.
Qed.

(** The theorem at work on a ring of four slots: one line. *)
Lemma dumpEEPROM_reads_each_cell_once_witness :
  EEPROM_len (EEPROM (Sketch.m (sketch_at_reset two_then_progress []))) <= 9984 /\
  (312 < 400)%nat /\
  exists lines,
    Sketch.dumpEEPROM 400 (sketch_at_reset two_then_progress []) =
      (Returns tt,
       dumping (sketch_at_reset two_then_progress [])
         (EEPROM_len (EEPROM (Sketch.m (sketch_at_reset two_then_progress []))))
         (with_lines
            (Sketch.Serial_tx (sketch_at_reset two_then_progress [])
             +:+ EEPROM_dump_header) lines
          +:+ EEPROM_dump_footer)) /\
    Z.of_nat (length lines) =
      (EEPROM_len (EEPROM (Sketch.m (sketch_at_reset two_then_progress [])))
       + 31) / 32 /\
    Forall (fun l => String.length l = 122%nat) lines.
Proof.
  assert (EEPROM_len (EEPROM (Sketch.m (sketch_at_reset two_then_progress [])))
          <= 9984) as H1 by (vm_compute; discriminate).
  assert (312 < 400)%nat as H2 by lia.
  split; [exact H1|]. split; [exact H2|].
  exact (dumpEEPROM_reads_each_cell_once
           (sketch_at_reset two_then_progress []) 400 H1 H2).
Defined.

(** X22 ([handleSerialInput] clears the log only on confirmation).  When
    no confirmation is awaited at the start and nowhere in the waiting
    input a [C] or [c] is directly followed by a [Y] or [y], then whatever
    else the input holds and however the call ends, [handleSerialInput]
    leaves every cell of the EEPROM as it was and makes no
    [EEPROM.update]. *)
Theorem log_is_cleared_only_on_confirmation (DATE TIME : string)
    (fuel : nat) (count0 : nat -> Z) (g : Sketch.sketch) :
  Sketch.clearEEPROMFlag g = false ->
  c_then_y (Sketch.Serial_rx g) = false ->
  EEPROM (Sketch.m (snd (Sketch.handleSerialInput DATE TIME fuel count0 g)))
    = EEPROM (Sketch.m g) /\
  updates (trace (Sketch.m
             (snd (Sketch.handleSerialInput DATE TIME fuel count0 g))))
    = updates (trace (Sketch.m g)).
Proof.
  intros Hf Hcy.
  destruct (Sketch.handleSerialInput DATE TIME fuel count0 g) as [o g'] eqn:E.
  cbn [snd]. unfold Sketch.handleSerialInput in E.
  apply (handleSerialInput_loop_safe DATE TIME fuel count0 fuel g g' o Hcy);
    [|exact E].
  rewrite Hf. discriminate.
Qed.

(** The theorem at work on the input [CsYdyc]: the [s] aborts the
    confirmation that the [C] asked for. *)
Lemma log_is_cleared_only_on_confirmation_witness :
  Sketch.clearEEPROMFlag (sketch_at_reset two_then_progress [67; 115; 89; 100; 121; 99]) = false /\
  c_then_y (Sketch.Serial_rx (sketch_at_reset two_then_progress [67; 115; 89; 100; 121; 99])) = false /\
  EEPROM (Sketch.m (snd (Sketch.handleSerialInput "Nov  2 2024" "12:00:00" 40
                           (fun _ => 0)
                           (sketch_at_reset two_then_progress [67; 115; 89; 100; 121; 99]))))
    = EEPROM (Sketch.m (sketch_at_reset two_then_progress [67; 115; 89; 100; 121; 99])) /\
  updates (trace (Sketch.m
             (snd (Sketch.handleSerialInput "Nov  2 2024" "12:00:00" 40
                     (fun _ => 0)
                     (sketch_at_reset two_then_progress [67; 115; 89; 100; 121; 99])))))
    = updates (trace (Sketch.m (sketch_at_reset two_then_progress [67; 115; 89; 100; 121; 99]))).
Proof.
  assert (Sketch.clearEEPROMFlag
            (sketch_at_reset two_then_progress [67; 115; 89; 100; 121; 99])
          = false) as H1 by reflexivity.
  assert (c_then_y (Sketch.Serial_rx
            (sketch_at_reset two_then_progress [67; 115; 89; 100; 121; 99]))
          = false) as H2 by reflexivity.
  split; [exact H1|]. split; [exact H2|].
  exact (log_is_cleared_only_on_confirmation "Nov  2 2024" "12:00:00" 40
           (fun _ => 0)
           (sketch_at_reset two_then_progress [67; 115; 89; 100; 121; 99])
           H1 H2).
Defined.

(** X23 ([C] then [Y] clears the log).  With no confirmation awaited, a
    cursor on a slot and the two characters [C] and [Y] (in either case)
    waiting, [handleSerialInput] returns with the input used up and the
    flag lowered again; [modem.downMins] is zero, no slot of the ring is
    COMPLETE any more, and the slot under the cursor is the one
    IN_PROGRESS. *)
Theorem confirmed_clear_empties_the_log (DATE TIME : string) (fuel : nat)
    (count0 : nat -> Z) (g : Sketch.sketch) (c y : Z) :
  Sketch.Serial_rx g = [c; y] ->
  command_of c = Sketch.chr "C" ->
  command_of y = Sketch.chr "Y" ->
  Sketch.clearEEPROMFlag g = false ->
  well_sized (EEPROM (Sketch.m g)) = true ->
  slot_index (EEPROM (Sketch.m g)) (_modemRecordIndex (Sketch.m g)) = true ->
  EEPROM_len (EEPROM (Sketch.m g)) < Z.of_nat fuel ->
  exists g',
    Sketch.handleSerialInput DATE TIME fuel count0 g = (Returns tt, g') /\
    no_slot_flagged MODEM_RECORD_COMPLETE (EEPROM (Sketch.m g')) = true /\
    slot_flag (EEPROM (Sketch.m g')) (_modemRecordIndex (Sketch.m g) / 8)
      = MODEM_RECORD_IN_PROGRESS /\
    downMins (Sketch.modem g') = 0 /\
    Sketch.clearEEPROMFlag g' = false /\
    Sketch.Serial_rx g' = [].
Proof.
  intros Hrx Hc Hy Hf Hws Hidx Hfuel.
  apply well_sized_spec in Hws as (N & HN & Hlen).
  apply (slot_index_spec _ N _ Hlen) in Hidx as (j & Hj & Hidx).
  rewrite Hlen in Hfuel.
  destruct fuel as [|[|[|fuel]]]; try lia.
  set (fuel0 := S (S (S fuel))) in *.
  destruct (handleSerialInput_body_C DATE TIME fuel0 count0 g c [y] Hrx Hc Hf)
    as (g1 & R1 & M1 & F1 & X1).
  destruct (handleSerialInput_body_Y DATE TIME fuel0 count0 g1 y [] N j
              X1 Hy F1)
    as (g2 & R2 & Hlen2 & Hflags & D2 & F2 & X2);
    [rewrite M1; assumption | assumption | rewrite M1; assumption
    | assumption |].
  exists g2. split_and!; try assumption.
  - unfold Sketch.handleSerialInput. unfold fuel0 at 1.
    rewrite (handleSerialInput_step _ _ _ _ _ _ _ _ _ Hrx R1).
    rewrite (handleSerialInput_step _ _ _ _ _ _ _ _ _ X1 R2).
    apply handleSerialInput_done. exact X2.
  - apply no_slot_flagged_spec. rewrite (numRecords_eq _ N Hlen2).
    intros x Hx. rewrite (Hflags x Hx). destruct (x =? j); discriminate.
  - rewrite Hidx. replace (8 * j / 8) with j
      by (rewrite Z.mul_comm, Z.div_mul; lia).
    rewrite (Hflags j Hj), Z.eqb_refl. reflexivity.
Qed.

(** The theorem at work on the input [cY] after a reset. *)
Lemma confirmed_clear_empties_the_log_witness :
  Sketch.Serial_rx (sketch_at_reset two_then_progress [99; 89]) = [99; 89] /\
  command_of 99 = Sketch.chr "C" /\
  command_of 89 = Sketch.chr "Y" /\
  Sketch.clearEEPROMFlag (sketch_at_reset two_then_progress [99; 89]) = false /\
  well_sized (EEPROM (Sketch.m (sketch_at_reset two_then_progress [99; 89])))
    = true /\
  slot_index (EEPROM (Sketch.m (sketch_at_reset two_then_progress [99; 89])))
    (_modemRecordIndex (Sketch.m (sketch_at_reset two_then_progress [99; 89])))
    = true /\
  EEPROM_len (EEPROM (Sketch.m (sketch_at_reset two_then_progress [99; 89])))
    < Z.of_nat 40 /\
  exists g',
    Sketch.handleSerialInput "Nov  2 2024" "12:00:00" 40 (fun _ => 0)
      (sketch_at_reset two_then_progress [99; 89]) = (Returns tt, g') /\
    no_slot_flagged MODEM_RECORD_COMPLETE (EEPROM (Sketch.m g')) = true /\
    slot_flag (EEPROM (Sketch.m g'))
      (_modemRecordIndex (Sketch.m (sketch_at_reset two_then_progress [99; 89]))
       / 8)
      = MODEM_RECORD_IN_PROGRESS /\
    downMins (Sketch.modem g') = 0 /\
    Sketch.clearEEPROMFlag g' = false /\
    Sketch.Serial_rx g' = [].
Proof.
  assert (Sketch.Serial_rx (sketch_at_reset two_then_progress [99; 89])
          = [99; 89]) as H1 by reflexivity.
  assert (command_of 99 = Sketch.chr "C") as H2 by reflexivity.
  assert (command_of 89 = Sketch.chr "Y") as H3 by reflexivity.
  assert (Sketch.clearEEPROMFlag (sketch_at_reset two_then_progress [99; 89])
          = false) as H4 by reflexivity.
  assert (well_sized
            (EEPROM (Sketch.m (sketch_at_reset two_then_progress [99; 89])))
          = true) as H5 by reflexivity.
  assert (slot_index
            (EEPROM (Sketch.m (sketch_at_reset two_then_progress [99; 89])))
            (_modemRecordIndex
               (Sketch.m (sketch_at_reset two_then_progress [99; 89])))
          = true) as H6 by reflexivity.
  assert (EEPROM_len
            (EEPROM (Sketch.m (sketch_at_reset two_then_progress [99; 89])))
          < Z.of_nat 40) as H7 by reflexivity.
  split; [exact H1|]. split; [exact H2|]. split; [exact H3|].
  split; [exact H4|]. split; [exact H5|]. split; [exact H6|].
  split; [exact H7|].
  exact (confirmed_clear_empties_the_log "Nov  2 2024" "12:00:00" 40
           (fun _ => 0) (sketch_at_reset two_then_progress [99; 89]) 99 89
           H1 H2 H3 H4 H5 H6 H7).
Defined.
